(* ===== verification/_CoqProject ===== *)
-Q . S2P
Prelude.v
GoStrings.v
GoBytes.v
GoCrypto.v
Errors.v
World.v
Interleaving.v
Entities.v
OAuthTypes.v
Stores.v
MemStore.v
MemOAuth.v
Hasher.v
GoNet.v
GoUrl.v
Totp.v
Naming.v
Sql.v
PgQueries.v
StoreLaws.v
MemSpec.v
TokenProvider.v
UserManager.v
UserManagerFacts.v
AccountTokens.v
TwoFactor.v
TwoFactorFacts.v
Accounts.v
SignIn.v
Jwt.v
GoJson.v
Pgx.v
PgStore.v
PgOAuth.v
Gorm.v
GormStore.v
GormGeneric.v
GormOAuth.v
SqlcGen.v
SqlcStore.v
SqlSchema.v
SqlTyped.v
PgNaming.v
SqlSem.v
OAuthStoreModel.v
PgOAuthSpec.v
GormSpec.v
OAuthStores.v
SessionStores.v
GoHttp.v
OAuthUtil.v
Signer.v
Jwks.v
TokenService.v
TokenServiceFacts.v
Roles.v
ApiKeys.v
OAuthServer.v
OAuthServerFacts.v
OAuthLimiter.v
Cimd.v
OAuthRegister.v
OAuthToken.v
OAuthTokenFacts.v
SignOut.v
OAuthProtocol.v
OAuthConcurrency.v
OAuthRegisterFacts.v
OAuthAuthorize.v
OAuthAuthorizeFacts.v
ClientAssertion.v
OAuthEndpoints.v
AuthHttp.v
OAuthResource.v
AuthHttpFacts.v
ExampleEnv.v
OAuthTest.v
Examples.v
OAuthExamples.v
SqlExamples.v
