(* ===== verification/Prelude.v ===== *)
(** * go-idento: a verification development

    go-idento is an identity library for Go: accounts, passwords, second factors, sign-in
    with lockout, session tokens, API keys and roles (package [identity]), an OAuth 2.1
    authorization server (package [oauth]), HTTP middleware (package [auth]) and stores
    behind interfaces (package [stores]).  This development translates the packages
    [identity], [oauth], [auth] and the stores, in memory, on pgx, on sqlc and on GORM, to
    executable definitions and proves what makes them correct.

    ** How the program is modelled

    An operation that reads the clock, randomness or a store is a function in the monad
    [M S] of World.v: from a world (a step counter, a store of type [S], the messages sent)
    to [Done] with a result and the next world, or to [Panic].  Go's [(value, error)] is
    [result] (Errors.v).  What the environment answers, the clock, random bytes and numbers,
    fresh UUIDs and the order in which a map is ranged over, is an [Oracle] indexed by the
    step counter; theorems hold for every oracle, and say so when they need more (distinct
    ids, ids not yet in the store, a clock that does not run backwards).  [wp m Q w] says
    that [m] run in [w] does not panic and ends in [Q]; it is a total statement, since every
    definition terminates.  Integers are [Z] with their wrap-around written out
    ([wrap_int64], [wrap_uint64], saturation of [Sub]); strings are byte strings.

    A manager is a record of its collaborators; a store is an instance of the classes of
    Stores.v, one per Go interface.  StoreLaws.v states the contract of the store interfaces
    over an abstract view of the state (users, token slots, sessions, API keys, OAuth rows,
    consents) with the relations [same], [moves] and [rows_set] that say what an operation
    may have changed.  The managers and the authorization server are proved correct against
    that contract, and the in-memory store is proved to keep it (MemSpec.v).  Operations run one after the other: a sequence of requests is any
    interleaving of whole operations.  For the token endpoint, where races matter most,
    OAuthConcurrency.v also takes the operations apart into atomic steps and interleaves
    those; each store call is atomic, as under the lock of the in-memory store.

    A method of a PostgreSQL store is the statement it sends, with its text, its arguments
    and what is made of the answer (Pgx.v: [DBTX], [Pool], [Scanner]).  Sql.v lexes and
    parses the statements the stores use and checks them against a schema; SqlSem.v gives
    them the effect PostgreSQL documents, and leaves open what it does not determine.  The
    database itself is a parameter: [TypedPool] (SqlTyped.v) promises rows of the right
    types for statements that check, [SqlServer] (SqlSem.v) the documented effect for
    statements it does not refuse.  The GORM store is described as far as its own source
    goes: a method is the chain of GORM calls it makes on a model (Gorm.v: [GormDB]), with
    the columns the struct tags declare; how GORM words a statement is a parameter, and
    [GormServer] (GormSpec.v) promises of a chain the effect that [SqlServer] promises of
    the statement it stands for.

    ** The files

    Language and standard library: GoStrings ([strings], [unicode/utf8], [strconv]), GoBytes
    ([encoding/*]), GoCrypto (SHA-1, SHA-256, HMAC), GoNet ([net/netip]), GoUrl ([net/url]),
    GoHttp (requests and responses as values), Errors, World.

    - Entities, Stores, OAuthTypes: [identity/entities.go], [options.go], [store.go],
      [oauth/types.go]: structs as records, interfaces as classes.
    - MemStore, MemOAuth with MemSpec: [stores/memstore].
    - Hasher, Totp, Naming, TokenProvider, Jwt, Signer: the files of those names in
      [identity]; PBKDF2, the JWT library and RSA and ECDSA keys are parameters.
    - UserManager (facts in UserManagerFacts), AccountTokens, TwoFactor, Accounts (all of their
      operations that write users, in sequence), SignIn, TokenService, with their facts, and Roles, ApiKeys: the managers of [identity].
    - OAuthUtil, OAuthServer, OAuthRegister, OAuthAuthorize, OAuthToken, ClientAssertion,
      Cimd, OAuthResource: the files of [oauth]; Jwks: [identity/jwks.go] and its reading
      side.  Their facts: OAuthServerFacts, OAuthLimiter, OAuthRegisterFacts,
      OAuthAuthorizeFacts, OAuthTokenFacts, OAuthProtocol, OAuthEndpoints; the others
      hold theirs.
    - Interleaving, OAuthConcurrency: operations as sequences of atomic steps, pools of
      threads, and the two grants of the token endpoint run side by side.
    - AuthHttp, AuthHttpFacts: package [auth].
    - SignOut: the user manager, the token service and the authorization server together.
    - Sql, PgQueries, GoJson, Pgx, PgStore, PgOAuth: the grammar, the statement texts of
      [stores/pgxstore], the JSON of their columns, the driver and the store methods;
      SqlcGen, SqlcStore: [stores/pgxsqlc] with its generated queries; SqlSchema, SqlTyped,
      PgNaming: the migrated schema, typing and names.
    - Gorm, GormStore, GormGeneric, GormOAuth: [stores/gormstore] over GORM's chains.
    - SqlSem: what statements do; OAuthStoreModel: histories of an abstract store, and the
      abstract OAuth store; PgOAuthSpec, GormSpec, OAuthStores: the in-memory, pgx, sqlc and
      GORM stores implement it; SessionStores: the same for the stores of refresh sessions.
    - OAuthTest: [oauth/oauthtest/oauthtest.go], the conformance suite of the OAuth stores,
      which every implementation of the abstract store passes.
    - ExampleEnv, Examples, OAuthExamples, SqlExamples: concrete environments, in which
      every hypothesis is shown to hold and the operations are evaluated.

    Definitions keep the names of the source; a Go method [f] of a type is [f], or
    [Type_f] where two types share it.  A loop is structural recursion on the list it
    ranges over.

    ** What the theorems show

    - Accounts: names and emails stay unique under every sequence of the user manager's
      operations that write users (creation, guests, changes, deletion, purge); optimistic
      concurrency, with the rows it writes; the branches of a password change; the password policy.
    - Passwords and tokens: the stored format verifies its password and bounds the work of a
      check; data-protection tokens are bound to user, purpose, stamp and age; a reset token
      dies with its use.
    - Sign-in: what a success has checked, and lockout after the configured failures.
    - Second factors: codes are accepted in their window, recovery codes once, guesses
      against an SMS code are bounded.
    - Sessions: an access token is accepted exactly while its user's stamp stands, refresh
      rotates, sessions are capped, revocation is complete.
    - API keys and roles: verification, revocation, uniqueness.
    - The authorization server: which options it accepts; an authorization code is
      exchanged once, by its client and verifier; refresh tokens rotate and reuse ends the
      grant; the token endpoint refines an abstract protocol of codes and grants; an access
      token lives exactly as long as its grant and stamp; the authorization endpoint
      redirects only to registered URIs and issues codes only with consent, and its CSRF
      tokens are bound to the request; an issued code can always be redeemed; registered
      clients authenticate with exactly their secret; of concurrent requests with one code or
      refresh token at most one gets tokens, in every interleaving; client assertions are used once;
      registrations are rate-limited; published keys parse back.
    - Metadata fetching: the blocked address ranges, cache lifetimes, and that the caching
      fetcher implements the contract the server relies on.
    - Stores: every statement of the pgx and sqlc stores checks against the migrated schema
      with exactly the arguments sent; validated names never change the structure of a
      statement; the four OAuth stores implement one abstract store, as do the four stores
      of refresh sessions, with the exact number
      of rows a purge reports, on servers that fail or lose answers too, and so exchange a
      code, rotate a token and accept an assertion at most once in any order of calls; the
      in-memory store passes the program's conformance suite.
    - Requests: where a principal comes from when all credentials are enabled.
    - Together: after a credential change no access token and no grant issued under the old
      security stamp is of use.

    Security statements stop at collisions: "no other secret is accepted" reads "unless it
    has the same SHA-256 hash", or HMAC, and is proved in that form.

    ** Fuel

    Only a few library functions recurse on a counter: [strings.Contains] (at most the
    length of the string), the decimal printer (bounded by the binary logarithm; the round
    trip with the parser shows that it suffices), the block splitting of the hashes (the
    length of the message; checked on the published test vectors) and the lexer and parser
    of statements (the length of the text or of the token list; every statement of the
    stores is shown to parse).  Nothing of the program
    itself runs on fuel.

    ** What is not modelled

    Of the pgx, sqlc and GORM stores all methods are modelled; the effect of their
    statements is proved for the tables of the OAuth store and of refresh sessions, to which
    no other table refers.  Of
    GORM's user and role tables GormGeneric.v shows that the generic store, at the plain
    user, is the plain store; what the chains do there is left to GORM.
    The end-to-end tests of [oauth/oauthtest] ([flow.go], [privatekeyjwt.go]) drive the
    handlers through [net/http]; the migrations and demos are SQL and example
    programs.  JSON decoding, the HTTP client with its timeouts and
    TLS, the text of the HTML pages and the signature algorithms are parameters: the classes
    [JSONMetadata], [JSONCimd], [JSONDocs], [HTTPClient], [JWT], [AssertionJWT], [PBKDF2],
    [PublicKeys], [Scanner], [Pool], [GormDB] and the render functions of the server, with their laws in classes of their
    own.  Logging keeps the messages, not their fields. *)

From Stdlib Require Export Ascii.
From Stdlib Require String.
From stdpp Require Export prelude gmap strings list sorting.

(** ** Decidable booleans

    Go conditions are translated to [bool]; [bool_decide] connects them to the
    propositions the theorems speak about. *)

Declare Scope go_scope.
Delimit Scope go_scope with go.

(** Rewrites and simplifications used by the [go_simpl] tactic. *)
Create HintDb go.
Create Rewrite HintDb go_rw.

(** Case analysis on every [bool_decide] and boolean test of the goal. *)
Ltac bd_cases :=
  repeat match goal with
  | |- context [bool_decide ?P] => destruct (bool_decide_reflect P); simplify_eq/=
  | H : context [bool_decide ?P] |- _ => destruct (bool_decide_reflect P); simplify_eq/=
  end.

(** Destruct the scrutinee of a conditional in the goal, keeping the equation. *)
Ltac case_if H :=
  match goal with |- context [if ?b then _ else _] => destruct b eqn:H end.

(** ** Lists *)

(** Induction by three elements at a time. *)
Lemma list_ind3 {A} (P : list A → Prop) :
  P [] → (∀ x, P [x]) → (∀ x y, P [x; y]) →
  (∀ x y z l, P l → P (x :: y :: z :: l)) → ∀ l, P l.
Proof.
  intros H0 H1 H2 H3. fix IH 1. intros [|x [|y [|z l]]]; [done..|]. apply H3, IH.
Qed.

(** Induction by five elements at a time. *)
Lemma list_ind5 {A} (P : list A → Prop) :
  P [] → (∀ a, P [a]) → (∀ a b, P [a; b]) → (∀ a b c, P [a; b; c]) → (∀ a b c d, P [a; b; c; d]) →
  (∀ a b c d e l, P l → P (a :: b :: c :: d :: e :: l)) → ∀ l, P l.
Proof.
  intros H0 H1 H2 H3 H4 H5. fix IH 1. intros [|a [|b [|c [|d [|e l]]]]]; [done..|]. apply H5, IH.
Qed.

Lemma filter_all {A} (P : A → Prop) `{!∀ x, Decision (P x)} (l : list A) :
  Forall P l → filter P l = l.
Proof.
  induction 1 as [|x l Hx Hl IH]; [done|]. by rewrite filter_cons_True, IH.
Qed.

(** Two conditionals with equivalent conditions and the same branches. *)
Lemma if_ext_dec {A} (P Q : Prop) `{!Decision P, !Decision Q} (a b : A) :
  (P ↔ Q) → (if bool_decide P then a else b) = (if bool_decide Q then a else b).
Proof. intros HPQ. by rewrite (bool_decide_ext P Q HPQ). Qed.

(** ** Maps listed as pairs *)

Lemma filter_map_to_list `{Countable K} {A} (P : K * A → Prop) `{!∀ x, Decision (P x)} (m : gmap K A) :
  filter P (map_to_list m) ≡ₚ map_to_list (filter P m).
Proof.
  induction m as [|k v m Hk IH] using map_ind.
  { by rewrite map_filter_empty, map_to_list_empty. }
  rewrite map_to_list_insert, filter_cons by done. case_decide as Hv.
  - rewrite map_filter_insert_True, map_to_list_insert by (done || by apply map_lookup_filter_None; left).
    by rewrite IH.
  - by rewrite map_filter_insert_False, delete_id.
Qed.

Lemma filter_snd_map_to_list `{Countable K} {A} (P : A → Prop) `{!∀ x, Decision (P x)} (m : gmap K A) :
  filter P (map_to_list m).*2 ≡ₚ (map_to_list (filter (λ kv, P kv.2) m)).*2.
Proof.
  rewrite <-filter_map_to_list. induction (map_to_list m) as [|[k v] l IH]; [done|].
  rewrite fmap_cons, !filter_cons. cbn [snd]. case_decide; by rewrite ?fmap_cons, IH.
Qed.
