(* ===== verification/GoStrings.v ===== *)
(** * Go strings

    The parts of the Go language and of the packages [strings], [unicode],
    [unicode/utf8] and [strconv] that the program uses.  A Go [string] is a
    sequence of bytes, here a [string] of 8-bit [ascii] characters; ranging over
    it decodes UTF-8 exactly as [utf8.DecodeRuneInString] does, invalid bytes
    included.  The Unicode character tables above Latin-1 are data outside the
    program: class [UnicodeDB]. *)

From S2P Require Import Prelude.

Local Open Scope Z_scope.

Abbreviation bytes := (list ascii).

(** ** Bytes *)

Definition byte_val (c : ascii) : Z := Z.of_N (N_of_ascii c).
Definition to_byte (z : Z) : ascii := ascii_of_N (Z.to_N (z mod 256)).

Definition str_bytes (s : string) : bytes := String.list_ascii_of_string s.
Definition bytes_str (b : bytes) : string := String.string_of_list_ascii b.

Lemma byte_val_range c : 0 <= byte_val c < 256.
Proof. unfold byte_val. pose proof (N_ascii_bounded c). lia. Qed.

Lemma to_byte_val c : to_byte (byte_val c) = c.
Proof.
  unfold to_byte. rewrite Z.mod_small by apply byte_val_range.
  unfold byte_val. by rewrite N2Z.id, ascii_N_embedding.
Qed.

Lemma byte_val_to_byte z : byte_val (to_byte z) = z mod 256.
Proof.
  unfold to_byte, byte_val. pose proof (Z.mod_pos_bound z 256 ltac:(lia)).
  rewrite N_ascii_embedding by lia. lia.
Qed.

#[export] Instance byte_val_inj : Inj (=) (=) byte_val.
Proof. intros a b He. by rewrite <-(to_byte_val a), He, to_byte_val. Qed.

Lemma bytes_str_bytes s : bytes_str (str_bytes s) = s.
Proof. apply String.string_of_list_ascii_of_string. Qed.

Lemma str_bytes_str b : str_bytes (bytes_str b) = b.
Proof. apply String.list_ascii_of_string_of_list_ascii. Qed.

Lemma str_bytes_app s t : str_bytes (s +:+ t) = str_bytes s ++ str_bytes t.
Proof. induction s as [|c s IH]; [done|].
  change (c :: str_bytes (s +:+ t) = c :: (str_bytes s ++ str_bytes t)). by f_equal.
Qed.

Lemma str_bytes_inj s t : str_bytes s = str_bytes t → s = t.
Proof. intros H. by rewrite <-(bytes_str_bytes s), H, bytes_str_bytes. Qed.

Lemma length_str_bytes s : length (str_bytes s) = String.length s.
Proof. induction s as [|c s IH]; [done|]. change (S (length (str_bytes s)) = S (String.length s)). by f_equal. Qed.

(** [len(s)]: bytes. *)
Definition len (s : string) : Z := Z.of_nat (String.length s).

(** [s[:n]] and [s[n:]] for [0 <= n <= len s]. *)
Definition slice_to (s : string) (n : nat) : string := bytes_str (take n (str_bytes s)).
Definition slice_from (s : string) (n : nat) : string := bytes_str (drop n (str_bytes s)).

(** ** Runes *)

Definition RuneError : Z := 65533.

Definition in_range (z lo hi : Z) : bool := bool_decide (lo <= z <= hi).
Definition is_cont (z : Z) : bool := in_range z 0x80 0xBF.

(** The runes of a byte sequence, each with the bytes it was decoded from.  An
    invalid byte is [RuneError] of width 1. *)
Fixpoint chunks (l : bytes) : list (Z * bytes) :=
  match l with
  | [] => []
  | c0 :: t0 =>
    let b0 := byte_val c0 in
    if b0 <? 0x80 then (b0, [c0]) :: chunks t0 else
    let bad := (RuneError, [c0]) :: chunks t0 in
    match t0 with
    | [] => bad
    | c1 :: t1 =>
      let b1 := byte_val c1 in
      if in_range b0 0xC2 0xDF then
        if is_cont b1 then (Z.land b0 0x1F * 64 + Z.land b1 0x3F, [c0; c1]) :: chunks t1 else bad
      else if negb (in_range b0 0xE0 0xF4) then bad else
      let lo1 := if b0 =? 0xE0 then 0xA0 else if b0 =? 0xF0 then 0x90 else 0x80 in
      let hi1 := if b0 =? 0xED then 0x9F else if b0 =? 0xF4 then 0x8F else 0xBF in
      if negb (in_range b1 lo1 hi1) then bad else
      match t1 with
      | [] => bad
      | c2 :: t2 =>
        let b2 := byte_val c2 in
        if negb (is_cont b2) then bad else
        if b0 <? 0xF0 then
          (Z.land b0 0x0F * 4096 + Z.land b1 0x3F * 64 + Z.land b2 0x3F, [c0; c1; c2]) :: chunks t2
        else
        match t2 with
        | [] => bad
        | c3 :: t3 =>
          let b3 := byte_val c3 in
          if negb (is_cont b3) then bad else
          (Z.land b0 0x07 * 262144 + Z.land b1 0x3F * 4096 + Z.land b2 0x3F * 64 + Z.land b3 0x3F,
            [c0; c1; c2; c3]) :: chunks t3
        end
      end
    end
  end.

(** [for _, r := range s] and [[]rune(s)]. *)
Definition runes (s : string) : list Z := (chunks (str_bytes s)).*1.

(** [utf8.AppendRune]. *)
Definition encode_rune (r : Z) : bytes :=
  if in_range r 0 0x7F then [to_byte r]
  else if in_range r 0x80 0x7FF then [to_byte (0xC0 + r / 64); to_byte (0x80 + r mod 64)]
  else if negb (in_range r 0 0x10FFFF) || in_range r 0xD800 0xDFFF then
    [to_byte 0xEF; to_byte 0xBF; to_byte 0xBD]
  else if r <? 0x10000 then
    [to_byte (0xE0 + r / 4096); to_byte (0x80 + r / 64 mod 64); to_byte (0x80 + r mod 64)]
  else
    [to_byte (0xF0 + r / 262144); to_byte (0x80 + r / 4096 mod 64);
     to_byte (0x80 + r / 64 mod 64); to_byte (0x80 + r mod 64)].

(** ** Package unicode *)

(** Character properties above Latin-1 and case mappings above ASCII. *)
Class UnicodeDB := {
  db_IsDigit : Z → bool;
  db_IsUpper : Z → bool;
  db_IsLower : Z → bool;
  db_IsLetter : Z → bool;
  db_ToUpper : Z → Z;
  db_ToLower : Z → Z;
  db_FoldEq : Z → Z → bool;
  db_IsPrint : Z → bool;
}.

Section unicode.
Context `{UnicodeDB}.

Definition IsDigit (r : Z) : bool :=
  if r <=? 0xFF then in_range r 0x30 0x39 else db_IsDigit r.
Definition IsUpper (r : Z) : bool :=
  if r <=? 0xFF then in_range r 0x41 0x5A || in_range r 0xC0 0xD6 || in_range r 0xD8 0xDE
  else db_IsUpper r.
Definition IsLower (r : Z) : bool :=
  if r <=? 0xFF then
    in_range r 0x61 0x7A || (r =? 0xB5) || in_range r 0xDF 0xF6 || in_range r 0xF8 0xFF
  else db_IsLower r.
Definition IsLetter (r : Z) : bool :=
  if r <=? 0xFF then
    IsUpper r || IsLower r || (r =? 0xAA) || (r =? 0xBA)
  else db_IsLetter r.
Definition IsSpace (r : Z) : bool :=
  in_range r 0x09 0x0D || (r =? 0x20) || (r =? 0x85) || (r =? 0xA0) || (r =? 0x1680)
  || in_range r 0x2000 0x200A || (r =? 0x2028) || (r =? 0x2029) || (r =? 0x202F)
  || (r =? 0x205F) || (r =? 0x3000).

Definition ToUpperRune (r : Z) : Z :=
  if r <=? 0x7F then (if in_range r 0x61 0x7A then r - 32 else r) else db_ToUpper r.
Definition ToLowerRune (r : Z) : Z :=
  if r <=? 0x7F then (if in_range r 0x41 0x5A then r + 32 else r) else db_ToLower r.

(** [strings.ToUpper], [strings.ToLower]: byte by byte on ASCII strings,
    [strings.Map] otherwise. *)
Definition ToUpper (s : string) : string :=
  bytes_str (concat (map (λ r, encode_rune (ToUpperRune r)) (runes s))).
Definition ToLower (s : string) : string :=
  bytes_str (concat (map (λ r, encode_rune (ToLowerRune r)) (runes s))).

(** [strings.EqualFold]. *)
Definition fold_eq (r1 r2 : Z) : bool :=
  (r1 =? r2) ||
  (if in_range r1 0 0x7F && in_range r2 0 0x7F
   then ToLowerRune r1 =? ToLowerRune r2 else db_FoldEq r1 r2).
Fixpoint fold_eq_list (l1 l2 : list Z) : bool :=
  match l1, l2 with
  | [], [] => true
  | r1 :: l1, r2 :: l2 => fold_eq r1 r2 && fold_eq_list l1 l2
  | _, _ => false
  end.
Definition EqualFold (s t : string) : bool := fold_eq_list (runes s) (runes t).

(** [strings.TrimSpace]. *)
Fixpoint drop_spaces (l : list (Z * bytes)) : list (Z * bytes) :=
  match l with
  | [] => []
  | (r, b) :: t => if IsSpace r then drop_spaces t else l
  end.
Definition TrimSpace (s : string) : string :=
  bytes_str (concat (reverse (drop_spaces (reverse (drop_spaces (chunks (str_bytes s)))))).*2).

(** [strings.Fields]. *)
Fixpoint fields_go (cur : bytes) (l : list (Z * bytes)) : list bytes :=
  match l with
  | [] => if bool_decide (cur = []) then [] else [cur]
  | (r, b) :: t =>
    if IsSpace r then (if bool_decide (cur = []) then fields_go [] t else cur :: fields_go [] t)
    else fields_go (cur ++ b) t
  end.
Definition Fields (s : string) : list string := bytes_str <$> fields_go [] (chunks (str_bytes s)).
End unicode.

(** ** Package strings *)

Definition HasPrefix (s p : string) : bool := String.prefix p s.

Fixpoint Contains_go (fuel : nat) (s sub : string) : bool :=
  String.prefix sub s ||
  match fuel, s with
  | S f, String _ s' => Contains_go f s' sub
  | _, _ => false
  end.
Definition Contains (s sub : string) : bool := Contains_go (String.length s) s sub.

Definition ContainsRune (s : string) (r : Z) : bool := existsb (Z.eqb r) (runes s).

(** [strings.Cut(s, sep)] for a one-byte separator: before, after, found. *)
Fixpoint Cut (sep : ascii) (s : string) : string * string * bool :=
  match s with
  | EmptyString => (EmptyString, EmptyString, false)
  | String c s' =>
    if Ascii.eqb c sep then (EmptyString, s', true)
    else let '(a, b, ok) := Cut sep s' in (String c a, b, ok)
  end.

(** [strings.Split(s, sep)] for a one-byte separator: never empty. *)
Fixpoint Split (sep : ascii) (s : string) : list string :=
  match s with
  | EmptyString => [EmptyString]
  | String c s' =>
    if Ascii.eqb c sep then EmptyString :: Split sep s'
    else match Split sep s' with
         | [] => [String c EmptyString]
         | p :: ps => String c p :: ps
         end
  end.

(** [strings.Join]. *)
Definition Join (sep : string) (l : list string) : string := String.concat sep l.

(** [strings.TrimSuffix] and [strings.TrimRight] with a one-byte cut set. *)
Definition TrimSuffix (s suf : string) : string :=
  let n := (String.length s - String.length suf)%nat in
  if bool_decide (String.length suf <= String.length s)%nat && String.eqb (slice_from s n) suf
  then slice_to s n else s.
Fixpoint drop_byte (c : ascii) (l : bytes) : bytes :=
  match l with
  | [] => []
  | b :: t => if Ascii.eqb b c then drop_byte c t else l
  end.
Definition TrimRight (s : string) (c : ascii) : string :=
  bytes_str (reverse (drop_byte c (reverse (str_bytes s)))).
Definition TrimPrefix (s p : string) : string :=
  if HasPrefix s p then slice_from s (String.length p) else s.

(** ** Package strconv *)

(** Decimal digits of a non-negative number; [fuel] bounds the digits left. *)
Definition digit_char (d : Z) : ascii := to_byte (0x30 + d).

Fixpoint dec_go (fuel : nat) (n : Z) (acc : string) : string :=
  match fuel with
  | O => acc
  | S f =>
    let acc := String (digit_char (n mod 10)) acc in
    if n <? 10 then acc else dec_go f (n / 10) acc
  end.
Definition dec_fuel (n : Z) : nat := S (Z.to_nat (Z.log2 n)).

(** [strconv.FormatInt(n, 10)], [strconv.Itoa]. *)
Definition FormatInt (n : Z) : string :=
  if n <? 0 then String "-" (dec_go (dec_fuel (- n)) (- n) EmptyString)
  else dec_go (dec_fuel n) n EmptyString.

(** [strconv.ParseInt(s, 10, 64)] and [strconv.Atoi]: the value and whether the
    error is nil.  A syntax error yields 0, a range error the nearest bound. *)
Definition MaxInt64 : Z := 2 ^ 63 - 1.
Definition MinInt64 : Z := - 2 ^ 63.

Fixpoint digits_val (acc : Z) (s : string) : option Z :=
  match s with
  | EmptyString => Some acc
  | String c s' =>
    let d := byte_val c - 0x30 in
    if in_range d 0 9 then digits_val (acc * 10 + d) s' else None
  end.

Definition parse_digits (neg : bool) (s : string) : Z * bool :=
  if String.eqb s EmptyString then (0, false) else
  match digits_val 0 s with
  | None => (0, false)
  | Some v =>
    let v := if neg then - v else v in
    if v <? MinInt64 then (MinInt64, false)
    else if MaxInt64 <? v then (MaxInt64, false) else (v, true)
  end.

Definition ParseInt (s : string) : Z * bool :=
  match s with
  | EmptyString => (0, false)
  | String c s' =>
    if Ascii.eqb c "-" then parse_digits true s'
    else if Ascii.eqb c "+" then parse_digits false s'
    else parse_digits false s
  end.

(** [strconv.Quote], the [%q] verb. *)
Section quote.
Context `{UnicodeDB}.

Definition IsPrint (r : Z) : bool :=
  if r <=? 0xFF then in_range r 0x20 0x7E || (in_range r 0xA1 0xFF && negb (r =? 0xAD))
  else db_IsPrint r.
Fixpoint hex_digits (n : nat) (v : Z) : bytes :=
  match n with
  | O => []
  | S n => hex_digits n (v / 16) ++
      [if v mod 16 <? 10 then to_byte (0x30 + v mod 16) else to_byte (0x57 + v mod 16)]
  end.
Definition quote_rune (rb : Z * bytes) : bytes :=
  let '(r, b) := rb in
  let bs := "\"%char in
  if (r =? RuneError) && bool_decide (length b = 1)%nat then
    bs :: "x"%char :: hex_digits 2 (byte_val (nth 0 b zero))
  else if (r =? 0x22) || (r =? 0x5C) then [bs; to_byte r]
  else if IsPrint r then encode_rune r
  else match r with
  | 7 => [bs; "a"%char]
  | 8 => [bs; "b"%char]
  | 12 => [bs; "f"%char]
  | 10 => [bs; "n"%char]
  | 13 => [bs; "r"%char]
  | 9 => [bs; "t"%char]
  | 11 => [bs; "v"%char]
  | _ => if (r <? 0x20) || (r =? 0x7F) then bs :: "x"%char :: hex_digits 2 r
         else if r <? 0x10000 then bs :: "u"%char :: hex_digits 4 r
         else bs :: "U"%char :: hex_digits 8 r
  end.
Definition Quote (s : string) : string :=
  bytes_str ([to_byte 0x22] ++ concat (map quote_rune (chunks (str_bytes s))) ++ [to_byte 0x22]).
End quote.

(** ** Facts *)

Lemma digit_char_val d : 0 <= d < 10 → byte_val (digit_char d) - 0x30 = d.
Proof. intros ?. unfold digit_char. rewrite byte_val_to_byte, Z.mod_small; lia. Qed.

Lemma in_range_spec z lo hi : in_range z lo hi = true ↔ lo <= z <= hi.
Proof. unfold in_range. by rewrite bool_decide_eq_true. Qed.

Lemma dec_fuel_div n : 10 <= n → (dec_fuel (n / 10) < dec_fuel n)%nat.
Proof.
  intros Hn. unfold dec_fuel.
  assert (Z.log2 (n / 10) < Z.log2 n); [|pose proof (Z.log2_nonneg (n / 10)); lia].
  assert (0 < n / 10) by (apply Z.div_str_pos; lia).
  apply Z.log2_lt_pow2; [lia|].
  pose proof (Z.log2_spec n ltac:(lia)) as [_ Hu]. rewrite Z.pow_succ_r in Hu by apply Z.log2_nonneg.
  assert (10 * (n / 10) <= n) by (apply Z.mul_div_le; lia). lia.
Qed.

(** Parsing the digits written in front of [acc] accumulates their value. *)
Lemma digits_val_dec_go fuel : ∀ n acc a,
  0 <= n → (dec_fuel n <= fuel)%nat →
  ∃ k, digits_val a (dec_go fuel n acc) = digits_val (a * 10 ^ k + n) acc.
Proof.
  induction fuel as [|f IH]; intros n acc a Hn Hf; [unfold dec_fuel in Hf; lia|].
  cbn [dec_go]. pose proof (Z.mod_pos_bound n 10 ltac:(lia)).
  assert (∀ x, digits_val x (String (digit_char (n mod 10)) acc)
             = digits_val (x * 10 + n mod 10) acc) as Hstep.
  { intros x. cbn [digits_val]. rewrite digit_char_val by lia.
    replace (in_range (n mod 10) 0 9) with true; [done|].
    symmetry. apply in_range_spec. lia. }
  case_if Hlt.
  - exists 1. rewrite Hstep. rewrite Z.mod_small by lia. do 2 f_equal.
  - pose proof (dec_fuel_div n ltac:(lia)).
    destruct (IH (n / 10) (String (digit_char (n mod 10)) acc) a) as [k Hk];
      [by apply Z.div_pos; lia|lia|].
    destruct (decide (0 <= k)) as [Hk0|Hk0].
    + exists (k + 1). rewrite Hk, Hstep. f_equal.
      rewrite Z.pow_add_r by lia. pose proof (Z.div_mod n 10 ltac:(lia)). lia.
    + exists k. rewrite Hk, Hstep. rewrite Z.pow_neg_r by lia. f_equal.
      pose proof (Z.div_mod n 10 ltac:(lia)). lia.
Qed.

Lemma dec_go_not_empty fuel n acc : (0 < fuel)%nat → dec_go fuel n acc ≠ EmptyString.
Proof.
  revert n acc. induction fuel as [|f IH]; intros n acc Hf; [lia|]. cbn [dec_go].
  case_if Hlt; [done|]. destruct f; [done|]. apply IH. lia.
Qed.

(** The characters of a formatted number: digits and a leading minus. *)
Definition is_digit_char (c : ascii) : bool := in_range (byte_val c) 0x30 0x39.

Lemma digit_char_is_digit d : 0 <= d < 10 → is_digit_char (digit_char d) = true.
Proof.
  intros. unfold is_digit_char, digit_char. rewrite byte_val_to_byte, Z.mod_small by lia.
  apply in_range_spec. lia.
Qed.

Lemma dec_go_digits fuel n acc :
  Forall (λ c, is_digit_char c = true) (str_bytes acc) →
  Forall (λ c, is_digit_char c = true) (str_bytes (dec_go fuel n acc)).
Proof.
  revert n acc. induction fuel as [|f IH]; intros n acc Ha; [done|]. cbn [dec_go].
  assert (Forall (λ c, is_digit_char c = true) (str_bytes (String (digit_char (n mod 10)) acc))).
  { constructor; [|done]. apply digit_char_is_digit. apply Z.mod_pos_bound. lia. }
  case_if Hlt; [done|]. by apply IH.
Qed.

Lemma ParseInt_digits s :
  Forall (λ c, is_digit_char c = true) (str_bytes s) → ParseInt s = parse_digits false s.
Proof.
  intros Hs. destruct s as [|c s]; [done|]. cbn [ParseInt].
  apply Forall_inv in Hs.
  destruct (Ascii.eqb_spec c "-") as [->|]; [done|].
  destruct (Ascii.eqb_spec c "+") as [->|]; done.
Qed.

(** [strconv]: parsing a formatted 64-bit integer gives it back. *)
Lemma ParseInt_FormatInt n : MinInt64 <= n <= MaxInt64 → ParseInt (FormatInt n) = (n, true).
Proof.
  intros Hn. unfold FormatInt.
  assert (∀ neg m, 0 <= m → MinInt64 <= (if neg : bool then - m else m) <= MaxInt64 →
    parse_digits neg (dec_go (dec_fuel m) m EmptyString) = (if neg then - m else m, true)) as Hp.
  { intros neg m Hm Hr. unfold parse_digits.
    destruct (String.eqb_spec (dec_go (dec_fuel m) m EmptyString) EmptyString) as [He|_].
    { exfalso. revert He. apply dec_go_not_empty. unfold dec_fuel. lia. }
    destruct (digits_val_dec_go (dec_fuel m) m EmptyString 0) as [k ->]; [done|lia|].
    cbn [digits_val]. rewrite Z.mul_0_l, Z.add_0_l.
    destruct (Z.ltb_spec (if neg then - m else m) MinInt64); [lia|].
    destruct (Z.ltb_spec MaxInt64 (if neg then - m else m)); [lia|done]. }
  case_if Hneg.
  - cbn [ParseInt]. change (Ascii.eqb "-" "-") with true. cbn iota.
    rewrite (Hp true (- n)) by lia. f_equal. lia.
  - rewrite ParseInt_digits; [by rewrite (Hp false n) by lia|].
    by apply dec_go_digits.
Qed.

Lemma not_in_digits c s :
  Forall (λ c, is_digit_char c = true) (str_bytes s) → is_digit_char c = false → c ∉ str_bytes s.
Proof. intros Hs Hc Hin. rewrite Forall_forall in Hs. rewrite Hs in Hc; done. Qed.

Lemma FormatInt_chars c n :
  is_digit_char c = false → c ≠ "-"%char → c ∉ str_bytes (FormatInt n).
Proof.
  intros Hc Hm. unfold FormatInt. case_if Hneg.
  - change (c ∉ "-"%char :: str_bytes (dec_go (dec_fuel (- n)) (- n) EmptyString)).
    rewrite not_elem_of_cons. split; [done|].
    apply not_in_digits; [by apply dec_go_digits|done].
  - apply not_in_digits; [by apply dec_go_digits|done].
Qed.

Lemma Cut_app sep a b :
  sep ∉ str_bytes a → Cut sep (a +:+ String sep b) = (a, b, true).
Proof.
  induction a as [|c a IH]; intros Hn.
  - change (EmptyString +:+ String sep b) with (String sep b). cbn [Cut].
    by rewrite Ascii.eqb_refl.
  - change (sep ∉ c :: str_bytes a) in Hn. rewrite not_elem_of_cons in Hn. destruct Hn as [Hc Ha].
    change (String c a +:+ String sep b) with (String c (a +:+ String sep b)). cbn [Cut].
    destruct (Ascii.eqb_spec c sep) as [->|]; [done|]. by rewrite IH.
Qed.

(** A found cut splits the string at the first separator. *)
Lemma Cut_found sep s a b :
  Cut sep s = (a, b, true) → s = a +:+ String sep b ∧ sep ∉ str_bytes a.
Proof.
  revert a. induction s as [|c s IH]; intros a; cbn [Cut]; [done|].
  destruct (Ascii.eqb_spec c sep) as [->|Hc].
  - intros [= <- <-]. split; [done|]. apply not_elem_of_nil.
  - destruct (Cut sep s) as [[a' b'] ok]. intros [= <- <- ->].
    destruct (IH a' eq_refl) as [-> Hn]. split; [done|].
    change (sep ∉ c :: str_bytes a'). rewrite not_elem_of_cons. by split.
Qed.

Lemma Cut_not_found sep s a b :
  Cut sep s = (a, b, false) → sep ∉ str_bytes s.
Proof.
  revert a. induction s as [|c s IH]; intros a; cbn [Cut]; [intros; apply not_elem_of_nil|].
  destruct (Ascii.eqb_spec c sep) as [->|Hc]; [done|].
  destruct (Cut sep s) as [[a' b'] ok]. intros [= <- <- ->].
  change (sep ∉ c :: str_bytes s). rewrite not_elem_of_cons. split; [done|]. by eapply IH.
Qed.

Lemma Split_ne sep s : Split sep s ≠ [].
Proof.
  induction s as [|c s IH]; cbn [Split]; [done|].
  destruct (Ascii.eqb c sep); [done|]. by destruct (Split sep s).
Qed.

Lemma Split_none sep s : sep ∉ str_bytes s → Split sep s = [s].
Proof.
  induction s as [|c s IH]; intros Hn; cbn [Split]; [done|].
  change (sep ∉ c :: str_bytes s) in Hn. rewrite not_elem_of_cons in Hn. destruct Hn as [Hc Ha].
  destruct (Ascii.eqb_spec c sep) as [->|]; [done|]. by rewrite IH.
Qed.

Lemma Split_app sep a b :
  sep ∉ str_bytes a → Split sep (a +:+ String sep b) = a :: Split sep b.
Proof.
  induction a as [|c a IH]; intros Hn.
  - change (EmptyString +:+ String sep b) with (String sep b). cbn [Split].
    by rewrite Ascii.eqb_refl.
  - change (sep ∉ c :: str_bytes a) in Hn. rewrite not_elem_of_cons in Hn. destruct Hn as [Hc Ha].
    change (String c a +:+ String sep b) with (String c (a +:+ String sep b)). cbn [Split].
    destruct (Ascii.eqb_spec c sep) as [->|]; [done|]. by rewrite IH.
Qed.

(** Joining then splitting gives the parts back, when there is at least one and
    none contains the separator. *)
Lemma Split_Join sep l :
  l ≠ [] → Forall (λ p, sep ∉ str_bytes p) l →
  Split sep (Join (String sep EmptyString) l) = l.
Proof.
  induction l as [|p l IH]; [done|]. intros _ Hl.
  apply Forall_cons in Hl as [Hp Hl]. destruct l as [|q l]; [by apply Split_none|].
  change (Join (String sep EmptyString) (p :: q :: l))
    with (p +:+ String sep (Join (String sep EmptyString) (q :: l))).
  rewrite Split_app by done. by rewrite IH.
Qed.

(** The bytes of a join come from the parts and the separator. *)
Lemma str_bytes_Join_cons sep p q l :
  str_bytes (Join sep (p :: q :: l)) = str_bytes p ++ str_bytes sep ++ str_bytes (Join sep (q :: l)).
Proof. change (Join sep (p :: q :: l)) with (p +:+ sep +:+ Join sep (q :: l)). by rewrite !str_bytes_app. Qed.

(** The runes of an ASCII string are its bytes. *)
Definition is_ascii (c : ascii) : Prop := byte_val c < 0x80.

Lemma chunks_ascii l : Forall is_ascii l → chunks l = map (λ c, (byte_val c, [c])) l.
Proof.
  unfold is_ascii. induction 1 as [|c l Hc Hl IH]; [done|].
  cbn. rewrite (proj2 (Z.ltb_lt _ _) Hc). by rewrite IH.
Qed.

(** A check of a boolean predicate on a range of integers. *)
Lemma range_check (f : Z → bool) lo n : forallb f (seqZ lo n) = true →
  ∀ z, lo <= z < lo + n → f z = true.
Proof.
  intros Hf z Hz. rewrite forallb_forall in Hf. apply Hf, list_elem_of_In, elem_of_seqZ. lia.
Qed.

Lemma utf8_bits b : 0x80 <= b < 256 →
  0 <= Z.land b 0x3F ∧ 0 <= Z.land b 0x0F ∧ 0 <= Z.land b 0x07
  ∧ (0xA0 <= b < 0xC0 → 0x20 <= Z.land b 0x3F) ∧ (0x90 <= b < 0xC0 → 0x10 <= Z.land b 0x3F)
  ∧ (0xE1 <= b < 0xF0 → 1 <= Z.land b 0x0F) ∧ (0xF1 <= b < 0xF8 → 1 <= Z.land b 0x07)
  ∧ (0xC2 <= b < 0xE0 → 2 <= Z.land b 0x1F).
Proof.
  intros Hb. assert (((0 <=? Z.land b 0x3F) && (0 <=? Z.land b 0x0F) && (0 <=? Z.land b 0x07)
    && ((b <? 0xA0) || (0xC0 <=? b) || (0x20 <=? Z.land b 0x3F))
    && ((b <? 0x90) || (0xC0 <=? b) || (0x10 <=? Z.land b 0x3F))
    && ((b <? 0xE1) || (0xF0 <=? b) || (1 <=? Z.land b 0x0F))
    && ((b <? 0xF1) || (0xF8 <=? b) || (1 <=? Z.land b 0x07))
    && ((b <? 0xC2) || (0xE0 <=? b) || (2 <=? Z.land b 0x1F)))%bool = true) as Hf.
  { revert b Hb. apply (range_check _ 0x80 128). vm_compute. reflexivity. }
  rewrite !andb_true_iff, !orb_true_iff, !Z.ltb_lt, !Z.leb_le in Hf. lia.
Qed.

(** A byte outside ASCII starts a chunk whose rune is outside ASCII. *)
Lemma chunks_non_ascii c l : ¬ is_ascii c → ∃ r b t, chunks (c :: l) = (r, b) :: t ∧ 0x80 <= r.
Proof.
  unfold is_ascii. intros Hc. cbn [chunks]. rewrite (proj2 (Z.ltb_ge _ _)) by lia.
  assert (∃ r b t, (RuneError, [c]) :: chunks l = (r, b) :: t ∧ 0x80 <= r) as Hbad.
  { by exists RuneError, [c], (chunks l). }
  pose proof (byte_val_range c). pose proof (utf8_bits (byte_val c)) as Hb0.
  destruct l as [|c1 l]; [done|]. pose proof (utf8_bits (byte_val c1)) as Hb1.
  case_if H2; [case_if H1; [|done]; do 3 eexists; split; [done|];
    apply in_range_spec in H1, H2; lia|].
  case_if H3; [done|]. case_if H1; [done|].
  apply negb_false_iff, in_range_spec in H1, H3.
  destruct l as [|c2 l]; [done|]. pose proof (utf8_bits (byte_val c2)) as Hb2.
  case_if H4; [done|]. apply negb_false_iff, in_range_spec in H4.
  assert (¬ 0xC2 <= byte_val c <= 0xDF) as Hnot by (rewrite <-in_range_spec, H2; done).
  case_if H5.
  { apply Z.ltb_lt in H5. do 3 eexists; split; [done|].
    destruct Hb0 as (_ & ? & _ & _ & _ & He1 & _); [lia|].
    destruct (Z.eqb_spec (byte_val c) 0xE0) as [He|].
    - rewrite !(proj2 (Z.eqb_neq (byte_val c) _)) in H1 by (rewrite He; done).
      destruct Hb1 as (? & _ & _ & H20 & _); [lia|].
      destruct Hb2 as (? & _); [lia|]. specialize (H20 ltac:(lia)). lia.
    - specialize (He1 ltac:(lia)). destruct Hb2 as (? & _); [lia|].
      destruct Hb1 as (? & _); [|lia].
      clear -H1. destruct (byte_val c =? 0xF0), (byte_val c =? 0xED), (byte_val c =? 0xF4); lia. }
  apply Z.ltb_ge in H5. destruct l as [|c3 l]; [done|]. pose proof (utf8_bits (byte_val c3)) as Hb3.
  case_if H6; [done|]. apply negb_false_iff, in_range_spec in H6.
  do 3 eexists; split; [done|].
  destruct Hb0 as (_ & _ & ? & _ & _ & _ & Hf1 & _); [lia|].
  destruct Hb2 as (? & _); [lia|]. destruct Hb3 as (? & _); [lia|].
  assert ((byte_val c =? 0xE0) = false ∧ (byte_val c =? 0xED) = false) as [HE0 HED]
    by (rewrite !Z.eqb_neq; lia).
  rewrite HE0, HED in H1.
  destruct (Z.eqb_spec (byte_val c) 0xF0) as [He|].
  - rewrite !(proj2 (Z.eqb_neq (byte_val c) _)) in H1 by (rewrite He; done).
    destruct Hb1 as (? & _ & _ & _ & H10 & _); [lia|].
    specialize (H10 ltac:(lia)). lia.
  - destruct Hb1 as (? & _); [clear -H1; destruct (byte_val c =? 0xF4); lia|]. specialize (Hf1 ltac:(lia)). lia.
Qed.

Lemma runes_ascii s : Forall is_ascii (str_bytes s) → runes s = byte_val <$> str_bytes s.
Proof.
  intros Hs. unfold runes. rewrite chunks_ascii by done. rewrite <-list_fmap_compose. by apply list_fmap_ext.
Qed.

Lemma encode_rune_ascii c : is_ascii c → encode_rune (byte_val c) = [c].
Proof.
  unfold is_ascii. intros Hc. unfold encode_rune, in_range. rewrite bool_decide_eq_true_2.
  - by rewrite to_byte_val.
  - pose proof (byte_val_range c). lia.
Qed.

(** Upper-casing changes nothing in an ASCII string without lower-case letters. *)
Lemma ToUpper_id `{UnicodeDB} s :
  Forall (λ c, is_ascii c ∧ in_range (byte_val c) 0x61 0x7A = false) (str_bytes s) → ToUpper s = s.
Proof.
  intros Hs. unfold ToUpper. rewrite runes_ascii by (eapply Forall_impl; [done|naive_solver]).
  rewrite <-(bytes_str_bytes s) at 2. f_equal.
  induction Hs as [|c l [Hc Hr] Hl IH]; [done|].
  cbn [fmap list_fmap map concat]. unfold ToUpperRune at 1.
  rewrite (proj2 (Z.leb_le _ _)), Hr, encode_rune_ascii by (unfold is_ascii in Hc; lia || done).
  cbn. by f_equal.
Qed.

#[export] Hint Rewrite str_bytes_app str_bytes_str bytes_str_bytes : go_rw.
#[export] Hint Resolve byte_val_range Split_ne : go.

(** ** Decoding composes over words *)

Ltac chunk_step := cbn [app]; cbv beta iota zeta; cbn [app].

Lemma chunks_app_ascii l1 c l2 : is_ascii c → chunks (l1 ++ c :: l2) = chunks l1 ++ (byte_val c, [c]) :: chunks l2.
Proof.
  intros Hc. assert ((byte_val c <? 0x80) = true) as Hlt by by apply Z.ltb_lt.
  assert (∀ lo hi, 0x80 <= lo → in_range (byte_val c) lo hi = false) as Hr.
  { intros lo hi Hlo. apply not_true_iff_false. rewrite in_range_spec. unfold is_ascii in Hc. lia. }
  assert (is_cont (byte_val c) = false) as Hic by (by apply Hr).
  assert (∀ b lo, (lo = if b =? 0xE0 then 0xA0 else if b =? 0xF0 then 0x90 else 0x80) → 0x80 <= lo) as Hlo.
  { intros b lo ->. by repeat case_match. }
  remember (length l1) as n eqn:Hn. revert l1 Hn.
  induction (lt_wf n) as [n _ IH]. intros l1 ->.
  assert (∀ l, (length l < length l1)%nat → chunks (l ++ c :: l2) = chunks l ++ (byte_val c, [c]) :: chunks l2) as IH'.
  { intros l Hl. by eapply IH. }
  assert (chunks (c :: l2) = (byte_val c, [c]) :: chunks l2) as E0 by (cbn [chunks]; by rewrite Hlt).
  clear IH. destruct l1 as [|c0 t0]; [cbn; by rewrite Hlt|]. cbn [chunks app].
  case_if H0; [by rewrite IH' by (cbn; lia)|].
  destruct t0 as [|c1 t1]; chunk_step.
  { rewrite Hic, Hr by (by eapply Hlo). cbn [negb]. rewrite E0. by repeat case_match. }
  assert (chunks (c1 :: t1 ++ c :: l2) = chunks (c1 :: t1) ++ (byte_val c, [c]) :: chunks l2) as E1 by (apply (IH' (c1 :: t1)); cbn; lia).
  assert (chunks (t1 ++ c :: l2) = chunks t1 ++ (byte_val c, [c]) :: chunks l2) as E2 by (apply (IH' t1); cbn; lia).
  rewrite !E1, !E2.
  case_if H2; [by case_if H1|]. case_if H3; [done|]. case_if H1; [done|].
  destruct t1 as [|c2 t2]; chunk_step.
  { by rewrite Hic. }
  assert (chunks (t2 ++ c :: l2) = chunks t2 ++ (byte_val c, [c]) :: chunks l2) as E3 by (apply (IH' t2); cbn; lia).
  rewrite !E3. case_if H4; [done|]. case_if H5; [done|].
  destruct t2 as [|c3 t3]; chunk_step.
  { by rewrite Hic. }
  rewrite !(IH' t3) by (cbn; lia). by case_if H6.
Qed.

(** The multi-byte sequence at the head of [c0 :: t], without its first byte. *)
Definition decode (c0 : ascii) (t : bytes) : option (Z * bytes) :=
  let b0 := byte_val c0 in
  match t with
  | [] => None
  | c1 :: t1 =>
    let b1 := byte_val c1 in
    if in_range b0 0xC2 0xDF then
      if is_cont b1 then Some (Z.land b0 0x1F * 64 + Z.land b1 0x3F, [c1]) else None
    else if negb (in_range b0 0xE0 0xF4) then None else
    let lo1 := if b0 =? 0xE0 then 0xA0 else if b0 =? 0xF0 then 0x90 else 0x80 in
    let hi1 := if b0 =? 0xED then 0x9F else if b0 =? 0xF4 then 0x8F else 0xBF in
    if negb (in_range b1 lo1 hi1) then None else
    match t1 with
    | [] => None
    | c2 :: t2 =>
      let b2 := byte_val c2 in
      if negb (is_cont b2) then None else
      if b0 <? 0xF0 then Some (Z.land b0 0x0F * 4096 + Z.land b1 0x3F * 64 + Z.land b2 0x3F, [c1; c2])
      else
      match t2 with
      | [] => None
      | c3 :: _ =>
        let b3 := byte_val c3 in
        if negb (is_cont b3) then None else
        Some (Z.land b0 0x07 * 262144 + Z.land b1 0x3F * 4096 + Z.land b2 0x3F * 64 + Z.land b3 0x3F, [c1; c2; c3])
      end
    end
  end.

Lemma chunks_decode c0 t : chunks (c0 :: t) =
  if byte_val c0 <? 0x80 then (byte_val c0, [c0]) :: chunks t else
  match decode c0 t with
  | Some (r, b) => (r, c0 :: b) :: chunks (drop (length b) t)
  | None => (RuneError, [c0]) :: chunks t
  end.
Proof.
  cbn [chunks]. destruct (byte_val c0 <? 0x80); [reflexivity|].
  destruct t as [|c1 t1]; [reflexivity|]. unfold decode. cbv zeta.
  destruct (in_range (byte_val c0) 0xC2 0xDF); [destruct (is_cont _); reflexivity|].
  destruct (negb (in_range (byte_val c0) 0xE0 0xF4)); [reflexivity|].
  destruct (negb (in_range (byte_val c1) _ _)); [reflexivity|].
  destruct t1 as [|c2 t2]; [reflexivity|]. destruct (negb (is_cont (byte_val c2))); [reflexivity|].
  destruct (byte_val c0 <? 0xF0); [reflexivity|]. destruct t2 as [|c3 t3]; [reflexivity|].
  destruct (negb (is_cont (byte_val c3))); reflexivity.
Qed.

Lemma decode_prefix c0 p r b : decode c0 p = Some (r, b) →
  b ≠ [] ∧ ∃ u, p = b ++ u ∧ ∀ u', decode c0 (b ++ u') = Some (r, b).
Proof.
  unfold decode. cbv zeta. destruct p as [|c1 t1]; [discriminate|].
  destruct (in_range (byte_val c0) 0xC2 0xDF) eqn:H1.
  { destruct (is_cont (byte_val c1)) eqn:H2; [|discriminate]. intros [= <- <-]. split; [discriminate|].
    exists t1. split; [reflexivity|]. intros u'. cbn [app]. rewrite H2. reflexivity. }
  destruct (negb (in_range (byte_val c0) 0xE0 0xF4)); [discriminate|].
  match goal with |- context [negb (in_range (byte_val c1) ?x ?y)] => destruct (negb (in_range (byte_val c1) x y)) eqn:H2 end;
    [discriminate|].
  destruct t1 as [|c2 t2]; [discriminate|]. destruct (negb (is_cont (byte_val c2))) eqn:H3; [discriminate|].
  destruct (byte_val c0 <? 0xF0) eqn:H4.
  { intros [= <- <-]. split; [discriminate|]. exists t2. split; [reflexivity|]. intros u'. cbn [app].
    rewrite H2, H3. reflexivity. }
  destruct t2 as [|c3 t3]; [discriminate|]. destruct (negb (is_cont (byte_val c3))) eqn:H5; [discriminate|].
  intros [= <- <-]. split; [discriminate|]. exists t3. split; [reflexivity|]. intros u'. cbn [app].
  rewrite H2, H3, H5. reflexivity.
Qed.

(** Decoding does not change when more bytes follow a complete sequence. *)
Lemma decode_app c0 p q r b : decode c0 p = Some (r, b) → decode c0 (p ++ q) = Some (r, b).
Proof. intros (_ & u & -> & Hu)%decode_prefix. by rewrite <-app_assoc. Qed.

(** The first chunk: a multi-byte sequence, decoded whatever follows; or a single byte,
    decoded alike before every prefix of what follows. *)
Lemma chunks_head c0 t :
  (∃ r b u, c0 :: t = b ++ u ∧ ∀ u', chunks (b ++ u') = (r, b) :: chunks u' ∧ (0 < length b)%nat)
  ∨ (∃ r, chunks (c0 :: t) = (r, [c0]) :: chunks t ∧ ∀ p q, t = p ++ q → chunks (c0 :: p) = (r, [c0]) :: chunks p).
Proof.
  destruct (byte_val c0 <? 0x80) eqn:H0.
  { right. exists (byte_val c0). split; [|intros p q _]; rewrite chunks_decode, H0; reflexivity. }
  destruct (decode c0 t) as [[r b]|] eqn:Hd.
  - left. apply decode_prefix in Hd as (_ & u & -> & Hu). exists r, (c0 :: b), u. split; [reflexivity|].
    intros u'. split; [|cbn; lia]. cbn [app]. rewrite chunks_decode, H0, Hu. by rewrite drop_app_length.
  - right. exists RuneError. split; [rewrite chunks_decode, H0, Hd; reflexivity|]. intros p q ->.
    rewrite chunks_decode, H0. destruct (decode c0 p) as [[r b]|] eqn:Hp; [|reflexivity].
    by rewrite (decode_app _ _ q _ _ Hp) in Hd.
Qed.

Lemma chunks_concat l : concat (chunks l).*2 = l.
Proof.
  remember (length l) as n eqn:Hn. revert l Hn. induction (lt_wf n) as [n _ IH]. intros l ->.
  destruct l as [|c t]; [done|].
  destruct (chunks_head c t) as [(r & b & u & Hb & Hu)|(r & Hc & _)].
  - destruct (Hu u) as [Hu' Hl]. rewrite Hb, Hu', fmap_cons. cbn [concat snd]. f_equal. eapply IH; [|done].
    apply (f_equal length) in Hb. rewrite length_app in Hb. lia.
  - rewrite Hc, fmap_cons. cbn. f_equal. eapply IH; [|done]. cbn. lia.
Qed.

(** A run of consecutive chunks decodes to itself. *)
Lemma chunks_prefix l cs1 cs2 : chunks l = cs1 ++ cs2 → chunks (concat cs1.*2) = cs1.
Proof.
  remember (length l) as n eqn:Hn. revert l cs1 cs2 Hn. induction (lt_wf n) as [n _ IH]. intros l cs1 cs2 -> Hl.
  destruct cs1 as [|[r b] cs1]; [done|]. destruct l as [|c t]; [done|].
  rewrite fmap_cons. cbn [concat snd].
  destruct (chunks_head c t) as [(r' & b' & u & Hb & Hu)|(r' & Hc & Hp)].
  - destruct (Hu u) as [Hu' Hlen]. rewrite Hb, Hu' in Hl. injection Hl as <- <- Hl. rewrite (proj1 (Hu _)). f_equal. eapply IH; [|reflexivity|exact Hl].
    apply (f_equal length) in Hb. rewrite length_app in Hb. lia.
  - rewrite Hc in Hl. injection Hl as <- <- Hl. cbn [app].
    rewrite (Hp _ (concat cs2.*2)).
    + f_equal. eapply IH; [|reflexivity|exact Hl]. cbn. lia.
    + by rewrite <-concat_app, <-fmap_app, <-Hl, chunks_concat.
Qed.

Lemma chunks_suffix l cs1 cs2 : chunks l = cs1 ++ cs2 → chunks (concat cs2.*2) = cs2.
Proof.
  revert l. induction cs1 as [|[r b] cs1 IH]; intros l Hl; cbn [app] in Hl.
  { by rewrite <-Hl, chunks_concat. }
  destruct l as [|c t]; [done|].
  destruct (chunks_head c t) as [(r' & b' & u & Hb & Hu)|(r' & Hc & _)].
  - destruct (Hu u) as [Hu' _]. rewrite Hb, Hu' in Hl. injection Hl as _ _ Hl. by eapply IH.
  - rewrite Hc in Hl. injection Hl as _ _ Hl. by eapply IH.
Qed.

(** ** Words *)

(** A non-empty byte sequence without a white-space rune. *)
Definition word (f : bytes) : Prop := f ≠ [] ∧ Forall (λ rb, IsSpace rb.1 = false) (chunks f).

Lemma fields_go_words l cs : ∀ pre cs0, chunks l = cs0 ++ pre ++ cs →
  Forall (λ rb, IsSpace rb.1 = false) pre → Forall word (fields_go (concat pre.*2) cs).
Proof.
  assert (∀ pre cs0 rest, chunks l = cs0 ++ pre ++ rest → Forall (λ rb, IsSpace rb.1 = false) pre →
    concat pre.*2 ≠ [] → word (concat pre.*2)) as Hw.
  { intros pre cs0 rest Hl Hpre Hne. split; [done|].
    pose proof (chunks_suffix _ _ _ Hl) as Hs. by rewrite (chunks_prefix _ _ _ Hs). }
  induction cs as [|[r b] cs IH]; intros pre cs0 Hl Hpre; cbn [fields_go].
  - case_bool_decide; [done|]. apply Forall_singleton. by eapply Hw.
  - assert (chunks l = (cs0 ++ pre ++ [(r, b)]) ++ [] ++ cs) as Hl' by (rewrite Hl; by rewrite <-!app_assoc).
    destruct (IsSpace r) eqn:Hr.
    + specialize (IH [] _ Hl' (Forall_nil_2 _)). case_bool_decide; [done|]. apply Forall_cons. split; [by eapply Hw|done].
    + replace (concat pre.*2 ++ b) with (concat (pre ++ [(r, b)]).*2)
        by (rewrite fmap_app, concat_app; cbn; by rewrite app_nil_r).
      apply (IH _ cs0); [by rewrite <-app_assoc|]. apply Forall_app. split; [done|]. by apply Forall_singleton.
Qed.

Lemma fields_go_run cs cur rest : Forall (λ rb, IsSpace rb.1 = false) cs →
  fields_go cur (cs ++ rest) = fields_go (cur ++ concat cs.*2) rest.
Proof.
  intros Hcs. revert cur. induction Hcs as [|[r b] cs Hr Hcs IH]; intros cur; cbn [app fields_go].
  - by rewrite app_nil_r.
  - cbn in Hr. rewrite Hr, IH. rewrite fmap_cons. cbn [concat snd]. by rewrite app_assoc.
Qed.

Lemma fields_go_join ws : Forall word ws →
  fields_go [] (chunks (str_bytes (Join " " (bytes_str <$> ws)))) = ws.
Proof.
  induction 1 as [|f ws [Hne Hf] Hws IH]; [done|]. destruct ws as [|f' ws].
  - change (str_bytes (Join " " (bytes_str <$> [f]))) with (str_bytes (bytes_str f)).
    rewrite str_bytes_str, <-(app_nil_r (chunks f)), fields_go_run, chunks_concat by done. cbn.
    by rewrite bool_decide_eq_false_2.
  - rewrite !fmap_cons, str_bytes_Join_cons, str_bytes_str in *. change (str_bytes " ") with [" "%char]. cbn [app].
    rewrite chunks_app_ascii by done. rewrite fields_go_run, chunks_concat by done. cbn [app fields_go].
    change (IsSpace (byte_val " ")) with true. cbv iota. rewrite bool_decide_eq_false_2 by done. by rewrite IH.
Qed.

(** Splitting a joined list of words gives the words back. *)
Lemma Fields_words s : Forall (λ f, word (str_bytes f)) (Fields s).
Proof.
  unfold Fields. apply Forall_fmap. eapply Forall_impl.
  - apply (fields_go_words (str_bytes s) (chunks (str_bytes s)) [] []); [done|constructor].
  - intros f Hf. cbn. by rewrite str_bytes_str.
Qed.

Lemma Fields_Join l : Forall (λ f, word (str_bytes f)) l → Fields (Join " " l) = l.
Proof.
  intros Hl. assert (l = bytes_str <$> (str_bytes <$> l)) as El.
  { rewrite <-list_fmap_compose. symmetry. rewrite <-(list_fmap_id l) at 2. apply list_fmap_ext.
    intros. apply bytes_str_bytes. }
  unfold Fields. rewrite El at 1. rewrite fields_go_join; [done|]. by apply Forall_fmap.
Qed.
