(* ===== verification/GoBytes.v ===== *)
(** * Byte encodings

    The parts of [encoding/binary], [encoding/hex], [encoding/base32] and
    [encoding/base64] the program uses, with their round trips.  As in Go, the
    decoders ignore carriage returns and line feeds and do not require the unused
    trailing bits to be zero. *)

From S2P Require Import Prelude GoStrings.

Local Open Scope Z_scope.

(** ** encoding/binary: big endian *)

Fixpoint put_be (n : nat) (z : Z) : bytes :=
  match n with
  | O => []
  | S n' => to_byte (z / 256 ^ Z.of_nat n') :: put_be n' z
  end.

Fixpoint get_be_acc (acc : Z) (l : bytes) : Z :=
  match l with
  | [] => acc
  | c :: t => get_be_acc (acc * 256 + byte_val c) t
  end.
Definition get_be (l : bytes) : Z := get_be_acc 0 l.

Lemma length_put_be n z : length (put_be n z) = n.
Proof. induction n; cbn; congruence. Qed.

Lemma get_be_acc_put_be n z acc :
  get_be_acc acc (put_be n z) = acc * 256 ^ Z.of_nat n + z mod 256 ^ Z.of_nat n.
Proof.
  revert acc. induction n as [|n IH]; intros acc; cbn [put_be get_be_acc].
  - change (256 ^ Z.of_nat 0) with 1. rewrite Z.mod_1_r. lia.
  - rewrite IH, byte_val_to_byte, Nat2Z.inj_succ, Z.pow_succ_r by lia.
    set (p := 256 ^ Z.of_nat n). assert (0 < p) by (apply Z.pow_pos_nonneg; lia).
    rewrite (Z.mul_comm 256 p), Z.rem_mul_r by lia. lia.
Qed.

(** Reading back an [n]-byte big-endian integer. *)
Lemma get_be_put_be n z : 0 <= z < 256 ^ Z.of_nat n → get_be (put_be n z) = z.
Proof. intros Hz. unfold get_be. rewrite get_be_acc_put_be, Z.mod_small by done. lia. Qed.

Lemma get_be_acc_bound l acc :
  0 <= acc → acc * 256 ^ Z.of_nat (length l) <= get_be_acc acc l
             < (acc + 1) * 256 ^ Z.of_nat (length l).
Proof.
  revert acc. induction l as [|c l IH]; intros acc Hacc; cbn [get_be_acc length].
  - change (256 ^ Z.of_nat 0) with 1. lia.
  - pose proof (byte_val_range c). specialize (IH (acc * 256 + byte_val c) ltac:(lia)).
    rewrite Nat2Z.inj_succ, Z.pow_succ_r by lia. nia.
Qed.

Lemma get_be_bound l : 0 <= get_be l < 256 ^ Z.of_nat (length l).
Proof. pose proof (get_be_acc_bound l 0 ltac:(lia)). unfold get_be. lia. Qed.

Lemma get_be_acc_split l acc :
  get_be_acc acc l = acc * 256 ^ Z.of_nat (length l) + get_be l.
Proof.
  unfold get_be. revert acc. induction l as [|c l IH]; intros acc; cbn [get_be_acc length].
  - change (256 ^ Z.of_nat 0) with 1. lia.
  - rewrite (IH (acc * 256 + _)), (IH (0 * 256 + _)), Nat2Z.inj_succ, Z.pow_succ_r by lia. lia.
Qed.

(** Writing back the integer read from [n] bytes gives the bytes. *)
Lemma put_be_get_be_acc l acc : put_be (length l) (get_be_acc acc l) = l.
Proof.
  revert acc. induction l as [|c l IH]; intros acc; [done|]. cbn [get_be_acc length put_be].
  f_equal; [|apply IH]. rewrite get_be_acc_split. pose proof (get_be_bound l) as Hb.
  rewrite Z.div_add_l, Z.div_small, Z.add_0_r by lia.
  apply (inj byte_val). rewrite byte_val_to_byte. pose proof (byte_val_range c).
  rewrite Z.add_comm, Z.mod_add, Z.mod_small by lia. done.
Qed.
Lemma put_be_get_be l n : length l = n → put_be n (get_be l) = l.
Proof. intros <-. apply put_be_get_be_acc. Qed.

Lemma put_be_inj n z1 z2 :
  0 <= z1 < 256 ^ Z.of_nat n → 0 <= z2 < 256 ^ Z.of_nat n → put_be n z1 = put_be n z2 → z1 = z2.
Proof. intros H1 H2 He. by rewrite <-(get_be_put_be n z1), He, get_be_put_be. Qed.

(** ** encoding/hex *)

Definition hex_char (v : Z) : ascii := if v <? 10 then to_byte (0x30 + v) else to_byte (0x57 + v).
Definition hex_encode (l : bytes) : string :=
  bytes_str (l ≫= λ c, [hex_char (byte_val c / 16); hex_char (byte_val c mod 16)]).

(** ** Alphabets *)

Definition std64 : string := "ABCDEFGHIJKLMNOPQRSTUVWXYZabcdefghijklmnopqrstuvwxyz0123456789+/".
Definition url64 : string := "ABCDEFGHIJKLMNOPQRSTUVWXYZabcdefghijklmnopqrstuvwxyz0123456789-_".
Definition std32 : string := "ABCDEFGHIJKLMNOPQRSTUVWXYZ234567".

Definition alpha_char (a : string) (v : Z) : ascii := nth (Z.to_nat v) (str_bytes a) "A"%char.
Definition alpha_val (a : string) (c : ascii) : option Z :=
  match list_find (c =.) (str_bytes a) with Some (i, _) => Some (Z.of_nat i) | None => None end.

Definition pad_char : ascii := "=".

(** An alphabet is usable for [n] symbols when symbols map back to their values
    and none of them is a line break. *)
Class Alphabet (a : string) (n : Z) := {
  alphabet_inv : ∀ v, 0 <= v < n → alpha_val a (alpha_char a v) = Some v;
  alphabet_range : ∀ c v, alpha_val a c = Some v → 0 <= v < n;
  alphabet_nl : ∀ v, 0 <= v < n → alpha_char a v ≠ "010"%char ∧ alpha_char a v ≠ "013"%char;
  alphabet_pad : alpha_val a pad_char = None;
}.

Definition alphabet_check (a : string) (n : nat) : bool :=
  bool_decide (String.length a = n) && bool_decide (alpha_val a pad_char = None) &&
  forallb (λ i, let v := Z.of_nat i in
    bool_decide (alpha_val a (alpha_char a v) = Some v)
    && bool_decide (alpha_char a v ≠ "010"%char) && bool_decide (alpha_char a v ≠ "013"%char))
    (seq 0 n).

Lemma alphabet_by_check a n : alphabet_check a n = true → Alphabet a (Z.of_nat n).
Proof.
  intros [[Hlen%bool_decide_eq_true Hpad%bool_decide_eq_true]%andb_true_iff Hf]%andb_true_iff. rewrite forallb_forall in Hf.
  assert (∀ v, 0 <= v < Z.of_nat n → alpha_val a (alpha_char a v) = Some v
    ∧ alpha_char a v ≠ "010"%char ∧ alpha_char a v ≠ "013"%char) as Hall.
  { intros v Hv. specialize (Hf (Z.to_nat v)).
    rewrite in_seq, Z2Nat.id, !andb_true_iff, !bool_decide_eq_true in Hf by lia.
    destruct Hf as [[? ?] ?]; [lia|done]. }
  split; [intros v Hv; apply (Hall v Hv)| |intros v Hv; apply (Hall v Hv)|done].
  intros c v. unfold alpha_val. destruct (list_find _ _) as [[i x]|] eqn:Hl; [|done].
  intros [= <-]. apply list_find_Some in Hl as [Hl _]. apply lookup_lt_Some in Hl.
  rewrite length_str_bytes, Hlen in Hl. lia.
Qed.

#[export] Instance std64_alphabet : Alphabet std64 64.
Proof. apply (alphabet_by_check std64 64). by vm_compute. Qed.
#[export] Instance url64_alphabet : Alphabet url64 64.
Proof. apply (alphabet_by_check url64 64). by vm_compute. Qed.
#[export] Instance std32_alphabet : Alphabet std32 32.
Proof. apply (alphabet_by_check std32 32). by vm_compute. Qed.

Definition strip_newlines (l : bytes) : bytes :=
  filter (λ c, c ≠ "010"%char ∧ c ≠ "013"%char) l.

(** ** encoding/base64 *)

Section base64.
Variable a : string.
Variable pad : bool.

Let ch := alpha_char a.
Fixpoint b64_enc (l : bytes) : bytes :=
  match l with
  | [] => []
  | [c0] =>
    let b0 := byte_val c0 in
    [ch (b0 / 4); ch (b0 mod 4 * 16)] ++ (if pad then [pad_char; pad_char] else [])
  | [c0; c1] =>
    let b0 := byte_val c0 in let b1 := byte_val c1 in
    [ch (b0 / 4); ch (b0 mod 4 * 16 + b1 / 16); ch (b1 mod 16 * 4)]
      ++ (if pad then [pad_char] else [])
  | c0 :: c1 :: c2 :: t =>
    let b0 := byte_val c0 in let b1 := byte_val c1 in let b2 := byte_val c2 in
    ch (b0 / 4) :: ch (b0 mod 4 * 16 + b1 / 16) :: ch (b1 mod 16 * 4 + b2 / 64)
      :: ch (b2 mod 64) :: b64_enc t
  end.

Definition dec2 (v0 v1 : Z) : bytes := [to_byte (v0 * 4 + v1 / 16)].
Definition dec3 (v0 v1 v2 : Z) : bytes := dec2 v0 v1 ++ [to_byte (v1 mod 16 * 16 + v2 / 4)].
Definition dec4 (v0 v1 v2 v3 : Z) : bytes := dec3 v0 v1 v2 ++ [to_byte (v2 mod 4 * 64 + v3)].

Fixpoint b64_dec (l : bytes) : option bytes :=
  match l with
  | [] => Some []
  | [c0; c1] =>
    if pad then None else
    v0 ← alpha_val a c0; v1 ← alpha_val a c1; Some (dec2 v0 v1)
  | [c0; c1; c2] =>
    if pad then None else
    v0 ← alpha_val a c0; v1 ← alpha_val a c1; v2 ← alpha_val a c2; Some (dec3 v0 v1 v2)
  | c0 :: c1 :: c2 :: c3 :: t =>
    v0 ← alpha_val a c0; v1 ← alpha_val a c1;
    if pad && bool_decide (t = []) && bool_decide (c3 = pad_char) then
      if bool_decide (c2 = pad_char) then Some (dec2 v0 v1)
      else v2 ← alpha_val a c2; Some (dec3 v0 v1 v2)
    else
      v2 ← alpha_val a c2; v3 ← alpha_val a c3; r ← b64_dec t; Some (dec4 v0 v1 v2 v3 ++ r)
  | _ => None
  end.
End base64.

Definition RawURLEncode (l : bytes) : string := bytes_str (b64_enc url64 false l).
Definition RawStdEncode (l : bytes) : string := bytes_str (b64_enc std64 false l).
Definition StdEncode (l : bytes) : string := bytes_str (b64_enc std64 true l).
Definition RawURLDecode (s : string) : option bytes := b64_dec url64 false (strip_newlines (str_bytes s)).
Definition StdDecode (s : string) : option bytes := b64_dec std64 true (strip_newlines (str_bytes s)).

(** ** Round trips *)

Lemma sextets b0 b1 b2 :
  0 <= b0 < 256 → 0 <= b1 < 256 → 0 <= b2 < 256 →
  (0 <= b0 / 4 < 64 ∧ 0 <= b0 mod 4 * 16 < 64 ∧ 0 <= b0 mod 4 * 16 + b1 / 16 < 64)
  ∧ (0 <= b1 mod 16 * 4 < 64 ∧ 0 <= b1 mod 16 * 4 + b2 / 64 < 64 ∧ 0 <= b2 mod 64 < 64).
Proof. intros. Z.to_euclidean_division_equations. lia. Qed.

Lemma to_byte_eq z c : z mod 256 = byte_val c → to_byte z = c.
Proof. intros Hz. rewrite <-(to_byte_val c), <-Hz. unfold to_byte. by rewrite Z.mod_mod by lia. Qed.

(** Decoded quanta are the encoded bytes. *)
Ltac b64_solve :=
  unfold dec4, dec3, dec2; cbn; repeat f_equal; apply to_byte_eq;
  Z.to_euclidean_division_equations; lia.

Section base64_facts.
Context (a : string) `{!Alphabet a 64}.

(** Every emitted symbol is one of the alphabet or the padding. *)
Lemma b64_enc_chars pad l (P : ascii → Prop) :
  (∀ v, 0 <= v < 64 → P (alpha_char a v)) → (pad = true → P pad_char) →
  Forall P (b64_enc a pad l).
Proof.
  intros Ha Hp. induction l as [|c0|c0 c1|c0 c1 c2 l IH] using list_ind3; cbn [b64_enc];
    repeat match goal with c : ascii |- _ =>
      let b := fresh "b" in let Hb := fresh "Hb" in
      pose proof (byte_val_range c) as Hb; set (b := byte_val c) in *; clearbody b; clear c end.
  - constructor.
  - destruct (sextets b 0 0) as [(?&?&?) _]; [lia..|].
    destruct pad; repeat constructor; auto.
  - destruct (sextets b0 b 0) as [(?&?&?) (?&?&?)]; [lia..|].
    destruct pad; repeat constructor; auto.
  - destruct (sextets b1 b0 b) as [(?&?&?) (?&?&?)]; [lia..|].
    repeat constructor; auto.
Qed.

Lemma alpha_char_not_pad v : 0 <= v < 64 → alpha_char a v ≠ pad_char.
Proof. intros Hv He. pose proof (alphabet_inv v Hv) as Hi. by rewrite He, alphabet_pad in Hi. Qed.

Lemma b64_dec_enc pad l :
  b64_dec a pad (b64_enc a pad l) = Some l.
Proof.
  induction l as [|c0|c0 c1|c0 c1 c2 l IH] using list_ind3; [done|..];
    cbn [b64_enc app];
    repeat match goal with c : ascii |- context [byte_val ?c] =>
      lazymatch goal with H : 0 <= byte_val c < 256 |- _ => fail | _ => idtac end;
      pose proof (byte_val_range c) end.
  - destruct (sextets (byte_val c0) 0 0) as [(?&?&?) _]; [lia..|].
    destruct pad; cbn [app b64_dec]; rewrite !alphabet_inv by done; cbn;
      rewrite ?bool_decide_eq_true_2 by done; cbn;
      b64_solve.
  - destruct (sextets (byte_val c0) (byte_val c1) 0) as [(?&?&?) (?&?&?)]; [lia..|].
    destruct pad; cbn [app b64_dec]; rewrite !alphabet_inv by done; cbn;
      rewrite ?(bool_decide_eq_true_2 (pad_char = pad_char)) by done; cbn;
      rewrite ?(bool_decide_eq_false_2 (alpha_char _ _ = pad_char))
        by (by apply alpha_char_not_pad); cbn;
      b64_solve.
  - destruct (sextets (byte_val c0) (byte_val c1) (byte_val c2)) as [(?&?&?) (?&?&?)]; [lia..|].
    cbn [b64_dec]. rewrite !alphabet_inv by done. cbn.
    rewrite (bool_decide_eq_false_2 (alpha_char _ _ = pad_char))
      by (by apply alpha_char_not_pad). rewrite andb_false_r, IH. cbn.
    b64_solve.
Qed.

Lemma strip_newlines_b64_enc pad l : strip_newlines (b64_enc a pad l) = b64_enc a pad l.
Proof.
  apply filter_all. apply b64_enc_chars; [|done]. intros v Hv. by apply (alphabet_nl v).
Qed.
End base64_facts.

Lemma RawURLDecode_Encode l : RawURLDecode (RawURLEncode l) = Some l.
Proof.
  unfold RawURLDecode, RawURLEncode.
  by rewrite str_bytes_str, (strip_newlines_b64_enc url64), (b64_dec_enc url64).
Qed.

Lemma StdDecode_Encode l : StdDecode (StdEncode l) = Some l.
Proof.
  unfold StdDecode, StdEncode.
  by rewrite str_bytes_str, (strip_newlines_b64_enc std64), (b64_dec_enc std64).
Qed.

Lemma RawURLEncode_inj l1 l2 : RawURLEncode l1 = RawURLEncode l2 → l1 = l2.
Proof. intros He. apply (inj Some). by rewrite <-!RawURLDecode_Encode, He. Qed.

Lemma RawStdEncode_inj l1 l2 : RawStdEncode l1 = RawStdEncode l2 → l1 = l2.
Proof.
  unfold RawStdEncode. intros He%(f_equal str_bytes). rewrite !str_bytes_str in He.
  apply (inj Some). by rewrite <-!(b64_dec_enc std64 false), He.
Qed.

(** A byte outside an alphabet does not occur in the encodings over it. *)
Definition outside (a : string) (c : ascii) : bool := bool_decide (c ∉ str_bytes a) && negb (Ascii.eqb c "A").

Lemma outside_b64 a `{!Alphabet a 64} c l :
  outside a c = true → c ∉ b64_enc a false l.
Proof.
  unfold outside. rewrite andb_true_iff, bool_decide_eq_true, negb_true_iff.
  intros [Hc HA] Hin.
  assert (Forall (λ x, x ≠ c) (b64_enc a false l)) as Hall.
  { apply b64_enc_chars; [|done]. intros v Hv He. cbn in He. subst c. apply Hc. unfold alpha_char in *.
    destruct (nth_in_or_default (Z.to_nat v) (str_bytes a) "A"%char) as [Hi|Hd].
    - by apply list_elem_of_In.
    - by rewrite Hd in HA. }
  rewrite Forall_forall in Hall. by apply (Hall c).
Qed.

Lemma RawStdEncode_outside c l : outside std64 c = true → c ∉ str_bytes (RawStdEncode l).
Proof. intros Hc. unfold RawStdEncode. rewrite str_bytes_str. by apply (outside_b64 _). Qed.
Lemma RawURLEncode_outside c l : outside url64 c = true → c ∉ str_bytes (RawURLEncode l).
Proof. intros Hc. unfold RawURLEncode. rewrite str_bytes_str. by apply (outside_b64 _). Qed.

(** ** encoding/base32 without padding *)

Section base32.
Let ch := alpha_char std32.

Fixpoint b32_enc (l : bytes) : bytes :=
  match l with
  | [] => []
  | c0 :: t0 =>
    let b0 := byte_val c0 in
    ch (b0 / 8) ::
    match t0 with
    | [] => [ch (b0 mod 8 * 4)]
    | c1 :: t1 =>
      let b1 := byte_val c1 in
      ch (b0 mod 8 * 4 + b1 / 64) :: ch (b1 / 2 mod 32) ::
      match t1 with
      | [] => [ch (b1 mod 2 * 16)]
      | c2 :: t2 =>
        let b2 := byte_val c2 in
        ch (b1 mod 2 * 16 + b2 / 16) ::
        match t2 with
        | [] => [ch (b2 mod 16 * 2)]
        | c3 :: t3 =>
          let b3 := byte_val c3 in
          ch (b2 mod 16 * 2 + b3 / 128) :: ch (b3 / 4 mod 32) ::
          match t3 with
          | [] => [ch (b3 mod 4 * 8)]
          | c4 :: t4 =>
            let b4 := byte_val c4 in
            ch (b3 mod 4 * 8 + b4 / 32) :: ch (b4 mod 32) :: b32_enc t4
          end
        end
      end
    end
  end.

(** A last group of 1, 3 or 6 symbols decodes to no byte. *)
Fixpoint b32_dec (l : bytes) : option bytes :=
  match l with
  | [] => Some []
  | c0 :: c1 :: c2 :: c3 :: c4 :: c5 :: c6 :: c7 :: t =>
    v0 ← alpha_val std32 c0; v1 ← alpha_val std32 c1; v2 ← alpha_val std32 c2;
    v3 ← alpha_val std32 c3; v4 ← alpha_val std32 c4; v5 ← alpha_val std32 c5;
    v6 ← alpha_val std32 c6; v7 ← alpha_val std32 c7; r ← b32_dec t;
    Some ([to_byte (v0 * 8 + v1 / 4); to_byte (v1 mod 4 * 64 + v2 * 2 + v3 / 16);
           to_byte (v3 mod 16 * 16 + v4 / 2); to_byte (v4 mod 2 * 128 + v5 * 4 + v6 / 8);
           to_byte (v6 mod 8 * 32 + v7)] ++ r)
  | _ =>
    vs ← mapM (alpha_val std32) l;
    Some match vs with
    | [v0; v1] => [to_byte (v0 * 8 + v1 / 4)]
    | [v0; v1; v2; v3] =>
      [to_byte (v0 * 8 + v1 / 4); to_byte (v1 mod 4 * 64 + v2 * 2 + v3 / 16)]
    | [v0; v1; v2; v3; v4] =>
      [to_byte (v0 * 8 + v1 / 4); to_byte (v1 mod 4 * 64 + v2 * 2 + v3 / 16);
       to_byte (v3 mod 16 * 16 + v4 / 2)]
    | [v0; v1; v2; v3; v4; v5; v6] =>
      [to_byte (v0 * 8 + v1 / 4); to_byte (v1 mod 4 * 64 + v2 * 2 + v3 / 16);
       to_byte (v3 mod 16 * 16 + v4 / 2); to_byte (v4 mod 2 * 128 + v5 * 4 + v6 / 8)]
    | _ => []
    end
  end.
End base32.

Definition B32Encode (l : bytes) : string := bytes_str (b32_enc l).
Definition B32Decode (s : string) : option bytes := b32_dec (strip_newlines (str_bytes s)).

Lemma quintets b0 b1 b2 b3 b4 :
  0 <= b0 < 256 → 0 <= b1 < 256 → 0 <= b2 < 256 → 0 <= b3 < 256 → 0 <= b4 < 256 →
  ((0 <= b0 / 8 < 32 ∧ 0 <= b0 mod 8 * 4 < 32 ∧ 0 <= b0 mod 8 * 4 + b1 / 64 < 32)
  ∧ (0 <= b1 / 2 mod 32 < 32 ∧ 0 <= b1 mod 2 * 16 < 32 ∧ 0 <= b1 mod 2 * 16 + b2 / 16 < 32))
  ∧ ((0 <= b2 mod 16 * 2 < 32 ∧ 0 <= b2 mod 16 * 2 + b3 / 128 < 32 ∧ 0 <= b3 / 4 mod 32 < 32)
  ∧ (0 <= b3 mod 4 * 8 < 32 ∧ 0 <= b3 mod 4 * 8 + b4 / 32 < 32 ∧ 0 <= b4 mod 32 < 32)).
Proof. intros. repeat split; Z.to_euclidean_division_equations; lia. Qed.

Ltac b32_quintets a b c d e :=
  destruct (quintets a b c d e)
    as [[(?&?&?) (?&?&?)] [(?&?&?) (?&?&?)]]; [lia..|].
Ltac b32_byte := apply to_byte_eq; Z.to_euclidean_division_equations; lia.

Lemma b32_dec_enc l : b32_dec (b32_enc l) = Some l.
Proof.
  induction l as [|c0|c0 c1|c0 c1 c2|c0 c1 c2 c3|c0 c1 c2 c3 c4 t IH] using list_ind5; [done|..];
    repeat match goal with c : ascii |- _ =>
      lazymatch goal with H : 0 <= byte_val c < 256 |- _ => fail | _ => idtac end;
      pose proof (byte_val_range c) end; cbn [b32_enc].
  - b32_quintets (byte_val c0) 0 0 0 0. cbn [b32_dec mapM].
    rewrite !alphabet_inv by done. cbn. repeat f_equal; b32_byte.
  - b32_quintets (byte_val c0) (byte_val c1) 0 0 0. cbn [b32_dec mapM].
    rewrite !alphabet_inv by done. cbn. repeat f_equal; b32_byte.
  - b32_quintets (byte_val c0) (byte_val c1) (byte_val c2) 0 0. cbn [b32_dec mapM].
    rewrite !alphabet_inv by done. cbn. repeat f_equal; b32_byte.
  - b32_quintets (byte_val c0) (byte_val c1) (byte_val c2) (byte_val c3) 0. cbn [b32_dec mapM].
    rewrite !alphabet_inv by done. cbn. repeat f_equal; b32_byte.
  - b32_quintets (byte_val c0) (byte_val c1) (byte_val c2) (byte_val c3) (byte_val c4).
    cbn [b32_dec]. rewrite !alphabet_inv by done. cbn. rewrite IH.
    cbn. repeat f_equal; b32_byte.
Qed.

Lemma b32_enc_chars l (P : ascii → Prop) :
  (∀ v, 0 <= v < 32 → P (alpha_char std32 v)) → Forall P (b32_enc l).
Proof.
  intros Ha. induction l as [|c0|c0 c1|c0 c1 c2|c0 c1 c2 c3|c0 c1 c2 c3 c4 t IH] using list_ind5; [constructor|..];
    repeat match goal with c : ascii |- _ =>
      lazymatch goal with H : 0 <= byte_val c < 256 |- _ => fail | _ => idtac end;
      pose proof (byte_val_range c) end; cbn [b32_enc].
  - b32_quintets (byte_val c0) 0 0 0 0. repeat constructor; auto.
  - b32_quintets (byte_val c0) (byte_val c1) 0 0 0. repeat constructor; auto.
  - b32_quintets (byte_val c0) (byte_val c1) (byte_val c2) 0 0. repeat constructor; auto.
  - b32_quintets (byte_val c0) (byte_val c1) (byte_val c2) (byte_val c3) 0. repeat constructor; auto.
  - b32_quintets (byte_val c0) (byte_val c1) (byte_val c2) (byte_val c3) (byte_val c4).
    repeat (constructor; [auto|]). apply IH.
Qed.

Lemma B32Decode_Encode l : B32Decode (B32Encode l) = Some l.
Proof.
  unfold B32Decode, B32Encode, strip_newlines. rewrite str_bytes_str, filter_all; [apply b32_dec_enc|].
  apply b32_enc_chars. intros v Hv. by apply (alphabet_nl v).
Qed.
