(* ===== verification/GoCrypto.v ===== *)
(** * Hash functions of the standard library

    [crypto/sha256], [crypto/sha1] and [crypto/hmac] as executable definitions
    (FIPS 180-4, RFC 2104), on bytes, with 32-bit words as [Z] modulo 2^32; and
    [crypto/subtle.ConstantTimeCompare].  The published test vectors are checked
    at the end. *)

From S2P Require Import Prelude GoStrings GoBytes.

Local Open Scope Z_scope.

Definition w32 (z : Z) : Z := z mod 2 ^ 32.
Definition rotl (n x : Z) : Z := w32 (Z.lor (Z.shiftl x n) (Z.shiftr x (32 - n))).
Definition rotr (n x : Z) : Z := rotl (32 - n) x.
Definition not32 (x : Z) : Z := 2 ^ 32 - 1 - x.

(** Merkle-Damgård padding to 64-byte blocks with a 64-bit big-endian length. *)
Definition md_pad (l : bytes) : bytes :=
  let n := Z.of_nat (length l) in
  let k := Z.to_nat ((55 - n) mod 64) in
  l ++ [to_byte 0x80] ++ replicate k (to_byte 0) ++ put_be 8 (8 * n).

Fixpoint words (l : bytes) : list Z :=
  match l with
  | c0 :: c1 :: c2 :: c3 :: t => get_be [c0; c1; c2; c3] :: words t
  | _ => []
  end.

(** The message words in blocks of 16. *)
Fixpoint blocks (fuel : nat) (l : list Z) : list (list Z) :=
  match fuel, l with
  | S f, _ :: _ => take 16 l :: blocks f (drop 16 l)
  | _, _ => []
  end.

Definition md_blocks (l : bytes) : list (list Z) :=
  let ws := words (md_pad l) in blocks (length ws) ws.

(** ** SHA-256 *)

(** The constants as FIPS 180-4 defines them: the first 32 bits of the fractional
    parts of the cube roots of the first 64 primes, and of the square roots of the
    first 8. *)
Definition is_prime (n : nat) : bool :=
  (1 <? n)%nat && forallb (λ d, negb (n mod d =? 0)%nat) (seq 2 (n - 2)).
Definition primes_below (n : nat) : list Z := map Z.of_nat (filter (λ k, is_prime k = true) (seq 0 n)).

(** The integer cube root, one bit at a time. *)
Fixpoint cbrt_bits (bits : nat) (r n : Z) : Z :=
  match bits with
  | O => r
  | S b => let r' := r + 2 ^ Z.of_nat b in cbrt_bits b (if r' * r' * r' <=? n then r' else r) n
  end.

Definition sha256_K : list Z :=
  Eval vm_compute in map (λ p, w32 (cbrt_bits 36 0 (p * 2 ^ 96))) (primes_below 312).
Definition sha256_H0 : list Z :=
  Eval vm_compute in map (λ p, w32 (Z.sqrt (p * 2 ^ 64))) (primes_below 20).

Definition ssig0 (x : Z) := Z.lxor (Z.lxor (rotr 7 x) (rotr 18 x)) (Z.shiftr x 3).
Definition ssig1 (x : Z) := Z.lxor (Z.lxor (rotr 17 x) (rotr 19 x)) (Z.shiftr x 10).
Definition bsig0 (x : Z) := Z.lxor (Z.lxor (rotr 2 x) (rotr 13 x)) (rotr 22 x).
Definition bsig1 (x : Z) := Z.lxor (Z.lxor (rotr 6 x) (rotr 11 x)) (rotr 25 x).

(** The rounds over a sliding window of 16 message words, consumed head first. *)
Fixpoint sha256_rounds (ks w st : list Z) : list Z :=
  match ks, w, st with
  | k :: ks', w0 :: w1 :: w2 :: w3 :: w4 :: w5 :: w6 :: w7 :: w8 :: w9 :: w10 :: w11 :: w12 :: w13 :: w14 :: [w15],
    [a; b; c; d; e; f; g; h] =>
    let ch := Z.lxor (Z.land e f) (Z.land (not32 e) g) in
    let maj := Z.lxor (Z.lxor (Z.land a b) (Z.land a c)) (Z.land b c) in
    let t1 := h + bsig1 e + ch + k + w0 in
    let t2 := bsig0 a + maj in
    let w16 := w32 (ssig1 w14 + w9 + ssig0 w1 + w0) in
    sha256_rounds ks'
      [w1; w2; w3; w4; w5; w6; w7; w8; w9; w10; w11; w12; w13; w14; w15; w16]
      [w32 (t1 + t2); a; b; c; w32 (d + t1); e; f; g]
  | _, _, _ => st
  end.

Definition add_words (a b : list Z) : list Z := zip_with (λ x y, w32 (x + y)) a b.

Definition sha256 (l : bytes) : bytes :=
  foldl (λ st blk, add_words st (sha256_rounds sha256_K blk st)) sha256_H0 (md_blocks l)
  ≫= put_be 4.

(** ** SHA-1 *)

Definition sha1_H0 : list Z := [0x67452301; 0xefcdab89; 0x98badcfe; 0x10325476; 0xc3d2e1f0].

Definition sha1_f (t : Z) (b c d : Z) : Z * Z :=
  if t <? 20 then (Z.lor (Z.land b c) (Z.land (not32 b) d), 0x5a827999)
  else if t <? 40 then (Z.lxor (Z.lxor b c) d, 0x6ed9eba1)
  else if t <? 60 then (Z.lor (Z.lor (Z.land b c) (Z.land b d)) (Z.land c d), 0x8f1bbcdc)
  else (Z.lxor (Z.lxor b c) d, 0xca62c1d6).

Fixpoint sha1_rounds (n : nat) (t : Z) (w st : list Z) : list Z :=
  match n, w, st with
  | S n', w0 :: w1 :: w2 :: w3 :: w4 :: w5 :: w6 :: w7 :: w8 :: w9 :: w10 :: w11 :: w12 :: w13 :: w14 :: [w15],
    [a; b; c; d; e] =>
    let '(f, k) := sha1_f t b c d in
    let tmp := w32 (rotl 5 a + f + e + k + w0) in
    let w16 := rotl 1 (Z.lxor (Z.lxor w13 w8) (Z.lxor w2 w0)) in
    sha1_rounds n' (t + 1)
      [w1; w2; w3; w4; w5; w6; w7; w8; w9; w10; w11; w12; w13; w14; w15; w16]
      [tmp; a; rotl 30 b; c; d]
  | _, _, _ => st
  end.

Definition sha1 (l : bytes) : bytes :=
  foldl (λ st blk, add_words st (sha1_rounds 80 0 blk st)) sha1_H0 (md_blocks l) ≫= put_be 4.

(** ** HMAC, for hashes with 64-byte blocks *)

Definition xor_byte (m : Z) (c : ascii) : ascii := to_byte (Z.lxor m (byte_val c)).

Definition hmac (hash : bytes → bytes) (key msg : bytes) : bytes :=
  let key := if bool_decide (64 < length key)%nat then hash key else key in
  let key := key ++ replicate (64 - length key) (to_byte 0) in
  hash (map (xor_byte 0x5c) key ++ hash (map (xor_byte 0x36) key ++ msg)).

Definition hmac_sha256 : bytes → bytes → bytes := hmac sha256.
Definition hmac_sha1 : bytes → bytes → bytes := hmac sha1.

(** [subtle.ConstantTimeCompare(a, b) == 1]. *)
Definition const_eq (a b : bytes) : bool := bool_decide (a = b).

(** ** Lengths *)

Lemma length_bind_put_be n l : length (l ≫= put_be n) = (n * length l)%nat.
Proof. induction l as [|x l IH]; cbn; [lia|]. rewrite length_app, length_put_be, IH. lia. Qed.

Lemma length_sha256_rounds ks : ∀ w st, length st = 8%nat → length (sha256_rounds ks w st) = 8%nat.
Proof.
  induction ks as [|k ks IH]; intros w st Hst; [done|].
  do 8 (destruct st as [|? st]; [done|]). destruct st; [|done].
  do 16 (destruct w as [|? w]; [done|]). destruct w; [|done]. by apply IH.
Qed.

Lemma length_add_words a b : length a = length b → length (add_words a b) = length a.
Proof. intros He. unfold add_words. rewrite length_zip_with. lia. Qed.

Lemma length_sha256 l : length (sha256 l) = 32%nat.
Proof.
  unfold sha256. rewrite length_bind_put_be.
  assert (∀ bs st, length st = 8%nat →
    length (foldl (λ st blk, add_words st (sha256_rounds sha256_K blk st)) st bs) = 8%nat) as Hf.
  { induction bs as [|b bs IH]; intros st Hst; [done|]. cbn [foldl]. apply IH.
    rewrite length_add_words; [done|]. by rewrite length_sha256_rounds. }
  by rewrite Hf.
Qed.

Lemma length_sha1_rounds n : ∀ t w st, length st = 5%nat → length (sha1_rounds n t w st) = 5%nat.
Proof.
  induction n as [|n IH]; intros t w st Hst; [done|].
  do 5 (destruct st as [|? st]; [done|]). destruct st; [|done].
  do 16 (destruct w as [|? w]; [done|]). destruct w; [|done]. cbn [sha1_rounds].
  destruct (sha1_f _ _ _ _). by apply IH.
Qed.

Lemma length_sha1 l : length (sha1 l) = 20%nat.
Proof.
  unfold sha1. rewrite length_bind_put_be.
  assert (∀ bs st, length st = 5%nat →
    length (foldl (λ st blk, add_words st (sha1_rounds 80 0 blk st)) st bs) = 5%nat) as Hf.
  { induction bs as [|b bs IH]; intros st Hst; [done|]. cbn [foldl]. apply IH.
    rewrite length_add_words; [done|]. by rewrite length_sha1_rounds. }
  by rewrite Hf.
Qed.

Lemma length_hmac_sha256 k m : length (hmac_sha256 k m) = 32%nat.
Proof. apply length_sha256. Qed.
Lemma length_hmac_sha1 k m : length (hmac_sha1 k m) = 20%nat.
Proof. apply length_sha1. Qed.

Lemma const_eq_spec a b : const_eq a b = true ↔ a = b.
Proof. apply bool_decide_eq_true. Qed.
Lemma const_eq_refl a : const_eq a a = true.
Proof. by apply const_eq_spec. Qed.

#[global] Opaque sha256 sha1.

(** ** Published test vectors *)

Example sha256_abc : hex_encode (sha256 (str_bytes "abc"))
  = "ba7816bf8f01cfea414140de5dae2223b00361a396177a9cb410ff61f20015ad".
Proof. vm_compute. reflexivity. Qed.

Example sha1_abc : hex_encode (sha1 (str_bytes "abc")) = "a9993e364706816aba3e25717850c26c9cd0d89d".
Proof. vm_compute. reflexivity. Qed.

Example hmac_sha256_rfc4231_2 :
  hex_encode (hmac_sha256 (str_bytes "Jefe") (str_bytes "what do ya want for nothing?"))
  = "5bdcc146bf60754e6a042426089575c75a003f089d2739839dec58b964ec3843".
Proof. vm_compute. reflexivity. Qed.

