(* ===== verification/Errors.v ===== *)
(** * Errors

    [identity/errors.go]: the coded errors managers return, the [ErrNotFound]
    sentinel, and Go's [(value, error)] results. *)

From S2P Require Import Prelude GoStrings.

(** A Go [error] value: an [IdentityError], the [ErrNotFound] sentinel, an error
    wrapped by [fmt.Errorf("%w")], or any other error (a store or delivery
    failure). *)
Inductive error :=
  | IdentityError (Code Description : string)
  | ErrNotFound
  | Wrapped (msg : string) (inner : error)
  | OtherError (msg : string).

#[export] Instance error_eq_dec : EqDecision error.
Proof. solve_decision. Defined.

Definition newErr (code desc : string) : error := IdentityError code desc.

(** [( *IdentityError).Error]; the other errors render their message. *)
Fixpoint Error (e : error) : string :=
  match e with
  | IdentityError c d => c +:+ ": " +:+ d
  | ErrNotFound => "identity: entity not found"
  | Wrapped m e => Error e +:+ m
  | OtherError m => m
  end.

(** [errors.Is(err, target)] for the sentinels the code tests. *)
Fixpoint ErrorsIs (e target : error) : bool :=
  bool_decide (e = target) ||
  match e with Wrapped _ inner => ErrorsIs inner target | _ => false end.

Definition ErrUserNotFound : error := newErr "UserNotFound" "User does not exist.".
Definition ErrRoleNotFound : error := newErr "RoleNotFound" "Role does not exist.".
Definition ErrDuplicateUserName : error := newErr "DuplicateUserName" "User name is already taken.".
Definition ErrDuplicateEmail : error := newErr "DuplicateEmail" "Email is already taken.".
Definition ErrDuplicateRoleName : error := newErr "DuplicateRoleName" "Role name is already taken.".
Definition ErrPasswordTooShort : error := newErr "PasswordTooShort" "Password does not meet length requirement.".
Definition ErrPasswordRequiresDigit : error := newErr "PasswordRequiresDigit" "Passwords must have at least one digit.".
Definition ErrPasswordRequiresUpper : error := newErr "PasswordRequiresUpper" "Passwords must have at least one uppercase letter.".
Definition ErrPasswordRequiresLower : error := newErr "PasswordRequiresLower" "Passwords must have at least one lowercase letter.".
Definition ErrPasswordRequiresNonAlpha : error := newErr "PasswordRequiresNonAlphanumeric" "Passwords must have at least one non-alphanumeric character.".
Definition ErrPasswordRequiresUnique : error := newErr "PasswordRequiresUniqueChars" "Passwords must use a minimum number of distinct characters.".
Definition ErrInvalidUserName : error := newErr "InvalidUserName" "User name contains characters that are not allowed.".
Definition ErrPasswordAlreadySet : error := newErr "PasswordAlreadySet" "User already has a password; use ChangePassword instead.".
Definition ErrLoginAlreadyUsed : error := newErr "LoginAlreadyAssociated" "External login is already associated with a user.".
Definition ErrNotAnonymous : error := newErr "NotAnonymous" "User is not a guest (anonymous) account.".
Definition ErrPurgeNotSupported : error := newErr "PurgeNotSupported" "The configured store does not support purging anonymous users.".
Definition ErrInvalidAPIKey : error := newErr "InvalidAPIKey" "API key is invalid, revoked or expired.".
Definition ErrPasswordMismatch : error := newErr "PasswordMismatch" "Incorrect password.".
Definition ErrUserLockedOut : error := newErr "UserLockedOut" "User is locked out.".
Definition ErrInvalidToken : error := newErr "InvalidToken" "Invalid token.".
Definition ErrConcurrencyFailure : error := newErr "ConcurrencyFailure" "Optimistic concurrency failure, object has been modified.".
Definition ErrListNotSupported : error := newErr "ListNotSupported" "The configured store does not support listing.".
Definition ErrInvalidIdentifier : error := newErr "InvalidIdentifier" "A configured schema or table name is not a valid SQL identifier.".

(** ** Results *)

(** A Go function returning [(A, error)]: the value when the error is nil. *)
Inductive result (A : Type) :=
  | Ok (a : A)
  | Err (e : error).
Arguments Ok {A} a.
Arguments Err {A} e.

#[export] Instance result_eq_dec {A} `{EqDecision A} : EqDecision (result A).
Proof. solve_decision. Defined.

Definition is_ok {A} (r : result A) : bool := match r with Ok _ => true | Err _ => false end.

Lemma is_ok_true {A} (r : result A) : is_ok r = true → ∃ a, r = Ok a.
Proof. destruct r; [eauto|done]. Qed.

