(* ===== verification/World.v ===== *)
(** * Effects

    The program reads clocks, random bytes and fresh UUIDs, ranges over maps in an
    order Go leaves open, reads and writes stores, logs and sends messages, and
    can panic.  All of it runs in the monad [M S] over a [World S]: the store state
    [S], a step counter and the messages emitted so far.  Everything Go leaves to
    the environment is answered by an [Oracle], indexed by the step counter, so two
    reads of the clock or two iterations over the same map may differ; the theorems
    hold for every oracle. *)

From S2P Require Import Prelude GoStrings Errors.

Local Open Scope Z_scope.

(** ** Time

    [time.Time] is an instant in nanoseconds since the Unix epoch, [time.Duration]
    an [int64] of nanoseconds. *)

Abbreviation Time := Z (only parsing).
Abbreviation Duration := Z (only parsing).

Definition Second : Duration := 1000000000.
Definition Minute : Duration := 60 * Second.
Definition Hour : Duration := 60 * Minute.

(** The zero [time.Time]: January 1, year 1. *)
Definition zeroTime : Time := -62135596800 * Second.

Definition wrap_int64 (z : Z) : Z := (z + 2 ^ 63) mod 2 ^ 64 - 2 ^ 63.
Definition wrap_uint64 (z : Z) : Z := z mod 2 ^ 64.

Definition After (t u : Time) : bool := u <? t.
Definition Before (t u : Time) : bool := t <? u.
Definition Add (t : Time) (d : Duration) : Time := t + d.
(** [t.Sub(u)] saturates at the bounds of [Duration]. *)
Definition Sub (t u : Time) : Duration := Z.max MinInt64 (Z.min MaxInt64 (t - u)).
(** [t.Unix()] and [time.Unix(sec, 0)]; the latter stores seconds since year 1 in an [int64]. *)
Definition Unix (t : Time) : Z := t / Second.
Definition FromUnix (sec : Z) : Time :=
  (wrap_int64 (sec + 62135596800) - 62135596800) * Second.
(** [int64(d.Seconds())] and [uint64(d.Seconds())] for [d >= 0]. *)
Definition Seconds (d : Duration) : Z := Z.quot d Second.

(** ** The environment *)

Class Oracle := {
  o_now : nat → Time;
  o_read : nat → nat → bytes;
  o_int : nat → Z → Z;
  o_uuid : nat → string;
  o_order : ∀ {A : Type}, nat → list A → list A;
  o_read_length : ∀ i n, length (o_read i n) = n;
  o_int_range : ∀ i m, 0 < m → 0 <= o_int i m < m;
  o_order_perm : ∀ A i (l : list A), o_order i l ≡ₚ l;
}.

(** What a manager emits through its logger and senders. *)
Inductive event :=
  | Warned (msg : string)
  | SentSMS (phone text : string)
  | SentEmail (to subject body : string).

Record World (S : Type) := mkWorld {
  w_step : nat;
  w_store : S;
  w_out : list event;
}.
Arguments mkWorld {S} _ _ _.
Arguments w_step {S} _.
Arguments w_store {S} _.
Arguments w_out {S} _.

Inductive outcome (A : Type) :=
  | Done (a : A)
  | Panic (msg : string).
Arguments Done {A} a.
Arguments Panic {A} msg.

Definition M (S A : Type) : Type := World S → outcome (A * World S).

#[export] Instance M_ret S : MRet (M S) := λ A a w, Done (a, w).
#[export] Instance M_bind S : MBind (M S) := λ A B f m w,
  match m w with
  | Done (a, w') => f a w'
  | Panic msg => Panic msg
  end.

Section primitives.
Context {S : Type}.

Definition panic {A} (msg : string) : M S A := λ _, Panic msg.
Definition get : M S S := λ w, Done (w_store w, w).
Definition put (s : S) : M S unit := λ w, Done (tt, mkWorld (w_step w) s (w_out w)).
Definition modify (f : S → S) : M S unit := s ← get; put (f s).
Definition emit (e : event) : M S unit := λ w, Done (tt, mkWorld (w_step w) (w_store w) (w_out w ++ [e])).
Definition Warn (msg : string) : M S unit := emit (Warned msg).

(** The next step number. *)
Definition next : M S nat := λ w, Done (w_step w, mkWorld (Datatypes.S (w_step w)) (w_store w) (w_out w)).

Context `{Oracle}.

(** [time.Now()] / [nowFn()]. *)
Definition now : M S Time := i ← next; mret (o_now i).
(** [rand.Read] into an [n]-byte buffer. *)
Definition rand_read (n : nat) : M S bytes := i ← next; mret (o_read i n).
(** [rand.Int(rand.Reader, m)]. *)
Definition rand_int (m : Z) : M S Z := i ← next; mret (o_int i m).
(** [uuid.NewString()]. *)
Definition uuid_NewString : M S string := i ← next; mret (o_uuid i).
(** The order of one [range] over a map, or of equal elements in [sort.Slice]. *)
Definition order {A} (l : list A) : M S (list A) := i ← next; mret (o_order i l).
End primitives.

(** [x, err := m; if err != nil { return err }; k]. *)
Definition bind_ok {S A B} (m : M S (result A)) (k : A → M S (result B)) : M S (result B) :=
  r ← m; match r with Ok a => k a | Err e => mret (Err e) end.
Notation "x ←? m ; k" := (bind_ok m (λ x, k))
  (at level 20, m at level 100, k at level 200, only parsing) : stdpp_scope.
Notation "' x ←? m ; k" := (bind_ok m (λ x : _, k))
  (at level 20, x pattern, m at level 100, k at level 200, only parsing) : stdpp_scope.

(** ** Total correctness

    [wp m Q w]: from [w], [m] terminates without panicking, with a result and a
    world satisfying [Q]. *)

Definition wp {S A} (m : M S A) (Q : A → World S → Prop) (w : World S) : Prop :=
  match m w with
  | Done (a, w') => Q a w'
  | Panic _ => False
  end.

Section wp.
Context {S : Type} `{Oracle}.
Implicit Types w : World S.

Lemma wp_ret {A} (a : A) Q w : wp (mret a) Q w ↔ Q a w.
Proof. done. Qed.

Lemma wp_bind {A B} (m : M S A) (f : A → M S B) Q w :
  wp (m ≫= f) Q w ↔ wp m (λ a, wp (f a) Q) w.
Proof. unfold wp, mbind, M_bind. by destruct (m w) as [[a w']|]. Qed.

Lemma wp_mono {A} (m : M S A) (Q Q' : A → World S → Prop) w :
  wp m Q w → (∀ a w', Q a w' → Q' a w') → wp m Q' w.
Proof. unfold wp. destruct (m w) as [[a w']|]; naive_solver. Qed.

Lemma wp_and {A} (m : M S A) (Q Q' : A → World S → Prop) w :
  wp m Q w → wp m Q' w → wp m (λ a w', Q a w' ∧ Q' a w') w.
Proof. unfold wp. by destruct (m w) as [[a w']|]. Qed.

Lemma wp_bind_ok {A B} (m : M S (result A)) (f : A → M S (result B)) Q w :
  wp (bind_ok m f) Q w ↔ wp m (λ r, match r with Ok a => wp (f a) Q | Err e => Q (Err e) end) w.
Proof.
  unfold bind_ok. rewrite wp_bind. unfold wp.
  destruct (m w) as [[[a|e] w']|]; reflexivity.
Qed.

(** Every computation that ends without panicking has a result. *)
Lemma wp_run {A} (m : M S A) Q w : wp m Q w ↔ ∃ a w', m w = Done (a, w') ∧ Q a w'.
Proof. unfold wp. destruct (m w) as [[a w']|]; naive_solver. Qed.

Lemma wp_done {A} (m : M S A) a w w' Q : m w = Done (a, w') → Q a w' → wp m Q w.
Proof. unfold wp. by intros ->. Qed.

(** The world after one step of the environment. *)
Definition tick (w : World S) : World S := mkWorld (Datatypes.S (w_step w)) (w_store w) (w_out w).
Definition set_store (s : S) (w : World S) : World S := mkWorld (w_step w) s (w_out w).
Definition add_out (e : event) (w : World S) : World S :=
  mkWorld (w_step w) (w_store w) (w_out w ++ [e]).

Lemma wp_get Q w : wp get Q w ↔ Q (w_store w) w.
Proof. done. Qed.
Lemma wp_put s Q w : wp (put s) Q w ↔ Q tt (set_store s w).
Proof. done. Qed.
Lemma wp_modify f Q w : wp (modify f) Q w ↔ Q tt (set_store (f (w_store w)) w).
Proof. done. Qed.
Lemma wp_emit e Q w : wp (emit e) Q w ↔ Q tt (add_out e w).
Proof. done. Qed.
Lemma wp_Warn m Q w : wp (Warn m) Q w ↔ Q tt (add_out (Warned m) w).
Proof. done. Qed.
Lemma wp_now Q w : wp now Q w ↔ Q (o_now (w_step w)) (tick w).
Proof. done. Qed.
Lemma wp_rand_read n Q w : wp (rand_read n) Q w ↔ Q (o_read (w_step w) n) (tick w).
Proof. done. Qed.
Lemma wp_rand_int n Q w : wp (rand_int n) Q w ↔ Q (o_int (w_step w) n) (tick w).
Proof. done. Qed.
Lemma wp_uuid Q w : wp uuid_NewString Q w ↔ Q (o_uuid (w_step w)) (tick w).
Proof. done. Qed.
Lemma wp_order {A} (l : list A) Q w : wp (order l) Q w ↔ Q (o_order (w_step w) l) (tick w).
Proof. done. Qed.
End wp.

(** Decompose the program in a [wp] goal down to its first opaque call. *)
Ltac wp_step :=
  first [ rewrite wp_bind | rewrite wp_bind_ok | rewrite wp_ret | rewrite wp_get | rewrite wp_put
        | rewrite wp_modify | rewrite wp_emit | rewrite wp_Warn | rewrite wp_now
        | rewrite wp_rand_read | rewrite wp_rand_int | rewrite wp_uuid | rewrite wp_order ].
Ltac wp_steps := repeat wp_step.

(** ** Ranging over maps *)

(** [for k, v := range m { if p k v { delete(m, k) } }] in the order [l], with the
    number of deleted entries. *)
Definition range_delete {K V} `{Countable K} (p : K → V → bool) (l : list (K * V)) (m : gmap K V)
    : gmap K V * Z :=
  foldl (λ acc kv, if p kv.1 kv.2 then (delete kv.1 acc.1, acc.2 + 1) else acc) (m, 0) l.

(** Whatever the order, a deleting range keeps exactly the entries that fail the test. *)
Lemma range_delete_lookup {K V} `{Countable K} p (l : list (K * V)) (m : gmap K V) k :
  (range_delete p l m).1 !! k =
    if bool_decide (Exists (λ kv, kv.1 = k ∧ p kv.1 kv.2 = true) l) then None else m !! k.
Proof.
  unfold range_delete. generalize 0 at 1. revert m.
  induction l as [|[k' v] l IH]; intros m n; cbn [foldl fst snd].
  - rewrite bool_decide_eq_false_2; [done|]. by intros ?%Exists_nil.
  - destruct (p k' v) eqn:Hp; rewrite IH; cbn [fst snd].
    + destruct (decide (k' = k)) as [->|Hk].
      * rewrite (bool_decide_eq_true_2 (Exists _ (_ :: _))) by (left; done).
        rewrite lookup_delete_eq. by destruct (bool_decide _).
      * rewrite lookup_delete_ne by done. apply if_ext_dec. rewrite Exists_cons. naive_solver.
    + apply if_ext_dec. rewrite Exists_cons. naive_solver congruence.
Qed.

Lemma range_delete_count {K V} `{Countable K} p (l : list (K * V)) (m : gmap K V) :
  (range_delete p l m).2 = Z.of_nat (length (filter (λ kv, p kv.1 kv.2 = true) l)).
Proof.
  unfold range_delete.
  enough (∀ n : Z, (foldl (λ (acc : gmap K V * Z) (kv : K * V), if p kv.1 kv.2
      then (delete kv.1 acc.1, acc.2 + 1) else acc) (m, n) l).2
    = n + Z.of_nat (length (filter (λ kv, p kv.1 kv.2 = true) l))) as Hn by (rewrite Hn; lia).
  revert m. induction l as [|[k v] l IH]; intros m n; cbn [foldl fst snd]; [cbn; lia|].
  rewrite filter_cons. cbn [fst snd]. destruct (p k v) eqn:Hp; cbn [fst snd];
    rewrite IH; case_decide; try done; cbn [length]; lia.
Qed.

(** The number of entries a deletion removes. *)
Definition removed {K V} `{Countable K} (m m' : gmap K V) : Z := Z.of_nat (size m) - Z.of_nat (size m').

Lemma removed_filter {K V} `{Countable K} (p : K * V → bool) (m : gmap K V) :
  Z.of_nat (size (filter (λ kv, p kv = true) m)) = removed m (filter (λ kv, p kv = false) m).
Proof.
  enough (size m = size (filter (λ kv, p kv = true) m) + size (filter (λ kv, p kv = false) m))%nat as Hs
    by (unfold removed; lia).
  rewrite <-map_size_disj_union.
  - f_equal. rewrite <-(map_filter_union_complement (λ kv, p kv = true) m) at 1. f_equal.
    apply map_filter_ext. intros i x _. by rewrite not_true_iff_false.
  - apply map_disjoint_spec. intros i x y [Hm Hx]%map_lookup_filter_Some [Hm' Hy]%map_lookup_filter_Some. congruence.
Qed.

Lemma range_delete_filter {K V} `{Countable K} p (l : list (K * V)) (m : gmap K V) :
  l ≡ₚ map_to_list m → (range_delete p l m).1 = filter (λ kv, p kv.1 kv.2 = false) m.
Proof.
  intros Hl. apply map_eq. intros k. rewrite range_delete_lookup.
  assert (Exists (λ kv, kv.1 = k ∧ p kv.1 kv.2 = true) l ↔ ∃ v, m !! k = Some v ∧ p k v = true) as He.
  { rewrite Hl, Exists_exists. split.
    - intros ([k' v] & Hm%elem_of_map_to_list & Hk & Hp). cbn in *. subst. eauto.
    - intros (v & Hm & Hp). exists (k, v). rewrite elem_of_map_to_list. done. }
  case_bool_decide as Hb; rewrite He in Hb; symmetry.
  - apply map_lookup_filter_None. right. intros v Hv.
    destruct Hb as (v' & Hv' & Hp). cbn. congruence.
  - destruct (m !! k) as [v|] eqn:Hv.
    + apply map_lookup_filter_Some. split; [done|]. cbn.
      destruct (p k v) eqn:Hp; [|done]. exfalso. eauto.
    + apply map_lookup_filter_None. by left.
Qed.

(** One [range] over a map: its entries in an arbitrary order. *)
Definition range_map {S K V} `{Oracle} `{Countable K} (m : gmap K V) : M S (list (K * V)) :=
  order (map_to_list m).

(** [sort.Slice] by a key: sorted, equal keys in an arbitrary order. *)
Definition key_le_string {A} (key : A → string) (x y : A) : Prop := String.le (key x) (key y).
#[export] Instance key_le_string_dec {A} (key : A → string) : RelDecision (key_le_string key).
Proof. intros x y. unfold key_le_string. apply _. Defined.
Definition key_le_Z {A} (key : A → Z) (x y : A) : Prop := key x <= key y.
#[export] Instance key_le_Z_dec {A} (key : A → Z) : RelDecision (key_le_Z key).
Proof. intros x y. unfold key_le_Z. apply _. Defined.

Definition sort_Slice {S A} `{Oracle} (R : relation A) `{!RelDecision R} (l : list A) : M S (list A) :=
  l' ← order l; mret (merge_sort R l').

#[export] Instance key_le_string_trans {A} (key : A → string) : Transitive (key_le_string key).
Proof. intros x y z. unfold key_le_string. apply transitivity. Qed.
#[export] Instance key_le_string_total {A} (key : A → string) : Total (key_le_string key).
Proof. intros x y. unfold key_le_string. apply total, _. Qed.
#[export] Instance key_le_Z_trans {A} (key : A → Z) : Transitive (key_le_Z key).
Proof. intros x y z. unfold key_le_Z. lia. Qed.
#[export] Instance key_le_Z_total {A} (key : A → Z) : Total (key_le_Z key).
Proof. intros x y. unfold key_le_Z. lia. Qed.

Lemma wp_sort_Slice {S A} `{Oracle} (R : relation A) `{!RelDecision R, !Transitive R, !Total R}
    (l : list A) (Q : list A → World S → Prop) w :
  (∀ l', l' ≡ₚ l → StronglySorted R l' → Q l' (tick w)) → wp (sort_Slice R l) Q w.
Proof.
  intros HQ. unfold sort_Slice. wp_steps. apply HQ.
  - rewrite merge_sort_Permutation. apply o_order_perm.
  - apply StronglySorted_merge_sort; apply _.
Qed.

(** A pure computation that may panic. *)
Definition lift {S A} (o : outcome A) : M S A := λ w,
  match o with Done a => Done (a, w) | Panic msg => Panic msg end.
