(* ===== verification/Interleaving.v ===== *)
(** * Interleaved operations

    An operation as the sequence of its atomic steps (a call of a store, a reading of the
    clock or of random bytes), running it alone, and any number of operations running side
    by side: a step relation on a pool of threads over one world, in which the environment
    may act at any time.  A rule for races: of the threads that compete for something only
    one wins. *)

From S2P Require Import Prelude GoStrings Errors World.

Local Open Scope Z_scope.

(** What is left of an operation: its result, or an atomic step. *)
Local Unset Elimination Schemes.
Inductive prog (S A : Type) : Type :=
  | Return (a : A)
  | Atomic (k : World S → outcome (prog S A * World S)).
Local Set Elimination Schemes.
Arguments Return {S A} a.
Arguments Atomic {S A} k.

(** Induction over the steps. *)
Lemma prog_steps_ind {S A} (P : prog S A → Prop) :
  (∀ a, P (Return a)) →
  (∀ k, (∀ w, match k w with Done (p, _) => P p | Panic _ => True end) → P (Atomic k)) →
  ∀ p, P p.
Proof.
  intros Hret Hstep. fix IH 1. intros [a|k]; [apply Hret|]. apply Hstep. intros w.
  destruct (k w) as [[p w']|msg]; [apply IH|exact I].
Qed.

(** One atomic step. *)
Definition step {S A} (m : M S A) : prog S A := Atomic (λ w,
  match m w with Done (a, w') => Done (Return a, w') | Panic msg => Panic msg end).

Fixpoint pbind {S A B} (f : A → prog S B) (p : prog S A) : prog S B :=
  match p with
  | Return a => f a
  | Atomic k => Atomic (λ w,
      match k w with Done (p', w') => Done (pbind f p', w') | Panic msg => Panic msg end)
  end.

#[export] Instance prog_ret S : MRet (prog S) := λ A a, Return a.
#[export] Instance prog_bind S : MBind (prog S) := λ A B f p, pbind f p.

(** Alone. *)
Fixpoint run {S A} (p : prog S A) : M S A := λ w,
  match p with
  | Return a => Done (a, w)
  | Atomic k => match k w with Done (p', w') => run p' w' | Panic msg => Panic msg end
  end.

Section alone.
Context {S : Type}.

Lemma run_bind {A B} (p : prog S A) (f : A → prog S B) w :
  run (p ≫= f) w = (run p ≫= λ a, run (f a)) w.
Proof.
  unfold mbind, prog_bind, M_bind. revert w. induction p as [a|k IH] using prog_steps_ind; intros w; [done|].
  cbn. specialize (IH w). destruct (k w) as [[p' w']|]; [apply IH|done].
Qed.
Lemma run_step {A} (m : M S A) w : run (step m) w = m w.
Proof. cbn. by destruct (m w) as [[a w']|]. Qed.

Lemma bind_ext {A B} (m m' : M S A) (f f' : A → M S B) w :
  (∀ w, m w = m' w) → (∀ a w, f a w = f' a w) → (m ≫= f) w = (m' ≫= f') w.
Proof. intros Hm Hf. unfold mbind, M_bind. rewrite Hm. by destruct (m' w) as [[a w']|]. Qed.

Lemma run_step_bind {A B} (m : M S A) (f : A → prog S B) (g : A → M S B) w :
  (∀ a w, run (f a) w = g a w) → run (step m ≫= f) w = (m ≫= g) w.
Proof. intros Hf. rewrite run_bind. apply bind_ext; [apply run_step|done]. Qed.
Lemma run_prog_bind {A B} (p : prog S A) (m : M S A) (f : A → prog S B) (g : A → M S B) w :
  (∀ w, run p w = m w) → (∀ a w, run (f a) w = g a w) → run (p ≫= f) w = (m ≫= g) w.
Proof. intros Hp Hf. rewrite run_bind. by apply bind_ext. Qed.

(** Side by side: some thread takes a step, or the environment does. *)
Inductive pool_step {A} (env : World S → World S → Prop) :
    list (prog S A) * World S → list (prog S A) * World S → Prop :=
  | pool_thread ts w i k p w' : ts !! i = Some (Atomic k) → k w = Done (p, w') →
      pool_step env (ts, w) (<[i := p]> ts, w')
  | pool_env ts w w' : env w w' → pool_step env (ts, w) (ts, w').

(** A schedule: the threads that take the next steps. *)
Fixpoint run_schedule {A} (l : list nat) (ts : list (prog S A)) (w : World S)
    : option (list (prog S A) * World S) :=
  match l with
  | [] => Some (ts, w)
  | i :: l =>
    match ts !! i with
    | Some (Atomic k) =>
      match k w with Done (p, w') => run_schedule l (<[i := p]> ts) w' | Panic _ => None end
    | _ => None
    end
  end.

Lemma run_schedule_steps {A} env l (ts : list (prog S A)) w ts' w' :
  run_schedule l ts w = Some (ts', w') → rtc (pool_step env) (ts, w) (ts', w').
Proof.
  revert ts w. induction l as [|i l IH]; intros ts w; cbn; [by intros [= -> ->]|].
  destruct (ts !! i) as [[a|k]|] eqn:Hi; [done| |done]. destruct (k w) as [[p w1]|] eqn:Hk; [|done].
  intros Hr. eapply rtc_l; [by eapply pool_thread|by apply IH].
Qed.
End alone.

(** ** Races *)

Section race.
Context {S A : Type} (inv spent : World S → Prop) (won : A → Prop).

(** What every step of a thread and of the environment keeps: what is spent stays spent. *)
Definition keeps (w w' : World S) : Prop := inv w' ∧ (spent w → spent w').

(** A thread that runs on, keeping this, and does not panic. *)
Fixpoint settled (p : prog S A) : Prop :=
  match p with
  | Return _ => True
  | Atomic k => ∀ w, inv w → match k w with Done (p', w') => keeps w w' ∧ settled p' | Panic _ => False end
  end.

(** A thread that wins only through a step that spends. *)
Fixpoint racing (p : prog S A) : Prop :=
  match p with
  | Return a => ¬ won a
  | Atomic k => ∀ w, inv w →
      match k w with
      | Done (p', w') => keeps w w' ∧ (racing p' ∨ ¬ spent w ∧ spent w' ∧ settled p')
      | Panic _ => False
      end
  end.

Lemma settled_step {B} (m : M S B) (f : B → prog S A) :
  (∀ w, inv w → wp m (λ b w', keeps w w' ∧ settled (f b)) w) → settled (step m ≫= f).
Proof.
  intros Hm w Hi. specialize (Hm w Hi). unfold wp in Hm.
  by destruct (m w) as [[b w']|].
Qed.
Lemma racing_step {B} (m : M S B) (f : B → prog S A) :
  (∀ w, inv w → wp m (λ b w', keeps w w' ∧ (racing (f b) ∨ ¬ spent w ∧ spent w' ∧ settled (f b))) w) →
  racing (step m ≫= f).
Proof.
  intros Hm w Hi. specialize (Hm w Hi). unfold wp in Hm.
  by destruct (m w) as [[b w']|].
Qed.

(** All threads race, or one has settled and the prize is gone. *)
Definition race_inv (x : list (prog S A) * World S) : Prop :=
  inv x.2 ∧ (Forall racing x.1
    ∨ spent x.2 ∧ ∃ i p, x.1 !! i = Some p ∧ settled p ∧ ∀ j q, j ≠ i → x.1 !! j = Some q → racing q).

Context (env : World S → World S → Prop) (Henv : ∀ w w', inv w → env w w' → keeps w w').

Lemma race_step x y : pool_step env x y → race_inv x → race_inv y.
Proof.
  intros [ts w i k p w' Hi Hk|ts w w' He] [Hinv Hr]; cbn in *.
  2:{ destruct (Henv w w' Hinv He) as [Hi' Hs]. split; [done|]. destruct Hr as [?|[? ?]]; [by left|right; auto]. }
  assert (i < length ts)%nat as Hlt by by apply lookup_lt_Some in Hi.
  destruct Hr as [Hall|(Hsp & i0 & p0 & Hi0 & Hset & Hrest)].
  - pose proof (Forall_lookup_1 _ _ _ _ Hall Hi) as Hstep. cbn in Hstep.
    specialize (Hstep w Hinv). rewrite Hk in Hstep. destruct Hstep as [[Hi' _] [Hp|(_ & Hsp & Hp)]]; (split; [done|]).
    + left. by apply Forall_insert.
    + right. split; [done|]. exists i, p. cbn. rewrite list_lookup_insert_eq by done. split; [done|]. split; [done|].
      intros j q Hj. rewrite list_lookup_insert_ne by done. by apply Forall_lookup_1.
  - destruct (decide (i = i0)) as [->|Hne].
    + rewrite Hi in Hi0. injection Hi0 as <-. cbn in Hset.
      specialize (Hset w Hinv). rewrite Hk in Hset. destruct Hset as [[Hi' Hs] Hp]. split; [done|]. right.
      split; [by apply Hs|]. exists i0, p. cbn. rewrite list_lookup_insert_eq by done. split; [done|]. split; [done|].
      intros j q Hj. rewrite list_lookup_insert_ne by done. by apply Hrest.
    + pose proof (Hrest i _ Hne Hi) as Hstep. cbn in Hstep.
      specialize (Hstep w Hinv). rewrite Hk in Hstep. destruct Hstep as [[Hi' Hs] [Hp|[Hn _]]]; [|by destruct Hn].
      split; [done|]. right. split; [by apply Hs|]. exists i0, p0. cbn. rewrite list_lookup_insert_ne by done.
      split; [done|]. split; [done|]. intros j q Hj. destruct (decide (j = i)) as [->|Hji].
      * rewrite list_lookup_insert_eq by done. by intros [= <-].
      * rewrite list_lookup_insert_ne by done. by apply Hrest.
Qed.

(** In every interleaving at most one thread wins, and none panics. *)
Definition race_safe (ts : list (prog S A)) (w : World S) : Prop :=
  (∀ i j a b, ts !! i = Some (Return a) → ts !! j = Some (Return b) → won a → won b → i = j)
  ∧ ∀ i k, ts !! i = Some (Atomic k) → ∃ p w', k w = Done (p, w').

Lemma race_inv_safe ts w : race_inv (ts, w) → race_safe ts w.
Proof.
  assert (∀ a, racing (Return a) → ¬ won a) as Hlost by done.
  assert (∀ k, inv w → racing (Atomic k) ∨ settled (Atomic k) → ∃ p w', k w = Done (p, w')) as Hgo.
  { intros k Hi [Hr|Hr]; cbn in Hr; specialize (Hr w Hi); destruct (k w) as [[p w']|]; by eauto. }
  intros [Hinv [Hall|(_ & i0 & p0 & Hi0 & Hset & Hrest)]]; cbn in *; split.
  - intros i j a b Hi _ Ha. by destruct (Hlost a (Forall_lookup_1 _ _ _ _ Hall Hi)).
  - intros i k Hi. apply Hgo; [done|]. left. by apply (Forall_lookup_1 _ _ _ _ Hall Hi).
  - intros i j a b Hi Hj Ha Hb. destruct (decide (i = i0)) as [->|Hni];
      [|by destruct (Hlost a (Hrest _ _ Hni Hi))].
    destruct (decide (j = i0)) as [->|Hnj]; [done|by destruct (Hlost b (Hrest _ _ Hnj Hj))].
  - intros i k Hi. apply Hgo; [done|]. destruct (decide (i = i0)) as [->|Hni]; [|left; exact (Hrest i _ Hni Hi)].
    right. rewrite Hi0 in Hi. by injection Hi as ->.
Qed.

Lemma race_one_winner ts w ts' w' : inv w → Forall racing ts →
  rtc (pool_step env) (ts, w) (ts', w') → race_safe ts' w'.
Proof.
  intros Hi Hts Hr. apply race_inv_safe. assert (race_inv (ts, w)) as H0 by (split; [done|by left]).
  revert H0. remember (ts, w) as x. remember (ts', w') as y. clear -Hr Henv. induction Hr; subst; eauto using race_step.
Qed.
End race.
