(* ===== verification/Entities.v ===== *)
(** * Entities and options

    [identity/entities.go], [identity/options.go] and the data of
    [identity/store.go].  Each struct is a record with the source's fields; a
    pointer field is an [option].  [T] is fixed to the built-in [User], so [Base()]
    is the identity.  A store hands out copies, so an operation that mutates the
    caller's [*User] takes the user and returns the mutated one. *)

From S2P Require Import Prelude GoStrings Errors World.

Local Open Scope Z_scope.

(** [identity.User]; [Attributes] is nil or a map. *)
Record User := mkUser {
  ID : string;
  UserName : string;
  NormalizedUserName : string;
  Email : string;
  NormalizedEmail : string;
  EmailConfirmed : bool;
  PasswordHash : string;
  SecurityStamp : string;
  ConcurrencyStamp : string;
  PhoneNumber : string;
  PhoneNumberConfirmed : bool;
  TwoFactorEnabled : bool;
  LockoutEnd : option Time;
  LockoutEnabled : bool;
  AccessFailedCount : Z;
  IsAnonymous : bool;
  Attributes : option (gmap string string);
  CreatedAt : Time;
  UpdatedAt : Time;
}.

#[export] Instance User_eq_dec : EqDecision User.
Proof. solve_decision. Defined.

(** Assignments [u.F = v]. *)
Definition set_ID (v : string) (u : User) : User :=
  mkUser v (UserName u) (NormalizedUserName u) (Email u) (NormalizedEmail u) (EmailConfirmed u) (PasswordHash u) (SecurityStamp u) (ConcurrencyStamp u) (PhoneNumber u) (PhoneNumberConfirmed u) (TwoFactorEnabled u) (LockoutEnd u) (LockoutEnabled u) (AccessFailedCount u) (IsAnonymous u) (Attributes u) (CreatedAt u) (UpdatedAt u).
Definition set_UserName (v : string) (u : User) : User :=
  mkUser (ID u) v (NormalizedUserName u) (Email u) (NormalizedEmail u) (EmailConfirmed u) (PasswordHash u) (SecurityStamp u) (ConcurrencyStamp u) (PhoneNumber u) (PhoneNumberConfirmed u) (TwoFactorEnabled u) (LockoutEnd u) (LockoutEnabled u) (AccessFailedCount u) (IsAnonymous u) (Attributes u) (CreatedAt u) (UpdatedAt u).
Definition set_NormalizedUserName (v : string) (u : User) : User :=
  mkUser (ID u) (UserName u) v (Email u) (NormalizedEmail u) (EmailConfirmed u) (PasswordHash u) (SecurityStamp u) (ConcurrencyStamp u) (PhoneNumber u) (PhoneNumberConfirmed u) (TwoFactorEnabled u) (LockoutEnd u) (LockoutEnabled u) (AccessFailedCount u) (IsAnonymous u) (Attributes u) (CreatedAt u) (UpdatedAt u).
Definition set_Email (v : string) (u : User) : User :=
  mkUser (ID u) (UserName u) (NormalizedUserName u) v (NormalizedEmail u) (EmailConfirmed u) (PasswordHash u) (SecurityStamp u) (ConcurrencyStamp u) (PhoneNumber u) (PhoneNumberConfirmed u) (TwoFactorEnabled u) (LockoutEnd u) (LockoutEnabled u) (AccessFailedCount u) (IsAnonymous u) (Attributes u) (CreatedAt u) (UpdatedAt u).
Definition set_NormalizedEmail (v : string) (u : User) : User :=
  mkUser (ID u) (UserName u) (NormalizedUserName u) (Email u) v (EmailConfirmed u) (PasswordHash u) (SecurityStamp u) (ConcurrencyStamp u) (PhoneNumber u) (PhoneNumberConfirmed u) (TwoFactorEnabled u) (LockoutEnd u) (LockoutEnabled u) (AccessFailedCount u) (IsAnonymous u) (Attributes u) (CreatedAt u) (UpdatedAt u).
Definition set_EmailConfirmed (v : bool) (u : User) : User :=
  mkUser (ID u) (UserName u) (NormalizedUserName u) (Email u) (NormalizedEmail u) v (PasswordHash u) (SecurityStamp u) (ConcurrencyStamp u) (PhoneNumber u) (PhoneNumberConfirmed u) (TwoFactorEnabled u) (LockoutEnd u) (LockoutEnabled u) (AccessFailedCount u) (IsAnonymous u) (Attributes u) (CreatedAt u) (UpdatedAt u).
Definition set_PasswordHash (v : string) (u : User) : User :=
  mkUser (ID u) (UserName u) (NormalizedUserName u) (Email u) (NormalizedEmail u) (EmailConfirmed u) v (SecurityStamp u) (ConcurrencyStamp u) (PhoneNumber u) (PhoneNumberConfirmed u) (TwoFactorEnabled u) (LockoutEnd u) (LockoutEnabled u) (AccessFailedCount u) (IsAnonymous u) (Attributes u) (CreatedAt u) (UpdatedAt u).
Definition set_SecurityStamp (v : string) (u : User) : User :=
  mkUser (ID u) (UserName u) (NormalizedUserName u) (Email u) (NormalizedEmail u) (EmailConfirmed u) (PasswordHash u) v (ConcurrencyStamp u) (PhoneNumber u) (PhoneNumberConfirmed u) (TwoFactorEnabled u) (LockoutEnd u) (LockoutEnabled u) (AccessFailedCount u) (IsAnonymous u) (Attributes u) (CreatedAt u) (UpdatedAt u).
Definition set_ConcurrencyStamp (v : string) (u : User) : User :=
  mkUser (ID u) (UserName u) (NormalizedUserName u) (Email u) (NormalizedEmail u) (EmailConfirmed u) (PasswordHash u) (SecurityStamp u) v (PhoneNumber u) (PhoneNumberConfirmed u) (TwoFactorEnabled u) (LockoutEnd u) (LockoutEnabled u) (AccessFailedCount u) (IsAnonymous u) (Attributes u) (CreatedAt u) (UpdatedAt u).
Definition set_PhoneNumber (v : string) (u : User) : User :=
  mkUser (ID u) (UserName u) (NormalizedUserName u) (Email u) (NormalizedEmail u) (EmailConfirmed u) (PasswordHash u) (SecurityStamp u) (ConcurrencyStamp u) v (PhoneNumberConfirmed u) (TwoFactorEnabled u) (LockoutEnd u) (LockoutEnabled u) (AccessFailedCount u) (IsAnonymous u) (Attributes u) (CreatedAt u) (UpdatedAt u).
Definition set_PhoneNumberConfirmed (v : bool) (u : User) : User :=
  mkUser (ID u) (UserName u) (NormalizedUserName u) (Email u) (NormalizedEmail u) (EmailConfirmed u) (PasswordHash u) (SecurityStamp u) (ConcurrencyStamp u) (PhoneNumber u) v (TwoFactorEnabled u) (LockoutEnd u) (LockoutEnabled u) (AccessFailedCount u) (IsAnonymous u) (Attributes u) (CreatedAt u) (UpdatedAt u).
Definition set_TwoFactorEnabled (v : bool) (u : User) : User :=
  mkUser (ID u) (UserName u) (NormalizedUserName u) (Email u) (NormalizedEmail u) (EmailConfirmed u) (PasswordHash u) (SecurityStamp u) (ConcurrencyStamp u) (PhoneNumber u) (PhoneNumberConfirmed u) v (LockoutEnd u) (LockoutEnabled u) (AccessFailedCount u) (IsAnonymous u) (Attributes u) (CreatedAt u) (UpdatedAt u).
Definition set_LockoutEnd (v : option Time) (u : User) : User :=
  mkUser (ID u) (UserName u) (NormalizedUserName u) (Email u) (NormalizedEmail u) (EmailConfirmed u) (PasswordHash u) (SecurityStamp u) (ConcurrencyStamp u) (PhoneNumber u) (PhoneNumberConfirmed u) (TwoFactorEnabled u) v (LockoutEnabled u) (AccessFailedCount u) (IsAnonymous u) (Attributes u) (CreatedAt u) (UpdatedAt u).
Definition set_LockoutEnabled (v : bool) (u : User) : User :=
  mkUser (ID u) (UserName u) (NormalizedUserName u) (Email u) (NormalizedEmail u) (EmailConfirmed u) (PasswordHash u) (SecurityStamp u) (ConcurrencyStamp u) (PhoneNumber u) (PhoneNumberConfirmed u) (TwoFactorEnabled u) (LockoutEnd u) v (AccessFailedCount u) (IsAnonymous u) (Attributes u) (CreatedAt u) (UpdatedAt u).
Definition set_AccessFailedCount (v : Z) (u : User) : User :=
  mkUser (ID u) (UserName u) (NormalizedUserName u) (Email u) (NormalizedEmail u) (EmailConfirmed u) (PasswordHash u) (SecurityStamp u) (ConcurrencyStamp u) (PhoneNumber u) (PhoneNumberConfirmed u) (TwoFactorEnabled u) (LockoutEnd u) (LockoutEnabled u) v (IsAnonymous u) (Attributes u) (CreatedAt u) (UpdatedAt u).
Definition set_IsAnonymous (v : bool) (u : User) : User :=
  mkUser (ID u) (UserName u) (NormalizedUserName u) (Email u) (NormalizedEmail u) (EmailConfirmed u) (PasswordHash u) (SecurityStamp u) (ConcurrencyStamp u) (PhoneNumber u) (PhoneNumberConfirmed u) (TwoFactorEnabled u) (LockoutEnd u) (LockoutEnabled u) (AccessFailedCount u) v (Attributes u) (CreatedAt u) (UpdatedAt u).
Definition set_Attributes (v : option (gmap string string)) (u : User) : User :=
  mkUser (ID u) (UserName u) (NormalizedUserName u) (Email u) (NormalizedEmail u) (EmailConfirmed u) (PasswordHash u) (SecurityStamp u) (ConcurrencyStamp u) (PhoneNumber u) (PhoneNumberConfirmed u) (TwoFactorEnabled u) (LockoutEnd u) (LockoutEnabled u) (AccessFailedCount u) (IsAnonymous u) v (CreatedAt u) (UpdatedAt u).
Definition set_CreatedAt (v : Time) (u : User) : User :=
  mkUser (ID u) (UserName u) (NormalizedUserName u) (Email u) (NormalizedEmail u) (EmailConfirmed u) (PasswordHash u) (SecurityStamp u) (ConcurrencyStamp u) (PhoneNumber u) (PhoneNumberConfirmed u) (TwoFactorEnabled u) (LockoutEnd u) (LockoutEnabled u) (AccessFailedCount u) (IsAnonymous u) (Attributes u) v (UpdatedAt u).
Definition set_UpdatedAt (v : Time) (u : User) : User :=
  mkUser (ID u) (UserName u) (NormalizedUserName u) (Email u) (NormalizedEmail u) (EmailConfirmed u) (PasswordHash u) (SecurityStamp u) (ConcurrencyStamp u) (PhoneNumber u) (PhoneNumberConfirmed u) (TwoFactorEnabled u) (LockoutEnd u) (LockoutEnabled u) (AccessFailedCount u) (IsAnonymous u) (Attributes u) (CreatedAt u) v.

(** [new(User)]: the zero value. *)
Definition zeroUser : User :=
  mkUser "" "" "" "" "" false "" "" "" "" false false None false 0 false None zeroTime zeroTime.

(** [GetAttribute] and [SetAttribute]. *)
Definition GetAttribute (u : User) (key : string) : string * bool :=
  match Attributes u with
  | None => ("", false)
  | Some m => match m !! key with Some v => (v, true) | None => ("", false) end
  end.
Definition SetAttribute (u : User) (key value : string) : User :=
  let m := match Attributes u with None => ∅ | Some m => m end in
  set_Attributes (Some (<[key := value]> m)) u.

(** [identity.Role]. *)
Record Role := mkRole {
  Role_ID : string;
  Role_Name : string;
  Role_NormalizedName : string;
  Role_ConcurrencyStamp : string;
}.
Definition set_Role_ID (v : string) (r : Role) : Role :=
  mkRole v (Role_Name r) (Role_NormalizedName r) (Role_ConcurrencyStamp r).
Definition set_Role_Name (v : string) (r : Role) : Role :=
  mkRole (Role_ID r) v (Role_NormalizedName r) (Role_ConcurrencyStamp r).
Definition set_Role_NormalizedName (v : string) (r : Role) : Role :=
  mkRole (Role_ID r) (Role_Name r) v (Role_ConcurrencyStamp r).
Definition set_Role_ConcurrencyStamp (v : string) (r : Role) : Role :=
  mkRole (Role_ID r) (Role_Name r) (Role_NormalizedName r) v.

(** [identity.Claim], [identity.UserLoginInfo] and [identity.Scopes]. *)
Record Claim := mkClaim { Claim_Type : string; Claim_Value : string }.
#[export] Instance Claim_eq_dec : EqDecision Claim.
Proof. solve_decision. Defined.

Record UserLoginInfo := mkLogin {
  LoginProvider : string;
  ProviderKey : string;
  ProviderDisplayName : string;
}.

Abbreviation Scopes := (list string) (only parsing).

(** [identity.APIKey]; [Scopes] is nil or a slice. *)
Record APIKey := mkAPIKey {
  Key_ID : string;
  Key_UserID : string;
  Key_Name : string;
  Key_Prefix : string;
  KeyHash : string;
  Key_Scopes : option Scopes;
  Key_ExpiresAt : option Time;
  Key_LastUsedAt : option Time;
  Key_RevokedAt : option Time;
  Key_CreatedAt : Time;
}.
Definition set_Key_LastUsedAt (v : option Time) (k : APIKey) : APIKey :=
  mkAPIKey (Key_ID k) (Key_UserID k) (Key_Name k) (Key_Prefix k) (KeyHash k) (Key_Scopes k) (Key_ExpiresAt k) v (Key_RevokedAt k) (Key_CreatedAt k).
Definition set_Key_RevokedAt (v : option Time) (k : APIKey) : APIKey :=
  mkAPIKey (Key_ID k) (Key_UserID k) (Key_Name k) (Key_Prefix k) (KeyHash k) (Key_Scopes k) (Key_ExpiresAt k) (Key_LastUsedAt k) v (Key_CreatedAt k).

(** [identity.RefreshToken]: one refresh session. *)
Record RefreshToken := mkRefreshToken {
  SessionID : string;
  Session_UserID : string;
  TokenHash : string;
  Session_Name : string;
  ExpiresAt : Time;
  Session_CreatedAt : Time;
  LastUsedAt : option Time;
}.
Definition set_TokenHash (v : string) (t : RefreshToken) : RefreshToken :=
  mkRefreshToken (SessionID t) (Session_UserID t) v (Session_Name t) (ExpiresAt t) (Session_CreatedAt t) (LastUsedAt t).
Definition set_ExpiresAt (v : Time) (t : RefreshToken) : RefreshToken :=
  mkRefreshToken (SessionID t) (Session_UserID t) (TokenHash t) (Session_Name t) v (Session_CreatedAt t) (LastUsedAt t).
Definition set_LastUsedAt (v : option Time) (t : RefreshToken) : RefreshToken :=
  mkRefreshToken (SessionID t) (Session_UserID t) (TokenHash t) (Session_Name t) (ExpiresAt t) (Session_CreatedAt t) v.

#[export] Instance Role_eq_dec : EqDecision Role.
Proof. solve_decision. Defined.
#[export] Instance UserLoginInfo_eq_dec : EqDecision UserLoginInfo.
Proof. solve_decision. Defined.
#[export] Instance APIKey_eq_dec : EqDecision APIKey.
Proof. solve_decision. Defined.
#[export] Instance RefreshToken_eq_dec : EqDecision RefreshToken.
Proof. solve_decision. Defined.

(** ** Options *)

Record PasswordOptions := mkPasswordOptions {
  RequiredLength : Z;
  RequireDigit : bool;
  RequireLowercase : bool;
  RequireUppercase : bool;
  RequireNonAlphanumeric : bool;
  RequiredUniqueChars : Z;
}.

Record LockoutOptions := mkLockoutOptions {
  AllowedForNewUsers : bool;
  MaxFailedAccessAttempts : Z;
  DefaultLockoutDuration : Duration;
}.

Record UserOptions := mkUserOptions {
  RequireUniqueEmail : bool;
  AllowedUserNameCharacters : string;
}.

Record SignInOptions := mkSignInOptions {
  RequireConfirmedEmail : bool;
  RequireConfirmedPhoneNumber : bool;
}.

Record Options := mkOptions {
  Opt_Password : PasswordOptions;
  Opt_Lockout : LockoutOptions;
  Opt_User : UserOptions;
  Opt_SignIn : SignInOptions;
}.

Definition DefaultOptions : Options := mkOptions
  (mkPasswordOptions 6 true true true true 1)
  (mkLockoutOptions true 5 (5 * Minute))
  (mkUserOptions true "abcdefghijklmnopqrstuvwxyzABCDEFGHIJKLMNOPQRSTUVWXYZ0123456789-._@+")
  (mkSignInOptions false false).

(** [identity.ListFilter] and its [Clamp]. *)
Record ListFilter := mkListFilter { Search : string; Limit : Z; Offset : Z }.

Definition Clamp (f : ListFilter) : ListFilter :=
  let lim := if Limit f <=? 0 then 50 else Limit f in
  let lim := if 500 <? lim then 500 else lim in
  let off := if Offset f <? 0 then 0 else Offset f in
  mkListFilter (Search f) lim off.

Lemma Clamp_bounds f :
  1 <= Limit (Clamp f) <= 500 ∧ 0 <= Offset (Clamp f) ∧ Search (Clamp f) = Search f
  ∧ (1 <= Limit f <= 500 → Limit (Clamp f) = Limit f)
  ∧ (0 <= Offset f → Offset (Clamp f) = Offset f).
Proof.
  unfold Clamp. cbn. destruct (Z.leb_spec (Limit f) 0), (Z.ltb_spec (Offset f) 0);
    destruct (Z.ltb_spec 500 (Limit f)); cbn; repeat split; lia.
Qed.

