(* ===== verification/OAuthTypes.v ===== *)
(** * OAuth data

    [oauth/types.go]: the constants and rows of the authorization server's store. *)

From S2P Require Import Prelude GoStrings Errors World.

Local Open Scope Z_scope.

Definition AuthMethodNone : string := "none".
Definition AuthMethodClientSecretBasic : string := "client_secret_basic".
Definition AuthMethodClientSecretPost : string := "client_secret_post".
Definition AuthMethodPrivateKeyJWT : string := "private_key_jwt".
Definition ClientAssertionTypeJWTBearer : string :=
  "urn:ietf:params:oauth:client-assertion-type:jwt-bearer".
Definition GrantTypeAuthorizationCode : string := "authorization_code".
Definition GrantTypeRefreshToken : string := "refresh_token".
Definition ScopeOfflineAccess : string := "offline_access".

(** [oauth.Client]: a registered client; [SecretHash] is empty for public clients. *)
Record Client := mkClient {
  Client_ID : string;
  SecretHash : string;
  Client_Name : string;
  RedirectURIs : list string;
  TokenEndpointAuthMethod : string;
  GrantTypes : list string;
  Client_CreatedAt : Time;
  Client_LastUsedAt : option Time;
}.

(** [oauth.Code]: an authorization code, stored by hash. *)
Record Code := mkCode {
  CodeHash : string;
  Code_ClientID : string;
  Code_UserID : string;
  Code_RedirectURI : string;
  Code_Scopes : string;
  Code_Resource : string;
  CodeChallenge : string;
  Code_ExpiresAt : Time;
  UsedAt : option Time;
  Code_GrantID : string;
}.

(** [oauth.Consent]: the scopes a user approved for a client. *)
Record Consent := mkConsent {
  Consent_UserID : string;
  Consent_ClientID : string;
  Consent_Scopes : string;
  Consent_CreatedAt : Time;
  Consent_UpdatedAt : Time;
}.

(** [oauth.Grant]: a connected app, with its current and previous refresh hashes. *)
Record Grant := mkGrant {
  Grant_ID : string;
  Grant_UserID : string;
  Grant_ClientID : string;
  Grant_Scopes : string;
  Grant_Resource : string;
  Grant_TokenHash : string;
  PrevTokenHash : string;
  Grant_SecurityStamp : string;
  Grant_ExpiresAt : Time;
  Grant_CreatedAt : Time;
  Grant_LastUsedAt : option Time;
}.

#[export] Instance Client_eq_dec : EqDecision Client.
Proof. solve_decision. Defined.
#[export] Instance Code_eq_dec : EqDecision Code.
Proof. solve_decision. Defined.
#[export] Instance Consent_eq_dec : EqDecision Consent.
Proof. solve_decision. Defined.
#[export] Instance Grant_eq_dec : EqDecision Grant.
Proof. solve_decision. Defined.

Definition touch_Client (at_ : Time) (c : Client) : Client :=
  mkClient (Client_ID c) (SecretHash c) (Client_Name c) (RedirectURIs c)
    (TokenEndpointAuthMethod c) (GrantTypes c) (Client_CreatedAt c) (Some at_).

Definition mark_Code (at_ : Time) (grantID : string) (c : Code) : Code :=
  mkCode (CodeHash c) (Code_ClientID c) (Code_UserID c) (Code_RedirectURI c) (Code_Scopes c)
    (Code_Resource c) (CodeChallenge c) (Code_ExpiresAt c) (Some at_) grantID.

Definition set_Consent_CreatedAt (at_ : Time) (c : Consent) : Consent :=
  mkConsent (Consent_UserID c) (Consent_ClientID c) (Consent_Scopes c) at_ (Consent_UpdatedAt c).

Definition rotate_Grant (oldHash newHash : string) (expiresAt usedAt : Time) (g : Grant) : Grant :=
  mkGrant (Grant_ID g) (Grant_UserID g) (Grant_ClientID g) (Grant_Scopes g) (Grant_Resource g)
    newHash oldHash (Grant_SecurityStamp g) expiresAt (Grant_CreatedAt g) (Some usedAt).
