(* ===== verification/Stores.v ===== *)
(** * Store interfaces

    [identity/store.go] and the [Store] interface of [oauth/types.go]: one class per
    interface, with the methods the managers call.  [S] is the state of the
    implementation.  A method that writes through its pointer argument returns the
    mutated value; a finder returning [(nil, nil)] is [Ok None].  The optional
    capabilities a manager discovers by a type assertion are [option]s. *)

From S2P Require Import Prelude GoStrings Errors World Entities OAuthTypes.

Class UserStore (S : Type) := {
  us_Create : User → M S (User * result unit);
  us_Update : User → M S (User * result unit);
  us_Delete : User → M S (result unit);
  us_FindByID : string → M S (result (option User));
  us_FindByName : string → M S (result (option User));
  us_FindByEmail : string → M S (result (option User));
  us_AddToRole : User → string → M S (result unit);
  us_RemoveFromRole : User → string → M S (result unit);
  us_GetRoles : User → M S (result (list string));
  us_IsInRole : User → string → M S (result bool);
  us_GetUsersInRole : string → M S (result (list User));
  us_GetClaims : User → M S (result (list Claim));
  us_AddClaims : User → list Claim → M S (result unit);
  us_RemoveClaims : User → list Claim → M S (result unit);
  us_GetUsersForClaim : string → string → M S (result (list User));
  us_GetToken : User → string → string → M S (result string);
  us_SetToken : User → string → string → string → M S (result unit);
  us_RemoveToken : User → string → string → M S (result unit);
  us_AddLogin : User → UserLoginInfo → M S (result unit);
  us_RemoveLogin : User → string → string → M S (result unit);
  us_GetLogins : User → M S (result (list UserLoginInfo));
  us_FindByLogin : string → string → M S (result (option User));
  us_ListUsers : option (ListFilter → M S (result (list User * Z)));
  us_PurgeAnonymousUsers : option (Z → M S (result Z));
}.

Class RoleStore (S : Type) := {
  rs_Create : Role → M S (Role * result unit);
  rs_Update : Role → M S (Role * result unit);
  rs_Delete : Role → M S (result unit);
  rs_FindByID : string → M S (result (option Role));
  rs_FindByName : string → M S (result (option Role));
  rs_GetClaims : Role → M S (result (list Claim));
  rs_AddClaim : Role → Claim → M S (result unit);
  rs_RemoveClaim : Role → Claim → M S (result unit);
}.

Class APIKeyStore (S : Type) := {
  ks_CreateAPIKey : APIKey → M S (result unit);
  ks_GetActiveAPIKeyByHash : string → M S (result APIKey);
  ks_ListAPIKeysByUser : string → M S (result (list APIKey));
  ks_RevokeAPIKey : string → M S (result unit);
  ks_TouchAPIKeyLastUsed : string → M S (result unit);
}.

Class RefreshTokenStore (S : Type) := {
  ts_CreateRefreshToken : RefreshToken → M S (result unit);
  ts_GetRefreshTokenBySession : string → M S (result RefreshToken);
  ts_UpdateRefreshToken : RefreshToken → M S (result unit);
  ts_DeleteRefreshToken : string → M S (result unit);
  ts_DeleteUserRefreshTokens : string → M S (result Z);
  ts_DeleteExpiredRefreshTokens : Z → M S (result Z);
  ts_ListUserRefreshTokens : string → M S (result (list RefreshToken));
}.

Class OAuthStore (S : Type) := {
  os_CreateClient : Client → M S (result unit);
  os_GetClient : string → M S (result Client);
  os_TouchClient : string → Z → M S (result unit);
  os_DeleteStaleClients : Z → M S (result Z);
  os_CreateCode : Code → M S (result unit);
  os_GetCode : string → M S (result Code);
  os_MarkCodeUsed : string → string → Z → M S (result bool);
  os_DeleteExpiredCodes : Z → M S (result Z);
  os_GetConsent : string → string → M S (result Consent);
  os_SaveConsent : Consent → M S (result unit);
  os_DeleteConsent : string → string → M S (result unit);
  os_CreateGrant : Grant → M S (result unit);
  os_GetGrant : string → M S (result Grant);
  os_RotateGrant : string → string → string → Z → Z → M S (result bool);
  os_DeleteGrant : string → M S (result unit);
  os_DeleteUserClientGrants : string → string → M S (result Z);
  os_ListUserGrants : string → M S (result (list Grant));
  os_DeleteExpiredGrants : Z → M S (result Z);
  os_UseClientAssertion : string → string → Z → M S (result bool);
  os_DeleteExpiredClientAssertions : Z → M S (result Z);
}.
