(* ===== verification/MemStore.v ===== *)
(** * The in-memory store

    [stores/memstore]: one [Store] behind the user, role, API-key, refresh-session
    and OAuth store views.  Every method runs under the store's lock, so it is one
    atomic computation; rows are cloned in and out, so a stored row is a value.  A
    [range] over a map visits its entries in an arbitrary order ([range_map]). *)

From S2P Require Import Prelude GoStrings Errors World Entities OAuthTypes Stores.

Local Open Scope Z_scope.

(** [memstore.Store]; [userRoles] holds sets, whose only value is [true]. *)
Record Store := mkStore {
  users : gmap string User;
  roles : gmap string Role;
  userRoles : gmap string (gset string);
  userClaims : gmap string (list Claim);
  roleClaims : gmap string (list Claim);
  tokens : gmap string string;
  logins : gmap string UserLoginInfo;
  loginUser : gmap string string;
  apiKeys : gmap string APIKey;
  refreshTokens : gmap string RefreshToken;
  oauthClients : gmap string Client;
  oauthCodes : gmap string Code;
  oauthConsents : gmap string Consent;
  oauthGrants : gmap string Grant;
  oauthJTIs : gmap (string * string) Time;
}.

Definition set_users (v : gmap string User) (s : Store) : Store :=
  mkStore v (roles s) (userRoles s) (userClaims s) (roleClaims s) (tokens s) (logins s) (loginUser s) (apiKeys s) (refreshTokens s) (oauthClients s) (oauthCodes s) (oauthConsents s) (oauthGrants s) (oauthJTIs s).
Definition set_roles (v : gmap string Role) (s : Store) : Store :=
  mkStore (users s) v (userRoles s) (userClaims s) (roleClaims s) (tokens s) (logins s) (loginUser s) (apiKeys s) (refreshTokens s) (oauthClients s) (oauthCodes s) (oauthConsents s) (oauthGrants s) (oauthJTIs s).
Definition set_userRoles (v : gmap string (gset string)) (s : Store) : Store :=
  mkStore (users s) (roles s) v (userClaims s) (roleClaims s) (tokens s) (logins s) (loginUser s) (apiKeys s) (refreshTokens s) (oauthClients s) (oauthCodes s) (oauthConsents s) (oauthGrants s) (oauthJTIs s).
Definition set_userClaims (v : gmap string (list Claim)) (s : Store) : Store :=
  mkStore (users s) (roles s) (userRoles s) v (roleClaims s) (tokens s) (logins s) (loginUser s) (apiKeys s) (refreshTokens s) (oauthClients s) (oauthCodes s) (oauthConsents s) (oauthGrants s) (oauthJTIs s).
Definition set_roleClaims (v : gmap string (list Claim)) (s : Store) : Store :=
  mkStore (users s) (roles s) (userRoles s) (userClaims s) v (tokens s) (logins s) (loginUser s) (apiKeys s) (refreshTokens s) (oauthClients s) (oauthCodes s) (oauthConsents s) (oauthGrants s) (oauthJTIs s).
Definition set_tokens (v : gmap string string) (s : Store) : Store :=
  mkStore (users s) (roles s) (userRoles s) (userClaims s) (roleClaims s) v (logins s) (loginUser s) (apiKeys s) (refreshTokens s) (oauthClients s) (oauthCodes s) (oauthConsents s) (oauthGrants s) (oauthJTIs s).
Definition set_logins (v : gmap string UserLoginInfo) (s : Store) : Store :=
  mkStore (users s) (roles s) (userRoles s) (userClaims s) (roleClaims s) (tokens s) v (loginUser s) (apiKeys s) (refreshTokens s) (oauthClients s) (oauthCodes s) (oauthConsents s) (oauthGrants s) (oauthJTIs s).
Definition set_loginUser (v : gmap string string) (s : Store) : Store :=
  mkStore (users s) (roles s) (userRoles s) (userClaims s) (roleClaims s) (tokens s) (logins s) v (apiKeys s) (refreshTokens s) (oauthClients s) (oauthCodes s) (oauthConsents s) (oauthGrants s) (oauthJTIs s).
Definition set_apiKeys (v : gmap string APIKey) (s : Store) : Store :=
  mkStore (users s) (roles s) (userRoles s) (userClaims s) (roleClaims s) (tokens s) (logins s) (loginUser s) v (refreshTokens s) (oauthClients s) (oauthCodes s) (oauthConsents s) (oauthGrants s) (oauthJTIs s).
Definition set_refreshTokens (v : gmap string RefreshToken) (s : Store) : Store :=
  mkStore (users s) (roles s) (userRoles s) (userClaims s) (roleClaims s) (tokens s) (logins s) (loginUser s) (apiKeys s) v (oauthClients s) (oauthCodes s) (oauthConsents s) (oauthGrants s) (oauthJTIs s).
Definition set_oauthClients (v : gmap string Client) (s : Store) : Store :=
  mkStore (users s) (roles s) (userRoles s) (userClaims s) (roleClaims s) (tokens s) (logins s) (loginUser s) (apiKeys s) (refreshTokens s) v (oauthCodes s) (oauthConsents s) (oauthGrants s) (oauthJTIs s).
Definition set_oauthCodes (v : gmap string Code) (s : Store) : Store :=
  mkStore (users s) (roles s) (userRoles s) (userClaims s) (roleClaims s) (tokens s) (logins s) (loginUser s) (apiKeys s) (refreshTokens s) (oauthClients s) v (oauthConsents s) (oauthGrants s) (oauthJTIs s).
Definition set_oauthConsents (v : gmap string Consent) (s : Store) : Store :=
  mkStore (users s) (roles s) (userRoles s) (userClaims s) (roleClaims s) (tokens s) (logins s) (loginUser s) (apiKeys s) (refreshTokens s) (oauthClients s) (oauthCodes s) v (oauthGrants s) (oauthJTIs s).
Definition set_oauthGrants (v : gmap string Grant) (s : Store) : Store :=
  mkStore (users s) (roles s) (userRoles s) (userClaims s) (roleClaims s) (tokens s) (logins s) (loginUser s) (apiKeys s) (refreshTokens s) (oauthClients s) (oauthCodes s) (oauthConsents s) v (oauthJTIs s).
Definition set_oauthJTIs (v : gmap (string * string) Time) (s : Store) : Store :=
  mkStore (users s) (roles s) (userRoles s) (userClaims s) (roleClaims s) (tokens s) (logins s) (loginUser s) (apiKeys s) (refreshTokens s) (oauthClients s) (oauthCodes s) (oauthConsents s) (oauthGrants s) v.

(** [memstore.New]. *)
Definition New : Store := mkStore ∅ ∅ ∅ ∅ ∅ ∅ ∅ ∅ ∅ ∅ ∅ ∅ ∅ ∅ ∅.

Definition tokenKey (userID provider name : string) : string :=
  userID +:+ "|" +:+ provider +:+ "|" +:+ name.
Definition loginKey (provider key : string) : string := provider +:+ "|" +:+ key.
Definition consentKey (userID clientID : string) : string := userID +:+ "|" +:+ clientID.

(** A nil slice or set read from a map. *)
Definition lookup_list {V} (m : gmap string (list V)) (k : string) : list V := default [] (m !! k).
Definition lookup_set (m : gmap string (gset string)) (k : string) : gset string := default ∅ (m !! k).

(** Deleting the entries of one map while ranging over it. *)
Definition delete_where {K V} `{Oracle} `{Countable K} (fld : Store → gmap K V)
    (setf : gmap K V → Store → Store) (p : K → V → bool) : M Store Z :=
  s ← get; l ← range_map (fld s);
  let '(m, n) := range_delete p l (fld s) in
  _ ← put (setf m s); mret n.

Section users.
Context `{Oracle} `{UnicodeDB}.

(** ** User CRUD *)

Definition Create (u : User) : M Store (User * result unit) :=
  _ ← modify (λ s, set_users (<[ID u := u]> (users s)) s); mret (u, Ok tt).

Definition Update (u : User) : M Store (User * result unit) :=
  s ← get;
  match users s !! ID u with
  | None => mret (u, Err ErrNotFound)
  | Some cur =>
    if bool_decide (ConcurrencyStamp cur ≠ ConcurrencyStamp u) then
      mret (u, Err ErrConcurrencyFailure)
    else
      stamp ← uuid_NewString;
      let u := set_ConcurrencyStamp stamp u in
      _ ← modify (λ s, set_users (<[ID u := u]> (users s)) s);
      mret (u, Ok tt)
  end.

Definition cascadeDeleteLocked (id : string) : M Store unit :=
  _ ← modify (λ s, set_users (delete id (users s)) s);
  _ ← modify (λ s, set_userRoles (delete id (userRoles s)) s);
  _ ← modify (λ s, set_userClaims (delete id (userClaims s)) s);
  _ ← delete_where tokens set_tokens (λ k _, HasPrefix k (id +:+ "|"));
  s ← get; l ← range_map (loginUser s);
  let '(lu, _) := range_delete (λ _ uid, String.eqb uid id) l (loginUser s) in
  let lg := foldl (λ m kv, if String.eqb kv.2 id then delete kv.1 m else m) (logins s) l in
  _ ← put (set_logins lg (set_loginUser lu s));
  _ ← delete_where apiKeys set_apiKeys (λ _ k, String.eqb (Key_UserID k) id);
  _ ← delete_where refreshTokens set_refreshTokens (λ _ rt, String.eqb (Session_UserID rt) id);
  _ ← delete_where oauthCodes set_oauthCodes (λ _ c, String.eqb (Code_UserID c) id);
  _ ← delete_where oauthConsents set_oauthConsents (λ _ c, String.eqb (Consent_UserID c) id);
  _ ← delete_where oauthGrants set_oauthGrants (λ _ g, String.eqb (Grant_UserID g) id);
  mret tt.

Definition Delete (u : User) : M Store (result unit) :=
  _ ← cascadeDeleteLocked (ID u); mret (Ok tt).

Fixpoint cascadeDeleteAll (ids : list string) : M Store unit :=
  match ids with
  | [] => mret tt
  | id :: ids => _ ← cascadeDeleteLocked id; cascadeDeleteAll ids
  end.

Definition PurgeAnonymousUsers (createdBefore : Time) : M Store (result Z) :=
  s ← get; l ← range_map (users s);
  let ids := (filter (λ kv : string * User,
    IsAnonymous kv.2 && Before (CreatedAt kv.2) createdBefore = true) l).*1 in
  _ ← cascadeDeleteAll ids;
  mret (Ok (Z.of_nat (length ids))).

Definition FindByID (id : string) : M Store (result (option User)) :=
  s ← get;
  mret match users s !! id with Some u => Ok (Some u) | None => Err ErrNotFound end.

Definition findBy (pred : User → bool) : M Store (result (option User)) :=
  s ← get; l ← range_map (users s);
  mret match list_find (λ kv : string * User, pred kv.2 = true) l with
       | Some (_, (_, u)) => Ok (Some u)
       | None => Err ErrNotFound
       end.

Definition FindByName (n : string) : M Store (result (option User)) :=
  findBy (λ u, String.eqb (NormalizedUserName u) n).

Definition FindByEmail (e : string) : M Store (result (option User)) :=
  findBy (λ u, String.eqb (NormalizedEmail u) e && negb (String.eqb e "")).

(** [matched[lo:hi]] panics unless [0 <= lo <= hi <= len]. *)
Definition ListUsers (f : ListFilter) : M Store (result (list User * Z)) :=
  s ← get; l ← range_map (users s);
  let q := ToUpper (Search f) in
  let matched := filter (λ u, String.eqb q "" || Contains (NormalizedUserName u) q
    || Contains (NormalizedEmail u) q = true) l.*2 in
  matched ← sort_Slice (key_le_string ID) matched;
  let total := Z.of_nat (length matched) in
  let lo := if total <? Offset f then total else Offset f in
  let hi := wrap_int64 (lo + Limit f) in
  let hi := if (Limit f <=? 0) || (total <? hi) then total else hi in
  if (lo <? 0) || (hi <? lo) then panic "slice bounds out of range" else
  mret (Ok (take (Z.to_nat (hi - lo)) (drop (Z.to_nat lo) matched), total)).

(** ** Roles of a user *)

Definition roleIDByName (normalizedRoleName : string) : M Store (option string) :=
  s ← get; l ← range_map (roles s);
  mret match list_find (λ kv : string * Role, String.eqb (Role_NormalizedName kv.2) normalizedRoleName = true) l with
       | Some (_, (_, r)) => Some (Role_ID r)
       | None => None
       end.

Definition AddToRole (u : User) (name : string) : M Store (result unit) :=
  rid ← roleIDByName name;
  match rid with
  | None => mret (Err ErrRoleNotFound)
  | Some rid =>
    _ ← modify (λ s, set_userRoles (<[ID u := {[rid]} ∪ lookup_set (userRoles s) (ID u)]> (userRoles s)) s);
    mret (Ok tt)
  end.

Definition RemoveFromRole (u : User) (name : string) : M Store (result unit) :=
  rid ← roleIDByName name;
  match rid with
  | None => mret (Ok tt)
  | Some rid =>
    _ ← modify (λ s, set_userRoles (alter (λ set, set ∖ {[rid]}) (ID u) (userRoles s)) s);
    mret (Ok tt)
  end.

Definition GetRoles (u : User) : M Store (result (list string)) :=
  s ← get; l ← order (elements (lookup_set (userRoles s) (ID u)));
  mret (Ok (omap (λ rid, Role_Name <$> roles s !! rid) l)).

Definition IsInRole (u : User) (name : string) : M Store (result bool) :=
  rid ← roleIDByName name; s ← get;
  mret (Ok match rid with
           | None => false
           | Some rid => bool_decide (rid ∈ lookup_set (userRoles s) (ID u))
           end).

Definition GetUsersInRole (name : string) : M Store (result (list User)) :=
  rid ← roleIDByName name; s ← get;
  match rid with
  | None => mret (Ok [])
  | Some rid =>
    l ← range_map (userRoles s);
    let out := omap (λ kv : string * gset string,
      if bool_decide (rid ∈ kv.2) then users s !! kv.1 else None) l in
    out ← sort_Slice (key_le_string ID) out;
    mret (Ok out)
  end.

(** ** Claims *)

Definition GetUsersForClaim (claimType claimValue : string) : M Store (result (list User)) :=
  s ← get; l ← range_map (userClaims s);
  let out := omap (λ kv : string * list Claim,
    if existsb (λ c, String.eqb (Claim_Type c) claimType && String.eqb (Claim_Value c) claimValue) kv.2
    then users s !! kv.1 else None) l in
  out ← sort_Slice (key_le_string ID) out;
  mret (Ok out).

Definition GetClaims (u : User) : M Store (result (list Claim)) :=
  s ← get; mret (Ok (lookup_list (userClaims s) (ID u))).

Definition AddClaims (u : User) (claims : list Claim) : M Store (result unit) :=
  _ ← modify (λ s, set_userClaims (<[ID u := lookup_list (userClaims s) (ID u) ++ claims]> (userClaims s)) s);
  mret (Ok tt).

Definition RemoveClaims (u : User) (claims : list Claim) : M Store (result unit) :=
  _ ← modify (λ s, set_userClaims
    (<[ID u := filter (λ c, c ∉ claims) (lookup_list (userClaims s) (ID u))]> (userClaims s)) s);
  mret (Ok tt).

(** ** Tokens and logins *)

Definition GetToken (u : User) (provider name : string) : M Store (result string) :=
  s ← get; mret (Ok (default EmptyString (tokens s !! tokenKey (ID u) provider name))).

Definition SetToken (u : User) (provider name value : string) : M Store (result unit) :=
  _ ← modify (λ s, set_tokens (<[tokenKey (ID u) provider name := value]> (tokens s)) s);
  mret (Ok tt).

Definition RemoveToken (u : User) (provider name : string) : M Store (result unit) :=
  _ ← modify (λ s, set_tokens (delete (tokenKey (ID u) provider name) (tokens s)) s);
  mret (Ok tt).

Definition AddLogin (u : User) (login : UserLoginInfo) : M Store (result unit) :=
  s ← get;
  let k := loginKey (LoginProvider login) (ProviderKey login) in
  match loginUser s !! k with
  | Some _ => mret (Err ErrLoginAlreadyUsed)
  | None =>
    _ ← put (set_loginUser (<[k := ID u]> (loginUser s)) (set_logins (<[k := login]> (logins s)) s));
    mret (Ok tt)
  end.

Definition RemoveLogin (u : User) (provider key : string) : M Store (result unit) :=
  _ ← modify (λ s, let k := loginKey provider key in
    set_loginUser (delete k (loginUser s)) (set_logins (delete k (logins s)) s));
  mret (Ok tt).

(** [s.logins[k]] is the zero value when absent. *)
Definition GetLogins (u : User) : M Store (result (list UserLoginInfo)) :=
  s ← get; l ← range_map (loginUser s);
  mret (Ok ((λ kv : string * string, default (mkLogin "" "" "") (logins s !! kv.1))
    <$> filter (λ kv : string * string, kv.2 = ID u) l)).

Definition FindByLogin (provider key : string) : M Store (result (option User)) :=
  s ← get;
  match loginUser s !! loginKey provider key with
  | None => mret (Err ErrNotFound)
  | Some uid => FindByID uid
  end.

(** ** Roles *)

Definition Role_Create (r : Role) : M Store (Role * result unit) :=
  _ ← modify (λ s, set_roles (<[Role_ID r := r]> (roles s)) s); mret (r, Ok tt).

Definition Role_Update (r : Role) : M Store (Role * result unit) :=
  s ← get;
  match roles s !! Role_ID r with
  | None => mret (r, Err ErrNotFound)
  | Some cur =>
    if bool_decide (Role_ConcurrencyStamp cur ≠ Role_ConcurrencyStamp r) then
      mret (r, Err ErrConcurrencyFailure)
    else
      stamp ← uuid_NewString;
      let r := set_Role_ConcurrencyStamp stamp r in
      _ ← modify (λ s, set_roles (<[Role_ID r := r]> (roles s)) s);
      mret (r, Ok tt)
  end.

Definition Role_Delete (r : Role) : M Store (result unit) :=
  _ ← modify (λ s, set_roles (delete (Role_ID r) (roles s)) s); mret (Ok tt).

Definition Role_FindByID (id : string) : M Store (result (option Role)) :=
  s ← get;
  mret match roles s !! id with Some r => Ok (Some r) | None => Err ErrNotFound end.

Definition Role_FindByName (normalizedName : string) : M Store (result (option Role)) :=
  s ← get; l ← range_map (roles s);
  mret match list_find (λ kv : string * Role, String.eqb (Role_NormalizedName kv.2) normalizedName = true) l with
       | Some (_, (_, r)) => Ok (Some r)
       | None => Err ErrNotFound
       end.

Definition Role_GetClaims (r : Role) : M Store (result (list Claim)) :=
  s ← get; mret (Ok (lookup_list (roleClaims s) (Role_ID r))).

Definition Role_AddClaim (r : Role) (c : Claim) : M Store (result unit) :=
  _ ← modify (λ s, set_roleClaims (<[Role_ID r := lookup_list (roleClaims s) (Role_ID r) ++ [c]]> (roleClaims s)) s);
  mret (Ok tt).

Definition Role_RemoveClaim (r : Role) (c : Claim) : M Store (result unit) :=
  _ ← modify (λ s, set_roleClaims
    (<[Role_ID r := filter (λ x, x ≠ c) (lookup_list (roleClaims s) (Role_ID r))]> (roleClaims s)) s);
  mret (Ok tt).

(** ** API keys *)

Definition CreateAPIKey (k : APIKey) : M Store (result unit) :=
  s ← get; l ← range_map (apiKeys s);
  if existsb (λ kv : string * APIKey, String.eqb (KeyHash kv.2) (KeyHash k)) l
  then mret (Err ErrLoginAlreadyUsed)
  else _ ← put (set_apiKeys (<[Key_ID k := k]> (apiKeys s)) s); mret (Ok tt).

(** Revoked, or past its expiry at [at_]. *)
Definition key_inactive (at_ : Time) (k : APIKey) : bool :=
  bool_decide (is_Some (Key_RevokedAt k))
  || match Key_ExpiresAt k with Some e => negb (After e at_) | None => false end.

Definition GetActiveAPIKeyByHash (keyHash : string) : M Store (result APIKey) :=
  s ← get; t ← now; l ← range_map (apiKeys s);
  mret match list_find (λ kv : string * APIKey, String.eqb (KeyHash kv.2) keyHash = true) l with
       | Some (_, (_, k)) => if key_inactive t k then Err ErrNotFound else Ok k
       | None => Err ErrNotFound
       end.

Definition ListAPIKeysByUser (userID : string) : M Store (result (list APIKey)) :=
  s ← get; l ← range_map (apiKeys s);
  let out := filter (λ k, Key_UserID k = userID) l.*2 in
  out ← sort_Slice (key_le_string Key_ID) out;
  mret (Ok out).

Definition RevokeAPIKey (id : string) : M Store (result unit) :=
  s ← get;
  match apiKeys s !! id with
  | Some k =>
    if bool_decide (Key_RevokedAt k = None) then
      t ← now;
      _ ← put (set_apiKeys (<[id := set_Key_RevokedAt (Some t) k]> (apiKeys s)) s); mret (Ok tt)
    else mret (Ok tt)
  | None => mret (Ok tt)
  end.

Definition TouchAPIKeyLastUsed (id : string) : M Store (result unit) :=
  s ← get;
  match apiKeys s !! id with
  | Some k =>
    t ← now;
    _ ← put (set_apiKeys (<[id := set_Key_LastUsedAt (Some t) k]> (apiKeys s)) s); mret (Ok tt)
  | None => mret (Ok tt)
  end.

(** ** Refresh sessions *)

Definition CreateRefreshToken (rt : RefreshToken) : M Store (result unit) :=
  _ ← modify (λ s, set_refreshTokens (<[SessionID rt := rt]> (refreshTokens s)) s); mret (Ok tt).

Definition GetRefreshTokenBySession (sessionID : string) : M Store (result RefreshToken) :=
  s ← get;
  mret match refreshTokens s !! sessionID with Some rt => Ok rt | None => Err ErrNotFound end.

Definition UpdateRefreshToken (rt : RefreshToken) : M Store (result unit) :=
  s ← get;
  match refreshTokens s !! SessionID rt with
  | None => mret (Err ErrNotFound)
  | Some _ =>
    _ ← put (set_refreshTokens (<[SessionID rt := rt]> (refreshTokens s)) s); mret (Ok tt)
  end.

Definition DeleteRefreshToken (sessionID : string) : M Store (result unit) :=
  _ ← modify (λ s, set_refreshTokens (delete sessionID (refreshTokens s)) s); mret (Ok tt).

Definition DeleteUserRefreshTokens (userID : string) : M Store (result Z) :=
  n ← delete_where refreshTokens set_refreshTokens (λ _ rt, String.eqb (Session_UserID rt) userID);
  mret (Ok n).

Definition DeleteExpiredRefreshTokens (before : Time) : M Store (result Z) :=
  n ← delete_where refreshTokens set_refreshTokens (λ _ rt, Before (ExpiresAt rt) before);
  mret (Ok n).

Definition ListUserRefreshTokens (userID : string) : M Store (result (list RefreshToken)) :=
  s ← get; l ← range_map (refreshTokens s);
  let out := filter (λ rt, Session_UserID rt = userID) l.*2 in
  out ← sort_Slice (key_le_string SessionID) out;
  mret (Ok out).
End users.

