(* ===== verification/MemOAuth.v ===== *)
(** * The in-memory store: OAuth rows

    [stores/memstore/oauth.go]: the authorization server's view of the store. *)

From S2P Require Import Prelude GoStrings Errors World Entities OAuthTypes Stores MemStore.

Local Open Scope Z_scope.

Section oauth_store.
Context `{Oracle}.

Definition CreateClient (c : Client) : M Store (result unit) :=
  _ ← modify (λ s, set_oauthClients (<[Client_ID c := c]> (oauthClients s)) s); mret (Ok tt).

Definition GetClient (clientID : string) : M Store (result Client) :=
  s ← get;
  mret match oauthClients s !! clientID with Some c => Ok c | None => Err ErrNotFound end.

Definition TouchClient (clientID : string) (at_ : Time) : M Store (result unit) :=
  _ ← modify (λ s, set_oauthClients (alter (touch_Client at_) clientID (oauthClients s)) s);
  mret (Ok tt).

Definition DeleteStaleClients (before : Time) : M Store (result Z) :=
  s ← get; gs ← range_map (oauthGrants s);
  let inUse : gset string := list_to_set (Grant_ClientID <$> gs.*2) in
  n ← delete_where oauthClients set_oauthClients (λ id c,
    Before (Client_CreatedAt c) before
    && match Client_LastUsedAt c with None => true | Some t => Before t before end
    && bool_decide (id ∉ inUse));
  mret (Ok n).

Definition CreateCode (c : Code) : M Store (result unit) :=
  _ ← modify (λ s, set_oauthCodes (<[CodeHash c := c]> (oauthCodes s)) s); mret (Ok tt).

Definition GetCode (codeHash : string) : M Store (result Code) :=
  s ← get;
  mret match oauthCodes s !! codeHash with Some c => Ok c | None => Err ErrNotFound end.

Definition MarkCodeUsed (codeHash grantID : string) (at_ : Time) : M Store (result bool) :=
  s ← get;
  match oauthCodes s !! codeHash with
  | None => mret (Ok false)
  | Some c =>
    if bool_decide (UsedAt c ≠ None) then mret (Ok false) else
    _ ← put (set_oauthCodes (<[codeHash := mark_Code at_ grantID c]> (oauthCodes s)) s);
    mret (Ok true)
  end.

Definition DeleteExpiredCodes (before : Time) : M Store (result Z) :=
  n ← delete_where oauthCodes set_oauthCodes (λ _ c, Before (Code_ExpiresAt c) before);
  mret (Ok n).

Definition GetConsent (userID clientID : string) : M Store (result Consent) :=
  s ← get;
  mret match oauthConsents s !! consentKey userID clientID with
       | Some c => Ok c | None => Err ErrNotFound end.

Definition SaveConsent (c : Consent) : M Store (result unit) :=
  s ← get;
  let k := consentKey (Consent_UserID c) (Consent_ClientID c) in
  let x := match oauthConsents s !! k with
           | Some prev => set_Consent_CreatedAt (Consent_CreatedAt prev) c
           | None => c
           end in
  _ ← put (set_oauthConsents (<[k := x]> (oauthConsents s)) s);
  mret (Ok tt).

Definition DeleteConsent (userID clientID : string) : M Store (result unit) :=
  _ ← modify (λ s, set_oauthConsents (delete (consentKey userID clientID) (oauthConsents s)) s);
  mret (Ok tt).

Definition CreateGrant (g : Grant) : M Store (result unit) :=
  _ ← modify (λ s, set_oauthGrants (<[Grant_ID g := g]> (oauthGrants s)) s); mret (Ok tt).

Definition GetGrant (id : string) : M Store (result Grant) :=
  s ← get;
  mret match oauthGrants s !! id with Some g => Ok g | None => Err ErrNotFound end.

Definition RotateGrant (id oldHash newHash : string) (expiresAt usedAt : Time)
    : M Store (result bool) :=
  s ← get;
  match oauthGrants s !! id with
  | None => mret (Ok false)
  | Some g =>
    if bool_decide (Grant_TokenHash g ≠ oldHash) then mret (Ok false) else
    _ ← put (set_oauthGrants (<[id := rotate_Grant oldHash newHash expiresAt usedAt g]> (oauthGrants s)) s);
    mret (Ok true)
  end.

Definition DeleteGrant (id : string) : M Store (result unit) :=
  _ ← modify (λ s, set_oauthGrants (delete id (oauthGrants s)) s); mret (Ok tt).

Definition DeleteUserClientGrants (userID clientID : string) : M Store (result Z) :=
  n ← delete_where oauthGrants set_oauthGrants (λ _ g,
    String.eqb (Grant_UserID g) userID && String.eqb (Grant_ClientID g) clientID);
  mret (Ok n).

Definition ListUserGrants (userID : string) : M Store (result (list Grant)) :=
  s ← get; l ← range_map (oauthGrants s);
  let out := filter (λ g, Grant_UserID g = userID) l.*2 in
  out ← sort_Slice (key_le_Z Grant_CreatedAt) out;
  mret (Ok out).

Definition DeleteExpiredGrants (before : Time) : M Store (result Z) :=
  n ← delete_where oauthGrants set_oauthGrants (λ _ g, Before (Grant_ExpiresAt g) before);
  mret (Ok n).

Definition UseClientAssertion (clientID jti : string) (expiresAt : Time) : M Store (result bool) :=
  s ← get;
  match oauthJTIs s !! (clientID, jti) with
  | Some _ => mret (Ok false)
  | None =>
    _ ← put (set_oauthJTIs (<[(clientID, jti) := expiresAt]> (oauthJTIs s)) s);
    mret (Ok true)
  end.

Definition DeleteExpiredClientAssertions (before : Time) : M Store (result Z) :=
  n ← delete_where oauthJTIs set_oauthJTIs (λ _ exp, Before exp before);
  mret (Ok n).
End oauth_store.

(** ** The views: [Users()], [Roles()], [APIKeys()], [RefreshTokens()], [OAuth()] *)

#[export] Instance Users `{Oracle} `{UnicodeDB} : UserStore Store := {|
  us_Create := Create; us_Update := Update; us_Delete := Delete;
  us_FindByID := FindByID; us_FindByName := FindByName; us_FindByEmail := FindByEmail;
  us_AddToRole := AddToRole; us_RemoveFromRole := RemoveFromRole; us_GetRoles := GetRoles;
  us_IsInRole := IsInRole; us_GetUsersInRole := GetUsersInRole;
  us_GetClaims := GetClaims; us_AddClaims := AddClaims; us_RemoveClaims := RemoveClaims;
  us_GetUsersForClaim := GetUsersForClaim;
  us_GetToken := GetToken; us_SetToken := SetToken; us_RemoveToken := RemoveToken;
  us_AddLogin := AddLogin; us_RemoveLogin := RemoveLogin; us_GetLogins := GetLogins;
  us_FindByLogin := FindByLogin;
  us_ListUsers := Some ListUsers; us_PurgeAnonymousUsers := Some PurgeAnonymousUsers;
|}.

#[export] Instance Roles `{Oracle} : RoleStore Store := {|
  rs_Create := Role_Create; rs_Update := Role_Update; rs_Delete := Role_Delete;
  rs_FindByID := Role_FindByID; rs_FindByName := Role_FindByName;
  rs_GetClaims := Role_GetClaims; rs_AddClaim := Role_AddClaim; rs_RemoveClaim := Role_RemoveClaim;
|}.

#[export] Instance APIKeys `{Oracle} : APIKeyStore Store := {|
  ks_CreateAPIKey := CreateAPIKey; ks_GetActiveAPIKeyByHash := GetActiveAPIKeyByHash;
  ks_ListAPIKeysByUser := ListAPIKeysByUser; ks_RevokeAPIKey := RevokeAPIKey;
  ks_TouchAPIKeyLastUsed := TouchAPIKeyLastUsed;
|}.

#[export] Instance RefreshTokens `{Oracle} : RefreshTokenStore Store := {|
  ts_CreateRefreshToken := CreateRefreshToken;
  ts_GetRefreshTokenBySession := GetRefreshTokenBySession;
  ts_UpdateRefreshToken := UpdateRefreshToken; ts_DeleteRefreshToken := DeleteRefreshToken;
  ts_DeleteUserRefreshTokens := DeleteUserRefreshTokens;
  ts_DeleteExpiredRefreshTokens := DeleteExpiredRefreshTokens;
  ts_ListUserRefreshTokens := ListUserRefreshTokens;
|}.

#[export] Instance OAuth `{Oracle} : OAuthStore Store := {|
  os_CreateClient := CreateClient; os_GetClient := GetClient; os_TouchClient := TouchClient;
  os_DeleteStaleClients := DeleteStaleClients;
  os_CreateCode := CreateCode; os_GetCode := GetCode; os_MarkCodeUsed := MarkCodeUsed;
  os_DeleteExpiredCodes := DeleteExpiredCodes;
  os_GetConsent := GetConsent; os_SaveConsent := SaveConsent; os_DeleteConsent := DeleteConsent;
  os_CreateGrant := CreateGrant; os_GetGrant := GetGrant; os_RotateGrant := RotateGrant;
  os_DeleteGrant := DeleteGrant; os_DeleteUserClientGrants := DeleteUserClientGrants;
  os_ListUserGrants := ListUserGrants; os_DeleteExpiredGrants := DeleteExpiredGrants;
  os_UseClientAssertion := UseClientAssertion;
  os_DeleteExpiredClientAssertions := DeleteExpiredClientAssertions;
|}.
