(* ===== verification/Hasher.v ===== *)
(** * Password hashing

    [identity/hasher.go]: the [PasswordHasher] interface and the versioned PBKDF2
    format.  [golang.org/x/crypto/pbkdf2] is a parameter ([PBKDF2]): a function of
    the password, salt, iteration count, key length and hash that returns a key of
    the requested length. *)

From S2P Require Import Prelude GoStrings GoBytes GoCrypto Errors World Entities.

Local Open Scope Z_scope.

(** The hash constructors [newHash] chooses from. *)
Inductive hash_fn := SHA1 | SHA256 | SHA512.
#[export] Instance hash_fn_eq_dec : EqDecision hash_fn.
Proof. solve_decision. Defined.

Class PBKDF2 := {
  pbkdf2_Key : bytes → bytes → Z → nat → hash_fn → bytes;
  pbkdf2_Key_length : ∀ pw salt iter n h, length (pbkdf2_Key pw salt iter n h) = n;
}.

(** [identity.PasswordHasher]. *)
Record PasswordHasher (S : Type) := mkPasswordHasher {
  ph_Hash : User → string → M S string;
  ph_Verify : User → string → string → M S (bool * bool);
}.
Arguments mkPasswordHasher {S} _ _.
Arguments ph_Hash {S} _ _ _.
Arguments ph_Verify {S} _ _ _ _.

Definition prfSHA1 : Z := 0.
Definition prfSHA256 : Z := 1.
Definition prfSHA512 : Z := 2.
Definition maxPBKDF2Iterations : Z := 10000000.

Record pbkdf2Hasher := mkPbkdf2Hasher {
  iterations : Z;
  saltLen : Z;
  subkeyLen : Z;
  prf : Z;
}.

Definition defaultHasher : pbkdf2Hasher := mkPbkdf2Hasher 100000 16 32 prfSHA256.

Definition newHash (p : Z) : hash_fn :=
  if p =? prfSHA512 then SHA512 else if p =? prfSHA256 then SHA256 else SHA1.

Section hasher.
Context `{Oracle} `{PBKDF2} {S : Type}.

(** The encoded value for a given salt. *)
Definition encode_hash (h : pbkdf2Hasher) (salt : bytes) (password : string) : string :=
  let subkey := pbkdf2_Key (str_bytes password) salt (iterations h) (Z.to_nat (subkeyLen h))
    (newHash (prf h)) in
  StdEncode ([to_byte 1] ++ put_be 4 (prf h) ++ put_be 4 (iterations h)
    ++ put_be 4 (Z.of_nat (length salt)) ++ salt ++ subkey).

Definition Hash (h : pbkdf2Hasher) (_ : User) (password : string) : M S string :=
  if saltLen h <? 0 then panic "makeslice: len out of range" else
  salt ← rand_read (Z.to_nat (saltLen h));
  mret (encode_hash h salt password).

Definition Verify (h : pbkdf2Hasher) (_ : User) (encoded password : string) : bool * bool :=
  match StdDecode encoded with
  | None => (false, false)
  | Some data =>
    if bool_decide (length data = 0)%nat || negb (Ascii.eqb (nth 0 data zero) (to_byte 1)) then (false, false)
    else if bool_decide (length data < 13)%nat then (false, false) else
    let p := get_be (take 4 (drop 1 data)) in
    let iter := get_be (take 4 (drop 5 data)) in
    let sl := get_be (take 4 (drop 9 data)) in
    if (sl <? 8) || (Z.of_nat (length data) <? 13 + sl + 1) then (false, false)
    else if (iter <? 1) || (maxPBKDF2Iterations <? iter) then (false, false) else
    let salt := take (Z.to_nat sl) (drop 13 data) in
    let subkey := drop (13 + Z.to_nat sl) data in
    let derived := pbkdf2_Key (str_bytes password) salt iter (length subkey) (newHash p) in
    if negb (const_eq derived subkey) then (false, false) else
    (true, (iter <? iterations h) || negb (p =? prf h) || negb (sl =? saltLen h)
           || negb (Z.of_nat (length subkey) =? subkeyLen h))
  end.

(** [NewPasswordHasher]. *)
Definition NewPasswordHasher : PasswordHasher S :=
  mkPasswordHasher (Hash defaultHasher) (λ u e p, mret (Verify defaultHasher u e p)).

(** ** Facts *)

(** Parameters for which a hash can be verified. *)
Definition wf_hasher (h : pbkdf2Hasher) : Prop :=
  1 <= iterations h <= maxPBKDF2Iterations ∧ 8 <= saltLen h < 2 ^ 32
  ∧ 1 <= subkeyLen h ∧ 0 <= prf h < 2 ^ 32.

Lemma defaultHasher_wf : wf_hasher defaultHasher.
Proof. unfold wf_hasher. cbn. unfold maxPBKDF2Iterations, prfSHA256. lia. Qed.

(** The layout of the data behind an encoded hash. *)
Lemma Verify_data h u e p i salt subkey password :
  0 <= p < 2 ^ 32 → 0 <= i < 2 ^ 32 → Z.of_nat (length salt) < 2 ^ 32 →
  StdDecode e = Some ([to_byte 1] ++ put_be 4 p ++ put_be 4 i
    ++ put_be 4 (Z.of_nat (length salt)) ++ salt ++ subkey) →
  Verify h u e password =
    if (Z.of_nat (length salt) <? 8) || bool_decide (subkey = []) then (false, false)
    else if (i <? 1) || (maxPBKDF2Iterations <? i) then (false, false)
    else if negb (const_eq (pbkdf2_Key (str_bytes password) salt i (length subkey) (newHash p)) subkey)
    then (false, false)
    else (true, (i <? iterations h) || negb (p =? prf h) || negb (Z.of_nat (length salt) =? saltLen h)
                || negb (Z.of_nat (length subkey) =? subkeyLen h)).
Proof.
  intros Hp Hi Hs He. unfold Verify. rewrite He.
  set (data := _ ++ _).
  assert (length data = 13 + (length salt + length subkey))%nat as Hlen.
  { unfold data. rewrite !length_app, !length_put_be. cbn. lia. }
  assert (take 4 (drop 1 data) = put_be 4 p ∧ take 4 (drop 5 data) = put_be 4 i
    ∧ take 4 (drop 9 data) = put_be 4 (Z.of_nat (length salt))
    ∧ drop 13 data = salt ++ subkey) as (-> & -> & -> & Hd) by done.
  rewrite (get_be_put_be 4 p), (get_be_put_be 4 i), (get_be_put_be 4 (Z.of_nat (length salt)))
    by (first [done | (split; [lia|done])]).
  rewrite <-drop_drop, Hd, Nat2Z.id, take_app_length, drop_app_length.
  rewrite (bool_decide_eq_false_2 (length data = 0)%nat) by lia.
  change (nth 0 data zero) with (to_byte 1). rewrite Ascii.eqb_refl.
  rewrite (bool_decide_eq_false_2 (length data < 13)%nat) by lia. cbn [orb negb].
  destruct (Z.ltb_spec (Z.of_nat (length salt)) 8); [done|]. cbn [orb].
  destruct (Z.ltb_spec (Z.of_nat (length data)) (13 + Z.of_nat (length salt) + 1)).
  - rewrite bool_decide_eq_true_2; [done|]. apply nil_length_inv. lia.
  - rewrite bool_decide_eq_false_2; [done|]. intros He0%(f_equal length). cbn in He0. lia.
Qed.

(** A decoded hash that verifies carries bounded parameters and the derived key
    of the password. *)
Lemma Verify_true h u e password nr :
  Verify h u e password = (true, nr) →
  ∃ p i salt subkey, 1 <= i <= maxPBKDF2Iterations ∧ (8 <= length salt)%nat ∧ subkey ≠ []
    ∧ pbkdf2_Key (str_bytes password) salt i (length subkey) (newHash p) = subkey
    ∧ StdDecode e = Some ([to_byte 1] ++ put_be 4 p ++ put_be 4 i
        ++ put_be 4 (Z.of_nat (length salt)) ++ salt ++ subkey).
Proof.
  unfold Verify. destruct (StdDecode e) as [data|] eqn:He; [|done].
  case_if H1; [done|]. case_if H2; [done|]. case_if H3; [done|]. case_if H4; [done|].
  case_if H5; [done|]. intros _.
  apply orb_false_iff in H1 as [Hne%bool_decide_eq_false Hv%negb_false_iff%Ascii.eqb_eq].
  apply bool_decide_eq_false in H2. apply orb_false_iff in H3 as [H3a H3b].
  apply orb_false_iff in H4 as [H4a H4b]. apply negb_false_iff, const_eq_spec in H5.
  apply Z.ltb_ge in H3a, H3b, H4a, H4b.
  destruct data as [|c data]; [done|]. cbn [nth] in Hv. subst c. cbn [length drop] in *.
  remember (get_be (take 4 (drop 8 data))) as sl eqn:Esl.
  remember (drop 12 data) as rest eqn:Erest.
  assert (length data = 12 + length rest)%nat as Hl by (subst rest; rewrite length_drop; lia).
  change (drop (13 + Z.to_nat sl) (to_byte 1 :: data))
    with (drop (12 + Z.to_nat sl) data) in H5. change (drop 0 data) with data in H5.
  rewrite <-(drop_drop data (Z.to_nat sl) 12) in H5. rewrite <-Erest in H5.
  assert (length (take (Z.to_nat sl) rest) = Z.to_nat sl) as Hs
    by (rewrite length_take; apply Nat.min_l; lia).
  exists (get_be (take 4 data)), (get_be (take 4 (drop 4 data))), (take (Z.to_nat sl) rest),
    (drop (Z.to_nat sl) rest).
  split; [lia|]. split; [lia|]. split; [|split; [done|]].
  { intros Hd%(f_equal length). rewrite length_drop in Hd. cbn in Hd. lia. }
  rewrite Hs, Z2Nat.id by lia. rewrite Esl.
  rewrite !put_be_get_be, take_drop by (rewrite length_take, ?length_drop; lia).
  do 2 f_equal. rewrite <-(take_drop 4 data) at 1. f_equal.
  rewrite <-(take_drop 4 (drop 4 data)) at 1. f_equal. rewrite drop_drop.
  rewrite <-(take_drop 4 (drop (4 + 4) data)) at 1. by rewrite drop_drop, Erest.
Qed.

(** Hashing then verifying the same password succeeds and asks for no rehash. *)
Lemma Verify_encode_hash h u salt password :
  wf_hasher h → length salt = Z.to_nat (saltLen h) →
  Verify h u (encode_hash h salt password) password = (true, false).
Proof.
  intros (Hi & Hs & Hk & Hp) Hsalt. unfold maxPBKDF2Iterations in Hi.
  assert (Z.of_nat (length salt) = saltLen h) as Hsl by (rewrite Hsalt; lia).
  assert (0 <= iterations h < 2 ^ 32) as Hi' by (split; [lia|eapply Z.le_lt_trans; [apply Hi|done]]).
  erewrite (Verify_data h u _ (prf h) (iterations h) salt); [|exact Hp|exact Hi'|
    by rewrite Hsl; apply Hs|apply StdDecode_Encode].
  rewrite Hsl, pbkdf2_Key_length, const_eq_refl, Z2Nat.id, !Z.eqb_refl, !Z.ltb_irrefl by lia.
  rewrite (proj2 (Z.ltb_ge (saltLen h) 8)), (proj2 (Z.ltb_ge (iterations h) 1)),
    (proj2 (Z.ltb_ge maxPBKDF2Iterations (iterations h))) by (unfold maxPBKDF2Iterations; lia).
  rewrite bool_decide_eq_false_2; [done|].
  intros He%(f_equal length). rewrite pbkdf2_Key_length in He. cbn in He. lia.
Qed.
End hasher.
(** ** Properties *)

(** C32: hashing and checking round-trip. A hash made with sound parameters verifies
    under a hasher with the same parameters and asks for no rehash; the same hash still
    verifies under any other configuration, which asks for a rehash exactly when it
    wants more iterations or another function or size.  Another password verifies
    only if PBKDF2 gives it the same key. *)
Theorem password_roundtrip `{Oracle} `{PBKDF2} {S} (h h' : pbkdf2Hasher) u u' password other (w : World S) :
  wf_hasher h →
  wp (Hash h u password) (λ e w', w_store w' = w_store w ∧
    Verify h' u' e password = (true, (iterations h <? iterations h') || negb (prf h =? prf h')
      || negb (saltLen h =? saltLen h') || negb (subkeyLen h =? subkeyLen h'))
    ∧ ((Verify h' u' e other).1 = true ↔
        let key pw := pbkdf2_Key (str_bytes pw) (o_read (w_step w) (Z.to_nat (saltLen h))) (iterations h)
          (Z.to_nat (subkeyLen h)) (newHash (prf h)) in key other = key password)) w.
Proof.
  intros (Hi & Hs & Hk & Hp). unfold Hash. rewrite (proj2 (Z.ltb_ge (saltLen h) 0)) by lia. wp_steps.
  split; [done|]. set (salt := o_read _ _).
  assert (Z.of_nat (length salt) = saltLen h) as Hsl by (unfold salt; rewrite o_read_length; lia).
  set (subkey := λ pw, pbkdf2_Key (str_bytes pw) salt (iterations h) (Z.to_nat (subkeyLen h)) (newHash (prf h))).
  assert (∀ pw, length (subkey pw) = Z.to_nat (subkeyLen h)) as Hlen by (intros; apply pbkdf2_Key_length).
  unfold maxPBKDF2Iterations in Hi.
  assert (∀ pw, Verify h' u' (encode_hash h salt password) pw =
    if negb (const_eq (subkey pw) (subkey password)) then (false, false)
    else (true, (iterations h <? iterations h') || negb (prf h =? prf h')
      || negb (saltLen h =? saltLen h') || negb (subkeyLen h =? subkeyLen h'))) as Hv.
  { intros pw. assert (0 <= iterations h < 2 ^ 32) as Hi' by (split; [lia|eapply Z.le_lt_trans; [apply Hi|done]]).
    erewrite (Verify_data h' u' _ (prf h) (iterations h) salt (subkey password)); [|exact Hp|exact Hi'|
      by rewrite Hsl; apply Hs|apply StdDecode_Encode].
    rewrite Hsl, Hlen, Z2Nat.id by lia.
    rewrite (proj2 (Z.ltb_ge (saltLen h) 8)), (proj2 (Z.ltb_ge (iterations h) 1)),
      (proj2 (Z.ltb_ge maxPBKDF2Iterations (iterations h))) by (unfold maxPBKDF2Iterations; lia).
    rewrite bool_decide_eq_false_2; [done|].
    intros He%(f_equal length). rewrite Hlen in He. cbn in He. lia. }
  split; rewrite Hv.
  - by rewrite const_eq_refl.
  - destruct (const_eq (subkey other) (subkey password)) eqn:Hc; cbn [negb fst].
    + split; [|done]. intros _. by apply const_eq_spec.
    + split; [done|]. intros He. change (subkey other = subkey password) in He. by rewrite He, const_eq_refl in Hc.
Qed.

(** No stored value makes a check unbounded or trivial: whatever the stored text,
    a password is accepted only against a well-formed value with at least eight bytes
    of salt, between one and ten million iterations and a non-empty key, which is the
    password's key for those parameters. *)
Theorem Verify_sound `{PBKDF2} h u e password nr :
  Verify h u e password = (true, nr) →
  ∃ p i salt subkey, 1 <= i <= maxPBKDF2Iterations ∧ (8 <= length salt)%nat ∧ subkey ≠ []
    ∧ pbkdf2_Key (str_bytes password) salt i (length subkey) (newHash p) = subkey
    ∧ StdDecode e = Some ([to_byte 1] ++ put_be 4 p ++ put_be 4 i
        ++ put_be 4 (Z.of_nat (length salt)) ++ salt ++ subkey).
Proof. apply Verify_true. Qed.
