(* ===== verification/GoNet.v ===== *)
(** * Packages net and net/netip: addresses

    [netip.ParseAddr], [net.ParseIP] and [netip.Prefix.Contains] as the code uses them:
    an address is its integer value, IPv6 addresses carry their zone. *)

From S2P Require Import Prelude GoStrings.

Local Open Scope Z_scope.

Inductive Addr :=
  | Addr4 (z : Z)
  | Addr6 (z : Z) (zone : string).

#[export] Instance Addr_eq_dec : EqDecision Addr.
Proof. solve_decision. Defined.

(** One octet: digits, no leading zero, at most 255. *)
Definition parse_octet (f : string) : option Z :=
  if String.eqb f "" || (HasPrefix f "0" && (1 <? len f)) then None else
  v ← digits_val 0 f; if v <=? 255 then Some v else None.

Definition parseIPv4 (s : string) : option Z :=
  vs ← mapM parse_octet (Split "." s);
  match vs with
  | [a; b; c; d] => Some (((a * 256 + b) * 256 + c) * 256 + d)
  | _ => None
  end.

Definition hex_val (c : ascii) : option Z :=
  let b := byte_val c in
  if in_range b 0x30 0x39 then Some (b - 0x30)
  else if in_range b 0x61 0x66 then Some (b - 0x57)
  else if in_range b 0x41 0x46 then Some (b - 0x37)
  else None.

(** The leading hexadecimal digits of [l], their value and the rest. *)
Fixpoint hex_span (l : bytes) (n : nat) (acc : Z) : nat * Z * bytes :=
  match l with
  | [] => (n, acc, [])
  | c :: t => match hex_val c with
              | Some v => hex_span t (S n) (acc * 16 + v)
              | None => (n, acc, l)
              end
  end.

(** The groups of an IPv6 address, [left] of the eight still open; [gs] are the groups
    read, in reverse, and [ell] the position of ["::"]. *)
Fixpoint v6_groups (left : nat) (gs : list Z) (ell : option nat) (l : bytes)
    : option (list Z * option nat) :=
  match left with
  | O => None
  | S left' =>
    match hex_span l 0 0 with
    | (n, v, rest) =>
      if bool_decide (n = 0 ∨ 4 < n)%nat then None else
      match rest with
      | [] => Some (v :: gs, ell)
      | c :: t =>
        if Ascii.eqb c "." then
          if bool_decide (ell = None ∧ left ≠ 2)%nat || bool_decide (left < 2)%nat then None else
          v4 ← parseIPv4 (bytes_str l); Some (v4 mod 65536 :: v4 / 65536 :: gs, ell)
        else if negb (Ascii.eqb c ":") then None else
        match t with
        | [] => None
        | c2 :: t2 =>
          if Ascii.eqb c2 ":" then
            match ell, t2 with
            | Some _, _ => None
            | None, [] => Some (v :: gs, Some (S (length gs)))
            | None, _ => v6_groups left' (v :: gs) (Some (S (length gs))) t2
            end
          else v6_groups left' (v :: gs) ell t
        end
      end
    end
  end.

(** The zeros that ["::"] stands for; it must stand for at least one group. *)
Definition v6_expand (gs : list Z) (ell : option nat) : option (list Z) :=
  match ell with
  | None => if bool_decide (length gs = 8%nat) then Some gs else None
  | Some e => if bool_decide (length gs < 8)%nat
              then Some (take e gs ++ replicate (8 - length gs) 0 ++ drop e gs) else None
  end.

Definition v6_value (gs : list Z) : Z := foldl (λ acc g, acc * 65536 + g) 0 gs.

Definition parseIPv6 (s : string) : option Addr :=
  let '(s, zone, zoned) := Cut "%" s in
  if zoned && String.eqb zone "" then None else
  let l := str_bytes s in
  r ← match l with
      | c1 :: c2 :: t =>
        if Ascii.eqb c1 ":" && Ascii.eqb c2 ":" then
          match t with [] => Some ([], Some 0%nat) | _ => v6_groups 8 [] (Some 0%nat) t end
        else v6_groups 8 [] None l
      | _ => v6_groups 8 [] None l
      end;
  gs ← v6_expand (reverse r.1) r.2;
  Some (Addr6 (v6_value gs) zone).

(** The first of ['.'], [':'] and ['%'] decides. *)
Fixpoint addr_kind (l : bytes) : option ascii :=
  match l with
  | [] => None
  | c :: t => if Ascii.eqb c "." || Ascii.eqb c ":" || Ascii.eqb c "%" then Some c else addr_kind t
  end.

Definition ParseAddr (s : string) : option Addr :=
  match addr_kind (str_bytes s) with
  | Some c => if Ascii.eqb c "." then Addr4 <$> parseIPv4 s
              else if Ascii.eqb c ":" then parseIPv6 s else None
  | None => None
  end.

(** [Addr.Is4In6] and [Addr.Unmap]. *)
Definition Is4In6 (z : Z) : bool := z / 2 ^ 32 =? 0xFFFF.
Definition Unmap (a : Addr) : Addr :=
  match a with
  | Addr6 z _ => if Is4In6 z then Addr4 (z mod 2 ^ 32) else a
  | _ => a
  end.

(** [net.ParseIP(host)] followed by [ip.IsLoopback()]; zones are not accepted. *)
Definition parses_loopback (host : string) : bool :=
  match ParseAddr host with
  | Some (Addr6 z zone) =>
    String.eqb zone "" && (if Is4In6 z then z mod 2 ^ 32 / 2 ^ 24 =? 127 else z =? 1)
  | Some (Addr4 z) => z / 2 ^ 24 =? 127
  | None => false
  end.

(** [netip.Prefix]: an address and a number of bits. *)
Record Prefix := mkPrefix { p_addr : Addr; p_bits : Z }.

(** [p.Contains(ip)]: the families must agree, and a zoned address is in no prefix. *)
Definition Prefix_Contains (p : Prefix) (a : Addr) : bool :=
  match p_addr p, a with
  | Addr4 n, Addr4 z => z / 2 ^ (32 - p_bits p) =? n / 2 ^ (32 - p_bits p)
  | Addr6 n _, Addr6 z zone =>
    String.eqb zone "" && (z / 2 ^ (128 - p_bits p) =? n / 2 ^ (128 - p_bits p))
  | _, _ => false
  end.

(** [netip.MustParsePrefix] of a literal. *)
Definition MustParsePrefix (s : string) : option Prefix :=
  let '(ip, bits, ok) := Cut "/" s in
  a ← ParseAddr ip;
  match a, ParseInt bits with
  | Addr4 _, (n, true) => if in_range n 0 32 && ok then Some (mkPrefix a n) else None
  | Addr6 _ "", (n, true) => if in_range n 0 128 && ok then Some (mkPrefix a n) else None
  | _, _ => None
  end.

(** [net.SplitHostPort]: the host of ["host:port"] or ["[host]:port"], the host
    without brackets. *)
Definition SplitHostPort (s : string) : option (string * string) :=
  let l := str_bytes s in
  let '(rport, rhost, ok) := Cut ":" (bytes_str (reverse l)) in
  let port := bytes_str (reverse (str_bytes rport)) in
  let host := bytes_str (reverse (str_bytes rhost)) in
  if negb ok || Contains port "[" || Contains port "]" then None else
  match str_bytes host with
  | c :: t =>
    if Ascii.eqb c "[" then
      match reverse t with
      | e :: m => if Ascii.eqb e "]" && negb (bool_decide ("]"%char ∈ m)) && negb (bool_decide ("["%char ∈ m))
                  then Some (bytes_str (reverse m), port) else None
      | [] => None
      end
    else if Contains host ":" || Contains host "[" || Contains host "]" then None else Some (host, port)
  | [] => Some (host, port)
  end.

Example ParseAddr_v4 : ParseAddr "127.0.0.1" = Some (Addr4 0x7F000001).
Proof. vm_compute. reflexivity. Qed.
Example ParseAddr_v6 : ParseAddr "64:ff9b::1.2.3.4" = Some (Addr6 (0x64ff9b * 2 ^ 96 + 0x01020304) "").
Proof. vm_compute. reflexivity. Qed.
Example ParseAddr_mapped : Unmap <$> ParseAddr "::ffff:10.0.0.1" = Some (Addr4 0x0A000001).
Proof. vm_compute. reflexivity. Qed.
Example ParseAddr_zone : ParseAddr "fe80::1%eth0" = Some (Addr6 (0xfe80 * 2 ^ 112 + 1) "eth0").
Proof. vm_compute. reflexivity. Qed.
Example ParseAddr_bad : map ParseAddr ["01.2.3.4"; "1.2.3"; "256.1.1.1"; "1::2::3"; "1:2:3:4:5:6:7:8:9"; ":1"; "::1%"; "12345::"]
  = replicate 8 None.
Proof. vm_compute. reflexivity. Qed.
Example SplitHostPort_v6 : SplitHostPort "[fe80::1%eth0]:443" = Some ("fe80::1%eth0", "443").
Proof. vm_compute. reflexivity. Qed.
