(* ===== verification/GoUrl.v ===== *)
(** * Package net/url

    Go's [net/url] as far as the code calls it: percent escapes, query values, and
    parsing and printing of URLs, as strict as the library (Go 1.26) is. *)

From S2P Require Import Prelude GoStrings GoBytes GoNet.

Local Open Scope Z_scope.

(** Letters, digits, ['-'], ['_'], ['.'] and ['~']: escaped in neither mode. *)
Definition unreserved (c : ascii) : bool :=
  let b := byte_val c in
  in_range b 0x61 0x7A || in_range b 0x41 0x5A || in_range b 0x30 0x39
  || bool_decide (c ∈ str_bytes "-_.~").

(** [url.shouldEscape] for [encodePathSegment] and [encodeQueryComponent]. *)
Definition escape_path_char (c : ascii) : bool :=
  negb (unreserved c || bool_decide (c ∈ str_bytes "$&+=:@")).
Definition escape_query_char (c : ascii) : bool := negb (unreserved c).

Definition upper_hex (v : Z) : ascii :=
  if v <? 10 then to_byte (0x30 + v) else to_byte (0x37 + v).
Definition percent (c : ascii) : bytes :=
  ["%"%char; upper_hex (byte_val c / 16); upper_hex (byte_val c mod 16)].

Definition PathEscape (s : string) : string :=
  bytes_str (concat (map (λ c, if escape_path_char c then percent c else [c]) (str_bytes s))).
Definition QueryEscape (s : string) : string :=
  bytes_str (concat (map (λ c, if Ascii.eqb c " " then ["+"%char]
    else if escape_query_char c then percent c else [c]) (str_bytes s))).

(** [url.Values.Encode] of single-valued parameters: sorted by key. *)
Definition Values_Encode (q : gmap string string) : string :=
  Join "&" (map (λ kv, QueryEscape kv.1 +:+ "=" +:+ QueryEscape kv.2)
    (merge_sort (λ x y : string * string, String.le x.1 y.1) (map_to_list q))).

(** ** Modes of escaping *)

Inductive encoding :=
  | encodePath | encodeHost | encodeZone | encodeUserPassword | encodeQueryComponent | encodeFragment.

#[export] Instance encoding_eq_dec : EqDecision encoding.
Proof. solve_decision. Defined.

Definition is_host_mode (m : encoding) : bool :=
  match m with encodeHost | encodeZone => true | _ => false end.

Definition shouldEscape (m : encoding) (c : ascii) : bool :=
  let alnum := let b := byte_val c in in_range b 0x61 0x7A || in_range b 0x41 0x5A || in_range b 0x30 0x39 in
  if alnum then false else
  if is_host_mode m && bool_decide (c ∈ str_bytes "!$&'()*+,;=:[]<>" ++ [to_byte 0x22]) then false else
  if bool_decide (c ∈ str_bytes "-_.~") then false else
  if bool_decide (c ∈ str_bytes "$&+,/:;=?@") then
    match m with
    | encodePath => Ascii.eqb c "?"
    | encodeUserPassword => bool_decide (c ∈ str_bytes "@/?:")
    | encodeQueryComponent => true
    | encodeFragment => false
    | _ => true
    end
  else if bool_decide (m = encodeFragment) && bool_decide (c ∈ str_bytes "!()*") then false
  else true.

Definition escape (m : encoding) (l : bytes) : bytes :=
  concat (map (λ c, if bool_decide (m = encodeQueryComponent) && Ascii.eqb c " " then ["+"%char]
    else if shouldEscape m c then percent c else [c]) l).

(** A percent escape a host or zone must not contain: an ASCII byte other than ["%25"]. *)
Definition bad_escape (m : encoding) (h l : Z) : bool :=
  let v := h * 16 + l in
  match m with
  | encodeHost => (h <? 8) && negb (v =? 0x25)
  | encodeZone => negb (v =? 0x25) && negb (v =? 0x20) && shouldEscape encodeHost (to_byte v)
  | _ => false
  end.

Fixpoint unescape (m : encoding) (l : bytes) : option bytes :=
  match l with
  | [] => Some []
  | c :: t =>
    if Ascii.eqb c "%" then
      match t with
      | c1 :: c2 :: t' =>
        h ← hex_val c1; v ← hex_val c2;
        if bad_escape m h v then None else
        r ← unescape m t'; Some (to_byte (h * 16 + v) :: r)
      | _ => None
      end
    else if is_host_mode m && (byte_val c <? 0x80) && shouldEscape m c then None
    else
      r ← unescape m t;
      Some ((if Ascii.eqb c "+" && bool_decide (m = encodeQueryComponent) then " "%char else c) :: r)
  end.

Definition QueryUnescape (s : string) : option string :=
  bytes_str <$> unescape encodeQueryComponent (str_bytes s).

(** ** [url.Values] *)

Abbreviation Values := (gmap string (list string)).

Definition Values_Get (v : Values) (k : string) : string := hd "" (default [] (v !! k)).
Definition Values_Has (v : Values) (k : string) : bool := bool_decide (is_Some (v !! k)).
Definition Values_Set (k x : string) (v : Values) : Values := <[k := [x]]> v.

(** [v.Encode()]: sorted by key, each key's values in order. *)
Definition Encode (v : Values) : string :=
  Join "&" (merge_sort (λ x y : string * list string, String.le x.1 y.1) (map_to_list v)
    ≫= λ kv, map (λ x, QueryEscape kv.1 +:+ "=" +:+ QueryEscape x) kv.2).

Definition maxQueryParams : Z := 10000.

(** [url.ParseQuery] with the error dropped: pairs that do not parse are skipped, and a
    query with too many pairs yields no value. *)
Definition add_pair (v : Values) (p : string) : Values :=
  if Contains p ";" || String.eqb p "" then v else
  let '(k, x, _) := Cut "=" p in
  match QueryUnescape k, QueryUnescape x with
  | Some k, Some x => <[k := default [] (v !! k) ++ [x]]> v
  | _, _ => v
  end.
Definition ParseQuery (q : string) : Values :=
  let ps := Split "&" q in
  if maxQueryParams <? Z.of_nat (length ps) then ∅ else foldl add_pair ∅ ps.

(** ** [url.URL] *)

Record URL := mkURL {
  u_Scheme : string;
  u_Opaque : string;
  u_User : option (string * option string);
  u_Host : string;
  u_Path : string;
  u_RawPath : string;
  u_OmitHost : bool;
  u_ForceQuery : bool;
  u_RawQuery : string;
  u_Fragment : string;
  u_RawFragment : string;
}.

(** The scheme before the first colon; [None] for ["missing protocol scheme"]. *)
Fixpoint getScheme_go (acc : bytes) (l : bytes) : option (option (bytes * bytes)) :=
  match l with
  | [] => Some None
  | c :: t =>
    let b := byte_val c in
    if in_range b 0x61 0x7A || in_range b 0x41 0x5A then getScheme_go (c :: acc) t
    else if in_range b 0x30 0x39 || bool_decide (c ∈ str_bytes "+-.") then
      match acc with [] => Some None | _ => getScheme_go (c :: acc) t end
    else if Ascii.eqb c ":" then
      match acc with [] => None | _ => Some (Some (reverse acc, t)) end
    else Some None
  end.
Definition getScheme (s : string) : option (string * string) :=
  r ← getScheme_go [] (str_bytes s);
  Some match r with Some (sc, rest) => (bytes_str sc, bytes_str rest) | None => ("", s) end.

(** [s[:i]] and [s[i+1:]] at the last occurrence of a byte. *)
Definition cut_last (c : ascii) (s : string) : option (string * string) :=
  let '(a, b, ok) := Cut c (bytes_str (reverse (str_bytes s))) in
  if ok : bool then Some (bytes_str (reverse (str_bytes b)), bytes_str (reverse (str_bytes a))) else None.

Definition validOptionalPort (p : string) : bool :=
  match str_bytes p with
  | [] => true
  | c :: t => Ascii.eqb c ":" && forallb is_digit_char t
  end.

(** The first occurrence of ["%25"]. *)
Fixpoint cut_zone (l : bytes) : option (bytes * bytes) :=
  match l with
  | [] => None
  | c :: t =>
    if HasPrefix (bytes_str l) "%25" then Some ([], l)
    else r ← cut_zone t; Some (c :: r.1, r.2)
  end.

(** A bracketed host must be an IPv6 address; another host has at most one colon. *)
Definition parseHost (host : string) : option string :=
  match cut_last "[" host with
  | Some (before, rest) =>
    '(name, port) ← cut_last "]" rest;
    if negb (String.eqb before "") || negb (validOptionalPort port) then None else
    port ← unescape encodeHost (str_bytes port);
    name ← match cut_zone (str_bytes name) with
           | Some (h, z) => h ← unescape encodeHost h; z ← unescape encodeZone z; Some (h ++ z)
           | None => unescape encodeHost (str_bytes name)
           end;
    match ParseAddr (bytes_str name) with
    | Some (Addr6 _ _) => Some (bytes_str (["["%char] ++ name ++ ["]"%char] ++ port))
    | _ => None
    end
  | None =>
    let '(_, port, ok) := Cut ":" host in
    if ok && negb (validOptionalPort (":" +:+ port)) then None else
    bytes_str <$> unescape encodeHost (str_bytes host)
  end.

Definition validUserinfo (s : string) : bool :=
  forallb (λ c, unreserved c || bool_decide (c ∈ str_bytes ":!$&'()*+,;=%@")) (str_bytes s).

Definition parseAuthority (authority : string) : option (option (string * option string) * string) :=
  let unesc s := bytes_str <$> unescape encodeUserPassword (str_bytes s) in
  match cut_last "@" authority with
  | None => h ← parseHost authority; Some (None, h)
  | Some (info, host) =>
    h ← parseHost host;
    if negb (validUserinfo info) then None else
    let '(name, pw, ok) := Cut ":" info in
    name ← unesc name;
    if ok : bool then pw ← unesc pw; Some (Some (name, Some pw), h) else Some (Some (name, None), h)
  end.

(** The raw form is kept only when it is not the canonical escaping. *)
Definition set_escaped (m : encoding) (p : string) : option (string * string) :=
  x ← unescape m (str_bytes p);
  Some (bytes_str x, if String.eqb p (bytes_str (escape m x)) then "" else p).

Definition HasSuffix (s suf : string) : bool :=
  (String.length suf <=? String.length s)%nat && String.eqb (slice_from s (String.length s - String.length suf)) suf.

Definition parse_nofrag `{UnicodeDB} (raw : string) : option URL :=
  if existsb (λ c, (byte_val c <? 0x20) || (byte_val c =? 0x7F)) (str_bytes raw) then None else
  if String.eqb raw "*" then Some (mkURL "" "" None "" "*" "" false false "" "" "") else
  '(scheme, rest) ← getScheme raw;
  let scheme := ToLower scheme in
  let '(before, after, q) := Cut "?" rest in
  let '(rest, query, force) :=
    if q && String.eqb after "" then (before, "", true) else (before, after, false) in
  if negb (HasPrefix rest "/") && negb (String.eqb scheme "") then
    Some (mkURL scheme rest None "" "" "" false force query "" "")
  else if negb (HasPrefix rest "/") && Contains (Cut "/" rest).1.1 ":" then None
  else
  if (negb (String.eqb scheme "") || negb (HasPrefix rest "///")) && HasPrefix rest "//" then
    let '(authority, path, slash) := Cut "/" (slice_from rest 2) in
    let path := if slash : bool then "/" +:+ path else "" in
    '(user, host) ← parseAuthority authority;
    '(path, rawpath) ← set_escaped encodePath path;
    Some (mkURL scheme "" user host path rawpath false force query "" "")
  else
    '(path, rawpath) ← set_escaped encodePath rest;
    Some (mkURL scheme "" None "" path rawpath
      (negb (String.eqb scheme "") && HasPrefix rest "/") force query "" "").

(** [url.Parse]. *)
Definition url_Parse `{UnicodeDB} (raw : string) : option URL :=
  let '(raw, frag, _) := Cut "#" raw in
  u ← parse_nofrag raw;
  if String.eqb frag "" then Some u else
  '(f, rf) ← set_escaped encodeFragment frag;
  Some (mkURL (u_Scheme u) (u_Opaque u) (u_User u) (u_Host u) (u_Path u) (u_RawPath u)
    (u_OmitHost u) (u_ForceQuery u) (u_RawQuery u) f rf).

Definition Hostname (u : URL) : string :=
  let h := match cut_last ":" (u_Host u) with
           | Some (h, p) => if validOptionalPort (":" +:+ p) then h else u_Host u
           | None => u_Host u
           end in
  if HasPrefix h "[" && HasSuffix h "]" then slice_to (slice_from h 1) (String.length h - 2) else h.

Definition validEncoded (m : encoding) (s : string) : bool :=
  forallb (λ c, bool_decide (c ∈ str_bytes "!$&'()*+,;=:@[]%") || negb (shouldEscape m c)) (str_bytes s).

Definition escaped_form (m : encoding) (raw decoded : string) : string :=
  if negb (String.eqb raw "") && validEncoded m raw
     && bool_decide (unescape m (str_bytes raw) = Some (str_bytes decoded))
  then raw else bytes_str (escape m (str_bytes decoded)).
Definition EscapedPath (u : URL) : string :=
  if String.eqb (u_Path u) "*" && String.eqb (u_RawPath u) "" then "*"
  else escaped_form encodePath (u_RawPath u) (u_Path u).
Definition EscapedFragment (u : URL) : string := escaped_form encodeFragment (u_RawFragment u) (u_Fragment u).

Definition Userinfo_String (ui : string * option string) : string :=
  let esc s := bytes_str (escape encodeUserPassword (str_bytes s)) in
  esc ui.1 +:+ match ui.2 with Some pw => ":" +:+ esc pw | None => "" end.

(** [u.String()]. *)
Definition URL_String (u : URL) : string :=
  let path := EscapedPath u in
  let nonempty s := negb (String.eqb s "") in
  let has_user := bool_decide (is_Some (u_User u)) in
  let start := if nonempty (u_Scheme u) then u_Scheme u +:+ ":" else "" in
  let body :=
    if nonempty (u_Opaque u) then start +:+ u_Opaque u else
    let authority :=
      if nonempty (u_Scheme u) || nonempty (u_Host u) || has_user then
        if u_OmitHost u && negb (nonempty (u_Host u)) && negb has_user then "" else
        (if nonempty (u_Host u) || nonempty (u_Path u) || has_user then "//" else "")
        +:+ match u_User u with Some ui => Userinfo_String ui +:+ "@" | None => "" end
        +:+ bytes_str (escape encodeHost (str_bytes (u_Host u)))
      else "" in
    let start := start +:+ authority in
    let start := if nonempty path && negb (HasPrefix path "/") && nonempty (u_Host u) then start +:+ "/" else start in
    let start := if String.eqb start "" && Contains (Cut "/" path).1.1 ":" then "./" else start in
    start +:+ path in
  body +:+ (if u_ForceQuery u || nonempty (u_RawQuery u) then "?" +:+ u_RawQuery u else "")
  +:+ (if nonempty (u_Fragment u) then "#" +:+ EscapedFragment u else "").

Definition set_RawQuery (q : string) (u : URL) : URL :=
  mkURL (u_Scheme u) (u_Opaque u) (u_User u) (u_Host u) (u_Path u) (u_RawPath u)
    (u_OmitHost u) (u_ForceQuery u) q (u_Fragment u) (u_RawFragment u).
