(* ===== verification/Totp.v ===== *)
(** * Time-based one-time passwords

    [identity/totp.go]: RFC 6238 codes over HMAC-SHA1, their validation within a
    window of steps, secret generation and the provisioning URI.  The functions
    that can panic return an [outcome]. *)

From S2P Require Import Prelude GoStrings GoBytes GoCrypto GoUrl Errors World.

Local Open Scope Z_scope.

(** [identity.TOTP]. *)
Record TOTP := mkTOTP { Digits : Z; Period : Duration; Skew : Z }.

Definition DefaultTOTP : TOTP := mkTOTP 6 (30 * Second) 1.

Definition digits (t : TOTP) : Z := if Digits t =? 0 then 6 else Digits t.
Definition period (t : TOTP) : Duration := if Period t =? 0 then 30 * Second else Period t.

(** [uint64(t.period().Seconds())]. The conversion of a negative float is
    implementation-defined in Go; as on amd64, it wraps. The float is exact for
    whole seconds and rounds below the integer for every period under 2^24 s. *)
Definition step (t : TOTP) : Z := wrap_uint64 (Seconds (period t)).

(** [mod] after [digits] iterations of [mod *= 10] on a [uint32]. *)
Definition pow10_u32 (n : Z) : Z := Nat.iter (Z.to_nat n) (λ m, (m * 10) mod 2 ^ 32) 1.

(** [fmt.Sprintf("%0*d", width, v)] for an unsigned [v]: a negative width pads
    with spaces on the right, one beyond a million is rejected by [fmt]. *)
Definition pad_zero (width v : Z) : string :=
  let s := FormatInt v in
  if 1000000 <? Z.abs width then "%!(BADWIDTH)" +:+ s
  else if width <? 0 then s +:+ bytes_str (replicate (Z.to_nat (- width) - String.length s) " "%char)
  else bytes_str (replicate (Z.to_nat width - String.length s) "0"%char) +:+ s.

(** The dynamic truncation of RFC 4226. *)
Definition truncate_mac (sum : bytes) : Z :=
  let offset := Z.to_nat (Z.land (byte_val (nth (length sum - 1) sum zero)) 0x0f) in
  let at_ i := byte_val (nth (offset + i) sum zero) in
  Z.lor (Z.lor (Z.lor (Z.shiftl (Z.land (at_ 0%nat) 0x7f) 24) (Z.shiftl (at_ 1%nat) 16))
    (Z.shiftl (at_ 2%nat) 8)) (at_ 3%nat).

Definition hotp (key : bytes) (counter digits : Z) : outcome string :=
  let sum := hmac_sha1 key (put_be 8 counter) in
  let value := truncate_mac sum in
  let m := pow10_u32 digits in
  if m =? 0 then Panic "integer divide by zero" else Done (pad_zero digits (value mod m)).

(** [uint64(at.Unix()) / step]. *)
Definition counter (t : TOTP) (at_ : Time) : outcome Z :=
  if step t =? 0 then Panic "integer divide by zero" else Done (wrap_uint64 (Unix at_) / step t).

Section totp.
Context `{UnicodeDB}.

Definition decode_secret (secret : string) : option bytes := B32Decode (ToUpper secret).

Definition Code (t : TOTP) (secret : string) (at_ : Time) : outcome (result string) :=
  match decode_secret secret with
  | None => Done (Err ErrInvalidToken)
  | Some key =>
    match counter t at_ with
    | Panic msg => Panic msg
    | Done c =>
      match hotp key c (digits t) with
      | Panic msg => Panic msg
      | Done code => Done (Ok code)
      end
    end
  end.

(** The loop over the offsets [-skew..skew], stopping at the first match. *)
Fixpoint accept_any (key code : bytes) (d c : Z) (offsets : list Z) : outcome bool :=
  match offsets with
  | [] => Done false
  | i :: l =>
    match hotp key (wrap_uint64 (c + i)) d with
    | Panic msg => Panic msg
    | Done h => if const_eq (str_bytes h) code then Done true else accept_any key code d c l
    end
  end.

Definition skew (t : TOTP) : Z := if Skew t =? 0 then 1 else Skew t.
Definition offsets (t : TOTP) : list Z := seqZ (- skew t) (2 * skew t + 1).

Definition Validate (t : TOTP) (secret code : string) (now : Time) : outcome bool :=
  match decode_secret secret with
  | None => Done false
  | Some key =>
    match counter t now with
    | Panic msg => Panic msg
    | Done c => accept_any key (str_bytes code) (digits t) c (offsets t)
    end
  end.

Definition GenerateSecret `{Oracle} {S} : M S string :=
  b ← rand_read 20; mret (B32Encode b).

Definition AuthenticatorURI (issuer account secret : string) : string :=
  let label := PathEscape (issuer +:+ ":" +:+ account) in
  let q := <["period" := "30"]> (<["digits" := "6"]> (<["algorithm" := "SHA1"]>
    (<["issuer" := issuer]> {["secret" := secret]}))) in
  "otpauth://totp/" +:+ label +:+ "?" +:+ Values_Encode q.
End totp.

(** ** Facts *)

(** A power of ten is nonzero modulo 2^32 up to 10^31. *)
Lemma pow10_u32_mod n : 0 <= n → pow10_u32 n = 10 ^ n mod 2 ^ 32.
Proof.
  intros Hn. unfold pow10_u32. rewrite <-(Z2Nat.id n) at 2 by done.
  induction (Z.to_nat n) as [|k IH]; [done|].
  rewrite Nat2Z.inj_succ, Z.pow_succ_r, Nat.iter_succ, IH by lia.
  by rewrite Zmult_mod_idemp_l, Z.mul_comm.
Qed.

Lemma pow10_u32_pos n : 1 <= n <= 31 → 0 < pow10_u32 n <= 10 ^ n.
Proof.
  intros Hn. rewrite pow10_u32_mod by lia.
  assert (10 ^ n mod 2 ^ 32 ≠ 0) as Hne.
  { intros Hz. assert (forallb (λ k, negb (10 ^ k mod 2 ^ 32 =? 0)) (seqZ 1 31) = true) as Hf
      by (vm_compute; reflexivity).
    rewrite forallb_forall in Hf. specialize (Hf n). rewrite Hz in Hf.
    discriminate Hf. apply list_elem_of_In, elem_of_seqZ. lia. }
  assert (10 ^ n mod 2 ^ 32 <= 10 ^ n) by (apply Z.mod_le; [apply Z.pow_nonneg; lia|done]).
  pose proof (Z.mod_pos_bound (10 ^ n) (2 ^ 32) eq_refl). lia.
Qed.

Lemma pow10_u32_zero n : 32 <= n → pow10_u32 n = 0.
Proof.
  intros Hn. rewrite pow10_u32_mod by lia. change 10 with (2 * 5). rewrite Z.pow_mul_l.
  replace n with (n - 32 + 32) at 1 by lia. rewrite Z.pow_add_r by lia.
  rewrite <-Z.mul_assoc, (Z.mul_comm (2 ^ 32)), Z.mul_assoc. by apply Z.mod_mul.
Qed.

Lemma truncate_mac_bound sum : 0 <= truncate_mac sum < 2 ^ 31.
Proof.
  unfold truncate_mac. set (o := Z.to_nat _).
  pose proof (byte_val_range (nth (o + 0) sum zero)) as H0.
  pose proof (byte_val_range (nth (o + 1) sum zero)) as H1.
  pose proof (byte_val_range (nth (o + 2) sum zero)) as H2.
  pose proof (byte_val_range (nth (o + 3) sum zero)) as H3.
  set (a := byte_val (nth (o + 0) _ _)) in *. set (b := byte_val (nth (o + 1) _ _)) in *.
  set (c := byte_val (nth (o + 2) _ _)) in *. set (d := byte_val (nth (o + 3) _ _)) in *.
  assert (0 <= Z.land a 0x7f < 128) as Ha.
  { change 0x7f with (Z.ones 7). rewrite Z.land_ones by lia. by apply Z.mod_pos_bound. }
  assert (∀ x y n k, 0 <= x < 2 ^ k → 0 <= y < 2 ^ n → 0 <= n → 0 <= k →
    0 <= Z.lor (Z.shiftl x n) y < 2 ^ (k + n)) as Hlor.
  { intros x y n k Hx Hy Hn Hk. rewrite Z.shiftl_mul_pow2 by done.
    rewrite <-Z.add_nocarry_lor.
    - rewrite Z.pow_add_r by done. nia.
    - apply Z.bits_inj'. intros i Hi. rewrite Z.land_spec, Z.bits_0.
      destruct (decide (i < n)).
      + by rewrite Z.mul_pow2_bits_low.
      + rewrite <-(Z.mod_small y (2 ^ n)), Z.mod_pow2_bits_high by lia. by rewrite andb_false_r. }
  rewrite <-!Z.lor_assoc.
  replace 31 with (7 + 24) by done. apply Hlor; [done| |done..].
  replace 24 with (8 + 16) by done. apply Hlor; [done| |done..].
  replace 16 with (8 + 8) by done. apply Hlor; done.
Qed.

(** A number below [10^k] has at most [k] decimal digits. *)
Lemma dec_go_length fuel : ∀ n acc k, 0 <= n < 10 ^ Z.of_nat k → (0 < k)%nat →
  (String.length (dec_go fuel n acc) <= k + String.length acc)%nat.
Proof.
  induction fuel as [|fuel IH]; intros n acc k Hn Hk; cbn [dec_go]; [lia|].
  destruct (Z.ltb_spec n 10); [cbn; lia|].
  destruct k as [|[|k]]; [lia| |].
  - change (10 ^ Z.of_nat 1) with 10 in Hn. lia.
  - specialize (IH (n / 10) (String (digit_char (n mod 10)) acc) (Datatypes.S k)). cbn in IH |- *.
    etrans; [apply IH|]; [|lia..].
    rewrite Nat2Z.inj_succ, Z.pow_succ_r in Hn by lia. split; [apply Z.div_pos; lia|].
    apply Z.div_lt_upper_bound; lia.
Qed.

Lemma FormatInt_length n k : 0 <= n < 10 ^ k → 0 < k → (String.length (FormatInt n) <= Z.to_nat k)%nat.
Proof.
  intros Hn Hk. unfold FormatInt. rewrite (proj2 (Z.ltb_ge n 0)) by lia.
  etrans; [apply (dec_go_length _ n EmptyString (Z.to_nat k)); [|lia]|cbn; lia].
  by rewrite Z2Nat.id by lia.
Qed.

(** One-time passwords have exactly the configured number of characters, all of
    them digits, for every width at which the code does not panic. *)
Lemma hotp_done key c d : 1 <= d <= 31 →
  ∃ s, hotp key c d = Done s ∧ len s = d ∧ Forall (λ c, is_digit_char c = true) (str_bytes s).
Proof.
  intros Hd. unfold hotp. pose proof (pow10_u32_pos d Hd) as Hm.
  pose proof (truncate_mac_bound (hmac_sha1 key (put_be 8 c))) as Hv.
  destruct (Z.eqb_spec (pow10_u32 d) 0); [lia|]. eexists; split; [done|].
  set (v := _ mod _).
  pose proof (Z.mod_pos_bound (truncate_mac (hmac_sha1 key (put_be 8 c))) (pow10_u32 d) ltac:(lia)) as Hb.
  assert (String.length (FormatInt v) <= Z.to_nat d)%nat as Hl by (apply FormatInt_length; unfold v; lia).
  unfold pad_zero. rewrite (proj2 (Z.ltb_ge 1000000 _)), (proj2 (Z.ltb_ge d 0)) by lia. split.
  - unfold len. rewrite <-length_str_bytes, str_bytes_app, str_bytes_str, length_app, length_replicate,
      length_str_bytes. lia.
  - rewrite str_bytes_app, str_bytes_str. apply Forall_app; split; [by apply Forall_replicate|].
    unfold FormatInt. rewrite (proj2 (Z.ltb_ge v 0)) by (unfold v; lia). by apply dec_go_digits.
Qed.

Section facts.
Context `{UnicodeDB}.

Lemma accept_any_spec key code d c l :
  1 <= d <= 31 →
  ∃ b, accept_any key (str_bytes code) d c l = Done b
    ∧ (b = true ↔ Exists (λ i, hotp key (wrap_uint64 (c + i)) d = Done code) l).
Proof.
  intros Hd. induction l as [|i l (b & Hb & IH)].
  - exists false. split; [done|]. by rewrite Exists_nil.
  - cbn [accept_any]. destruct (hotp_done key (wrap_uint64 (c + i)) d Hd) as (h & Hh & _).
    rewrite Hh. destruct (const_eq (str_bytes h) (str_bytes code)) eqn:He.
    + exists true. split; [done|]. rewrite Exists_cons. split; [|done]. intros _. left.
      apply const_eq_spec, str_bytes_inj in He. by subst.
    + exists b. split; [done|]. rewrite IH, Exists_cons, Hh. split; [by right|].
      intros [[= ->]|]; [|done]. by rewrite const_eq_refl in He.
Qed.

Lemma counter_done t at_ : step t ≠ 0 → counter t at_ = Done (wrap_uint64 (Unix at_) / step t).
Proof. intros Hs. unfold counter. by rewrite (proj2 (Z.eqb_neq _ _)). Qed.

Lemma elem_of_offsets t i : i ∈ offsets t ↔ - skew t <= i <= skew t.
Proof. unfold offsets. rewrite elem_of_seqZ. lia. Qed.

Lemma counter_range t at_ : step t ≠ 0 → 0 <= wrap_uint64 (Unix at_) / step t < 2 ^ 64.
Proof.
  intros Hs. assert (0 < step t).
  { unfold step, wrap_uint64 in *. pose proof (Z.mod_pos_bound (Seconds (period t)) (2 ^ 64) eq_refl). lia. }
  assert (0 <= wrap_uint64 (Unix at_) < 2 ^ 64) as [? ?] by by apply Z.mod_pos_bound.
  split; [by apply Z.div_pos|]. apply Z.div_lt_upper_bound; nia.
Qed.

(** A generated secret decodes to the random bytes it encodes. *)
Lemma decode_secret_encode b : decode_secret (B32Encode b) = Some b.
Proof.
  unfold decode_secret. rewrite ToUpper_id; [apply B32Decode_Encode|].
  unfold B32Encode. rewrite str_bytes_str. apply b32_enc_chars.
  intros v Hv. unfold is_ascii.
  assert (forallb (λ v, (byte_val (alpha_char std32 v) <? 0x80)
    && negb (in_range (byte_val (alpha_char std32 v)) 0x61 0x7A)) (seqZ 0 32) = true) as Hf
    by (vm_compute; reflexivity).
  rewrite forallb_forall in Hf. specialize (Hf v).
  rewrite andb_true_iff, Z.ltb_lt, negb_true_iff in Hf. apply Hf.
  apply list_elem_of_In, elem_of_seqZ. lia.
Qed.
End facts.

(** ** Properties *)

(** For a period of at least a second and 1 to 31 digits, [Validate] returns
    without panicking, and it accepts exactly the codes of the steps within [Skew]
    (one if zero, none if negative) of the current one, modulo 2^64. *)
Theorem Validate_window `{UnicodeDB} t secret key code now :
  1 <= digits t <= 31 → step t ≠ 0 → decode_secret secret = Some key →
  ∃ b, Validate t secret code now = Done b ∧
    (b = true ↔ ∃ i, - skew t <= i <= skew t ∧
      hotp key (wrap_uint64 (wrap_uint64 (Unix now) / step t + i)) (digits t) = Done code).
Proof.
  intros Hd Hs Hkey. unfold Validate. rewrite Hkey, counter_done by done.
  destruct (accept_any_spec key code (digits t) (wrap_uint64 (Unix now) / step t) (offsets t) Hd)
    as (b & Hb & Hiff).
  exists b. split; [done|]. rewrite Hiff, Exists_exists.
  split; intros (i & Hi & Hc); exists i; by rewrite elem_of_offsets in *.
Qed.

(** A secret from [GenerateSecret] always yields a code, with exactly [Digits]
    decimal digits, which [Validate] accepts at every time whose step is within
    [Skew] of the step it was computed for. *)
Theorem Code_roundtrip `{UnicodeDB} t b at_ now :
  1 <= digits t <= 31 → step t ≠ 0 →
  Z.abs (wrap_uint64 (Unix now) / step t - wrap_uint64 (Unix at_) / step t) <= skew t →
  ∃ code, Code t (B32Encode b) at_ = Done (Ok code) ∧ len code = digits t
    ∧ Forall (λ c, is_digit_char c = true) (str_bytes code)
    ∧ Validate t (B32Encode b) code now = Done true.
Proof.
  intros Hd Hs Hw. unfold Code, Validate. rewrite !decode_secret_encode, !counter_done by done.
  set (c := wrap_uint64 (Unix at_) / step t) in *. set (c' := wrap_uint64 (Unix now) / step t) in *.
  destruct (hotp_done b c (digits t) Hd) as (code & Hc & Hlen & Hdig). rewrite Hc.
  exists code. do 3 (split; [done|]).
  destruct (accept_any_spec b code (digits t) c' (offsets t) Hd) as (r & Hr & Hiff).
  rewrite Hr. f_equal. apply Hiff, Exists_exists. exists (c - c').
  rewrite elem_of_offsets. split; [lia|]. replace (c' + (c - c')) with c by lia.
  unfold wrap_uint64. rewrite Z.mod_small by (apply counter_range; done). done.
Qed.

(** Ten or more digits never panic below 32, and from 32 on the modulus
    overflows to zero: the code panics on every key and counter. *)
Theorem hotp_width key c d :
  (1 <= d <= 31 → ∃ s, hotp key c d = Done s ∧ len s = d)
  ∧ (32 <= d → hotp key c d = Panic "integer divide by zero").
Proof.
  split; intros Hd.
  - destruct (hotp_done key c d Hd) as (s & Hs & Hl & _). eauto.
  - unfold hotp. by rewrite pow10_u32_zero.
Qed.
