(* ===== verification/Naming.v ===== *)
(** * Physical names

    [identity/naming.go]: the SQL identifiers the stores interpolate into their
    statements.  [Naming_Validate] is the check that rules out injection; it ranges
    over a map, so it runs in [M] and may report any of the offending names. *)

From S2P Require Import Prelude GoStrings Errors World.

Local Open Scope Z_scope.

(** The loop over the runes of [s]; [i] is the byte index of the next rune. *)
Fixpoint ident_loop (i : Z) (l : list (Z * bytes)) : bool :=
  match l with
  | [] => true
  | (r, b) :: l =>
    if r =? 0x5F then ident_loop (i + Z.of_nat (length b)) l
    else if in_range r 0x61 0x7A || in_range r 0x41 0x5A then ident_loop (i + Z.of_nat (length b)) l
    else if in_range r 0x30 0x39 && (0 <? i) then ident_loop (i + Z.of_nat (length b)) l
    else false
  end.

Definition isValidIdentifier (s : string) : bool :=
  if String.eqb s "" || (63 <? len s) then false else ident_loop 0 (chunks (str_bytes s)).

Record TableNames := mkTableNames {
  Users : string;
  Roles : string;
  UserRoles : string;
  UserClaims : string;
  RoleClaims : string;
  UserLogins : string;
  UserTokens : string;
  APIKeys : string;
  RefreshTokens : string;
  OAuthClients : string;
  OAuthCodes : string;
  OAuthConsents : string;
  OAuthGrants : string;
  OAuthAssertions : string;
}.

Definition DefaultTableNames : TableNames := mkTableNames
  "identity_users" "identity_roles" "identity_user_roles" "identity_user_claims"
  "identity_role_claims" "identity_user_logins" "identity_user_tokens" "identity_api_keys"
  "identity_refresh_tokens" "identity_oauth_clients" "identity_oauth_codes"
  "identity_oauth_consents" "identity_oauth_grants" "identity_oauth_assertions".

Definition WithPrefix (n : TableNames) (prefix : string) : TableNames := mkTableNames
  (prefix +:+ Users n) (prefix +:+ Roles n) (prefix +:+ UserRoles n) (prefix +:+ UserClaims n)
  (prefix +:+ RoleClaims n) (prefix +:+ UserLogins n) (prefix +:+ UserTokens n)
  (prefix +:+ APIKeys n) (prefix +:+ RefreshTokens n) (prefix +:+ OAuthClients n)
  (prefix +:+ OAuthCodes n) (prefix +:+ OAuthConsents n) (prefix +:+ OAuthGrants n)
  (prefix +:+ OAuthAssertions n).

Record Naming := mkNaming { Schema : string; Tables : TableNames }.

Definition DefaultNaming : Naming := mkNaming "" DefaultTableNames.

(** The map literal of labels to names in [Validate]. *)
Definition labelled (t : TableNames) : gmap string string := list_to_map [
  ("Users", Users t); ("Roles", Roles t); ("UserRoles", UserRoles t);
  ("UserClaims", UserClaims t); ("RoleClaims", RoleClaims t); ("UserLogins", UserLogins t);
  ("UserTokens", UserTokens t); ("APIKeys", APIKeys t); ("RefreshTokens", RefreshTokens t);
  ("OAuthClients", OAuthClients t); ("OAuthCodes", OAuthCodes t);
  ("OAuthConsents", OAuthConsents t); ("OAuthGrants", OAuthGrants t);
  ("OAuthAssertions", OAuthAssertions t)].

Section naming.
Context `{Oracle} `{UnicodeDB} {S : Type}.

(** The range over the map, stopping at the first invalid name. *)
Fixpoint check_names (l : list (string * string)) : result unit :=
  match l with
  | [] => Ok tt
  | (label, name) :: l =>
    if negb (isValidIdentifier name)
    then Err (Wrapped (": table " +:+ label +:+ "=" +:+ Quote name) ErrInvalidIdentifier)
    else check_names l
  end.

Definition Naming_Validate (n : Naming) : M S (result unit) :=
  if negb (String.eqb (Schema n) "") && negb (isValidIdentifier (Schema n))
  then mret (Err (Wrapped (": schema " +:+ Quote (Schema n)) ErrInvalidIdentifier))
  else l ← range_map (labelled (Tables n)); mret (check_names l).
End naming.

Definition Qualify (n : Naming) (table : string) : string :=
  if negb (String.eqb (Schema n) "") then Schema n +:+ "." +:+ table else table.

(** ** Facts *)

Definition is_word_char (c : ascii) : bool :=
  let b := byte_val c in
  (b =? 0x5F) || in_range b 0x61 0x7A || in_range b 0x41 0x5A || in_range b 0x30 0x39.

Lemma is_word_char_ascii c : is_word_char c = true → is_ascii c.
Proof.
  unfold is_word_char, is_ascii. rewrite !orb_true_iff, !in_range_spec, Z.eqb_eq. lia.
Qed.

Definition is_digit_byte (c : ascii) : bool := in_range (byte_val c) 0x30 0x39.

(** The loop accepts exactly the sequences of word characters that do not begin an
    identifier with a digit. *)
Lemma ident_loop_spec l i : 0 <= i →
  ident_loop i (chunks l) = true ↔
    Forall (λ c, is_word_char c = true) l ∧ (i = 0 → head l = None ∨ ∃ c, head l = Some c ∧ is_digit_byte c = false).
Proof.
  revert i. induction l as [|c l IH]; intros i Hi; [cbn; naive_solver|].
  destruct (decide (is_ascii c)) as [Ha|Ha].
  - assert (chunks (c :: l) = (byte_val c, [c]) :: chunks l) as ->.
    { cbn. unfold is_ascii in Ha. by rewrite (proj2 (Z.ltb_lt _ _) Ha). }
    cbn [ident_loop length]. rewrite Forall_cons. cbn [head]. unfold is_word_char, is_digit_byte.
    assert (∀ P, (i + Z.of_nat 1 = 0 → P) ↔ True) as Htriv by (intros; split; [done|lia]).
    destruct (Z.eqb_spec (byte_val c) 0x5F) as [Hb|]; cbn [orb].
    { rewrite IH by lia. rewrite Htriv. split; [|by intros [[_ ?] _]]. intros [? _].
      split; [done|]. intros _. right. exists c. split; [done|]. by rewrite Hb. }
    destruct (in_range (byte_val c) 0x61 0x7A || in_range (byte_val c) 0x41 0x5A) eqn:Hlet; cbn [orb].
    { rewrite IH by lia. rewrite Htriv. split; [|by intros [[_ ?] _]]. intros [? _].
      split; [done|]. intros _. right. exists c. split; [done|].
      apply not_true_is_false. rewrite orb_true_iff, !in_range_spec in *. lia. }
    destruct (in_range (byte_val c) 0x30 0x39) eqn:Hdig; cbn [andb]; [|by split; [|intros [[? _] _]]].
    destruct (Z.ltb_spec 0 i).
    + rewrite IH by lia. rewrite Htriv. split; [|by intros [[_ ?] _]]. intros [? _]. split; [done|lia].
    + split; [done|]. intros [_ Hh]. destruct Hh as [|(? & [= <-] & ?)]; [lia|done|congruence].
  - destruct (chunks_non_ascii c l Ha) as (r & b & t & -> & Hr). cbn [ident_loop].
    rewrite (proj2 (Z.eqb_neq _ _)) by lia.
    assert (∀ lo hi, hi < 0x80 → in_range r lo hi = false) as Hout
      by (intros; apply not_true_is_false; rewrite in_range_spec; lia).
    rewrite !Hout by done. cbn. split; [done|]. intros [[Hw _]%Forall_cons _]. by apply is_word_char_ascii in Hw.
Qed.

Lemma isValidIdentifier_spec s :
  isValidIdentifier s = true ↔
    1 <= len s <= 63 ∧ Forall (λ c, is_word_char c = true) (str_bytes s)
    ∧ ∃ c, head (str_bytes s) = Some c ∧ is_digit_byte c = false.
Proof.
  unfold isValidIdentifier. rewrite <-(bytes_str_bytes s) at 1. unfold len. rewrite <-length_str_bytes.
  destruct (str_bytes s) as [|c l] eqn:Hs.
  - split; [done|]. intros (_ & _ & ? & [=] & _).
  - cbn [bytes_str String.string_of_list_ascii String.eqb orb].
    destruct (Z.ltb_spec 63 (Z.of_nat (length (c :: l)))).
    { split; [done|]. intros [? _]. lia. }
    rewrite ident_loop_spec by done. cbn [length head] in *. split.
    + intros [Hw Hh]. split; [lia|]. split; [done|]. by destruct Hh as [|(? & [= <-] & ?)]; eauto.
    + intros (_ & Hw & Hh). split; [done|]. intros _. by right.
Qed.

Section facts.
Context `{Oracle} `{UnicodeDB} {S : Type}.

Lemma check_names_spec l :
  (check_names l = Ok tt ∧ Forall (λ kv, isValidIdentifier kv.2 = true) l)
  ∨ ∃ e, check_names l = Err e ∧ ErrorsIs e ErrInvalidIdentifier = true
      ∧ ¬ Forall (λ kv, isValidIdentifier kv.2 = true) l.
Proof.
  induction l as [|[k v] l IH]; [by left|]. cbn [check_names].
  rewrite Forall_cons. cbn [snd]. destruct (isValidIdentifier v) eqn:Hv; cbn [negb].
  - destruct IH as [[-> ?]|(e & -> & ? & ?)]; [by left|]. right. exists e.
    split_and!; [done|done|]. by intros [_ ?]%Forall_cons.
  - right. eexists. split; [done|]. split; [|intros [? _]%Forall_cons; cbn in *; congruence].
    cbn [ErrorsIs]. apply orb_true_iff. by right.
Qed.

(** Every name of a table set, through the map literal. *)
Definition all_names (t : TableNames) : list string :=
  [Users t; Roles t; UserRoles t; UserClaims t; RoleClaims t; UserLogins t; UserTokens t;
   APIKeys t; RefreshTokens t; OAuthClients t; OAuthCodes t; OAuthConsents t; OAuthGrants t;
   OAuthAssertions t].

Lemma labelled_names t (P : string → Prop) :
  map_Forall (λ _ v, P v) (labelled t) ↔ Forall P (all_names t).
Proof.
  unfold labelled, all_names. cbn [list_to_map foldr fst snd uncurry].
  rewrite !map_Forall_insert by done. rewrite !Forall_cons. cbn.
  split; [naive_solver|]. intros. repeat split; try naive_solver; apply map_Forall_empty.
Qed.
End facts.

(** ** Properties *)

(** [Naming.Validate] accepts a layout exactly when the schema is empty or an
    identifier of 1 to 63 bytes from [[A-Za-z0-9_]] that does not begin with a
    digit, and so is every one of the fourteen table names; it never panics, changes
    nothing, and otherwise returns an error wrapping [ErrInvalidIdentifier],
    whatever the order of the range over the map. *)
Theorem Naming_Validate_sound `{Oracle} `{UnicodeDB} {S} (n : Naming) (w : World S) :
  let safe s := 1 <= len s <= 63 ∧ Forall (λ c, is_word_char c = true) (str_bytes s)
    ∧ ∃ c, head (str_bytes s) = Some c ∧ is_digit_byte c = false in
  let all_safe := (Schema n = "" ∨ safe (Schema n)) ∧ Forall safe (all_names (Tables n)) in
  wp (Naming_Validate n) (λ r w', w_store w' = w_store w ∧ w_out w' = w_out w ∧
    ((r = Ok tt ∧ all_safe)
     ∨ (∃ e, r = Err e ∧ ErrorsIs e ErrInvalidIdentifier = true ∧ ¬ all_safe))) w.
Proof.
  intros safe all_safe.
  assert (∀ s, safe s ↔ isValidIdentifier s = true) as Hsafe
    by (intros s; symmetry; apply isValidIdentifier_spec).
  unfold Naming_Validate.
  destruct (String.eqb_spec (Schema n) "") as [Hs|Hs]; cbn [negb andb].
  2: destruct (isValidIdentifier (Schema n)) eqn:Hv; cbn [negb].
  3: { wp_steps. do 2 (split; [done|]). right. eexists. split; [done|]. split.
       - cbn [ErrorsIs]. apply orb_true_iff. by right.
       - intros [[?|?%Hsafe] _]; congruence. }
  all: unfold range_map; wp_steps; do 2 (split; [done|]);
    set (l := o_order _ _); assert (l ≡ₚ map_to_list (labelled (Tables n))) as Hl by apply o_order_perm;
    assert (Forall (λ kv, isValidIdentifier kv.2 = true) l ↔ Forall safe (all_names (Tables n))) as Hall
      by (rewrite Hl, <-labelled_names, map_Forall_to_list;
          apply Forall_iff; intros [k v]; cbn; symmetry; apply Hsafe);
    destruct (check_names_spec l) as [[-> Hc]|(e & -> & He & Hc)];
    [left; split; [done|]; split; [naive_solver|by apply Hall]
    |right; exists e; do 2 (split; [done|]); by intros [_ ?%Hall]].
Qed.

(** Prefixing the default names with a word of at most 38 characters that does
    not begin with a digit keeps every name valid. *)
Theorem WithPrefix_default_valid p (Hw : Forall (λ c, is_word_char c = true) (str_bytes p))
    (Hd : ∀ c, head (str_bytes p) = Some c → is_digit_byte c = false) (Hl : len p <= 38) :
  Forall (λ s, isValidIdentifier s = true) (all_names (WithPrefix DefaultTableNames p)).
Proof.
  assert (∀ s, isValidIdentifier s = true → len s <= 25 → isValidIdentifier (p +:+ s) = true) as Hp.
  { intros s (Hs & Hsw & (c & Hc & Hsd))%isValidIdentifier_spec Hsl. apply isValidIdentifier_spec.
    unfold len in *. rewrite <-!length_str_bytes in *. rewrite !str_bytes_app, length_app.
    split; [lia|]. split; [by apply Forall_app|].
    destruct (str_bytes p) as [|c' l] eqn:Hp; [by exists c|]. exists c'. auto. }
  unfold all_names, WithPrefix. cbn -[isValidIdentifier].
  repeat constructor; apply Hp; vm_compute; congruence.
Qed.
