(* ===== verification/Sql.v ===== *)
(** * SQL statements

    The SQL the stores build is text.  This file reads it: the tokens of a statement
    (PostgreSQL's lexical rules for unquoted identifiers, numbers, strings, comments and
    [$n] placeholders) and a parser for the statements that occur, [SELECT], [INSERT],
    [UPDATE] and [DELETE] with the expressions and subqueries in them.  It models the
    notation of the text in the Go files, not the server that runs it. *)

From S2P Require Import Prelude GoStrings Naming.

Local Open Scope Z_scope.

(** ** Tokens *)

(** Unquoted words are folded to lower case. *)
Inductive token :=
  | TWord (w : string)
  | TNum (z : Z)
  | TParam (n : Z)
  | TStr (s : string)
  | TSym (s : string).

#[export] Instance token_eq_dec : EqDecision token.
Proof. solve_decision. Defined.

Definition is_blank (c : ascii) : bool :=
  let b := byte_val c in (b =? 0x20) || in_range b 0x09 0x0D.
Definition is_letter (c : ascii) : bool :=
  let b := byte_val c in (b =? 0x5F) || in_range b 0x61 0x7A || in_range b 0x41 0x5A.
Definition fold_char (c : ascii) : ascii :=
  let b := byte_val c in if in_range b 0x41 0x5A then to_byte (b + 32) else c.
Definition fold_word (w : bytes) : string := bytes_str (fold_char <$> w).
Definition is_symbol (c : ascii) : bool := bool_decide (c ∈ str_bytes "()[],=<>*+-/.;:|").

(** Where the lexer is in the text. *)
Inductive lmode :=
  | LStart
  | LWord (w : bytes)
  | LNum (w : bytes)
  | LParam (w : bytes)
  | LStr (w : bytes)
  | LQuote (w : bytes)
  | LSym (c : ascii)
  | LComment.

Definition lstate : Type := lmode * list token.

(** The first character of a token. *)
Definition lstart (c : ascii) (toks : list token) : option lstate :=
  if is_blank c then Some (LStart, toks)
  else if is_letter c then Some (LWord [c], toks)
  else if is_digit_byte c then Some (LNum [c], toks)
  else if Ascii.eqb c "$" then Some (LParam [], toks)
  else if Ascii.eqb c "'" then Some (LStr [], toks)
  else if is_symbol c then Some (LSym c, toks)
  else None.

(** The token a mode has collected when the text ends or another one begins. *)
Definition lflush (m : lmode) : option (list token) :=
  match m with
  | LStart | LComment => Some []
  | LWord w => Some [TWord (fold_word w)]
  | LNum w => z ← digits_val 0 (bytes_str w); Some [TNum z]
  | LParam w => if bool_decide (w = []) then None else z ← digits_val 0 (bytes_str w); Some [TParam z]
  | LStr _ => None
  | LQuote w => Some [TStr (bytes_str w)]
  | LSym c => Some [TSym (bytes_str [c])]
  end.

Definition lnext (m : lmode) (toks : list token) (c : ascii) : option lstate :=
  t ← lflush m; lstart c (toks ++ t).

Definition double_symbol (c c' : ascii) : option lstate :=
  let s := bytes_str [c; c'] in
  if String.eqb s "--" then Some (LComment, [])
  else if bool_decide (s ∈ ["||"; "::"; "<="; ">="; "<>"]) then Some (LStart, [TSym s])
  else None.

(** Every other mode ends with the character. *)
Definition lstep (s : option lstate) (c : ascii) : option lstate :=
  '(m, toks) ← s;
  match m with
  | LWord w => if is_word_char c || Ascii.eqb c "$" then Some (LWord (w ++ [c]), toks) else lnext m toks c
  | LNum w => if is_digit_byte c then Some (LNum (w ++ [c]), toks)
      else if is_word_char c then None else lnext m toks c
  | LParam w => if is_digit_byte c then Some (LParam (w ++ [c]), toks)
      else if is_word_char c then None else lnext m toks c
  | LStr w => if Ascii.eqb c "'" then Some (LQuote w, toks) else Some (LStr (w ++ [c]), toks)
  | LQuote w => if Ascii.eqb c "'" then Some (LStr (w ++ [c]), toks) else lnext m toks c
  | LSym c0 =>
      match double_symbol c0 c with
      | Some (m', t) => Some (m', toks ++ t)
      | None => lnext m toks c
      end
  | LComment => if byte_val c =? 0x0A then Some (LStart, toks) else Some (LComment, toks)
  | LStart => lstart c toks
  end.

Definition lrun (s : option lstate) (l : bytes) : option lstate := foldl lstep s l.

Definition lend (s : option lstate) : option (list token) :=
  '(m, toks) ← s; t ← lflush m; Some (toks ++ t).

Definition lex (s : string) : option (list token) := lend (lrun (Some (LStart, [])) (str_bytes s)).

(** ** Statements *)

(** A column's value; a [timestamptz] counts microseconds. *)
Inductive value :=
  | VNull
  | VText (s : string)
  | VBool (b : bool)
  | VInt (z : Z)
  | VTime (t : Z)
  | VJson (s : string).

#[export] Instance value_eq_dec : EqDecision value.
Proof. solve_decision. Defined.

(** A table: its schema, [""] when unqualified, and its name. *)
Abbreviation tname := (string * string)%type (only parsing).

Inductive binop := OEq | OLt | OGt | OLike | OCat | OAnd | OOr.

Local Unset Elimination Schemes.
Inductive expr :=
  | ECol (q c : string)
  | EParam (n : Z)
  | EVal (v : value)
  | ENow
  | ECount
  | ECast (e : expr) (ty : string)
  | EOp (o : binop) (e1 e2 : expr)
  | ENot (e : expr)
  | EIsNull (e : expr)
  | EExists (q : select)
  | EIn (e : expr) (q : select)
  | EInList (e : expr) (es : list expr)
  | EScalar (q : select)
with select :=
  | Select (items : list expr) (from : option (tname * string)) (join : option (tname * string * expr))
      (wh : option expr) (order : option string) (limit offset : option expr).
Local Set Elimination Schemes.

Inductive source := FromValues (es : list expr) | FromQuery (q : select).

(** [ON CONFLICT (cols) DO UPDATE SET sets]; [DO NOTHING] sets nothing, and may leave out
    the columns. *)
Inductive stmt :=
  | SSelect (q : select)
  | SInsert (t : tname) (cols : list string) (src : source)
      (conflict : option (list string * list (string * expr)))
  | SUpdate (t : tname) (sets : list (string * expr)) (wh : option expr)
  | SDelete (t : tname) (alias : string) (wh : option expr).

(** ** The parser

    Recursive descent; every call spends one unit of fuel, and [parse] gives enough for
    the nesting the number of tokens allows. *)

Abbreviation parsed A := (option (A * list token)) (only parsing).

Definition is_kw (w : string) (l : list token) : option (list token) :=
  match l with TWord w' :: l => if String.eqb w' w then Some l else None | _ => None end.
Definition is_sym (s : string) (l : list token) : option (list token) :=
  match l with TSym s' :: l => if String.eqb s' s then Some l else None | _ => None end.
Definition is_ident (l : list token) : parsed string :=
  match l with TWord w :: l => Some (w, l) | _ => None end.

(** The words that end a table reference. *)
Definition reserved : list string :=
  ["where"; "join"; "on"; "order"; "limit"; "offset"; "set"; "values"; "select"].

(** [name] or [schema.name]. *)
Definition p_table (l : list token) : parsed (string * string) :=
  '(a, l) ← is_ident l;
  match is_sym "." l with
  | Some l => '(b, l) ← is_ident l; Some ((a, b), l)
  | None => Some (("", a), l)
  end.

(** A table with its alias, its own name when none is given. *)
Definition p_source (l : list token) : parsed ((string * string) * string) :=
  '(t, l) ← p_table l;
  match l with
  | TWord w :: l' => if bool_decide (w ∈ reserved) then Some ((t, t.2), l) else Some ((t, w), l')
  | _ => Some ((t, t.2), l)
  end.

(** [a, b, c] *)
Fixpoint p_idents (n : nat) (l : list token) : parsed (list string) :=
  match n with
  | O => None
  | S n =>
    '(a, l) ← is_ident l;
    match is_sym "," l with
    | Some l => '(r, l) ← p_idents n l; Some (a :: r, l)
    | None => Some ([a], l)
    end
  end.

Fixpoint p_casts (n : nat) (e : expr) (l : list token) : parsed expr :=
  match n with
  | O => None
  | S n =>
    match is_sym "::" l with
    | Some l => '(ty, l) ← is_ident l; p_casts n (ECast e ty) l
    | None => Some (e, l)
    end
  end.

Definition p_compare (l : list token) : parsed binop :=
  match l with
  | TSym s :: l =>
      if String.eqb s "=" then Some (OEq, l) else if String.eqb s "<" then Some (OLt, l)
      else if String.eqb s ">" then Some (OGt, l) else None
  | TWord w :: l => if String.eqb w "like" then Some (OLike, l) else None
  | _ => None
  end.

Fixpoint p_or (n : nat) (l : list token) : parsed expr :=
  match n with
  | O => None
  | S n => '(e, l) ← p_and n l; p_or_tail n e l
  end
with p_or_tail (n : nat) (e : expr) (l : list token) : parsed expr :=
  match n with
  | O => None
  | S n =>
    match is_kw "or" l with
    | Some l => '(e2, l) ← p_and n l; p_or_tail n (EOp OOr e e2) l
    | None => Some (e, l)
    end
  end
with p_and (n : nat) (l : list token) : parsed expr :=
  match n with
  | O => None
  | S n => '(e, l) ← p_not n l; p_and_tail n e l
  end
with p_and_tail (n : nat) (e : expr) (l : list token) : parsed expr :=
  match n with
  | O => None
  | S n =>
    match is_kw "and" l with
    | Some l => '(e2, l) ← p_not n l; p_and_tail n (EOp OAnd e e2) l
    | None => Some (e, l)
    end
  end
with p_not (n : nat) (l : list token) : parsed expr :=
  match n with
  | O => None
  | S n =>
    match is_kw "not" l with
    | Some l => '(e, l) ← p_not n l; Some (ENot e, l)
    | None => p_cmp n l
    end
  end
with p_cmp (n : nat) (l : list token) : parsed expr :=
  match n with
  | O => None
  | S n =>
    '(e, l) ← p_cat n l;
    match p_compare l with
    | Some (o, l) => '(e2, l) ← p_cat n l; Some (EOp o e e2, l)
    | None =>
      match is_kw "in" l with
      | Some l =>
        l ← is_sym "(" l;
        match is_kw "select" l with
        | Some l => '(q, l) ← p_select n l; l ← is_sym ")" l; Some (EIn e q, l)
        | None => '(es, l) ← p_list n l; l ← is_sym ")" l; Some (EInList e es, l)
        end
      | None =>
        match is_kw "is" l with
        | Some l =>
          match is_kw "not" l with
          | Some l => l ← is_kw "null" l; Some (ENot (EIsNull e), l)
          | None => l ← is_kw "null" l; Some (EIsNull e, l)
          end
        | None => Some (e, l)
        end
      end
    end
  end
with p_cat (n : nat) (l : list token) : parsed expr :=
  match n with
  | O => None
  | S n => '(e, l) ← p_prim n l; p_cat_tail n e l
  end
with p_cat_tail (n : nat) (e : expr) (l : list token) : parsed expr :=
  match n with
  | O => None
  | S n =>
    match is_sym "||" l with
    | Some l => '(e2, l) ← p_prim n l; p_cat_tail n (EOp OCat e e2) l
    | None => Some (e, l)
    end
  end
with p_prim (n : nat) (l : list token) : parsed expr :=
  match n with
  | O => None
  | S n =>
    '(e, l) ← (match l with
      | TParam i :: l => Some (EParam i, l)
      | TStr s :: l => Some (EVal (VText s), l)
      | TNum z :: l => Some (EVal (VInt z), l)
      | TSym s :: l =>
        if negb (String.eqb s "(") then None else
        match is_kw "select" l with
        | Some l => '(q, l) ← p_select n l; l ← is_sym ")" l; Some (EScalar q, l)
        | None => '(e, l) ← p_or n l; l ← is_sym ")" l; Some (e, l)
        end
      | TWord w :: l =>
        if String.eqb w "true" then Some (EVal (VBool true), l)
        else if String.eqb w "false" then Some (EVal (VBool false), l)
        else if String.eqb w "null" then Some (EVal VNull, l)
        else if String.eqb w "now" then l ← is_sym "(" l; l ← is_sym ")" l; Some (ENow, l)
        else if String.eqb w "count" then
          l ← is_sym "(" l; l ← is_sym "*" l; l ← is_sym ")" l; Some (ECount, l)
        else if String.eqb w "exists" then
          l ← is_sym "(" l; l ← is_kw "select" l; '(q, l) ← p_select n l; l ← is_sym ")" l; Some (EExists q, l)
        else match is_sym "." l with
          | Some l => '(c, l) ← is_ident l; Some (ECol w c, l)
          | None => Some (ECol "" w, l)
          end
      | [] => None
      end);
    p_casts n e l
  end
with p_list (n : nat) (l : list token) : parsed (list expr) :=
  match n with
  | O => None
  | S n =>
    '(e, l) ← p_or n l;
    match is_sym "," l with
    | Some l => '(r, l) ← p_list n l; Some (e :: r, l)
    | None => Some ([e], l)
    end
  end
with p_select (n : nat) (l : list token) : parsed select :=
  match n with
  | O => None
  | S n =>
    '(items, l) ← p_list n l;
    match is_kw "from" l with
    | None => Some (Select items None None None None None None, l)
    | Some l =>
      '(src, l) ← p_source l;
      '(join, l) ← (match is_kw "join" l with
        | Some l => '(src2, l) ← p_source l; l ← is_kw "on" l; '(e, l) ← p_or n l; Some (Some (src2, e), l)
        | None => Some (None, l)
        end);
      '(wh, l) ← (match is_kw "where" l with
        | Some l => '(e, l) ← p_or n l; Some (Some e, l)
        | None => Some (None, l)
        end);
      '(order, l) ← (match is_kw "order" l with
        | Some l => l ← is_kw "by" l; '(c, l) ← is_ident l; Some (Some c, l)
        | None => Some (None, l)
        end);
      '(limit, l) ← (match is_kw "limit" l with
        | Some l => '(e, l) ← p_prim n l; Some (Some e, l)
        | None => Some (None, l)
        end);
      '(offset, l) ← (match is_kw "offset" l with
        | Some l => '(e, l) ← p_prim n l; Some (Some e, l)
        | None => Some (None, l)
        end);
      Some (Select items (Some src) join wh order limit offset, l)
    end
  end.

(** [c = e, c' = e', ...] *)
Fixpoint p_sets (n : nat) (l : list token) : parsed (list (string * expr)) :=
  match n with
  | O => None
  | S n =>
    '(c, l) ← is_ident l; l ← is_sym "=" l; '(e, l) ← p_cat n l;
    match is_sym "," l with
    | Some l => '(r, l) ← p_sets n l; Some ((c, e) :: r, l)
    | None => Some ([(c, e)], l)
    end
  end.

Definition p_where (n : nat) (l : list token) : parsed (option expr) :=
  match is_kw "where" l with
  | Some l => '(e, l) ← p_or n l; Some (Some e, l)
  | None => Some (None, l)
  end.

Definition p_conflict (n : nat) (l : list token) : parsed (option (list string * list (string * expr))) :=
  match is_kw "on" l with
  | None => Some (None, l)
  | Some l =>
    l ← is_kw "conflict" l;
    '(cols, l) ← match is_sym "(" l with
      | Some l => '(cols, l) ← p_idents n l; l ← is_sym ")" l; Some (cols, l)
      | None => Some ([], l)
      end;
    l ← is_kw "do" l;
    match is_kw "nothing" l with
    | Some l => Some (Some (cols, []), l)
    | None => if bool_decide (cols = []) then None else
      l ← is_kw "update" l; l ← is_kw "set" l; '(sets, l) ← p_sets n l; Some (Some (cols, sets), l)
    end
  end.

Definition p_insert (n : nat) (l : list token) : parsed stmt :=
  l ← is_kw "into" l; '(t, l) ← p_table l;
  l ← is_sym "(" l; '(cols, l) ← p_idents n l; l ← is_sym ")" l;
  '(src, l) ← (match is_kw "values" l with
    | Some l => l ← is_sym "(" l; '(es, l) ← p_list n l; l ← is_sym ")" l; Some (FromValues es, l)
    | None => l ← is_kw "select" l; '(q, l) ← p_select n l; Some (FromQuery q, l)
    end);
  '(c, l) ← p_conflict n l; Some (SInsert t cols src c, l).

Definition p_update (n : nat) (l : list token) : parsed stmt :=
  '(t, l) ← p_table l; l ← is_kw "set" l; '(sets, l) ← p_sets n l; '(w, l) ← p_where n l;
  Some (SUpdate t sets w, l).

Definition p_delete (n : nat) (l : list token) : parsed stmt :=
  l ← is_kw "from" l; '((t, a), l) ← p_source l; '(w, l) ← p_where n l; Some (SDelete t a w, l).

Definition p_stmt (n : nat) (l : list token) : parsed stmt :=
  match is_kw "select" l with
  | Some l => '(q, l) ← p_select n l; Some (SSelect q, l)
  | None =>
    match is_kw "insert" l with
    | Some l => p_insert n l
    | None =>
      match is_kw "update" l with
      | Some l => p_update n l
      | None => l ← is_kw "delete" l; p_delete n l
      end
    end
  end.

(** One statement and nothing after it. *)
Definition parse_tokens (l : list token) : option stmt :=
  '(s, l') ← p_stmt (12 * length l + 12)%nat l;
  match l' with [] => Some s | _ => None end.

Definition parse (s : string) : option stmt := l ← lex s; parse_tokens l.
