(* ===== verification/PgQueries.v ===== *)
(** * The statements of the pgx store

    [stores/pgxstore]: the SQL text each store prepares from its [Naming], and the DDL of
    [Migrate].  Every table identifier is interpolated with [fmt.Sprintf]; every value is a
    placeholder. *)

From S2P Require Import Prelude GoStrings Naming.

(** [fmt.Sprintf] and [fmt.Fprintf] with [%s] verbs. *)
Fixpoint Sprintf (format : string) (args : list string) : string :=
  match format with
  | EmptyString => EmptyString
  | String c f =>
    match f with
    | String c' f' =>
      if Ascii.eqb c "%" && Ascii.eqb c' "s" then
        match args with
        | a :: args => a +:+ Sprintf f' args
        | [] => "%!s(MISSING)" +:+ Sprintf f' []
        end
      else String c (Sprintf f args)
    | EmptyString => String c EmptyString
    end
  end.

(** ** Options *)

(** [pgxstore.Option]: a change to the naming. *)
Definition Option : Type := Naming → Naming.

Definition WithSchema (schema : string) : Option := λ n, mkNaming schema (Tables n).
Definition WithTablePrefix (prefix : string) : Option :=
  λ n, mkNaming (Schema n) (WithPrefix (Tables n) prefix).
Definition WithTableNames (t : TableNames) : Option := λ n, mkNaming (Schema n) t.
Definition WithNaming (nm : Naming) : Option := λ _, nm.

Definition resolve (opts : list Option) : Naming := foldl (λ n o, o n) DefaultNaming opts.


(** ** Users and roles *)

Definition userCols : string := "id, user_name, normalized_user_name, email, normalized_email,
	email_confirmed, password_hash, security_stamp, concurrency_stamp,
	phone_number, phone_number_confirmed, two_factor_enabled, lockout_end,
	lockout_enabled, access_failed_count, attributes, is_anonymous, created_at, updated_at".

(** The search condition of the user list. *)
Definition where_ : string := "($1 = '' OR normalized_user_name LIKE '%'||$1||'%' OR normalized_email LIKE '%'||$1||'%')".

Record queries := mk_queries {
  createUser : string;
  updateUser : string;
  userExists : string;
  deleteUser : string;
  findUserByID : string;
  findUserByName : string;
  findUserByEmail : string;
  countUsers : string;
  listUsers : string;
  purgeAnonymous : string;
  addToRole : string;
  removeFromRole : string;
  getRoles : string;
  isInRole : string;
  roleExistsByName : string;
  usersInRole : string;
  usersForClaim : string;
  getUserClaims : string;
  addUserClaim : string;
  removeUserClaim : string;
  getToken : string;
  setToken : string;
  removeToken : string;
  addLogin : string;
  removeLogin : string;
  getLogins : string;
  findByLogin : string;
  createRole : string;
  updateRole : string;
  deleteRole : string;
  roleExists : string;
  findRoleByID : string;
  findRoleByName : string;
  getRoleClaims : string;
  addRoleClaim : string;
  removeRoleClaim : string;
}.

Definition buildQueries (n : Naming) : queries :=
  let U := Qualify n (Users (Tables n)) in
  let R := Qualify n (Roles (Tables n)) in
  let UR := Qualify n (UserRoles (Tables n)) in
  let UC := Qualify n (UserClaims (Tables n)) in
  let RC := Qualify n (RoleClaims (Tables n)) in
  let UL := Qualify n (UserLogins (Tables n)) in
  let UT := Qualify n (UserTokens (Tables n)) in
  {|
    createUser := Sprintf "INSERT INTO %s (%s) VALUES ($1,$2,$3,$4,$5,$6,$7,$8,$9,$10,$11,$12,$13,$14,$15,$16,$17, now(), now())" [U; userCols];
    updateUser := Sprintf "UPDATE %s SET
			user_name=$2, normalized_user_name=$3, email=$4, normalized_email=$5,
			email_confirmed=$6, password_hash=$7, security_stamp=$8, concurrency_stamp=$9,
			phone_number=$10, phone_number_confirmed=$11, two_factor_enabled=$12,
			lockout_end=$13, lockout_enabled=$14, access_failed_count=$15, attributes=$16,
			is_anonymous=$17, updated_at=now()
			WHERE id=$1 AND concurrency_stamp=$18" [U];
    userExists := Sprintf "SELECT EXISTS(SELECT 1 FROM %s WHERE id=$1)" [U];
    deleteUser := Sprintf "DELETE FROM %s WHERE id=$1" [U];
    findUserByID := Sprintf "SELECT %s FROM %s WHERE id=$1" [userCols; U];
    findUserByName := Sprintf "SELECT %s FROM %s WHERE normalized_user_name=$1" [userCols; U];
    findUserByEmail := Sprintf "SELECT %s FROM %s WHERE normalized_email=$1" [userCols; U];
    countUsers := Sprintf "SELECT count(*) FROM %s WHERE %s" [U; where_];
    listUsers := Sprintf "SELECT %s FROM %s WHERE %s ORDER BY id LIMIT $2 OFFSET $3" [userCols; U; where_];
    purgeAnonymous := Sprintf "DELETE FROM %s WHERE is_anonymous AND created_at < $1" [U];
    addToRole := Sprintf "INSERT INTO %s (user_id, role_id) SELECT $1, id FROM %s WHERE normalized_name=$2 ON CONFLICT (user_id, role_id) DO NOTHING" [UR; R];
    removeFromRole := Sprintf "DELETE FROM %s WHERE user_id=$1 AND role_id=(SELECT id FROM %s WHERE normalized_name=$2)" [UR; R];
    getRoles := Sprintf "SELECT r.name FROM %s r JOIN %s ur ON ur.role_id=r.id WHERE ur.user_id=$1" [R; UR];
    isInRole := Sprintf "SELECT EXISTS(SELECT 1 FROM %s ur JOIN %s r ON r.id=ur.role_id WHERE ur.user_id=$1 AND r.normalized_name=$2)" [UR; R];
    roleExistsByName := Sprintf "SELECT EXISTS(SELECT 1 FROM %s WHERE normalized_name=$1)" [R];
    usersInRole := Sprintf "SELECT %s FROM %s WHERE id IN (SELECT user_id FROM %s WHERE role_id=(SELECT id FROM %s WHERE normalized_name=$1)) ORDER BY id" [userCols; U; UR; R];
    usersForClaim := Sprintf "SELECT %s FROM %s WHERE id IN (SELECT user_id FROM %s WHERE claim_type=$1 AND claim_value=$2) ORDER BY id" [userCols; U; UC];
    getUserClaims := Sprintf "SELECT claim_type, claim_value FROM %s WHERE user_id=$1" [UC];
    addUserClaim := Sprintf "INSERT INTO %s (user_id, claim_type, claim_value) VALUES ($1,$2,$3)" [UC];
    removeUserClaim := Sprintf "DELETE FROM %s WHERE user_id=$1 AND claim_type=$2 AND claim_value=$3" [UC];
    getToken := Sprintf "SELECT value FROM %s WHERE user_id=$1 AND login_provider=$2 AND name=$3" [UT];
    setToken := Sprintf "INSERT INTO %s (user_id, login_provider, name, value) VALUES ($1,$2,$3,$4) ON CONFLICT (user_id, login_provider, name) DO UPDATE SET value=EXCLUDED.value" [UT];
    removeToken := Sprintf "DELETE FROM %s WHERE user_id=$1 AND login_provider=$2 AND name=$3" [UT];
    addLogin := Sprintf "INSERT INTO %s (login_provider, provider_key, provider_display_name, user_id) VALUES ($1,$2,$3,$4)" [UL];
    removeLogin := Sprintf "DELETE FROM %s WHERE user_id=$1 AND login_provider=$2 AND provider_key=$3" [UL];
    getLogins := Sprintf "SELECT login_provider, provider_key, provider_display_name FROM %s WHERE user_id=$1" [UL];
    findByLogin := Sprintf "SELECT user_id FROM %s WHERE login_provider=$1 AND provider_key=$2" [UL];
    createRole := Sprintf "INSERT INTO %s (id, name, normalized_name, concurrency_stamp) VALUES ($1,$2,$3,$4)" [R];
    updateRole := Sprintf "UPDATE %s SET name=$2, normalized_name=$3, concurrency_stamp=$4 WHERE id=$1 AND concurrency_stamp=$5" [R];
    deleteRole := Sprintf "DELETE FROM %s WHERE id=$1" [R];
    roleExists := Sprintf "SELECT EXISTS(SELECT 1 FROM %s WHERE id=$1)" [R];
    findRoleByID := Sprintf "SELECT id, name, normalized_name, concurrency_stamp FROM %s WHERE id=$1" [R];
    findRoleByName := Sprintf "SELECT id, name, normalized_name, concurrency_stamp FROM %s WHERE normalized_name=$1" [R];
    getRoleClaims := Sprintf "SELECT claim_type, claim_value FROM %s WHERE role_id=$1" [RC];
    addRoleClaim := Sprintf "INSERT INTO %s (role_id, claim_type, claim_value) VALUES ($1,$2,$3)" [RC];
    removeRoleClaim := Sprintf "DELETE FROM %s WHERE role_id=$1 AND claim_type=$2 AND claim_value=$3" [RC];
  |}.

(** All of them. *)
Definition all_queries (q : queries) : list string :=
  [createUser q; updateUser q; userExists q; deleteUser q; findUserByID q; findUserByName q;
   findUserByEmail q; countUsers q; listUsers q; purgeAnonymous q; addToRole q;
   removeFromRole q; getRoles q; isInRole q; roleExistsByName q; usersInRole q;
   usersForClaim q; getUserClaims q; addUserClaim q; removeUserClaim q; getToken q;
   setToken q; removeToken q; addLogin q; removeLogin q; getLogins q; findByLogin q;
   createRole q; updateRole q; deleteRole q; roleExists q; findRoleByID q; findRoleByName q;
   getRoleClaims q; addRoleClaim q; removeRoleClaim q].

(** ** The authorization server *)

Record oauthQueries := mk_oauthQueries {
  createClient : string;
  getClient : string;
  touchClient : string;
  deleteStaleClients : string;
  createCode : string;
  getCode : string;
  markCodeUsed : string;
  deleteExpiredCodes : string;
  getConsent : string;
  saveConsent : string;
  deleteConsent : string;
  createGrant : string;
  getGrant : string;
  rotateGrant : string;
  deleteGrant : string;
  deleteUserClientGrants : string;
  listUserGrants : string;
  deleteExpiredGrants : string;
  useAssertion : string;
  deleteExpiredAssertions : string;
}.

Definition clientCols : string := "client_id, secret_hash, name, redirect_uris, token_endpoint_auth_method, grant_types, created_at, last_used_at".
Definition codeCols : string := "code_hash, client_id, user_id, redirect_uri, scopes, resource, code_challenge, expires_at, used_at, grant_id".
Definition grantCols : string := "id, user_id, client_id, scopes, resource, token_hash, prev_token_hash, security_stamp, expires_at, created_at, last_used_at".

Definition buildOAuthQueries (n : Naming) : oauthQueries :=
  let C := Qualify n (OAuthClients (Tables n)) in
  let CD := Qualify n (OAuthCodes (Tables n)) in
  let CS := Qualify n (OAuthConsents (Tables n)) in
  let G := Qualify n (OAuthGrants (Tables n)) in
  let A := Qualify n (OAuthAssertions (Tables n)) in
  {|
    createClient := Sprintf "INSERT INTO %s (%s) VALUES ($1,$2,$3,$4,$5,$6,$7,$8)" [C; clientCols];
    getClient := Sprintf "SELECT %s FROM %s WHERE client_id=$1" [clientCols; C];
    touchClient := Sprintf "UPDATE %s SET last_used_at=$2 WHERE client_id=$1" [C];
    deleteStaleClients := Sprintf "DELETE FROM %s c WHERE c.created_at < $1 AND (c.last_used_at IS NULL OR c.last_used_at < $1)
			AND NOT EXISTS (SELECT 1 FROM %s g WHERE g.client_id = c.client_id)" [C; G];
    createCode := Sprintf "INSERT INTO %s (%s) VALUES ($1,$2,$3,$4,$5,$6,$7,$8,$9,$10)" [CD; codeCols];
    getCode := Sprintf "SELECT %s FROM %s WHERE code_hash=$1" [codeCols; CD];
    markCodeUsed := Sprintf "UPDATE %s SET used_at=$3, grant_id=$2 WHERE code_hash=$1 AND used_at IS NULL" [CD];
    deleteExpiredCodes := Sprintf "DELETE FROM %s WHERE expires_at < $1" [CD];
    getConsent := Sprintf "SELECT user_id, client_id, scopes, created_at, updated_at FROM %s WHERE user_id=$1 AND client_id=$2" [CS];
    saveConsent := Sprintf "INSERT INTO %s (user_id, client_id, scopes, created_at, updated_at) VALUES ($1,$2,$3,$4,$5)
			ON CONFLICT (user_id, client_id) DO UPDATE SET scopes=EXCLUDED.scopes, updated_at=EXCLUDED.updated_at" [CS];
    deleteConsent := Sprintf "DELETE FROM %s WHERE user_id=$1 AND client_id=$2" [CS];
    createGrant := Sprintf "INSERT INTO %s (%s) VALUES ($1,$2,$3,$4,$5,$6,$7,$8,$9,$10,$11)" [G; grantCols];
    getGrant := Sprintf "SELECT %s FROM %s WHERE id=$1" [grantCols; G];
    rotateGrant := Sprintf "UPDATE %s SET prev_token_hash=token_hash, token_hash=$3, expires_at=$4, last_used_at=$5
			WHERE id=$1 AND token_hash=$2" [G];
    deleteGrant := Sprintf "DELETE FROM %s WHERE id=$1" [G];
    deleteUserClientGrants := Sprintf "DELETE FROM %s WHERE user_id=$1 AND client_id=$2" [G];
    listUserGrants := Sprintf "SELECT %s FROM %s WHERE user_id=$1 ORDER BY created_at" [grantCols; G];
    deleteExpiredGrants := Sprintf "DELETE FROM %s WHERE expires_at < $1" [G];
    useAssertion := Sprintf "INSERT INTO %s (client_id, jti, expires_at) VALUES ($1,$2,$3)
			ON CONFLICT (client_id, jti) DO NOTHING" [A];
    deleteExpiredAssertions := Sprintf "DELETE FROM %s WHERE expires_at < $1" [A];
  |}.

(** All of them. *)
Definition all_oauthQueries (q : oauthQueries) : list string :=
  [createClient q; getClient q; touchClient q; deleteStaleClients q; createCode q;
   getCode q; markCodeUsed q; deleteExpiredCodes q; getConsent q; saveConsent q;
   deleteConsent q; createGrant q; getGrant q; rotateGrant q; deleteGrant q;
   deleteUserClientGrants q; listUserGrants q; deleteExpiredGrants q; useAssertion q;
   deleteExpiredAssertions q].

(** ** API keys and refresh sessions *)

Record apiKeyQueries := mk_apiKeyQueries {
  ak_create : string;
  ak_getActiveByHash : string;
  ak_listByUser : string;
  ak_revoke : string;
  ak_touch : string;
}.

Definition buildAPIKeyQueries (n : Naming) : apiKeyQueries :=
  let t := Qualify n (APIKeys (Tables n)) in
  {|
    ak_create := Sprintf "INSERT INTO %s (id, user_id, name, prefix, key_hash, scopes, expires_at, created_at)
			VALUES ($1,$2,$3,$4,$5,$6,$7,$8)" [t];
    ak_getActiveByHash := Sprintf "SELECT id, user_id, name, prefix, key_hash, scopes, expires_at, last_used_at, revoked_at, created_at
			FROM %s WHERE key_hash=$1 AND revoked_at IS NULL AND (expires_at IS NULL OR expires_at > now())" [t];
    ak_listByUser := Sprintf "SELECT id, user_id, name, prefix, key_hash, scopes, expires_at, last_used_at, revoked_at, created_at
			FROM %s WHERE user_id=$1 ORDER BY created_at" [t];
    ak_revoke := Sprintf "UPDATE %s SET revoked_at=now() WHERE id=$1 AND revoked_at IS NULL" [t];
    ak_touch := Sprintf "UPDATE %s SET last_used_at=now() WHERE id=$1" [t];
  |}.

(** All of them. *)
Definition all_apiKeyQueries (q : apiKeyQueries) : list string :=
  [ak_create q; ak_getActiveByHash q; ak_listByUser q; ak_revoke q; ak_touch q].

Record refreshTokenQueries := mk_refreshTokenQueries {
  rt_create : string;
  rt_getBySession : string;
  rt_update : string;
  rt_del : string;
  rt_delByUser : string;
  rt_delExpired : string;
  rt_listByUser : string;
}.

(** [cols] *)
Definition sessionCols : string := "session_id, user_id, token_hash, name, expires_at, created_at, last_used_at".

Definition buildRefreshTokenQueries (n : Naming) : refreshTokenQueries :=
  let t := Qualify n (RefreshTokens (Tables n)) in
  {|
    rt_create := Sprintf "INSERT INTO %s (%s) VALUES ($1,$2,$3,$4,$5,$6,$7)" [t; sessionCols];
    rt_getBySession := Sprintf "SELECT %s FROM %s WHERE session_id=$1" [sessionCols; t];
    rt_update := Sprintf "UPDATE %s SET token_hash=$2, expires_at=$3, last_used_at=$4, name=$5 WHERE session_id=$1" [t];
    rt_del := Sprintf "DELETE FROM %s WHERE session_id=$1" [t];
    rt_delByUser := Sprintf "DELETE FROM %s WHERE user_id=$1" [t];
    rt_delExpired := Sprintf "DELETE FROM %s WHERE expires_at < $1" [t];
    rt_listByUser := Sprintf "SELECT %s FROM %s WHERE user_id=$1 ORDER BY created_at" [sessionCols; t];
  |}.

(** All of them. *)
Definition all_refreshTokenQueries (q : refreshTokenQueries) : list string :=
  [rt_create q; rt_getBySession q; rt_update q; rt_del q; rt_delByUser q; rt_delExpired q;
   rt_listByUser q].

(** ** The schema

    [buildDDL], a definition per table. *)

(** [ix]: index names are unqualified. *)
Definition ix (prefix base suffix : string) : string :=
  prefix +:+ "_" +:+ base +:+ "_" +:+ suffix.

Definition ddl_users (n : Naming) : string :=
  let U := Qualify n (Users (Tables n)) in
  Sprintf "CREATE TABLE IF NOT EXISTS %s (
	id                     varchar(36) PRIMARY KEY,
	user_name              varchar(256) NOT NULL DEFAULT '',
	normalized_user_name   varchar(256) NOT NULL DEFAULT '',
	email                  varchar(256) NOT NULL DEFAULT '',
	normalized_email       varchar(256) NOT NULL DEFAULT '',
	email_confirmed        boolean      NOT NULL DEFAULT false,
	password_hash          varchar(256) NOT NULL DEFAULT '',
	security_stamp         varchar(64)  NOT NULL DEFAULT '',
	concurrency_stamp      varchar(64)  NOT NULL DEFAULT '',
	phone_number           varchar(32)  NOT NULL DEFAULT '',
	phone_number_confirmed boolean      NOT NULL DEFAULT false,
	two_factor_enabled     boolean      NOT NULL DEFAULT false,
	lockout_end            timestamptz,
	lockout_enabled        boolean      NOT NULL DEFAULT false,
	access_failed_count    integer      NOT NULL DEFAULT 0,
	attributes             jsonb        NOT NULL DEFAULT '{}'::jsonb,
	is_anonymous           boolean      NOT NULL DEFAULT false,
	created_at             timestamptz  NOT NULL DEFAULT now(),
	updated_at             timestamptz  NOT NULL DEFAULT now()
);
CREATE UNIQUE INDEX IF NOT EXISTS %s ON %s (normalized_user_name);
CREATE INDEX IF NOT EXISTS %s ON %s (normalized_email);
CREATE INDEX IF NOT EXISTS %s ON %s (created_at) WHERE is_anonymous;
" [U; ix "ux" (Users (Tables n)) "uname"; U; ix "ix" (Users (Tables n)) "email"; U; ix "ix" (Users (Tables n)) "guest"; U].

Definition ddl_roles (n : Naming) : string :=
  let R := Qualify n (Roles (Tables n)) in
  Sprintf "CREATE TABLE IF NOT EXISTS %s (
	id                varchar(36) PRIMARY KEY,
	name              varchar(256) NOT NULL DEFAULT '',
	normalized_name   varchar(256) NOT NULL DEFAULT '',
	concurrency_stamp varchar(64)  NOT NULL DEFAULT ''
);
CREATE UNIQUE INDEX IF NOT EXISTS %s ON %s (normalized_name);
" [R; ix "ux" (Roles (Tables n)) "name"; R].

Definition ddl_user_roles (n : Naming) : string :=
  let UR := Qualify n (UserRoles (Tables n)) in
  let U := Qualify n (Users (Tables n)) in
  let R := Qualify n (Roles (Tables n)) in
  Sprintf "CREATE TABLE IF NOT EXISTS %s (
	user_id varchar(36) NOT NULL REFERENCES %s(id) ON DELETE CASCADE,
	role_id varchar(36) NOT NULL REFERENCES %s(id) ON DELETE CASCADE,
	PRIMARY KEY (user_id, role_id)
);
" [UR; U; R].

Definition ddl_user_claims (n : Naming) : string :=
  let UC := Qualify n (UserClaims (Tables n)) in
  let U := Qualify n (Users (Tables n)) in
  Sprintf "CREATE TABLE IF NOT EXISTS %s (
	id          bigserial PRIMARY KEY,
	user_id     varchar(36)  NOT NULL REFERENCES %s(id) ON DELETE CASCADE,
	claim_type  varchar(256) NOT NULL DEFAULT '',
	claim_value varchar(256) NOT NULL DEFAULT ''
);
CREATE INDEX IF NOT EXISTS %s ON %s (user_id);
" [UC; U; ix "ix" (UserClaims (Tables n)) "user"; UC].

Definition ddl_role_claims (n : Naming) : string :=
  let RC := Qualify n (RoleClaims (Tables n)) in
  let R := Qualify n (Roles (Tables n)) in
  Sprintf "CREATE TABLE IF NOT EXISTS %s (
	id          bigserial PRIMARY KEY,
	role_id     varchar(36)  NOT NULL REFERENCES %s(id) ON DELETE CASCADE,
	claim_type  varchar(256) NOT NULL DEFAULT '',
	claim_value varchar(256) NOT NULL DEFAULT ''
);
CREATE INDEX IF NOT EXISTS %s ON %s (role_id);
" [RC; R; ix "ix" (RoleClaims (Tables n)) "role"; RC].

Definition ddl_user_logins (n : Naming) : string :=
  let UL := Qualify n (UserLogins (Tables n)) in
  let U := Qualify n (Users (Tables n)) in
  Sprintf "CREATE TABLE IF NOT EXISTS %s (
	login_provider        varchar(128) NOT NULL,
	provider_key          varchar(128) NOT NULL,
	provider_display_name varchar(128) NOT NULL DEFAULT '',
	user_id               varchar(36)  NOT NULL REFERENCES %s(id) ON DELETE CASCADE,
	PRIMARY KEY (login_provider, provider_key)
);
CREATE INDEX IF NOT EXISTS %s ON %s (user_id);
" [UL; U; ix "ix" (UserLogins (Tables n)) "user"; UL].

Definition ddl_user_tokens (n : Naming) : string :=
  let UT := Qualify n (UserTokens (Tables n)) in
  let U := Qualify n (Users (Tables n)) in
  Sprintf "CREATE TABLE IF NOT EXISTS %s (
	user_id        varchar(36)  NOT NULL REFERENCES %s(id) ON DELETE CASCADE,
	login_provider varchar(128) NOT NULL,
	name           varchar(128) NOT NULL,
	value          text         NOT NULL DEFAULT '',
	PRIMARY KEY (user_id, login_provider, name)
);
" [UT; U].

Definition ddl_api_keys (n : Naming) : string :=
  let AK := Qualify n (APIKeys (Tables n)) in
  let U := Qualify n (Users (Tables n)) in
  Sprintf "CREATE TABLE IF NOT EXISTS %s (
	id           varchar(36)  PRIMARY KEY,
	user_id      varchar(36)  NOT NULL REFERENCES %s(id) ON DELETE CASCADE,
	name         varchar(256) NOT NULL DEFAULT '',
	prefix       varchar(32)  NOT NULL DEFAULT '',
	key_hash     varchar(128) NOT NULL,
	scopes       jsonb        NOT NULL DEFAULT '[]'::jsonb,
	expires_at   timestamptz,
	last_used_at timestamptz,
	revoked_at   timestamptz,
	created_at   timestamptz  NOT NULL DEFAULT now()
);
CREATE UNIQUE INDEX IF NOT EXISTS %s ON %s (key_hash);
CREATE INDEX IF NOT EXISTS %s ON %s (user_id);
" [AK; U; ix "ux" (APIKeys (Tables n)) "hash"; AK; ix "ix" (APIKeys (Tables n)) "user"; AK].

Definition ddl_refresh_tokens (n : Naming) : string :=
  let RT := Qualify n (RefreshTokens (Tables n)) in
  let U := Qualify n (Users (Tables n)) in
  Sprintf "CREATE TABLE IF NOT EXISTS %s (
	session_id   varchar(36)  PRIMARY KEY,
	user_id      varchar(36)  NOT NULL REFERENCES %s(id) ON DELETE CASCADE,
	token_hash   varchar(128) NOT NULL,
	name         varchar(256) NOT NULL DEFAULT '',
	expires_at   timestamptz  NOT NULL,
	created_at   timestamptz  NOT NULL DEFAULT now(),
	last_used_at timestamptz
);
CREATE UNIQUE INDEX IF NOT EXISTS %s ON %s (token_hash);
CREATE INDEX IF NOT EXISTS %s ON %s (user_id);
CREATE INDEX IF NOT EXISTS %s ON %s (expires_at);
" [RT; U; ix "ux" (RefreshTokens (Tables n)) "hash"; RT; ix "ix" (RefreshTokens (Tables n)) "user"; RT; ix "ix" (RefreshTokens (Tables n)) "exp"; RT].

Definition ddl_oauth_clients (n : Naming) : string :=
  let OC := Qualify n (OAuthClients (Tables n)) in
  Sprintf "CREATE TABLE IF NOT EXISTS %s (
	client_id                  varchar(512) PRIMARY KEY,
	secret_hash                varchar(128) NOT NULL DEFAULT '',
	name                       varchar(256) NOT NULL DEFAULT '',
	redirect_uris              text         NOT NULL DEFAULT '[]',
	token_endpoint_auth_method varchar(32)  NOT NULL DEFAULT '',
	grant_types                text         NOT NULL DEFAULT '[]',
	created_at                 timestamptz  NOT NULL DEFAULT now(),
	last_used_at               timestamptz
);
" [OC].

Definition ddl_oauth_codes (n : Naming) : string :=
  let OCD := Qualify n (OAuthCodes (Tables n)) in
  let U := Qualify n (Users (Tables n)) in
  Sprintf "CREATE TABLE IF NOT EXISTS %s (
	code_hash      varchar(128) PRIMARY KEY,
	client_id      varchar(512) NOT NULL,
	user_id        varchar(36)  NOT NULL REFERENCES %s(id) ON DELETE CASCADE,
	redirect_uri   text         NOT NULL,
	scopes         text         NOT NULL DEFAULT '',
	resource       text         NOT NULL DEFAULT '',
	code_challenge varchar(128) NOT NULL,
	expires_at     timestamptz  NOT NULL,
	used_at        timestamptz,
	grant_id       varchar(36)  NOT NULL DEFAULT ''
);
CREATE INDEX IF NOT EXISTS %s ON %s (user_id);
CREATE INDEX IF NOT EXISTS %s ON %s (expires_at);
" [OCD; U; ix "ix" (OAuthCodes (Tables n)) "user"; OCD; ix "ix" (OAuthCodes (Tables n)) "exp"; OCD].

Definition ddl_oauth_consents (n : Naming) : string :=
  let OCS := Qualify n (OAuthConsents (Tables n)) in
  let U := Qualify n (Users (Tables n)) in
  Sprintf "CREATE TABLE IF NOT EXISTS %s (
	user_id    varchar(36)  NOT NULL REFERENCES %s(id) ON DELETE CASCADE,
	client_id  varchar(512) NOT NULL,
	scopes     text         NOT NULL DEFAULT '',
	created_at timestamptz  NOT NULL DEFAULT now(),
	updated_at timestamptz  NOT NULL DEFAULT now(),
	PRIMARY KEY (user_id, client_id)
);
" [OCS; U].

Definition ddl_oauth_grants (n : Naming) : string :=
  let OG := Qualify n (OAuthGrants (Tables n)) in
  let U := Qualify n (Users (Tables n)) in
  Sprintf "CREATE TABLE IF NOT EXISTS %s (
	id              varchar(36)  PRIMARY KEY,
	user_id         varchar(36)  NOT NULL REFERENCES %s(id) ON DELETE CASCADE,
	client_id       varchar(512) NOT NULL,
	scopes          text         NOT NULL DEFAULT '',
	resource        text         NOT NULL DEFAULT '',
	token_hash      varchar(128) NOT NULL DEFAULT '',
	prev_token_hash varchar(128) NOT NULL DEFAULT '',
	security_stamp  varchar(64)  NOT NULL DEFAULT '',
	expires_at      timestamptz  NOT NULL,
	created_at      timestamptz  NOT NULL DEFAULT now(),
	last_used_at    timestamptz
);
CREATE INDEX IF NOT EXISTS %s ON %s (user_id);
CREATE INDEX IF NOT EXISTS %s ON %s (client_id);
CREATE INDEX IF NOT EXISTS %s ON %s (expires_at);
" [OG; U; ix "ix" (OAuthGrants (Tables n)) "user"; OG; ix "ix" (OAuthGrants (Tables n)) "client"; OG; ix "ix" (OAuthGrants (Tables n)) "exp"; OG].

Definition ddl_oauth_assertions (n : Naming) : string :=
  let OA := Qualify n (OAuthAssertions (Tables n)) in
  Sprintf "CREATE TABLE IF NOT EXISTS %s (
	client_id  varchar(512) NOT NULL,
	jti        varchar(256) NOT NULL,
	expires_at timestamptz  NOT NULL,
	PRIMARY KEY (client_id, jti)
);
CREATE INDEX IF NOT EXISTS %s ON %s (expires_at);
" [OA; ix "ix" (OAuthAssertions (Tables n)) "exp"; OA].

(** [CREATE SCHEMA], when one is configured. *)
Definition ddl_schema (n : Naming) : string :=
  if negb (String.eqb (Schema n) "") then Sprintf "CREATE SCHEMA IF NOT EXISTS %s;
" [Schema n] else "".

Definition ddl_tables (n : Naming) : list string :=
  [ddl_users n; ddl_roles n; ddl_user_roles n; ddl_user_claims n;
   ddl_role_claims n; ddl_user_logins n; ddl_user_tokens n; ddl_api_keys n;
   ddl_refresh_tokens n; ddl_oauth_clients n; ddl_oauth_codes n; ddl_oauth_consents n;
   ddl_oauth_grants n; ddl_oauth_assertions n].

Definition buildDDL (n : Naming) : string := foldr (λ t b, t +:+ b) "" (ddl_schema n :: ddl_tables n).
