(* ===== verification/StoreLaws.v ===== *)
(** * What a store promises

    The contract of [identity/store.go] that the managers' theorems rely on: a view
    of the store's state (its rows and token slots), an invariant, and for every
    method the view it leaves.  The contract is that of a store whose backend does
    not fail; [MemSpec] shows the in-memory store keeps it.  Ids and provider names
    are taken without ['|'], the separator the in-memory store builds its keys with. *)

From S2P Require Import Prelude GoStrings Errors World Entities OAuthTypes Stores.

Local Open Scope Z_scope.

(** Strings the flat token keys cannot confuse. *)
Definition plain (s : string) : Prop := "|"%char ∉ str_bytes s.
#[export] Instance plain_dec s : Decision (plain s).
Proof. unfold plain. apply _. Defined.

(** The rows of the authorization server, but for the consents. *)
Record ORows := mkRows {
  r_clients : gmap string Client;
  r_codes : gmap string Code;
  r_grants : gmap string Grant;
  r_jtis : gmap (string * string) Time;
}.

Class StoreView (S : Type) := {
  v_inv : S → Prop;
  v_users : S → gmap string User;
  v_tok : S → string → string → string → string;
  v_sess : S → gmap string RefreshToken;
  v_keys : S → gmap string APIKey;
  v_rows : S → ORows;
  v_consent : S → string → string → option Consent;
}.

Section moves.
Context `{Oracle} {S : Type} `{StoreView S}.
Implicit Types w : World S.

(** Nothing was sent in between: at most warnings were logged. *)
Definition only_logs w w' : Prop := ∃ l, w_out w' = w_out w ++ (Warned <$> l).

Lemma only_logs_refl w w' : w_out w' = w_out w → only_logs w w'.
Proof. exists []. by rewrite app_nil_r. Qed.
Lemma only_logs_trans w1 w2 w3 : only_logs w1 w2 → only_logs w2 w3 → only_logs w1 w3.
Proof. intros [l1 H1] [l2 H2]. exists (l1 ++ l2). by rewrite H2, H1, fmap_app, app_assoc. Qed.

(** [w'] follows [w], with the given view, the authorization server's rows untouched and
    no message but warnings in between. *)
Record moves w w' (U : gmap string User) (T : string → string → string → string)
    (R : gmap string RefreshToken) (K : gmap string APIKey) : Prop := mkMoves {
  mv_step : (w_step w <= w_step w')%nat;
  mv_out : only_logs w w';
  mv_inv : v_inv (w_store w');
  mv_users : v_users (w_store w') = U;
  mv_tok : ∀ id p n, plain id → plain p → v_tok (w_store w') id p n = T id p n;
  mv_sess : v_sess (w_store w') = R;
  mv_keys : v_keys (w_store w') = K;
  mv_rows : v_rows (w_store w') = v_rows (w_store w);
  mv_consent : ∀ u c, plain u → v_consent (w_store w') u c = v_consent (w_store w) u c;
}.

Definition same w w' : Prop :=
  moves w w' (v_users (w_store w)) (v_tok (w_store w)) (v_sess (w_store w)) (v_keys (w_store w)).

Definition set_tok (T : string → string → string → string) (id p n v : string) :
    string → string → string → string := λ id' p' n',
  if bool_decide (id' = id ∧ p' = p ∧ n' = n) then v else T id' p' n'.

Lemma same_refl w : v_inv (w_store w) → same w w.
Proof. constructor; try done. by apply only_logs_refl. Qed.

Lemma same_tick w : v_inv (w_store w) → same w (tick w).
Proof. constructor; cbn; auto with lia. by apply only_logs_refl. Qed.

Lemma same_Warned w msg : v_inv (w_store w) → same w (add_out (Warned msg) w).
Proof. constructor; cbn; auto with lia. by exists [msg]. Qed.

Lemma moves_trans w1 w2 w3 U1 T1 R1 K1 U T R K :
  moves w1 w2 U1 T1 R1 K1 → moves w2 w3 U T R K → moves w1 w3 U T R K.
Proof.
  intros [] []. constructor; try done; try congruence; [lia|by eapply only_logs_trans|].
  intros. rewrite mv_consent1 by done. by apply mv_consent0.
Qed.

(** A move may be described by any equal view. *)
Lemma moves_eq w w' U T R K U' T' R' K' : moves w w' U T R K → U = U' →
  (∀ id p n, plain id → plain p → T id p n = T' id p n) → R = R' → K = K' → moves w w' U' T' R' K'.
Proof. intros [] -> HT -> ->. constructor; try done. intros. rewrite mv_tok0 by done. by apply HT. Qed.

Lemma same_moves w1 w2 w3 U T R K : same w1 w2 → moves w2 w3 U T R K → moves w1 w3 U T R K.
Proof. apply moves_trans. Qed.

Lemma same_trans w1 w2 w3 : same w1 w2 → same w2 w3 → same w1 w3.
Proof.
  intros H1 H2. pose proof (same_moves _ _ _ _ _ _ _ H1 H2) as H3. destruct H1, H3.
  constructor; try done; try congruence. intros. rewrite mv_tok1, mv_tok0 by done. done.
Qed.

Lemma same_inv w w' : same w w' → v_inv (w_store w').
Proof. by intros []. Qed.
Lemma same_users w w' : same w w' → v_users (w_store w') = v_users (w_store w).
Proof. by intros []. Qed.
Lemma same_sess w w' : same w w' → v_sess (w_store w') = v_sess (w_store w).
Proof. by intros []. Qed.
Lemma same_keys w w' : same w w' → v_keys (w_store w') = v_keys (w_store w).
Proof. by intros []. Qed.
Lemma same_rows w w' : same w w' → v_rows (w_store w') = v_rows (w_store w).
Proof. by intros []. Qed.
Lemma same_step w w' : same w w' → (w_step w <= w_step w')%nat.
Proof. by intros []. Qed.
Lemma same_out w w' : same w w' → only_logs w w'.
Proof. by intros []. Qed.
End moves.

(** Compose two moves; what the second leaves alone is what the first did. *)
Ltac moves_after H1 H2 :=
  eapply moves_eq; [exact (moves_trans _ _ _ _ _ _ _ _ _ _ _ H1 H2)
    |rewrite ?(mv_users _ _ _ _ _ _ H1); try done
    |intros; unfold set_tok; try (case_bool_decide; [done|]); try done; by apply (mv_tok _ _ _ _ _ _ H1)
    |rewrite ?(mv_sess _ _ _ _ _ _ H1); try done
    |rewrite ?(mv_keys _ _ _ _ _ _ H1); try done].

(** Every row is stored under its own id. *)
Definition keyed {A} (key : A → string) (m : gmap string A) : Prop := map_Forall (λ k a, key a = k) m.

Lemma keyed_insert {A} (key : A → string) m a : keyed key m → keyed key (<[key a := a]> m).
Proof. intros Hm. by apply map_Forall_insert_2. Qed.
Lemma keyed_delete {A} (key : A → string) m k : keyed key m → keyed key (delete k m).
Proof. apply map_Forall_delete. Qed.
Lemma keyed_filter {A} (key : A → string) (P : string * A → Prop) `{!∀ x, Decision (P x)} m :
  keyed key m → keyed key (filter P m).
Proof. intros Hm k a [Hk _]%map_lookup_filter_Some. by apply Hm. Qed.

(** The row [Update] writes, or its error. *)
Definition update_result (U : gmap string User) (u : User) : result unit :=
  match U !! ID u with
  | None => Err ErrNotFound
  | Some cur => if bool_decide (ConcurrencyStamp cur = ConcurrencyStamp u) then Ok tt
                else Err ErrConcurrencyFailure
  end.

Class UserStoreSpec `{Oracle} (S : Type) `{UserStore S, StoreView S} : Prop := {
  spec_keyed (s : S) : v_inv s → keyed ID (v_users s);
  spec_FindByID (w : World S) id : v_inv (w_store w) →
    wp (us_FindByID id) (λ r w', same w w' ∧
      r = match v_users (w_store w) !! id with Some u => Ok (Some u) | None => Err ErrNotFound end) w;
  spec_FindByName (w : World S) n : v_inv (w_store w) →
    wp (us_FindByName n) (λ r w', same w w' ∧
      ((∃ u, r = Ok (Some u) ∧ v_users (w_store w) !! ID u = Some u ∧ NormalizedUserName u = n)
       ∨ (r = Err ErrNotFound ∧ map_Forall (λ _ u, NormalizedUserName u ≠ n) (v_users (w_store w))))) w;
  spec_FindByEmail (w : World S) e : v_inv (w_store w) →
    wp (us_FindByEmail e) (λ r w', same w w' ∧
      ((∃ u, r = Ok (Some u) ∧ v_users (w_store w) !! ID u = Some u ∧ NormalizedEmail u = e ∧ e ≠ "")
       ∨ (r = Err ErrNotFound
          ∧ map_Forall (λ _ u, NormalizedEmail u ≠ e ∨ e = "") (v_users (w_store w))))) w;
  spec_Create (w : World S) u : v_inv (w_store w) → v_users (w_store w) !! ID u = None →
    wp (us_Create u) (λ ur w', ur = (u, Ok tt) ∧ moves w w' (<[ID u := u]> (v_users (w_store w)))
      (v_tok (w_store w)) (v_sess (w_store w)) (v_keys (w_store w))) w;
  spec_Update (w : World S) u : v_inv (w_store w) →
    wp (us_Update u) (λ ur w',
      match update_result (v_users (w_store w)) u with
      | Err e => ur = (u, Err e) ∧ same w w'
      | Ok _ => ∃ i, (w_step w <= i < w_step w')%nat ∧
          let u' := set_ConcurrencyStamp (o_uuid i) u in
          ur = (u', Ok tt) ∧ moves w w' (<[ID u := u']> (v_users (w_store w)))
            (v_tok (w_store w)) (v_sess (w_store w)) (v_keys (w_store w))
      end) w;
  spec_GetToken (w : World S) u p n : v_inv (w_store w) → plain (ID u) → plain p →
    wp (us_GetToken u p n) (λ r w', same w w' ∧ r = Ok (v_tok (w_store w) (ID u) p n)) w;
  spec_SetToken (w : World S) u p n v : v_inv (w_store w) → plain (ID u) → plain p →
    wp (us_SetToken u p n v) (λ r w', r = Ok tt ∧ moves w w' (v_users (w_store w))
      (set_tok (v_tok (w_store w)) (ID u) p n v) (v_sess (w_store w)) (v_keys (w_store w))) w;
  spec_RemoveToken (w : World S) u p n : v_inv (w_store w) → plain (ID u) → plain p →
    wp (us_RemoveToken u p n) (λ r w', r = Ok tt ∧ moves w w' (v_users (w_store w))
      (set_tok (v_tok (w_store w)) (ID u) p n "") (v_sess (w_store w)) (v_keys (w_store w))) w;
  spec_GetRoles (w : World S) u : v_inv (w_store w) →
    wp (us_GetRoles u) (λ r w', same w w' ∧ ∃ l, r = Ok l) w;
  spec_GetClaims (w : World S) u : v_inv (w_store w) →
    wp (us_GetClaims u) (λ r w', same w w' ∧ ∃ l, r = Ok l) w;
}.

(** Removing accounts; what else goes with an account is left to the store. *)
Class UserRemovalSpec `{Oracle} (S : Type) `{UserStore S, StoreView S} : Prop := {
  spec_Delete (w : World S) u : v_inv (w_store w) →
    wp (us_Delete u) (λ r w', r = Ok tt ∧ (w_step w <= w_step w')%nat ∧ v_inv (w_store w')
      ∧ v_users (w_store w') = delete (ID u) (v_users (w_store w))) w;
  spec_PurgeAnonymousUsers (w : World S) purge before : v_inv (w_store w) →
    us_PurgeAnonymousUsers = Some purge →
    wp (purge before) (λ r w',
      let m := filter (λ kv, IsAnonymous kv.2 && Before (CreatedAt kv.2) before = false) (v_users (w_store w)) in
      r = Ok (removed (v_users (w_store w)) m) ∧ (w_step w <= w_step w')%nat ∧ v_inv (w_store w')
      ∧ v_users (w_store w') = m) w;
}.

(** Refresh sessions. *)
Class RefreshTokenStoreSpec `{Oracle} (S : Type) `{RefreshTokenStore S, StoreView S} : Prop := {
  spec_sess_keyed (s : S) : v_inv s → keyed SessionID (v_sess s);
  spec_CreateRefreshToken (w : World S) rt : v_inv (w_store w) →
    wp (ts_CreateRefreshToken rt) (λ r w', r = Ok tt ∧ moves w w' (v_users (w_store w))
      (v_tok (w_store w)) (<[SessionID rt := rt]> (v_sess (w_store w))) (v_keys (w_store w))) w;
  spec_GetRefreshTokenBySession (w : World S) sid : v_inv (w_store w) →
    wp (ts_GetRefreshTokenBySession sid) (λ r w', same w w' ∧
      r = match v_sess (w_store w) !! sid with Some rt => Ok rt | None => Err ErrNotFound end) w;
  spec_UpdateRefreshToken (w : World S) rt : v_inv (w_store w) →
    wp (ts_UpdateRefreshToken rt) (λ r w',
      match v_sess (w_store w) !! SessionID rt with
      | None => r = Err ErrNotFound ∧ same w w'
      | Some _ => r = Ok tt ∧ moves w w' (v_users (w_store w)) (v_tok (w_store w))
          (<[SessionID rt := rt]> (v_sess (w_store w))) (v_keys (w_store w))
      end) w;
  spec_DeleteRefreshToken (w : World S) sid : v_inv (w_store w) →
    wp (ts_DeleteRefreshToken sid) (λ r w', r = Ok tt ∧ moves w w' (v_users (w_store w))
      (v_tok (w_store w)) (delete sid (v_sess (w_store w))) (v_keys (w_store w))) w;
  spec_DeleteUserRefreshTokens (w : World S) uid : v_inv (w_store w) →
    let m := filter (λ kv, Session_UserID kv.2 ≠ uid) (v_sess (w_store w)) in
    wp (ts_DeleteUserRefreshTokens uid) (λ r w', r = Ok (removed (v_sess (w_store w)) m)
      ∧ moves w w' (v_users (w_store w)) (v_tok (w_store w)) m (v_keys (w_store w))) w;
  spec_DeleteExpiredRefreshTokens (w : World S) before : v_inv (w_store w) →
    let m := filter (λ kv, Before (ExpiresAt kv.2) before = false) (v_sess (w_store w)) in
    wp (ts_DeleteExpiredRefreshTokens before) (λ r w', r = Ok (removed (v_sess (w_store w)) m)
      ∧ moves w w' (v_users (w_store w)) (v_tok (w_store w)) m (v_keys (w_store w))) w;
  spec_ListUserRefreshTokens (w : World S) uid : v_inv (w_store w) →
    wp (ts_ListUserRefreshTokens uid) (λ r w', same w w' ∧ ∃ l, r = Ok l ∧
      l ≡ₚ (map_to_list (filter (λ kv, Session_UserID kv.2 = uid) (v_sess (w_store w)))).*2) w;
}.

(** API keys: revoked, or past the expiry at [t]. *)
Definition inactive_at (t : Time) (k : APIKey) : Prop :=
  is_Some (Key_RevokedAt k) ∨ ∃ e, Key_ExpiresAt k = Some e ∧ e <= t.

Class APIKeyStoreSpec `{Oracle} (S : Type) `{APIKeyStore S, StoreView S} : Prop := {
  spec_keys_keyed (s : S) : v_inv s → keyed Key_ID (v_keys s);
  spec_keys_hash (s : S) k1 k2 : v_inv s →
    v_keys s !! Key_ID k1 = Some k1 → v_keys s !! Key_ID k2 = Some k2 → KeyHash k1 = KeyHash k2 → k1 = k2;
  spec_CreateAPIKey (w : World S) k : v_inv (w_store w) → v_keys (w_store w) !! Key_ID k = None →
    wp (ks_CreateAPIKey k) (λ r w',
      (r = Ok tt ∧ map_Forall (λ _ k', KeyHash k' ≠ KeyHash k) (v_keys (w_store w))
        ∧ moves w w' (v_users (w_store w)) (v_tok (w_store w)) (v_sess (w_store w))
            (<[Key_ID k := k]> (v_keys (w_store w))))
      ∨ ((∃ e, r = Err e) ∧ ¬ map_Forall (λ _ k', KeyHash k' ≠ KeyHash k) (v_keys (w_store w))
        ∧ same w w')) w;
  spec_GetActiveAPIKeyByHash (w : World S) h : v_inv (w_store w) →
    wp (ks_GetActiveAPIKeyByHash h) (λ r w', same w w' ∧
      ∃ i, (w_step w <= i < w_step w')%nat ∧
        ((∃ k, r = Ok k ∧ v_keys (w_store w) !! Key_ID k = Some k ∧ KeyHash k = h
          ∧ ¬ inactive_at (o_now i) k)
        ∨ (r = Err ErrNotFound ∧
          map_Forall (λ _ k, KeyHash k = h → inactive_at (o_now i) k) (v_keys (w_store w))))) w;
  spec_ListAPIKeysByUser (w : World S) uid : v_inv (w_store w) →
    wp (ks_ListAPIKeysByUser uid) (λ r w', same w w' ∧ ∃ l, r = Ok l ∧
      l ≡ₚ (map_to_list (filter (λ kv, Key_UserID kv.2 = uid) (v_keys (w_store w)))).*2) w;
  spec_RevokeAPIKey (w : World S) id : v_inv (w_store w) →
    wp (ks_RevokeAPIKey id) (λ r w', r = Ok tt ∧ ∃ t, moves w w' (v_users (w_store w))
      (v_tok (w_store w)) (v_sess (w_store w))
      (alter (λ k, if bool_decide (Key_RevokedAt k = None) then set_Key_RevokedAt (Some t) k else k) id
        (v_keys (w_store w)))) w;
  spec_TouchAPIKeyLastUsed (w : World S) id : v_inv (w_store w) →
    wp (ks_TouchAPIKeyLastUsed id) (λ r w', r = Ok tt ∧ ∃ t, moves w w' (v_users (w_store w))
      (v_tok (w_store w)) (v_sess (w_store w))
      (alter (set_Key_LastUsedAt (Some t)) id (v_keys (w_store w)))) w;
}.

(** ** The authorization server's rows *)

Definition set_clients (x : gmap string Client) (o : ORows) : ORows := mkRows x (r_codes o) (r_grants o) (r_jtis o).
Definition set_codes (x : gmap string Code) (o : ORows) : ORows := mkRows (r_clients o) x (r_grants o) (r_jtis o).
Definition set_grants (x : gmap string Grant) (o : ORows) : ORows := mkRows (r_clients o) (r_codes o) x (r_jtis o).
Definition set_jtis (x : gmap (string * string) Time) (o : ORows) : ORows := mkRows (r_clients o) (r_codes o) (r_grants o) x.

Definition set_consent (C : string → string → option Consent) (u c : string) (x : option Consent)
    : string → string → option Consent :=
  λ u' c', if bool_decide (u' = u ∧ c' = c) then x else C u' c'.

Section omoves.
Context `{Oracle} {S : Type} `{StoreView S}.
Implicit Types w : World S.

(** [w'] follows [w], with the given rows and everything else untouched. *)
Record omoves w w' (O : ORows) (C : string → string → option Consent) : Prop := mkOMoves {
  om_step : (w_step w <= w_step w')%nat;
  om_out : only_logs w w';
  om_inv : v_inv (w_store w');
  om_users : v_users (w_store w') = v_users (w_store w);
  om_tok : ∀ id p n, plain id → plain p → v_tok (w_store w') id p n = v_tok (w_store w) id p n;
  om_sess : v_sess (w_store w') = v_sess (w_store w);
  om_keys : v_keys (w_store w') = v_keys (w_store w);
  om_rows : v_rows (w_store w') = O;
  om_consent : ∀ u c, plain u → v_consent (w_store w') u c = C u c;
}.

(** Only the rows change. *)
Definition rows_set w w' (O : ORows) : Prop := omoves w w' O (v_consent (w_store w)).

Lemma omoves_trans w1 w2 w3 O1 C1 O C : omoves w1 w2 O1 C1 → omoves w2 w3 O C → omoves w1 w3 O C.
Proof.
  intros H1 H2. destruct H1, H2. constructor; try done; try congruence; [lia|by eapply only_logs_trans|].
  intros. rewrite om_tok1 by done. by apply om_tok0.
Qed.

Lemma same_omoves w1 w2 : same w1 w2 → rows_set w1 w2 (v_rows (w_store w1)).
Proof. intros []. by constructor. Qed.
Lemma omoves_same w1 w2 : rows_set w1 w2 (v_rows (w_store w1)) → same w1 w2.
Proof. intros []. by constructor. Qed.

Lemma rows_set_trans w1 w2 w3 O1 O : rows_set w1 w2 O1 → rows_set w2 w3 O → rows_set w1 w3 O.
Proof.
  intros H1 H2. destruct (omoves_trans _ _ _ _ _ _ _ H1 H2). constructor; try done.
  intros. rewrite om_consent0 by done. by apply (om_consent _ _ _ _ H1).
Qed.
Lemma rows_set_after w1 w2 w3 O : same w1 w2 → rows_set w2 w3 O → rows_set w1 w3 O.
Proof. intros Hs%same_omoves. by eapply rows_set_trans. Qed.
Lemma rows_set_before w1 w2 w3 O : rows_set w1 w2 O → same w2 w3 → rows_set w1 w3 O.
Proof.
  intros H1 Hs. eapply rows_set_trans; [done|]. rewrite <-(om_rows _ _ _ _ H1). by apply same_omoves.
Qed.
Lemma rows_set_inv w w' O : rows_set w w' O → v_inv (w_store w').
Proof. by intros []. Qed.
Lemma rows_set_rows w w' O : rows_set w w' O → v_rows (w_store w') = O.
Proof. by intros []. Qed.
Lemma rows_set_users w w' O : rows_set w w' O → v_users (w_store w') = v_users (w_store w).
Proof. by intros []. Qed.
Lemma rows_set_step w w' O : rows_set w w' O → (w_step w <= w_step w')%nat.
Proof. by intros []. Qed.
End omoves.

(** Registered clients that [DeleteStaleClients] removes. *)
Definition stale_client (before : Time) (o : ORows) (c : Client) : Prop :=
  Client_CreatedAt c < before ∧ (∀ t, Client_LastUsedAt c = Some t → t < before)
  ∧ map_Forall (λ _ g, Grant_ClientID g ≠ Client_ID c) (r_grants o).

Class OAuthStoreSpec `{Oracle} (S : Type) `{OAuthStore S, StoreView S} : Prop := {
  spec_clients_keyed (s : S) : v_inv s → keyed Client_ID (r_clients (v_rows s));
  spec_codes_keyed (s : S) : v_inv s → keyed CodeHash (r_codes (v_rows s));
  spec_grants_keyed (s : S) : v_inv s → keyed Grant_ID (r_grants (v_rows s));
  spec_CreateClient (w : World S) c : v_inv (w_store w) →
    r_clients (v_rows (w_store w)) !! Client_ID c = None →
    wp (os_CreateClient c) (λ r w', r = Ok tt ∧ rows_set w w'
      (set_clients (<[Client_ID c := c]> (r_clients (v_rows (w_store w)))) (v_rows (w_store w)))) w;
  spec_GetClient (w : World S) id : v_inv (w_store w) →
    wp (os_GetClient id) (λ r w', same w w' ∧
      r = match r_clients (v_rows (w_store w)) !! id with Some c => Ok c | None => Err ErrNotFound end) w;
  spec_TouchClient (w : World S) id t : v_inv (w_store w) →
    wp (os_TouchClient id t) (λ r w', r = Ok tt ∧ rows_set w w'
      (set_clients (alter (touch_Client t) id (r_clients (v_rows (w_store w)))) (v_rows (w_store w)))) w;
  spec_DeleteStaleClients (w : World S) before : v_inv (w_store w) →
    wp (os_DeleteStaleClients before) (λ r w', ∃ cs, r = Ok (removed (r_clients (v_rows (w_store w))) cs) ∧ rows_set w w'
      (set_clients cs (v_rows (w_store w))) ∧ ∀ id c, cs !! id = Some c ↔
        r_clients (v_rows (w_store w)) !! id = Some c ∧ ¬ stale_client before (v_rows (w_store w)) c) w;
  spec_CreateCode (w : World S) c : v_inv (w_store w) →
    r_codes (v_rows (w_store w)) !! CodeHash c = None →
    wp (os_CreateCode c) (λ r w', r = Ok tt ∧ rows_set w w'
      (set_codes (<[CodeHash c := c]> (r_codes (v_rows (w_store w)))) (v_rows (w_store w)))) w;
  spec_GetCode (w : World S) h : v_inv (w_store w) →
    wp (os_GetCode h) (λ r w', same w w' ∧
      r = match r_codes (v_rows (w_store w)) !! h with Some c => Ok c | None => Err ErrNotFound end) w;
  spec_MarkCodeUsed (w : World S) h g t : v_inv (w_store w) →
    wp (os_MarkCodeUsed h g t) (λ r w',
      match r_codes (v_rows (w_store w)) !! h with
      | Some c => if bool_decide (UsedAt c = None)
          then r = Ok true ∧ rows_set w w'
            (set_codes (<[h := mark_Code t g c]> (r_codes (v_rows (w_store w)))) (v_rows (w_store w)))
          else r = Ok false ∧ same w w'
      | None => r = Ok false ∧ same w w'
      end) w;
  spec_DeleteExpiredCodes (w : World S) before : v_inv (w_store w) →
    wp (os_DeleteExpiredCodes before) (λ r w',
      let m := filter (λ kv, Before (Code_ExpiresAt kv.2) before = false) (r_codes (v_rows (w_store w))) in
      r = Ok (removed (r_codes (v_rows (w_store w))) m) ∧ rows_set w w' (set_codes m (v_rows (w_store w)))) w;
  spec_GetConsent (w : World S) u c : v_inv (w_store w) →
    wp (os_GetConsent u c) (λ r w', same w w' ∧
      r = match v_consent (w_store w) u c with Some x => Ok x | None => Err ErrNotFound end) w;
  spec_SaveConsent (w : World S) x : v_inv (w_store w) → plain (Consent_UserID x) →
    wp (os_SaveConsent x) (λ r w', r = Ok tt ∧
      let u := Consent_UserID x in let c := Consent_ClientID x in
      omoves w w' (v_rows (w_store w)) (set_consent (v_consent (w_store w)) u c
        (Some match v_consent (w_store w) u c with
              | Some old => set_Consent_CreatedAt (Consent_CreatedAt old) x | None => x end))) w;
  spec_DeleteConsent (w : World S) u c : v_inv (w_store w) → plain u →
    wp (os_DeleteConsent u c) (λ r w', r = Ok tt ∧
      omoves w w' (v_rows (w_store w)) (set_consent (v_consent (w_store w)) u c None)) w;
  spec_CreateGrant (w : World S) g : v_inv (w_store w) →
    r_grants (v_rows (w_store w)) !! Grant_ID g = None →
    wp (os_CreateGrant g) (λ r w', r = Ok tt ∧ rows_set w w'
      (set_grants (<[Grant_ID g := g]> (r_grants (v_rows (w_store w)))) (v_rows (w_store w)))) w;
  (** under an id already taken a store may refuse or replace *)
  spec_CreateGrant_only (w : World S) g : v_inv (w_store w) →
    wp (os_CreateGrant g) (λ _ w', ∃ G, rows_set w w' (set_grants G (v_rows (w_store w)))) w;
  spec_GetGrant (w : World S) id : v_inv (w_store w) →
    wp (os_GetGrant id) (λ r w', same w w' ∧
      r = match r_grants (v_rows (w_store w)) !! id with Some g => Ok g | None => Err ErrNotFound end) w;
  spec_RotateGrant (w : World S) id old new exp t : v_inv (w_store w) →
    wp (os_RotateGrant id old new exp t) (λ r w',
      match r_grants (v_rows (w_store w)) !! id with
      | Some g => if bool_decide (Grant_TokenHash g = old)
          then r = Ok true ∧ rows_set w w'
            (set_grants (<[id := rotate_Grant old new exp t g]> (r_grants (v_rows (w_store w)))) (v_rows (w_store w)))
          else r = Ok false ∧ same w w'
      | None => r = Ok false ∧ same w w'
      end) w;
  spec_DeleteGrant (w : World S) id : v_inv (w_store w) →
    wp (os_DeleteGrant id) (λ r w', r = Ok tt ∧ rows_set w w'
      (set_grants (delete id (r_grants (v_rows (w_store w)))) (v_rows (w_store w)))) w;
  spec_DeleteUserClientGrants (w : World S) u c : v_inv (w_store w) →
    wp (os_DeleteUserClientGrants u c) (λ r w',
      let m := filter (λ kv, ¬ (Grant_UserID kv.2 = u ∧ Grant_ClientID kv.2 = c)) (r_grants (v_rows (w_store w))) in
      r = Ok (removed (r_grants (v_rows (w_store w))) m) ∧ rows_set w w' (set_grants m (v_rows (w_store w)))) w;
  spec_ListUserGrants (w : World S) u : v_inv (w_store w) →
    wp (os_ListUserGrants u) (λ r w', same w w' ∧ ∃ l, r = Ok l ∧
      l ≡ₚ (map_to_list (filter (λ kv, Grant_UserID kv.2 = u) (r_grants (v_rows (w_store w))))).*2) w;
  spec_DeleteExpiredGrants (w : World S) before : v_inv (w_store w) →
    wp (os_DeleteExpiredGrants before) (λ r w',
      let m := filter (λ kv, Before (Grant_ExpiresAt kv.2) before = false) (r_grants (v_rows (w_store w))) in
      r = Ok (removed (r_grants (v_rows (w_store w))) m) ∧ rows_set w w' (set_grants m (v_rows (w_store w)))) w;
  spec_UseClientAssertion (w : World S) c j exp : v_inv (w_store w) →
    wp (os_UseClientAssertion c j exp) (λ r w',
      match r_jtis (v_rows (w_store w)) !! (c, j) with
      | Some _ => r = Ok false ∧ same w w'
      | None => r = Ok true ∧ rows_set w w'
          (set_jtis (<[(c, j) := exp]> (r_jtis (v_rows (w_store w)))) (v_rows (w_store w)))
      end) w;
  spec_DeleteExpiredClientAssertions (w : World S) before : v_inv (w_store w) →
    wp (os_DeleteExpiredClientAssertions before) (λ r w',
      let m := filter (λ kv, Before kv.2 before = false) (r_jtis (v_rows (w_store w))) in
      r = Ok (removed (r_jtis (v_rows (w_store w))) m) ∧ rows_set w w' (set_jtis m (v_rows (w_store w)))) w;
}.

(** Apply the law of the next call. *)
Ltac wp_call law := eapply wp_mono; [eapply law|]; cbn beta.
