(* ===== verification/MemSpec.v ===== *)
(** * The in-memory store keeps the contract

    [stores/memstore] refines the views and laws of [StoreLaws]: its maps are the
    rows, its flat token map the token slots.  The file also states what the contract
    leaves open: what a deletion cascades to, paging and purging. *)

From S2P Require Import Prelude GoStrings Errors World Entities OAuthTypes Stores StoreLaws MemStore.
From S2P Require Import MemOAuth.

Local Open Scope Z_scope.

Definition oauth_keyed (s : Store) : Prop :=
  keyed Client_ID (oauthClients s) ∧ keyed CodeHash (oauthCodes s) ∧ keyed Grant_ID (oauthGrants s).

(** Rows under their own ids, and no two API keys with one hash. *)
Definition mem_inv (s : Store) : Prop :=
  keyed ID (users s) ∧ keyed SessionID (refreshTokens s) ∧ keyed Key_ID (apiKeys s)
  ∧ (∀ i1 i2 k1 k2, apiKeys s !! i1 = Some k1 → apiKeys s !! i2 = Some k2 →
      KeyHash k1 = KeyHash k2 → i1 = i2)
  ∧ oauth_keyed s.

#[export] Instance mem_view : StoreView Store := {
  v_inv := mem_inv;
  v_users := users;
  v_tok := λ s id p n, default "" (tokens s !! tokenKey id p n);
  v_sess := refreshTokens;
  v_keys := apiKeys;
  v_rows := λ s, mkRows (oauthClients s) (oauthCodes s) (oauthGrants s) (oauthJTIs s);
  v_consent := λ s u c, oauthConsents s !! consentKey u c;
}.

Lemma New_inv : mem_inv New.
Proof. unfold mem_inv, oauth_keyed, keyed. cbn. split_and!; try apply map_Forall_empty. intros. simplify_map_eq. Qed.

(** Token keys are injective on plain ids and providers. *)
Lemma tokenKey_inj id id' p p' n n' :
  plain id → plain id' → plain p → plain p' → tokenKey id p n = tokenKey id' p' n' →
  id = id' ∧ p = p' ∧ n = n'.
Proof.
  unfold plain, tokenKey. intros Hi Hi' Hp Hp' Heq.
  change (id +:+ String "|" (p +:+ String "|" n) = id' +:+ String "|" (p' +:+ String "|" n')) in Heq.
  apply (f_equal (Cut "|")) in Heq. rewrite !Cut_app in Heq by done.
  injection Heq as -> Heq. apply (f_equal (Cut "|")) in Heq.
  rewrite !Cut_app in Heq by done. by injection Heq.
Qed.

Lemma mem_tok_insert (m : gmap string string) id p n v id' p' n' :
  plain id → plain p → plain id' → plain p' →
  default "" (<[tokenKey id p n := v]> m !! tokenKey id' p' n')
  = set_tok (λ id p n, default "" (m !! tokenKey id p n)) id p n v id' p' n'.
Proof.
  intros. unfold set_tok. case_bool_decide as Hb.
  - destruct Hb as (-> & -> & ->). by rewrite lookup_insert_eq.
  - rewrite lookup_insert_ne; [done|]. intros Heq. destruct Hb. symmetry in Heq.
    by apply tokenKey_inj in Heq.
Qed.

Lemma mem_tok_delete (m : gmap string string) id p n id' p' n' :
  plain id → plain p → plain id' → plain p' →
  default "" (delete (tokenKey id p n) m !! tokenKey id' p' n')
  = set_tok (λ id p n, default "" (m !! tokenKey id p n)) id p n "" id' p' n'.
Proof.
  intros. unfold set_tok. case_bool_decide as Hb.
  - destruct Hb as (-> & -> & ->). by rewrite lookup_delete_eq.
  - rewrite lookup_delete_ne; [done|]. intros Heq. destruct Hb. symmetry in Heq.
    by apply tokenKey_inj in Heq.
Qed.

(** A first match in a range over a map: a matching row, or no row matches. *)
Lemma range_find {A} (m : gmap string A) (P : string * A → bool) l :
  l ≡ₚ map_to_list m →
  match list_find (λ kv, P kv = true) l with
  | Some (_, kv) => m !! kv.1 = Some kv.2 ∧ P kv = true
  | None => map_Forall (λ k v, P (k, v) = false) m
  end.
Proof.
  intros Hl. destruct (list_find _ l) as [[i [k v]]|] eqn:Hf.
  - apply list_find_Some in Hf as (Hi & HP & _). split; [|done].
    apply elem_of_map_to_list. rewrite <-Hl. by eapply list_elem_of_lookup_2.
  - apply list_find_None in Hf. rewrite Hl in Hf. intros k v Hk.
    apply not_true_is_false. rewrite Forall_forall in Hf. apply (Hf (k, v)).
    by apply elem_of_map_to_list.
Qed.

Ltac mem_same := apply same_refl || apply same_tick; assumption.

Section spec.
Context `{Oracle} `{UnicodeDB}.

Lemma wp_findBy pred (w : World Store) :
  wp (findBy pred) (λ r w', w' = tick w ∧
    ((∃ k u, r = Ok (Some u) ∧ users (w_store w) !! k = Some u ∧ pred u = true)
     ∨ (r = Err ErrNotFound ∧ map_Forall (λ _ u, pred u = false) (users (w_store w))))) w.
Proof.
  unfold findBy, range_map. wp_steps. split; [done|].
  pose proof (range_find (users (w_store w)) (λ kv, pred kv.2)
    (o_order (w_step w) (map_to_list (users (w_store w)))) (o_order_perm _ _ _)) as Hr.
  destruct (list_find _ _) as [[i [k u]]|]; [left|right]; [|done]. by exists k, u.
Qed.

#[export] Instance mem_UserStoreSpec : UserStoreSpec Store.
Proof.
  split.
  - by intros s [? _].
  - intros w id Hi. cbn. unfold FindByID. wp_steps. split; [by apply same_refl|done].
  - intros w n Hi. cbn. unfold FindByName. eapply wp_mono; [apply wp_findBy|].
    intros r w' [-> Hr]. split; [by apply same_tick|].
    destruct Hr as [(k & u & -> & Hk & Hn%String.eqb_eq)|[-> Hr]]; [left|right].
    + exists u. split; [done|]. split; [|done]. cbn. by rewrite (proj1 Hi k u Hk).
    + split; [done|]. intros k u Hk. apply String.eqb_neq. exact (Hr k u Hk).
  - intros w e Hi. cbn. unfold FindByEmail. eapply wp_mono; [apply wp_findBy|].
    intros r w' [-> Hr]. split; [by apply same_tick|].
    destruct Hr as [(k & u & -> & Hk & Hn)|[-> Hr]]; [left|right].
    + apply andb_true_iff in Hn as [Hn%String.eqb_eq Hne%negb_true_iff%String.eqb_neq].
      exists u. split_and!; try done. cbn. by rewrite (proj1 Hi k u Hk).
    + split; [done|]. intros k u Hk. specialize (Hr k u Hk). cbn in Hr.
      apply andb_false_iff in Hr as [Hr%String.eqb_neq|Hr%negb_false_iff%String.eqb_eq]; auto.
  - intros w u Hi Hu. cbn. unfold Create. wp_steps. split; [done|].
    destruct Hi as (?&?&?&?&?). constructor; cbn; try (done || by apply only_logs_refl).
    split_and!; cbn; try (done || by apply only_logs_refl). by apply keyed_insert.
  - intros w u Hi. cbn. unfold Update, update_result. wp_steps. cbn.
    destruct (users (w_store w) !! ID u) as [cur|] eqn:Hu.
    2: { wp_steps. split; [done|]. by apply same_refl. }
    destruct (decide (ConcurrencyStamp cur = ConcurrencyStamp u)) as [Hc|Hc].
    2: { rewrite bool_decide_eq_true_2, bool_decide_eq_false_2 by done. wp_steps.
         split; [done|]. by apply same_refl. }
    rewrite bool_decide_eq_false_2, bool_decide_eq_true_2 by auto. wp_steps.
    + exists (w_step w). cbn. split; [lia|]. split; [done|].
      destruct Hi as (?&?&?&?&?). constructor; cbn; try (done || by apply only_logs_refl); [lia|].
      split_and!; cbn; try (done || by apply only_logs_refl). by apply (keyed_insert ID _ (set_ConcurrencyStamp _ u)).
  - intros w u p n Hi Hu Hp. cbn. unfold GetToken. wp_steps. split; [by apply same_refl|done].
  - intros w u p n v Hi Hu Hp. cbn. unfold SetToken. wp_steps. split; [done|].
    destruct Hi as (?&?&?&?&?). constructor; cbn; try (done || by apply only_logs_refl). intros. by apply mem_tok_insert.
  - intros w u p n Hi Hu Hp. cbn. unfold RemoveToken. wp_steps. split; [done|].
    destruct Hi as (?&?&?&?&?). constructor; cbn; try (done || by apply only_logs_refl). intros. by apply mem_tok_delete.
  - intros w u Hi. cbn. unfold GetRoles. wp_steps. split; [by apply same_tick|by eexists].
  - intros w u Hi. cbn. unfold GetClaims. wp_steps. split; [by apply same_refl|by eexists].
Qed.

(** A deleting range: the entries that fail the test stay, whatever the order. *)
Lemma wp_delete_where {K V} `{Countable K} (fld : Store → gmap K V) setf (p : K → V → bool)
    (Q : Z → World Store → Prop) w :
  (let m := filter (λ kv, p kv.1 kv.2 = false) (fld (w_store w)) in
    Q (removed (fld (w_store w)) m) (set_store (setf m (w_store w)) (tick w))) →
  wp (delete_where fld setf p) Q w.
Proof.
  intros HQ. unfold delete_where, range_map. wp_steps. cbn.
  destruct (range_delete _ _ _) as [m n] eqn:Hr. wp_steps.
  pose proof (range_delete_filter p (o_order (w_step w) (map_to_list (fld (w_store w))))
    (fld (w_store w)) (o_order_perm _ _ _)) as Hf.
  pose proof (range_delete_count p (o_order (w_step w) (map_to_list (fld (w_store w)))) (fld (w_store w))) as Hn.
  rewrite Hr in Hf, Hn. cbn in Hf, Hn. subst m n. cbv zeta in HQ.
  rewrite o_order_perm, filter_map_to_list, length_map_to_list, (removed_filter (λ kv, p kv.1 kv.2)). exact HQ.
Qed.

#[export] Instance mem_RefreshTokenStoreSpec : RefreshTokenStoreSpec Store.
Proof.
  split.
  - by intros s (_ & ? & _).
  - intros w rt (?&?&?&?&?). cbn. unfold CreateRefreshToken. wp_steps. split; [done|].
    constructor; cbn; try (done || by apply only_logs_refl). split_and!; cbn; try (done || by apply only_logs_refl). by apply keyed_insert.
  - intros w sid Hi. cbn. unfold GetRefreshTokenBySession. wp_steps.
    split; [by apply same_refl|done].
  - intros w rt Hi. cbn. unfold UpdateRefreshToken. wp_steps.
    destruct (refreshTokens (w_store w) !! SessionID rt) as [rt'|] eqn:Hrt.
    + wp_steps. split; [done|]. destruct Hi as (?&?&?&?&?).
      constructor; cbn; try (done || by apply only_logs_refl). split_and!; cbn; try (done || by apply only_logs_refl). by apply keyed_insert.
    + wp_steps. split; [done|]. by apply same_refl.
  - intros w sid (?&?&?&?&?). cbn. unfold DeleteRefreshToken. wp_steps. split; [done|].
    constructor; cbn; try (done || by apply only_logs_refl). split_and!; cbn; try (done || by apply only_logs_refl). by apply keyed_delete.
  - intros w uid (?&?&?&?&?). cbn. unfold DeleteUserRefreshTokens. wp_steps.
    apply wp_delete_where. cbv zeta. wp_steps.
    assert (filter (λ kv : string * RefreshToken, (Session_UserID kv.2 =? uid)%string = false) (refreshTokens (w_store w))
      = filter (λ kv, Session_UserID kv.2 ≠ uid) (refreshTokens (w_store w))) as ->
      by (apply map_filter_ext; intros i x Hx; cbn; by rewrite String.eqb_neq).
    split; [done|]. constructor; cbn; try (done || by apply only_logs_refl); [lia|].
    split_and!; cbn; try (done || by apply only_logs_refl). by apply keyed_filter.
  - intros w before (?&?&?&?&?). cbn. unfold DeleteExpiredRefreshTokens. wp_steps.
    apply wp_delete_where. cbv zeta. wp_steps. split; [done|].
    constructor; cbn; try (done || by apply only_logs_refl); [lia|].
    split_and!; cbn; try (done || by apply only_logs_refl). by apply keyed_filter.
  - intros w uid Hi. cbn. unfold ListUserRefreshTokens, range_map. wp_steps.
    apply wp_sort_Slice; [apply _..|]. intros l' Hl Hs. wp_steps. split.
    { destruct Hi as (?&?&?&?&?). constructor; cbn; try (done || by apply only_logs_refl); lia. }
    exists l'. split; [done|]. rewrite Hl. cbn.
    rewrite o_order_perm. apply filter_snd_map_to_list.
Qed.

Lemma key_inactive_spec t k : key_inactive t k = true ↔ inactive_at t k.
Proof.
  unfold key_inactive, inactive_at, After. rewrite orb_true_iff, bool_decide_eq_true.
  destruct (Key_ExpiresAt k) as [e|]; [|naive_solver].
  rewrite negb_true_iff, Z.ltb_ge. split; [intros [?|?]; eauto|].
  intros [?|(e' & [= <-] & ?)]; auto.
Qed.

(** Changing a row without touching its id and hash keeps the invariant. *)
Lemma mem_inv_alter_keys (f : APIKey → APIKey) id s :
  (∀ k, Key_ID (f k) = Key_ID k ∧ KeyHash (f k) = KeyHash k) →
  mem_inv s → mem_inv (set_apiKeys (alter f id (apiKeys s)) s).
Proof.
  intros Hf (?&?&Hk&Hh&?). split_and!; cbn; try (done || by apply only_logs_refl).
  - intros i k Hi. apply lookup_alter_Some in Hi as [(<- & k' & Hi & ->)|[_ Hi]].
    + rewrite (proj1 (Hf k')). by apply Hk.
    + by apply Hk.
  - assert (∀ i k, alter f id (apiKeys s) !! i = Some k →
      ∃ k', apiKeys s !! i = Some k' ∧ KeyHash k' = KeyHash k) as Hl.
    { intros i k Hi. apply lookup_alter_Some in Hi as [(<- & k' & Hi & ->)|[_ Hi]]; [|eauto].
      exists k'. split; [done|]. by rewrite (proj2 (Hf k')). }
    intros i1 i2 k1 k2 (k1' & ? & Hk1)%Hl (k2' & ? & Hk2)%Hl Heq. eapply Hh; [done..|congruence].
Qed.

Lemma alter_absent {A} (f : A → A) (m : gmap string A) i : m !! i = None → alter f i m = m.
Proof. intros Hi. apply map_eq. intros j. rewrite lookup_alter. case_decide; [|done]. subst. by rewrite Hi. Qed.
Lemma alter_present {A} (f : A → A) (m : gmap string A) i a :
  m !! i = Some a → alter f i m = <[i := f a]> m.
Proof.
  intros Hi. apply map_eq. intros j. rewrite lookup_alter, lookup_insert. case_decide; [|done].
  subst. by rewrite Hi.
Qed.

Lemma mem_CreateAPIKey (w : World Store) k : v_inv (w_store w) → apiKeys (w_store w) !! Key_ID k = None →
  wp (CreateAPIKey k) (λ r w',
    (r = Ok tt ∧ map_Forall (λ _ k', KeyHash k' ≠ KeyHash k) (apiKeys (w_store w))
      ∧ moves w w' (v_users (w_store w)) (v_tok (w_store w)) (v_sess (w_store w))
          (<[Key_ID k := k]> (apiKeys (w_store w))))
    ∨ ((∃ e, r = Err e) ∧ ¬ map_Forall (λ _ k', KeyHash k' ≠ KeyHash k) (apiKeys (w_store w)) ∧ same w w')) w.
Proof.
  intros Hi Hk. unfold CreateAPIKey, range_map. wp_steps.
  set (l := o_order _ _). assert (l ≡ₚ map_to_list (apiKeys (w_store w))) as Hl by apply o_order_perm.
  destruct (existsb _ l) eqn:Hex.
  + wp_steps. right. split; [by eexists|]. split; [|by apply same_tick].
    apply existsb_exists in Hex as ([i k'] & Hin & Heq%String.eqb_eq).
    apply list_elem_of_In in Hin. rewrite Hl in Hin. apply elem_of_map_to_list in Hin.
    intros Hf. by apply (Hf i k').
  + assert (map_Forall (λ _ k', KeyHash k' ≠ KeyHash k) (apiKeys (w_store w))) as Hf.
    { intros i k' Hik Heq. apply not_true_iff_false in Hex. apply Hex, existsb_exists.
      exists (i, k'). split; [|by apply String.eqb_eq].
      apply list_elem_of_In. rewrite Hl. by apply elem_of_map_to_list. }
    wp_steps. left. split; [done|]. split; [done|].
    destruct Hi as (?&?&?&Hh&?). constructor; cbn; try (done || by apply only_logs_refl); [lia|].
    split_and!; cbn; try (done || by apply only_logs_refl); [by apply keyed_insert|].
    intros i1 i2 k1 k2 [(<- & <-)|[? Hl1]]%lookup_insert_Some [(<- & <-)|[? Hl2]]%lookup_insert_Some Heq;
      [done| | |by eapply Hh].
    * by destruct (Hf i2 k2).
    * by destruct (Hf i1 k1).
Qed.

Lemma mem_GetActiveAPIKeyByHash (w : World Store) h : v_inv (w_store w) →
  wp (GetActiveAPIKeyByHash h) (λ r w', same w w' ∧
    ∃ i, (w_step w <= i < w_step w')%nat ∧
      ((∃ k, r = Ok k ∧ apiKeys (w_store w) !! Key_ID k = Some k ∧ KeyHash k = h ∧ ¬ inactive_at (o_now i) k)
      ∨ (r = Err ErrNotFound ∧ map_Forall (λ _ k, KeyHash k = h → inactive_at (o_now i) k) (apiKeys (w_store w))))) w.
Proof.
  intros Hi. unfold GetActiveAPIKeyByHash, range_map. wp_steps.
  split; [destruct Hi as (?&?&?&?&?); constructor; cbn; try (done || by apply only_logs_refl); lia|].
  exists (w_step w). cbn. split; [lia|].
  set (l := o_order _ _). assert (l ≡ₚ map_to_list (apiKeys (w_store w))) as Hl by apply o_order_perm.
  pose proof (range_find (apiKeys (w_store w)) (λ kv, String.eqb (KeyHash kv.2) h) l Hl) as Hr.
  destruct (list_find _ l) as [[i [id k]]|].
  + destruct Hr as [Hk Hh%String.eqb_eq]. cbn in *.
    destruct (key_inactive (o_now (w_step w)) k) eqn:Ha.
    * right. split; [done|]. intros id' k' Hk' Hh'. apply key_inactive_spec.
      destruct Hi as (_&_&_&Hu&_). rewrite <-Hh' in Hh.
      specialize (Hu _ _ _ _ Hk Hk' Hh). subst id'. congruence.
    * left. exists k. split; [done|]. destruct Hi as (_&_&Hkk&_).
      split; [by rewrite (Hkk id k Hk)|]. split; [done|].
      rewrite <-key_inactive_spec. congruence.
  + right. split; [done|]. intros id k Hk Hh. specialize (Hr id k Hk). cbn in Hr.
    by apply String.eqb_neq in Hr.
Qed.

Lemma mem_RevokeAPIKey (w : World Store) id : v_inv (w_store w) →
  wp (RevokeAPIKey id) (λ r w', r = Ok tt ∧ ∃ t, moves w w' (v_users (w_store w)) (v_tok (w_store w)) (v_sess (w_store w))
    (alter (λ k, if bool_decide (Key_RevokedAt k = None) then set_Key_RevokedAt (Some t) k else k) id
      (apiKeys (w_store w)))) w.
Proof.
  intros Hi. unfold RevokeAPIKey. wp_steps.
  set (f t k := if bool_decide (Key_RevokedAt k = None) then set_Key_RevokedAt (Some t) k else k).
  destruct (apiKeys (w_store w) !! id) as [k|] eqn:Hk.
  + case_bool_decide as Hr; wp_steps; (split; [done|]); exists (o_now (w_step w)).
    * assert (alter (f (o_now (w_step w))) id (apiKeys (w_store w))
        = <[id:=set_Key_RevokedAt (Some (o_now (w_step w))) k]> (apiKeys (w_store w))) as Ha.
      { rewrite (alter_present _ _ _ _ Hk). unfold f. by rewrite bool_decide_eq_true_2. }
      fold (f (o_now (w_step w))). rewrite Ha. constructor; cbn; try (done || by apply only_logs_refl); [lia|].
      rewrite <-Ha. apply mem_inv_alter_keys; [|done].
      intros k'. unfold f. by case_bool_decide.
    * fold (f (o_now (w_step w))). rewrite (alter_present _ _ _ _ Hk). unfold f.
      rewrite bool_decide_eq_false_2 by done. rewrite insert_id by done. exact (same_refl w Hi).
  + wp_steps. split; [done|]. exists (o_now (w_step w)). rewrite alter_absent by done.
    exact (same_refl w Hi).
Qed.

#[export] Instance mem_APIKeyStoreSpec : APIKeyStoreSpec Store.
Proof.
  split.
  - by intros s (_ & _ & ? & _).
  - intros s k1 k2 (_ & _ & _ & Hh & _) H1 H2 Heq. cbn in *.
    specialize (Hh _ _ _ _ H1 H2 Heq). rewrite Hh in H1. congruence.
  - apply mem_CreateAPIKey.
  - apply mem_GetActiveAPIKeyByHash.
  - intros w uid Hi. cbn. unfold ListAPIKeysByUser, range_map. wp_steps.
    apply wp_sort_Slice; [apply _..|]. intros l' Hl Hs. wp_steps. split.
    { destruct Hi as (?&?&?&?&?). constructor; cbn; try (done || by apply only_logs_refl); lia. }
    exists l'. split; [done|]. rewrite Hl. cbn.
    rewrite o_order_perm. apply filter_snd_map_to_list.
  - apply mem_RevokeAPIKey.
  - intros w id Hi. cbn. unfold TouchAPIKeyLastUsed. wp_steps.
    destruct (apiKeys (w_store w) !! id) as [k|] eqn:Hk; wp_steps; (split; [done|]);
      exists (o_now (w_step w)).
    + pose proof (mem_inv_alter_keys (set_Key_LastUsedAt (Some (o_now (w_step w)))) id (w_store w)
        ltac:(done) Hi) as Hi'. rewrite (alter_present _ _ _ _ Hk) in *.
      constructor; cbn; try (done || by apply only_logs_refl); lia.
    + rewrite alter_absent by done. exact (same_refl w Hi).
Qed.
End spec.

(** ** Deletion cascades *)

(** The store without a user and everything keyed by it. *)
Definition without_user (id : string) (s : Store) : Store := mkStore
  (delete id (users s)) (roles s) (delete id (userRoles s)) (delete id (userClaims s)) (roleClaims s)
  (filter (λ kv, HasPrefix kv.1 (id +:+ "|") = false) (tokens s))
  (filter (λ kv, loginUser s !! kv.1 ≠ Some id) (logins s))
  (filter (λ kv, String.eqb kv.2 id = false) (loginUser s))
  (filter (λ kv, String.eqb (Key_UserID kv.2) id = false) (apiKeys s))
  (filter (λ kv, String.eqb (Session_UserID kv.2) id = false) (refreshTokens s))
  (oauthClients s)
  (filter (λ kv, String.eqb (Code_UserID kv.2) id = false) (oauthCodes s))
  (filter (λ kv, String.eqb (Consent_UserID kv.2) id = false) (oauthConsents s))
  (filter (λ kv, String.eqb (Grant_UserID kv.2) id = false) (oauthGrants s))
  (oauthJTIs s).

(** [foldl] of conditional deletions driven by another map's entries. *)
Lemma foldl_delete_lookup {V} (l : list (string * string)) id (m : gmap string V) k :
  foldl (λ m kv, if String.eqb kv.2 id then delete kv.1 m else m) m l !! k
  = if bool_decide ((k, id) ∈ l) then None else m !! k.
Proof.
  revert m. induction l as [|[k' v] l IH]; intros m; cbn [foldl fst snd].
  { by rewrite bool_decide_eq_false_2 by apply not_elem_of_nil. }
  rewrite IH. destruct (String.eqb_spec v id) as [->|Hv].
  - destruct (decide (k' = k)) as [->|Hk].
    + rewrite lookup_delete_eq. rewrite (bool_decide_eq_true_2 ((k, id) ∈ (k, id) :: l)) by left.
      by destruct (bool_decide _).
    + rewrite lookup_delete_ne by done. apply if_ext_dec. rewrite elem_of_cons. naive_solver.
  - apply if_ext_dec. rewrite elem_of_cons. naive_solver.
Qed.

Section cascade.
Context `{Oracle} `{UnicodeDB}.

Lemma wp_cascadeDeleteLocked id (Q : unit → World Store → Prop) w :
  (∀ w', w_store w' = without_user id (w_store w) → w_out w' = w_out w →
    (w_step w <= w_step w')%nat → Q tt w') →
  wp (cascadeDeleteLocked id) Q w.
Proof.
  intros HQ. unfold cascadeDeleteLocked. wp_steps.
  apply wp_delete_where. cbv zeta. unfold range_map. wp_steps. cbn.
  set (l := o_order _ (map_to_list (loginUser (w_store w)))).
  assert (l ≡ₚ map_to_list (loginUser (w_store w))) as Hl by apply o_order_perm.
  destruct (range_delete _ _ _) as [lu n] eqn:Hlu. wp_steps. cbn.
  do 5 (apply wp_delete_where; cbv zeta; wp_steps; cbn).
  apply HQ; cbn; [|done|lia]. unfold without_user, set_oauthGrants; cbn. f_equal.
  - apply map_eq. intros k. rewrite foldl_delete_lookup, map_lookup_filter.
    rewrite (bool_decide_ext _ (loginUser (w_store w) !! k = Some id))
      by (rewrite Hl; apply elem_of_map_to_list).
    destruct (logins (w_store w) !! k) as [v|]; cbn; [|by destruct (bool_decide _)].
    case_bool_decide; case_guard; done.
  - pose proof (range_delete_filter (λ _ uid, String.eqb uid id) l (loginUser (w_store w)) Hl) as Hf.
    rewrite Hlu in Hf. done.
Qed.

Lemma wp_cascadeDeleteAll ids (Q : unit → World Store → Prop) w :
  (∀ w', w_store w' = foldl (λ s id, without_user id s) (w_store w) ids → w_out w' = w_out w →
    (w_step w <= w_step w')%nat → Q tt w') →
  wp (cascadeDeleteAll ids) Q w.
Proof.
  revert w. induction ids as [|id ids IH]; intros w HQ; cbn [cascadeDeleteAll]; wp_steps.
  - by apply HQ.
  - apply wp_cascadeDeleteLocked. intros w' Hw' Ho Hle. apply IH. intros w'' Hw'' Ho' Hle'. apply HQ.
    + by rewrite Hw'', Hw'.
    + congruence.
    + lia.
Qed.

Lemma users_without ids s :
  users (foldl (λ s id, without_user id s) s ids) = filter (λ kv, kv.1 ∉ ids) (users s).
Proof.
  revert s. induction ids as [|id ids IH]; intros s; cbn [foldl].
  - symmetry. apply map_filter_id. intros i x _. apply not_elem_of_nil.
  - rewrite IH. apply map_eq. intros k. apply option_eq. intros u.
    rewrite !map_lookup_filter_Some. cbn. rewrite lookup_delete_Some, not_elem_of_cons. naive_solver.
Qed.
End cascade.

Lemma without_user_inv id s : mem_inv s → mem_inv (without_user id s).
Proof.
  intros (? & ? & ? & Hk & ? & ? & ?). split_and!; cbn;
    try (by apply keyed_filter || by apply keyed_delete || done); [|split_and!; cbn; try done; by apply keyed_filter].
  intros i1 i2 k1 k2 [? _]%map_lookup_filter_Some [? _]%map_lookup_filter_Some. by eapply Hk.
Qed.

Lemma without_users_inv ids s : mem_inv s → mem_inv (foldl (λ s id, without_user id s) s ids).
Proof. revert s. induction ids as [|id ids IH]; intros s Hi; [done|]. by apply IH, without_user_inv. Qed.

(** ** Properties *)

(** C34: deleting a user removes the user, and every role membership, claim, token
    slot under its id, login, API key, refresh session and OAuth code, consent and
    grant of that user, and nothing else; it cannot fail or panic. *)
Theorem Delete_cascade `{Oracle} `{UnicodeDB} (u : User) (w : World Store) :
  wp (Delete u) (λ r w', r = Ok tt ∧ w_store w' = without_user (ID u) (w_store w) ∧ w_out w' = w_out w) w.
Proof.
  unfold Delete. wp_steps. apply wp_cascadeDeleteLocked. intros w' Hs Ho _. wp_steps. done.
Qed.

(** Purging removes exactly the guests created before the cut-off, with their
    dependent rows, and returns their number. *)
Theorem PurgeAnonymousUsers_spec `{Oracle} `{UnicodeDB} (t : Time) (w : World Store) :
  wp (PurgeAnonymousUsers t) (λ r w',
    let guest (u : User) := IsAnonymous u && Before (CreatedAt u) t in
    users (w_store w') = filter (λ kv, guest kv.2 = false) (users (w_store w))
    ∧ r = Ok (Z.of_nat (size (filter (λ kv : string * User, guest kv.2 = true) (users (w_store w)))))
    ∧ ∃ ids, w_store w' = foldl (λ s id, without_user id s) (w_store w) ids
      ∧ (∀ id, id ∈ ids ↔ ∃ u, users (w_store w) !! id = Some u ∧ guest u = true)
      ∧ (w_step w <= w_step w')%nat) w.
Proof.
  unfold PurgeAnonymousUsers, range_map. wp_steps. set (l := o_order _ _).
  set (P := λ kv : string * User, IsAnonymous kv.2 && Before (CreatedAt kv.2) t = true).
  assert (l ≡ₚ map_to_list (users (w_store w))) as Hl by apply o_order_perm.
  set (ids := (filter P l).*1).
  assert (∀ id, id ∈ ids ↔ ∃ u, users (w_store w) !! id = Some u
    ∧ IsAnonymous u && Before (CreatedAt u) t = true) as Hids.
  { intros id. unfold ids. rewrite Hl, list_elem_of_fmap. split.
    - intros ([id' u] & -> & [HP Hu%elem_of_map_to_list]%list_elem_of_filter). eauto.
    - intros (u & Hu & HP). exists (id, u). split; [done|].
      apply list_elem_of_filter. split; [done|]. by apply elem_of_map_to_list. }
  apply wp_cascadeDeleteAll. intros w' Hs _ Hle. cbn in Hle. wp_steps. split_and!.
  - rewrite Hs. cbn. rewrite users_without. apply map_filter_ext. intros id u Hu. cbn.
    rewrite Hids, <-not_true_iff_false. split; [intros Hn HP; apply Hn; eauto|].
    intros HP (u' & Hu' & ?). congruence.
  - do 2 f_equal. unfold ids. rewrite length_fmap, Hl, <-length_map_to_list.
    by rewrite filter_map_to_list.
  - exists ids. split_and!; [done|apply Hids|lia].
Qed.

#[export] Instance mem_UserRemovalSpec `{Oracle} `{UnicodeDB} : UserRemovalSpec Store.
Proof.
  split.
  - intros w u Hi. cbn. unfold Delete. wp_steps. apply wp_cascadeDeleteLocked. intros w' Hw' _ Hle. wp_steps.
    rewrite Hw'. split; [done|split; [done|split; [by apply without_user_inv|done]]].
  - intros w purge t Hi [= <-]. eapply wp_mono; [apply PurgeAnonymousUsers_spec|].
    intros r w' (Hu & -> & ids & Hw' & _ & Hle). cbn zeta. split; [|split; [done|split; [|done]]].
    + by rewrite (removed_filter (λ kv : string * User, IsAnonymous kv.2 && Before (CreatedAt kv.2) t)).
    + rewrite Hw'. by apply without_users_inv.
Qed.

(** The rows a search selects. *)
Definition matches `{UnicodeDB} (search : string) (u : User) : bool :=
  let q := ToUpper search in
  String.eqb q "" || Contains (NormalizedUserName u) q || Contains (NormalizedEmail u) q.

(** For a clamped filter, [ListUsers] neither panics nor skips: it returns the
    [Limit] rows from [Offset] of the matching users sorted by id, with their total
    number, and changes nothing. *)
Theorem ListUsers_page `{Oracle} `{UnicodeDB} (f : ListFilter) (w : World Store) :
  Z.of_nat (size (users (w_store w))) <= MaxInt64 - 500 →
  wp (ListUsers (Clamp f)) (λ r w', w_store w' = w_store w ∧ w_out w' = w_out w ∧
    ∃ l, l ≡ₚ (map_to_list (filter (λ kv : string * User, matches (Search f) kv.2 = true) (users (w_store w)))).*2
      ∧ StronglySorted (key_le_string ID) l
      ∧ r = Ok (take (Z.to_nat (Limit (Clamp f))) (drop (Z.to_nat (Offset (Clamp f))) l),
                Z.of_nat (length l))) w.
Proof.
  intros Hsize. unfold ListUsers, range_map. wp_steps. apply wp_sort_Slice; [apply _..|].
  intros l Hl Hsorted. destruct (Clamp_bounds f) as (Hlim & Hoff & Hsearch & _).
  rewrite o_order_perm in Hl. rewrite (filter_snd_map_to_list (λ u, _ = true)) in Hl.
  assert (Z.of_nat (length l) <= MaxInt64 - 500) as Hlen.
  { rewrite Hl, length_fmap, length_map_to_list. etrans; [|exact Hsize].
    apply Nat2Z.inj_le, map_size_filter. }
  set (total := Z.of_nat (length l)) in *.
  set (lo := if total <? Offset (Clamp f) then total else Offset (Clamp f)).
  assert (0 <= lo <= total ∧ drop (Z.to_nat lo) l = drop (Z.to_nat (Offset (Clamp f))) l) as [Hlo Hdrop].
  { unfold lo. destruct (Z.ltb_spec total (Offset (Clamp f))); [|split; [lia|done]].
    split; [lia|]. rewrite !drop_ge by lia. done. }
  assert (wrap_int64 (lo + Limit (Clamp f)) = lo + Limit (Clamp f)) as ->.
  { unfold wrap_int64. unfold MaxInt64 in *. rewrite Z.mod_small; lia. }
  rewrite (proj2 (Z.leb_gt (Limit (Clamp f)) 0)) by lia. cbn [orb].
  rewrite (proj2 (Z.ltb_ge lo 0)) by lia. cbn [orb].
  set (hi := if total <? lo + Limit (Clamp f) then total else lo + Limit (Clamp f)).
  assert (lo <= hi ∧ take (Z.to_nat (hi - lo)) (drop (Z.to_nat lo) l)
    = take (Z.to_nat (Limit (Clamp f))) (drop (Z.to_nat lo) l)) as [Hhi Htake].
  { unfold hi. destruct (Z.ltb_spec total (lo + Limit (Clamp f))); [|split; [lia|f_equal; lia]].
    split; [lia|]. rewrite !take_ge by (rewrite length_drop; lia). done. }
  rewrite (proj2 (Z.ltb_ge hi lo)) by lia. wp_steps. do 2 (split; [done|]).
  exists l. split; [|split; [done|]].
  - rewrite Hl, Hsearch. done.
  - by rewrite Htake, Hdrop.
Qed.

(** * The in-memory store keeps the authorization server's contract

    [stores/memstore/oauth.go] implements [OAuthStoreSpec]. *)

Lemma consentKey_inj u u' c c' : plain u → plain u' → consentKey u c = consentKey u' c' → u = u' ∧ c = c'.
Proof.
  unfold plain, consentKey. intros Hu Hu' Heq.
  change (u +:+ String "|" c = u' +:+ String "|" c') in Heq.
  apply (f_equal (Cut "|")) in Heq. rewrite !Cut_app in Heq by done. by injection Heq.
Qed.

Lemma mem_consent_insert (m : gmap string Consent) u c x u' c' : plain u → plain u' →
  <[consentKey u c := x]> m !! consentKey u' c'
  = set_consent (λ u c, m !! consentKey u c) u c (Some x) u' c'.
Proof.
  intros. unfold set_consent. case_bool_decide as Hb.
  - destruct Hb as [-> ->]. by rewrite lookup_insert_eq.
  - rewrite lookup_insert_ne; [done|]. intros Heq. destruct Hb. by apply consentKey_inj in Heq as [-> ->].
Qed.

Lemma mem_consent_delete (m : gmap string Consent) u c u' c' : plain u → plain u' →
  delete (consentKey u c) m !! consentKey u' c' = set_consent (λ u c, m !! consentKey u c) u c None u' c'.
Proof.
  intros. unfold set_consent. case_bool_decide as Hb.
  - destruct Hb as [-> ->]. by rewrite lookup_delete_eq.
  - rewrite lookup_delete_ne; [done|]. intros Heq. destruct Hb. by apply consentKey_inj in Heq as [-> ->].
Qed.

Section spec.
Context `{Oracle} `{UnicodeDB}.

(** A write to one of the OAuth maps that keeps its keys. *)
Ltac mem_rows Hi :=
  destruct Hi as (?&?&?&?&(Hkc&Hkd&Hkg)); constructor; cbn; try (done || by apply only_logs_refl); try lia;
  try (split_and!; cbn; try done; split_and!; cbn; try done).

Lemma keyed_alter_same {A} (key : A → string) (f : A → A) id m :
  (∀ a, key (f a) = key a) → keyed key m → keyed key (alter f id m).
Proof.
  intros Hf Hm k a [(<- & a' & Ha & ->)|[_ Ha]]%lookup_alter_Some; [|by apply Hm].
  rewrite Hf. by apply Hm.
Qed.

Lemma mem_DeleteStaleClients (w : World Store) before : v_inv (w_store w) →
  wp (DeleteStaleClients before) (λ r w', ∃ cs, r = Ok (removed (r_clients (v_rows (w_store w))) cs) ∧ rows_set w w'
    (set_clients cs (v_rows (w_store w))) ∧ ∀ id c, cs !! id = Some c ↔
      r_clients (v_rows (w_store w)) !! id = Some c ∧ ¬ stale_client before (v_rows (w_store w)) c) w.
Proof.
  intros Hi. unfold DeleteStaleClients, range_map. wp_steps.
  set (l := o_order _ _). assert (l ≡ₚ map_to_list (oauthGrants (w_store w))) as Hl by apply o_order_perm.
  apply wp_delete_where. cbv zeta. wp_steps. eexists. split; [done|]. split.
  { mem_rows Hi. by apply keyed_filter. }
  cbn. intros id c. rewrite map_lookup_filter_Some. cbn.
  destruct Hi as (_&_&_&_&Hk&_&_).
  split; (intros [Hc Hs]; split; [done|]); specialize (Hk _ _ Hc); cbn in Hk; subst id.
  + intros (Hcr & Hlu & Hg). apply not_true_iff_false in Hs. apply Hs. rewrite !andb_true_iff, bool_decide_eq_true.
    unfold Before. split_and!; [by apply Z.ltb_lt| |].
    * destruct (Client_LastUsedAt c); [|done]. by apply Z.ltb_lt, Hlu.
    * rewrite elem_of_list_to_set, list_elem_of_fmap. intros (g & Hgc & Hgl).
      apply list_elem_of_fmap in Hgl as ([i g'] & -> & Hgl). rewrite Hl in Hgl.
      apply elem_of_map_to_list in Hgl. by eapply Hg.
  + apply not_true_is_false. rewrite !andb_true_iff, bool_decide_eq_true. unfold Before.
    intros [[Hcr%Z.ltb_lt Hlu] Hg]. apply Hs. split; [done|]. split.
    * intros t Ht. rewrite Ht in Hlu. by apply Z.ltb_lt.
    * intros i g Hgi Hgc. apply Hg. rewrite elem_of_list_to_set, list_elem_of_fmap. exists g.
      split; [done|]. apply list_elem_of_fmap. exists (i, g). split; [done|]. rewrite Hl.
      by apply elem_of_map_to_list.
Qed.

Lemma mem_MarkCodeUsed (w : World Store) h g t : v_inv (w_store w) →
  wp (MarkCodeUsed h g t) (λ r w',
    match oauthCodes (w_store w) !! h with
    | Some c => if bool_decide (UsedAt c = None)
        then r = Ok true ∧ rows_set w w'
          (set_codes (<[h := mark_Code t g c]> (oauthCodes (w_store w))) (v_rows (w_store w)))
        else r = Ok false ∧ same w w'
    | None => r = Ok false ∧ same w w'
    end) w.
Proof.
  intros Hi. unfold MarkCodeUsed. wp_steps.
  destruct (oauthCodes (w_store w) !! h) as [c|] eqn:Hc; cbn.
  + destruct (decide (UsedAt c = None)) as [Hu|Hu].
    * rewrite bool_decide_eq_false_2, bool_decide_eq_true_2 by auto. wp_steps. split; [done|].
      mem_rows Hi. apply map_Forall_insert_2; [|done]. cbn. by apply (Hkd h c).
    * rewrite bool_decide_eq_true_2, bool_decide_eq_false_2 by auto. wp_steps. split; [done|by apply same_refl].
  + wp_steps. split; [done|by apply same_refl].
Qed.

Lemma mem_RotateGrant (w : World Store) id old new exp t : v_inv (w_store w) →
  wp (RotateGrant id old new exp t) (λ r w',
    match oauthGrants (w_store w) !! id with
    | Some g => if bool_decide (Grant_TokenHash g = old)
        then r = Ok true ∧ rows_set w w'
          (set_grants (<[id := rotate_Grant old new exp t g]> (oauthGrants (w_store w))) (v_rows (w_store w)))
        else r = Ok false ∧ same w w'
    | None => r = Ok false ∧ same w w'
    end) w.
Proof.
  intros Hi. unfold RotateGrant. wp_steps.
  destruct (oauthGrants (w_store w) !! id) as [g|] eqn:Hg; cbn.
  + destruct (decide (Grant_TokenHash g = old)) as [Hu|Hu].
    * rewrite bool_decide_eq_false_2, bool_decide_eq_true_2 by auto. wp_steps. split; [done|].
      mem_rows Hi. apply map_Forall_insert_2; [|done]. cbn. by apply (Hkg id g).
    * rewrite bool_decide_eq_true_2, bool_decide_eq_false_2 by auto. wp_steps. split; [done|by apply same_refl].
  + wp_steps. split; [done|by apply same_refl].
Qed.

(** A row is written under its key, whether or not there was one. *)
Lemma mem_CreateClient (w : World Store) c : v_inv (w_store w) →
  wp (CreateClient c) (λ r w', r = Ok tt ∧ rows_set w w'
    (set_clients (<[Client_ID c := c]> (r_clients (v_rows (w_store w)))) (v_rows (w_store w)))) w.
Proof. intros Hi. unfold CreateClient. wp_steps. split; [done|]. mem_rows Hi. by apply keyed_insert. Qed.
Lemma mem_CreateCode (w : World Store) c : v_inv (w_store w) →
  wp (CreateCode c) (λ r w', r = Ok tt ∧ rows_set w w'
    (set_codes (<[CodeHash c := c]> (r_codes (v_rows (w_store w)))) (v_rows (w_store w)))) w.
Proof. intros Hi. unfold CreateCode. wp_steps. split; [done|]. mem_rows Hi. by apply keyed_insert. Qed.
Lemma mem_CreateGrant (w : World Store) g : v_inv (w_store w) →
  wp (CreateGrant g) (λ r w', r = Ok tt ∧ rows_set w w'
    (set_grants (<[Grant_ID g := g]> (r_grants (v_rows (w_store w)))) (v_rows (w_store w)))) w.
Proof. intros Hi. unfold CreateGrant. wp_steps. split; [done|]. mem_rows Hi. by apply keyed_insert. Qed.

#[export] Instance mem_OAuthStoreSpec : OAuthStoreSpec Store.
Proof.
  split.
  - by intros s (_&_&_&_&?&_).
  - by intros s (_&_&_&_&_&?&_).
  - by intros s (_&_&_&_&_&_&?).
  - intros w c Hi _. by apply mem_CreateClient.
  - intros w id Hi. cbn. unfold GetClient. wp_steps. split; [by apply same_refl|done].
  - intros w id t Hi. cbn. unfold TouchClient. wp_steps. split; [done|]. mem_rows Hi. by apply keyed_alter_same.
  - apply mem_DeleteStaleClients.
  - intros w c Hi _. by apply mem_CreateCode.
  - intros w h Hi. cbn. unfold GetCode. wp_steps. split; [by apply same_refl|done].
  - apply mem_MarkCodeUsed.
  - intros w before Hi. cbn. unfold DeleteExpiredCodes. wp_steps. apply wp_delete_where. cbv zeta. wp_steps.
    split; [done|]. mem_rows Hi. by apply keyed_filter.
  - intros w u c Hi. cbn. unfold GetConsent. wp_steps. split; [by apply same_refl|done].
  - intros w x Hi Hu. cbn. unfold SaveConsent. wp_steps. split; [done|]. mem_rows Hi.
    intros u c Hu'. rewrite mem_consent_insert by done. unfold set_consent.
    case_bool_decide; [|done]. by destruct (oauthConsents (w_store w) !! _).
  - intros w u c Hi Hu. cbn. unfold DeleteConsent. wp_steps. split; [done|]. mem_rows Hi.
    intros. by apply mem_consent_delete.
  - intros w g Hi _. by apply mem_CreateGrant.
  - intros w g Hi. eapply wp_mono; [by apply mem_CreateGrant|]. intros r w' [_ Hw]. by eexists.
  - intros w id Hi. cbn. unfold GetGrant. wp_steps. split; [by apply same_refl|done].
  - apply mem_RotateGrant.
  - intros w id Hi. cbn. unfold DeleteGrant. wp_steps. split; [done|]. mem_rows Hi. by apply keyed_delete.
  - intros w u c Hi. cbn. unfold DeleteUserClientGrants. wp_steps. apply wp_delete_where. cbv zeta. wp_steps.
    assert (filter (λ kv : string * Grant, String.eqb (Grant_UserID kv.2) u && String.eqb (Grant_ClientID kv.2) c = false)
        (oauthGrants (w_store w))
      = filter (λ kv, ¬ (Grant_UserID kv.2 = u ∧ Grant_ClientID kv.2 = c)) (oauthGrants (w_store w))) as ->.
    { apply map_filter_ext. intros i g _. cbn. rewrite andb_false_iff, !String.eqb_neq.
      destruct (decide (Grant_UserID g = u)), (decide (Grant_ClientID g = c)); naive_solver. }
    split; [done|]. mem_rows Hi. by apply keyed_filter.
  - intros w u Hi. cbn. unfold ListUserGrants, range_map. wp_steps.
    apply wp_sort_Slice; [apply _..|]. intros l' Hl Hs. wp_steps. split.
    { destruct Hi as (?&?&?&?&?). constructor; cbn; try (done || by apply only_logs_refl); lia. }
    exists l'. split; [done|]. rewrite Hl. cbn. rewrite o_order_perm. apply filter_snd_map_to_list.
  - intros w before Hi. cbn. unfold DeleteExpiredGrants. wp_steps. apply wp_delete_where. cbv zeta. wp_steps.
    split; [done|]. mem_rows Hi. by apply keyed_filter.
  - intros w c j exp Hi. cbn. unfold UseClientAssertion. wp_steps.
    destruct (oauthJTIs (w_store w) !! (c, j)) as [e|] eqn:He; wp_steps; (split; [done|]);
      [by apply same_refl|mem_rows Hi].
  - intros w before Hi. cbn. unfold DeleteExpiredClientAssertions. wp_steps. apply wp_delete_where. cbv zeta. wp_steps.
    split; [done|]. mem_rows Hi.
Qed.
End spec.
