(* ===== verification/TokenProvider.v ===== *)
(** * Purpose-bound tokens

    [identity/token_provider.go]: [DataTokenProvider], whose tokens bind a user,
    a purpose and the user's security stamp under an HMAC and an issue time.  The
    manager methods built on it are in [AccountTokens]. *)

From S2P Require Import Prelude GoStrings GoBytes GoCrypto Errors World Entities.

Local Open Scope Z_scope.

Record DataTokenProvider := mkDataTokenProvider { key : bytes; lifespan : Duration }.

Definition NewDataTokenProvider (k : bytes) (l : Duration) : DataTokenProvider :=
  mkDataTokenProvider k (if l =? 0 then 24 * Hour else l).

Definition sign (p : DataTokenProvider) (payload : bytes) : bytes := hmac_sha256 (key p) payload.

(** [u.ID+"|"+purpose+"|"+u.SecurityStamp]. *)
Definition bound_data (u : User) (purpose : string) : bytes :=
  str_bytes (ID u +:+ "|" +:+ purpose +:+ "|" +:+ SecurityStamp u).

Section provider.
Context `{Oracle} {S : Type}.

(** The token issued at a given Unix time. *)
Definition token_at (p : DataTokenProvider) (purpose : string) (u : User) (issued : Z) : string :=
  let ts := put_be 8 (wrap_uint64 issued) in
  let mac := sign p (ts ++ bound_data u purpose) in
  RawURLEncode (ts ++ mac).

Definition Generate (p : DataTokenProvider) (purpose : string) (u : User) : M S string :=
  t ← now; mret (token_at p purpose u (Unix t)).

(** The check of [ValidateWithLifespan] when the clock reads [t]; the clock is read
    only for a token of the right shape. *)
Definition ValidateWithLifespan (p : DataTokenProvider) (purpose token : string) (u : User)
    (l : Duration) : M S bool :=
  match RawURLDecode token with
  | None => mret false
  | Some raw =>
    if negb (bool_decide (length raw = 8 + 32)%nat) then mret false else
    let issued := wrap_int64 (get_be (take 8 raw)) in
    t ← now;
    if l <? Sub t (FromUnix issued) then mret false else
    let expected := sign p (take 8 raw ++ bound_data u purpose) in
    mret (const_eq (drop 8 raw) expected)
  end.

Definition Validate (p : DataTokenProvider) (purpose token : string) (u : User) : M S bool :=
  ValidateWithLifespan p purpose token u (lifespan p).
End provider.

(** ** Facts *)

(** The instants a token's timestamp can carry. *)
Definition stamp_ok (issued : Z) : Prop :=
  MinInt64 <= issued <= MaxInt64 ∧ MinInt64 <= issued + 62135596800 <= MaxInt64.

Lemma wrap_int64_small z : MinInt64 <= z <= MaxInt64 → wrap_int64 z = z.
Proof. unfold wrap_int64, MinInt64, MaxInt64. intros ?. rewrite Z.mod_small; lia. Qed.

Lemma wrap_int64_wrap_uint64 z : MinInt64 <= z <= MaxInt64 → wrap_int64 (wrap_uint64 z) = z.
Proof.
  unfold wrap_int64, wrap_uint64, MinInt64, MaxInt64. intros ?.
  rewrite Zplus_mod_idemp_l, Z.mod_small; lia.
Qed.

Lemma FromUnix_small s : stamp_ok s → FromUnix s = s * Second.
Proof. intros [_ ?]. unfold FromUnix. rewrite wrap_int64_small by done. f_equal. lia. Qed.

Section facts.
Context `{Oracle} {S : Type}.
Implicit Types w : World S.

(** [Validate] changes neither the store nor the messages. *)
Lemma wp_ValidateWithLifespan p purpose token u l (Q : bool → World S → Prop) w :
  (∀ b w', w_store w' = w_store w → w_out w' = w_out w →
    (b = true → ∃ issued t mac, 0 <= issued < 2 ^ 64
      ∧ token_at p purpose u issued = RawURLEncode (put_be 8 issued ++ mac)
      ∧ RawURLDecode token = Some (put_be 8 issued ++ mac)
      ∧ t = o_now (w_step w) ∧ Sub t (FromUnix (wrap_int64 issued)) <= l) → Q b w') →
  wp (ValidateWithLifespan p purpose token u l) Q w.
Proof.
  intros HQ. unfold ValidateWithLifespan.
  destruct (RawURLDecode token) as [raw|] eqn:Hraw; [|wp_steps; by apply HQ].
  case_bool_decide as Hlen; cbn [negb]; [|wp_steps; by apply HQ].
  wp_steps. case_if Hl; wp_steps; [by apply HQ|].
  apply HQ; [done..|]. intros Hc%const_eq_spec. apply Z.ltb_ge in Hl.
  assert (length (take 8 raw) = 8)%nat as H8 by (rewrite length_take; lia).
  exists (get_be (take 8 raw)), (o_now (w_step w)), (drop 8 raw).
  pose proof (get_be_bound (take 8 raw)) as Hb. rewrite H8 in Hb.
  change (256 ^ Z.of_nat 8) with (2 ^ 64) in Hb. unfold token_at, wrap_uint64.
  rewrite Z.mod_small, put_be_get_be, <-Hc, take_drop by done. by split_and!; try lia.
Qed.

(** A token validates for what it was issued for until it is older than the
    lifespan, in whole seconds of the issue time. *)
Lemma wp_Validate_token_at p purpose u issued l (Q : bool → World S → Prop) w :
  stamp_ok issued →
  Q (bool_decide (Sub (o_now (w_step w)) (issued * Second) <= l)) (tick w) →
  wp (ValidateWithLifespan p purpose (token_at p purpose u issued) u l) Q w.
Proof.
  intros Hi HQ. unfold ValidateWithLifespan, token_at.
  set (ts := put_be 8 (wrap_uint64 issued)).
  assert (length ts = 8%nat) as Hts by apply length_put_be.
  assert (length (sign p (ts ++ bound_data u purpose)) = 32%nat) as Hmac by apply length_hmac_sha256.
  rewrite RawURLDecode_Encode. rewrite bool_decide_eq_true_2 by (rewrite length_app; lia).
  cbn [negb]. rewrite take_app_length', drop_app_length' by done.
  assert (get_be ts = wrap_uint64 issued) as ->
    by (apply get_be_put_be, Z.mod_pos_bound; done).
  rewrite wrap_int64_wrap_uint64, FromUnix_small by (destruct Hi; done).
  wp_steps. rewrite const_eq_refl.
  destruct (Z.ltb_spec l (Sub (o_now (w_step w)) (issued * Second))).
  - wp_steps. by rewrite bool_decide_eq_false_2 in HQ by lia.
  - wp_steps. by rewrite bool_decide_eq_true_2 in HQ by lia.
Qed.

Lemma bound_data_inj u u' purpose purpose' :
  "|"%char ∉ str_bytes (ID u) → "|"%char ∉ str_bytes (ID u') →
  "|"%char ∉ str_bytes purpose → "|"%char ∉ str_bytes purpose' →
  bound_data u purpose = bound_data u' purpose' →
  ID u = ID u' ∧ purpose = purpose' ∧ SecurityStamp u = SecurityStamp u'.
Proof.
  intros Hi Hi' Hp Hp' Heq%str_bytes_inj.
  change (ID u +:+ String "|" (purpose +:+ String "|" (SecurityStamp u))
    = ID u' +:+ String "|" (purpose' +:+ String "|" (SecurityStamp u'))) in Heq.
  apply (f_equal (Cut "|")) in Heq. rewrite !Cut_app in Heq by done.
  injection Heq as Hid Heq. apply (f_equal (Cut "|")) in Heq.
  rewrite !Cut_app in Heq by done. by injection Heq.
Qed.
End facts.

(** ** Properties *)

(** A token from [Generate] is accepted for the same user, purpose and security
    stamp exactly while its age (from the whole second of its issue) is at most the
    lifespan; checking it never panics and changes nothing. *)
Theorem token_roundtrip `{Oracle} {S} p purpose u u' l (w w' : World S) :
  stamp_ok (Unix (o_now (w_step w))) → ID u' = ID u → SecurityStamp u' = SecurityStamp u →
  wp (Generate p purpose u) (λ token _,
    wp (ValidateWithLifespan p purpose token u' l) (λ b w'', w_store w'' = w_store w' ∧ w_out w'' = w_out w'
      ∧ (b = true ↔ Sub (o_now (w_step w')) (Unix (o_now (w_step w)) * Second) <= l)) w') w.
Proof.
  intros Hs Hid Hstamp. unfold Generate. wp_steps.
  assert (token_at p purpose u (Unix (o_now (w_step w))) = token_at p purpose u' (Unix (o_now (w_step w)))) as ->.
  { unfold token_at, bound_data. by rewrite Hid, Hstamp. }
  apply wp_Validate_token_at; [done|]. do 2 (split; [done|]). by rewrite bool_decide_eq_true.
Qed.

(** C33: a token issued for one user, purpose and security stamp is accepted for
    another only if all three are equal, or the two payloads are an HMAC-SHA256
    collision under the provider's key (ids and purposes without a ['|']); and it is
    never accepted past its lifespan. *)
Theorem token_binding `{Oracle} {S} p purpose purpose' u u' issued l (w : World S) :
  stamp_ok issued →
  "|"%char ∉ str_bytes (ID u) → "|"%char ∉ str_bytes (ID u') →
  "|"%char ∉ str_bytes purpose → "|"%char ∉ str_bytes purpose' →
  wp (ValidateWithLifespan p purpose' (token_at p purpose u issued) u' l) (λ b w',
    w_store w' = w_store w ∧
    (b = true → Sub (o_now (w_step w)) (issued * Second) <= l ∧
      ((ID u' = ID u ∧ purpose' = purpose ∧ SecurityStamp u' = SecurityStamp u)
       ∨ let ts := put_be 8 (wrap_uint64 issued) in
         ts ++ bound_data u purpose ≠ ts ++ bound_data u' purpose'
         ∧ hmac_sha256 (key p) (ts ++ bound_data u purpose)
           = hmac_sha256 (key p) (ts ++ bound_data u' purpose')))) w.
Proof.
  intros Hs Hu Hu' Hp Hp'. apply wp_ValidateWithLifespan. intros b w' -> _ Hb. split; [done|].
  intros ->. destruct (Hb eq_refl) as (i & t & mac & Hi & Ht & Hdec & -> & Hage).
  unfold token_at in Hdec at 1. rewrite RawURLDecode_Encode in Hdec. apply (inj Some) in Hdec.
  apply app_inj_1 in Hdec as [Hts Hmac]; [|by rewrite !length_put_be].
  apply put_be_inj in Hts; [|by apply Z.mod_pos_bound|done]. subst i.
  assert (wrap_uint64 (wrap_uint64 issued) = wrap_uint64 issued) as Hww
    by (unfold wrap_uint64; by rewrite Zmod_mod).
  unfold token_at in Ht. rewrite Hww in Ht. apply RawURLEncode_inj, app_inv_head in Ht.
  rewrite wrap_int64_wrap_uint64, FromUnix_small in Hage by (destruct Hs; done).
  split; [done|]. destruct (decide (bound_data u purpose = bound_data u' purpose')) as [Heq|Hne].
  - left. apply bound_data_inj in Heq as (?&?&?); [|done..]. done.
  - right. split; [by intros ?%app_inv_head|]. unfold sign in *. by rewrite Hmac, <-Ht.
Qed.
