(* ===== verification/UserManager.v ===== *)
(** * The user manager

    [identity/user_manager.go], [identity/guest.go], [identity/manager_options.go],
    [identity/logger.go] and the user operations of [identity/external_login.go].
    The manager works on the [UserStore] interface; it takes the caller's user and
    returns it as the operation leaves it, on the error paths too. *)

From S2P Require Import Prelude GoStrings GoBytes GoCrypto Errors World Entities Stores Hasher TokenProvider.

Local Open Scope Z_scope.

(** [identity.Logger]: no-op or a sink whose calls are observed as events. *)
Inductive Logger := nopLogger | eventLogger.

(** [identity.SMSSender] and [identity.EmailSender]: a delivery may fail. *)
Record SMSSender (S : Type) := mkSMSSender { sms_Send : string → string → M S (result unit) }.
Arguments mkSMSSender {S} _.
Arguments sms_Send {S} _ _ _.
Record EmailSender (S : Type) := mkEmailSender { email_Send : string → string → string → M S (result unit) }.
Arguments mkEmailSender {S} _.
Arguments email_Send {S} _ _ _ _.

(** [identity.TwoFactorTokenProvider]; a registered provider is a closure over the
    manager it is passed. *)
Record TwoFactorTokenProvider (S : Type) := mkTwoFactorTokenProvider {
  tp_Name : string;
  tp_CanGenerate : User → M S bool;
  tp_Generate : User → M S (result string);
  tp_Validate : User → string → M S (result bool);
}.
Arguments mkTwoFactorTokenProvider {S} _ _ _ _.
Arguments tp_Name {S} _.
Arguments tp_CanGenerate {S} _ _.
Arguments tp_Generate {S} _ _.
Arguments tp_Validate {S} _ _ _.

(** [identity.UserManagerOf]; its [Store] is the [UserStore] instance. *)
Record UserManager (S : Type) := mkUserManager {
  Mgr_Hasher : PasswordHasher S;
  Mgr_Options : Options;
  Mgr_Normalizer : string → string;
  Mgr_Tokens : option DataTokenProvider;
  Mgr_SMS : option (SMSSender S);
  Mgr_Email : option (EmailSender S);
  Mgr_Logger : option Logger;
  Mgr_tokenProviders : option (gmap string (TwoFactorTokenProvider S));
}.
Arguments mkUserManager {S} _ _ _ _ _ _ _ _.
Arguments Mgr_Hasher {S} _.
Arguments Mgr_Options {S} _.
Arguments Mgr_Normalizer {S} _ _.
Arguments Mgr_Tokens {S} _.
Arguments Mgr_SMS {S} _.
Arguments Mgr_Email {S} _.
Arguments Mgr_Logger {S} _.
Arguments Mgr_tokenProviders {S} _.

(** The outcome of a uniqueness lookup:
    [if existing, err := find(); err == nil && existing != nil && clash(existing)
    { return dup } else if err != nil && !errors.Is(err, ErrNotFound) { return err }]. *)
Definition lookup_clash {A} (r : result (option A)) (clash : A → bool) (dup : error) : option error :=
  match r with
  | Ok (Some existing) => if clash existing then Some dup else None
  | Ok None => None
  | Err e => if ErrorsIs e ErrNotFound then None else Some e
  end.

Section policies.
Context `{UnicodeDB}.

(** [upperNormalizer.Normalize]. *)
Definition Normalize (s : string) : string := ToUpper (TrimSpace s).

Definition ValidateUserName (o : UserOptions) (name : string) : result unit :=
  if String.eqb (TrimSpace name) "" then Err ErrInvalidUserName
  else if String.eqb (AllowedUserNameCharacters o) "" then Ok tt
  else if forallb (ContainsRune (AllowedUserNameCharacters o)) (runes name) then Ok tt
  else Err ErrInvalidUserName.

(** The classes seen by the loop over the runes: digit, upper, lower, other. *)
Definition char_classes (acc : bool * bool * bool * bool) (r : Z) : bool * bool * bool * bool :=
  let '(hasDigit, hasUpper, hasLower, hasNonAlpha) := acc in
  if IsDigit r then (true, hasUpper, hasLower, hasNonAlpha)
  else if IsUpper r then (hasDigit, true, hasLower, hasNonAlpha)
  else if IsLower r then (hasDigit, hasUpper, true, hasNonAlpha)
  else if negb (IsLetter r) && negb (IsDigit r) then (hasDigit, hasUpper, hasLower, true)
  else acc.

Definition ValidatePassword (o : PasswordOptions) (pw : string) : result unit :=
  if Z.of_nat (length (runes pw)) <? RequiredLength o then Err ErrPasswordTooShort else
  let '(hasDigit, hasUpper, hasLower, hasNonAlpha) :=
    foldl char_classes (false, false, false, false) (runes pw) in
  if RequireDigit o && negb hasDigit then Err ErrPasswordRequiresDigit
  else if RequireUppercase o && negb hasUpper then Err ErrPasswordRequiresUpper
  else if RequireLowercase o && negb hasLower then Err ErrPasswordRequiresLower
  else if RequireNonAlphanumeric o && negb hasNonAlpha then Err ErrPasswordRequiresNonAlpha
  else if (1 <? RequiredUniqueChars o)
    && (Z.of_nat (size (list_to_set (runes pw) : gset Z)) <? RequiredUniqueChars o)
  then Err ErrPasswordRequiresUnique
  else Ok tt.
End policies.

(** [b.AccessFailedCount++] on a 64-bit [int]. *)
Definition incr_failed (u : User) : User := set_AccessFailedCount (wrap_int64 (AccessFailedCount u + 1)) u.

Section manager.
Context `{Oracle} `{UnicodeDB} `{PBKDF2} {S : Type} `{UserStore S}.

(** ** Configuration *)

Definition NewUserManager (opts : Options) : UserManager S :=
  mkUserManager NewPasswordHasher opts Normalize None None None (Some nopLogger) None.

Definition WithLogger (m : UserManager S) (l : option Logger) : UserManager S :=
  mkUserManager (Mgr_Hasher m) (Mgr_Options m) (Mgr_Normalizer m) (Mgr_Tokens m) (Mgr_SMS m)
    (Mgr_Email m) l (Mgr_tokenProviders m).
Definition WithHasher (m : UserManager S) (h : PasswordHasher S) : UserManager S :=
  mkUserManager h (Mgr_Options m) (Mgr_Normalizer m) (Mgr_Tokens m) (Mgr_SMS m)
    (Mgr_Email m) (Mgr_Logger m) (Mgr_tokenProviders m).
Definition WithNormalizer (m : UserManager S) (n : string → string) : UserManager S :=
  mkUserManager (Mgr_Hasher m) (Mgr_Options m) n (Mgr_Tokens m) (Mgr_SMS m)
    (Mgr_Email m) (Mgr_Logger m) (Mgr_tokenProviders m).
Definition WithTokenProvider (m : UserManager S) (p : option DataTokenProvider) : UserManager S :=
  mkUserManager (Mgr_Hasher m) (Mgr_Options m) (Mgr_Normalizer m) p (Mgr_SMS m)
    (Mgr_Email m) (Mgr_Logger m) (Mgr_tokenProviders m).
Definition WithSMSSender (m : UserManager S) (s : option (SMSSender S)) : UserManager S :=
  mkUserManager (Mgr_Hasher m) (Mgr_Options m) (Mgr_Normalizer m) (Mgr_Tokens m) s
    (Mgr_Email m) (Mgr_Logger m) (Mgr_tokenProviders m).
Definition WithEmailSender (m : UserManager S) (s : option (EmailSender S)) : UserManager S :=
  mkUserManager (Mgr_Hasher m) (Mgr_Options m) (Mgr_Normalizer m) (Mgr_Tokens m) (Mgr_SMS m)
    s (Mgr_Logger m) (Mgr_tokenProviders m).

(** [m.logger().Warn(msg, ...)]. *)
Definition logger (m : UserManager S) : Logger := default nopLogger (Mgr_Logger m).
Definition log_Warn (m : UserManager S) (msg : string) : M S unit :=
  match logger m with nopLogger => mret tt | eventLogger => Warn msg end.

Definition newStamp : M S string := b ← rand_read 20; mret (RawURLEncode b).

Section ops.
Context (m : UserManager S).

(** ** Creation *)

Definition prepareForCreate (u : User) : M S (User * result unit) :=
  match ValidateUserName (Opt_User (Mgr_Options m)) (UserName u) with
  | Err e => mret (u, Err e)
  | Ok _ =>
    id ← (if String.eqb (ID u) "" then uuid_NewString else mret (ID u));
    let u := set_ID id u in
    let u := set_NormalizedUserName (Mgr_Normalizer m (UserName u)) u in
    let u := set_NormalizedEmail (Mgr_Normalizer m (Email u)) u in
    stamp ← newStamp;
    let u := set_SecurityStamp stamp u in
    cstamp ← uuid_NewString;
    let u := set_ConcurrencyStamp cstamp u in
    let u := set_LockoutEnabled (AllowedForNewUsers (Opt_Lockout (Mgr_Options m))) u in
    r ← us_FindByName (NormalizedUserName u);
    match lookup_clash r (λ _, true) ErrDuplicateUserName with
    | Some e => mret (u, Err e)
    | None =>
      if RequireUniqueEmail (Opt_User (Mgr_Options m)) && negb (String.eqb (Email u) "") then
        r ← us_FindByEmail (NormalizedEmail u);
        match lookup_clash r (λ _, true) ErrDuplicateEmail with
        | Some e => mret (u, Err e)
        | None => mret (u, Ok tt)
        end
      else mret (u, Ok tt)
    end
  end.

Definition Create (u : User) : M S (User * result unit) :=
  '(u, r) ← prepareForCreate u;
  match r with
  | Err e => mret (u, Err e)
  | Ok _ => us_Create u
  end.

Definition CreateWithPassword (u : User) (password : string) : M S (User * result unit) :=
  match ValidatePassword (Opt_Password (Mgr_Options m)) password with
  | Err e => mret (u, Err e)
  | Ok _ =>
    '(u, r) ← prepareForCreate u;
    match r with
    | Err e => mret (u, Err e)
    | Ok _ =>
      h ← ph_Hash (Mgr_Hasher m) u password;
      us_Create (set_PasswordHash h u)
    end
  end.

(** ** Passwords *)

Definition CheckPassword (u : User) (password : string) : M S (User * bool) :=
  if String.eqb (PasswordHash u) "" then mret (u, false) else
  '(ok, needsRehash) ← ph_Verify (Mgr_Hasher m) u (PasswordHash u) password;
  if negb ok then mret (u, false) else
  if needsRehash : bool then
    h ← ph_Hash (Mgr_Hasher m) u password;
    '(u, r) ← us_Update (set_PasswordHash h u);
    match r with
    | Ok _ => mret (u, true)
    | Err _ =>
      _ ← log_Warn m "identity: failed to persist password rehash";
      mret (u, true)
    end
  else mret (u, true).

(** [b.PasswordHash = m.Hasher.Hash(b, pw); b.SecurityStamp = newStamp();
    return m.Store.Update(ctx, u)]. *)
Definition store_password (u : User) (password : string) : M S (User * result unit) :=
  h ← ph_Hash (Mgr_Hasher m) u password;
  let u := set_PasswordHash h u in
  stamp ← newStamp;
  us_Update (set_SecurityStamp stamp u).

Definition ChangePassword (u : User) (current newPassword : string) : M S (User * result unit) :=
  '(u, ok) ← CheckPassword u current;
  if negb ok then mret (u, Err ErrPasswordMismatch) else
  match ValidatePassword (Opt_Password (Mgr_Options m)) newPassword with
  | Err e => mret (u, Err e)
  | Ok _ => store_password u newPassword
  end.

Definition HasPassword (u : User) : bool := negb (String.eqb (PasswordHash u) "").

Definition AddPassword (u : User) (password : string) : M S (User * result unit) :=
  if HasPassword u then mret (u, Err ErrPasswordAlreadySet) else
  match ValidatePassword (Opt_Password (Mgr_Options m)) password with
  | Err e => mret (u, Err e)
  | Ok _ => store_password u password
  end.

Definition RemovePassword (u : User) : M S (User * result unit) :=
  let u := set_PasswordHash "" u in
  stamp ← newStamp;
  us_Update (set_SecurityStamp stamp u).

(** ** Names, addresses and the security stamp *)

Definition SetUserName (u : User) (userName : string) : M S (User * result unit) :=
  match ValidateUserName (Opt_User (Mgr_Options m)) userName with
  | Err e => mret (u, Err e)
  | Ok _ =>
    let normalized := Mgr_Normalizer m userName in
    r ← us_FindByName normalized;
    match lookup_clash r (λ ex, negb (String.eqb (ID ex) (ID u))) ErrDuplicateUserName with
    | Some e => mret (u, Err e)
    | None =>
      let u := set_NormalizedUserName normalized (set_UserName userName u) in
      stamp ← newStamp;
      us_Update (set_SecurityStamp stamp u)
    end
  end.

(** The uniqueness check of [SetEmail], [ChangeEmail] and [ConvertToRegistered]. *)
Definition email_taken (u : User) (normalized : string) : M S (option error) :=
  if RequireUniqueEmail (Opt_User (Mgr_Options m)) && negb (String.eqb normalized "") then
    r ← us_FindByEmail normalized;
    mret (lookup_clash r (λ ex, negb (String.eqb (ID ex) (ID u))) ErrDuplicateEmail)
  else mret None.

Definition SetEmail (u : User) (email : string) : M S (User * result unit) :=
  let normalized := Mgr_Normalizer m email in
  clash ← email_taken u normalized;
  match clash with
  | Some e => mret (u, Err e)
  | None =>
    let u := set_EmailConfirmed false (set_NormalizedEmail normalized (set_Email email u)) in
    stamp ← newStamp;
    us_Update (set_SecurityStamp stamp u)
  end.

Definition GetSecurityStamp (u : User) : string := SecurityStamp u.

Definition UpdateSecurityStamp (u : User) : M S (User * result unit) :=
  stamp ← newStamp;
  us_Update (set_SecurityStamp stamp u).

(** ** Lookups *)

Definition Delete (u : User) : M S (result unit) := us_Delete u.
Definition FindByID (id : string) : M S (result (option User)) := us_FindByID id.
Definition FindByName (userName : string) : M S (result (option User)) :=
  us_FindByName (Mgr_Normalizer m userName).
Definition FindByEmail (email : string) : M S (result (option User)) :=
  us_FindByEmail (Mgr_Normalizer m email).
Definition ListUsers (f : ListFilter) : M S (result (list User * Z)) :=
  match us_ListUsers with
  | None => mret (Err ErrListNotSupported)
  | Some list => list (Clamp f)
  end.

(** ** Roles and claims *)

Definition AddToRole (u : User) (role : string) : M S (result unit) := us_AddToRole u (Mgr_Normalizer m role).
Definition RemoveFromRole (u : User) (role : string) : M S (result unit) :=
  us_RemoveFromRole u (Mgr_Normalizer m role).
Definition GetRoles (u : User) : M S (result (list string)) := us_GetRoles u.
Definition IsInRole (u : User) (role : string) : M S (result bool) := us_IsInRole u (Mgr_Normalizer m role).
Definition GetUsersInRole (role : string) : M S (result (list User)) :=
  us_GetUsersInRole (Mgr_Normalizer m role).
Definition GetClaims (u : User) : M S (result (list Claim)) := us_GetClaims u.
Definition AddClaims (u : User) (claims : list Claim) : M S (result unit) := us_AddClaims u claims.
Definition RemoveClaims (u : User) (claims : list Claim) : M S (result unit) := us_RemoveClaims u claims.
Definition GetUsersForClaim (claimType claimValue : string) : M S (result (list User)) :=
  us_GetUsersForClaim claimType claimValue.
Definition ReplaceClaim (u : User) (old replacement : Claim) : M S (result unit) :=
  _ ←? us_RemoveClaims u [old];
  us_AddClaims u [replacement].

(** ** Lockout *)

Definition IsLockedOut (u : User) : M S bool :=
  if negb (LockoutEnabled u) then mret false else
  match LockoutEnd u with
  | None => mret false
  | Some e => t ← now; mret (After e t)
  end.

Definition AccessFailed (u : User) : M S (User * result unit) :=
  let u := incr_failed u in
  u ← (if MaxFailedAccessAttempts (Opt_Lockout (Mgr_Options m)) <=? AccessFailedCount u then
         t ← now;
         let e := Add t (DefaultLockoutDuration (Opt_Lockout (Mgr_Options m))) in
         mret (set_AccessFailedCount 0 (set_LockoutEnd (Some e) u))
       else mret u);
  us_Update u.

Definition ResetAccessFailedCount (u : User) : M S (User * result unit) :=
  if AccessFailedCount u =? 0 then mret (u, Ok tt)
  else us_Update (set_AccessFailedCount 0 u).

(** ** Guests *)

Definition randomHex (n : nat) : M S string := b ← rand_read n; mret (hex_encode b).

Definition CreateAnonymous : M S (result User) :=
  id ← uuid_NewString;
  let u := set_ID id zeroUser in
  h ← randomHex 16;
  let u := set_UserName ("guest_" +:+ h) u in
  let u := set_NormalizedUserName (Mgr_Normalizer m (UserName u)) u in
  let u := set_IsAnonymous true u in
  stamp ← newStamp;
  let u := set_SecurityStamp stamp u in
  cstamp ← uuid_NewString;
  let u := set_ConcurrencyStamp cstamp u in
  let u := set_LockoutEnabled (AllowedForNewUsers (Opt_Lockout (Mgr_Options m))) u in
  u ← (if CreatedAt u =? zeroTime then t ← now; mret (set_CreatedAt t u) else mret u);
  '(u, r) ← us_Create u;
  mret match r with Err e => Err e | Ok _ => Ok u end.

Definition ConvertToRegistered (u : User) (userName email password : string) : M S (User * result unit) :=
  if negb (IsAnonymous u) then mret (u, Err ErrNotAnonymous) else
  match ValidateUserName (Opt_User (Mgr_Options m)) userName with
  | Err e => mret (u, Err e)
  | Ok _ =>
  match ValidatePassword (Opt_Password (Mgr_Options m)) password with
  | Err e => mret (u, Err e)
  | Ok _ =>
    let normUser := Mgr_Normalizer m userName in
    r ← us_FindByName normUser;
    match lookup_clash r (λ ex, negb (String.eqb (ID ex) (ID u))) ErrDuplicateUserName with
    | Some e => mret (u, Err e)
    | None =>
      let normEmail := Mgr_Normalizer m email in
      clash ← email_taken u normEmail;
      match clash with
      | Some e => mret (u, Err e)
      | None =>
        let u := set_NormalizedUserName normUser (set_UserName userName u) in
        let u := set_NormalizedEmail normEmail (set_Email email u) in
        h ← ph_Hash (Mgr_Hasher m) u password;
        let u := set_IsAnonymous false (set_PasswordHash h u) in
        stamp ← newStamp;
        us_Update (set_SecurityStamp stamp u)
      end
    end
  end
  end.

Definition PurgeAnonymousUsers (olderThan : Time) : M S (result Z) :=
  match us_PurgeAnonymousUsers with
  | None => mret (Err ErrPurgeNotSupported)
  | Some purge => purge olderThan
  end.

(** ** External logins *)

Definition AddLogin (u : User) (login : UserLoginInfo) : M S (result unit) := us_AddLogin u login.
Definition RemoveLogin (u : User) (provider key : string) : M S (result unit) := us_RemoveLogin u provider key.
Definition GetLogins (u : User) : M S (result (list UserLoginInfo)) := us_GetLogins u.
Definition FindByLogin (provider key : string) : M S (result (option User)) := us_FindByLogin provider key.
End ops.
End manager.
