(* ===== verification/UserManagerFacts.v ===== *)
(** * Correctness of the user manager

    Theorems about [UserManager] against the store contract of [StoreLaws] and a
    contract for password hashers, which [NewPasswordHasher] keeps: what every
    operation leaves in the store on each branch, password changes and the policy, and
    optimistic concurrency with the rows it writes. *)

From S2P Require Import Prelude GoStrings GoBytes GoCrypto Errors World Entities Stores StoreLaws.
From S2P Require Import Hasher TokenProvider UserManager.

Local Open Scope Z_scope.

(** What the managers rely on of a [PasswordHasher]: it leaves the store alone, its
    verdict is a function of the hash and the password, and it accepts the password
    of a hash it made. *)
Record HasherSpec `{Oracle} {S} `{StoreView S} (h : PasswordHasher S) := mkHasherSpec {
  h_check : string → string → bool * bool;
  h_Verify u e pw (w : World S) : v_inv (w_store w) →
    wp (ph_Verify h u e pw) (λ r w', same w w' ∧ r = h_check e pw) w;
  h_Hash u pw (w : World S) : v_inv (w_store w) →
    wp (ph_Hash h u pw) (λ e w', same w w' ∧ e ≠ "" ∧ h_check e pw = (true, false)) w;
}.
Arguments h_check {_ S _ h} _ _ _.
Arguments h_Verify {_ S _ h} _ _ _ _ _ _.
Arguments h_Hash {_ S _ h} _ _ _ _ _.

Lemma encode_hash_nonempty `{Oracle} `{PBKDF2} h salt pw : encode_hash h salt pw ≠ "".
Proof.
  intros He. apply (f_equal StdDecode) in He. unfold encode_hash in He.
  rewrite StdDecode_Encode in He. discriminate He.
Qed.

Definition default_HasherSpec `{Oracle} `{PBKDF2} {S} `{StoreView S} :
  HasherSpec (NewPasswordHasher : PasswordHasher S).
Proof.
  refine (mkHasherSpec _ _ _ _ (λ e pw, Verify defaultHasher zeroUser e pw) _ _).
  - intros u e pw w Hi. cbn. wp_steps. split; [by apply same_refl|done].
  - intros u pw w Hi. change (ph_Hash NewPasswordHasher u pw) with (Hash (S := S) defaultHasher u pw).
    unfold Hash. change (saltLen defaultHasher <? 0) with false. wp_steps.
    split; [by apply same_tick|]. split; [apply encode_hash_nonempty|].
    apply Verify_encode_hash; [apply defaultHasher_wf|]. by rewrite o_read_length.
Defined.

Section updates.
Context `{Oracle} {S : Type} `{UserStore S, StoreView S, !UserStoreSpec S}.
Implicit Types w : World S.

(** [w'] is [w] with one row replaced. *)
Definition row_set w w' (u : User) : Prop :=
  moves w w' (<[ID u := u]> (v_users (w_store w))) (v_tok (w_store w)) (v_sess (w_store w))
    (v_keys (w_store w)).

(** The row [u] is current: stored with this concurrency stamp. *)
Definition current w (u : User) : Prop :=
  ∃ cur, v_users (w_store w) !! ID u = Some cur ∧ ConcurrencyStamp cur = ConcurrencyStamp u.

Lemma current_dec w u : current w u ∨ ¬ current w u.
Proof.
  unfold current. destruct (v_users (w_store w) !! ID u) as [cur|] eqn:Hu; [|naive_solver].
  destruct (decide (ConcurrencyStamp cur = ConcurrencyStamp u)); [eauto|]. right. naive_solver.
Qed.

Lemma update_result_current w u : update_result (v_users (w_store w)) u = Ok tt ↔ current w u.
Proof.
  unfold update_result, current. destruct (v_users (w_store w) !! ID u) as [cur|]; [|naive_solver].
  case_bool_decide; naive_solver.
Qed.

(** [Update] writes a current row under a new stamp and rejects any other. *)
Lemma wp_Update u w (Q : User * result unit → World S → Prop) :
  v_inv (w_store w) →
  (∀ i w', (w_step w <= i < w_step w')%nat → current w u →
    row_set w w' (set_ConcurrencyStamp (o_uuid i) u) → Q (set_ConcurrencyStamp (o_uuid i) u, Ok tt) w') →
  (∀ e w', ¬ current w u → update_result (v_users (w_store w)) u = Err e → same w w' → Q (u, Err e) w') →
  wp (us_Update u) Q w.
Proof.
  intros Hi HQ HE. wp_call spec_Update; [done|]. intros [u' r] w'.
  destruct (update_result (v_users (w_store w)) u) as [[]|e] eqn:He.
  - intros (i & Hs & [= -> ->] & Hm). apply (HQ i); [done| |done]. by apply update_result_current.
  - intros ([= -> ->] & Hs). apply HE; [|done..]. rewrite <-update_result_current. congruence.
Qed.

Lemma row_set_same w1 w2 w3 u : same w1 w2 → row_set w2 w3 u → row_set w1 w3 u.
Proof.
  intros Hs Hm. unfold row_set in *. moves_after Hs Hm.
Qed.

Lemma current_same w w' u : same w w' → current w' u ↔ current w u.
Proof. intros Hs%same_users. unfold current. by rewrite Hs. Qed.

Lemma row_set_lookup w w' u : row_set w w' u → v_users (w_store w') !! ID u = Some u.
Proof. intros [_ _ _ -> _ _ _]. by rewrite lookup_insert_eq. Qed.

Lemma row_set_inv w w' u : row_set w w' u → v_inv (w_store w').
Proof. by intros []. Qed.
End updates.

(** Two writes of one row leave the second. *)
Lemma row_set_trans `{Oracle} {S} `{StoreView S} (w1 w2 w3 : World S) u1 u2 :
  ID u1 = ID u2 → row_set w1 w2 u1 → row_set w2 w3 u2 → row_set w1 w3 u2.
Proof.
  intros Hid H1 H2. unfold row_set in *. moves_after H1 H2. by rewrite Hid, insert_insert_eq.
Qed.

Section manager.
Context `{Oracle} `{UnicodeDB} `{PBKDF2} {S : Type} `{UserStore S, StoreView S, !UserStoreSpec S}.
Context (m : UserManager S) (HS : HasherSpec (Mgr_Hasher m)).
Implicit Types w : World S.

Lemma wp_log_Warn msg w (Q : unit → World S → Prop) :
  v_inv (w_store w) → (∀ w', same w w' → Q tt w') → wp (log_Warn m msg) Q w.
Proof.
  intros Hi HQ. unfold log_Warn. destruct (logger m); wp_steps; apply HQ.
  - by apply same_refl.
  - by apply same_Warned.
Qed.

Lemma wp_newStamp w (Q : string → World S → Prop) :
  v_inv (w_store w) →
  (∀ i w', (w_step w <= i < w_step w')%nat → same w w' → Q (RawURLEncode (o_read i 20)) w') →
  wp newStamp Q w.
Proof.
  intros Hi HQ. unfold newStamp. wp_steps. apply HQ; [cbn; lia|by apply same_tick].
Qed.

(** The fields a credential change writes before [Update] stamps the row. *)
Lemma wp_stamp_Update u w (Q : User * result unit → World S → Prop) :
  v_inv (w_store w) →
  (∀ i j w', (w_step w <= i < j)%nat → (j < w_step w')%nat → current w u →
    let u' := set_ConcurrencyStamp (o_uuid j) (set_SecurityStamp (RawURLEncode (o_read i 20)) u) in
    row_set w w' u' → Q (u', Ok tt) w') →
  (∀ i e w', ¬ current w u → update_result (v_users (w_store w)) u = Err e → same w w' →
    Q (set_SecurityStamp (RawURLEncode (o_read i 20)) u, Err e) w') →
  wp (stamp ← newStamp; us_Update (set_SecurityStamp stamp u)) Q w.
Proof.
  intros Hi HQ HE. wp_steps. apply wp_newStamp; [done|]. intros i w1 Hw1 Hs1.
  apply wp_Update; [by eapply same_inv| |].
  - intros j w2 Hw2 Hc Hm. apply (HQ i j); [lia|lia| |by eapply row_set_same].
    by apply (current_same _ _ _ Hs1).
  - intros e w2 Hc He Hs2. rewrite (same_users _ _ Hs1) in He. apply HE; [|done|by eapply same_trans].
    intros Hc'. apply Hc. by apply (current_same _ _ _ Hs1).
Qed.

(** Checking a password: the verdict is the hasher's; an outdated hash is replaced,
    in the store when the caller's copy is current. *)
Lemma wp_CheckPassword u pw w (Q : User * bool → World S → Prop) :
  v_inv (w_store w) →
  let ok := negb (String.eqb (PasswordHash u) "") && (h_check HS (PasswordHash u) pw).1 in
  (∀ w', same w w' → Q (u, ok) w') →
  (∀ h i w', ok = true → h ≠ "" → h_check HS h pw = (true, false) → current w u →
    let u' := set_ConcurrencyStamp (o_uuid i) (set_PasswordHash h u) in
    row_set w w' u' → Q (u', true) w') →
  (∀ h w', ok = true → h ≠ "" → h_check HS h pw = (true, false) → ¬ current w u → same w w' →
    Q (set_PasswordHash h u, true) w') →
  wp (CheckPassword m u pw) Q w.
Proof.
  intros Hi ok Hsame Hset Hstale. unfold CheckPassword. subst ok.
  destruct (String.eqb_spec (PasswordHash u) "") as [He|He]; cbn [negb andb] in *.
  { wp_steps. apply Hsame, same_refl, Hi. }
  wp_steps. wp_call (h_Verify HS); [done|]. intros [ok nr] w1 [Hs1 Hv].
  rewrite <-Hv in *. cbn [fst] in *. destruct ok; cbn [negb]; [|wp_steps; by apply Hsame].
  destruct nr; [|wp_steps; by apply Hsame].
  wp_steps. wp_call (h_Hash HS); [by eapply same_inv|]. intros h w2 (Hs2 & Hne & Hh).
  pose proof (same_trans _ _ _ Hs1 Hs2) as Hs12. wp_steps.
  assert (∀ c, current w2 c ↔ current w c) as Hcur by (intros; by apply current_same).
  apply wp_Update; [by eapply same_inv| |].
  - intros i w3 Hw3 Hc Hm. wp_steps. apply Hset; try done; [by apply Hcur|by eapply row_set_same].
  - intros e w3 Hc _ Hs3. wp_steps. apply wp_log_Warn; [by eapply same_inv|]. intros w4 Hs4.
    wp_steps. apply Hstale; try done; [by rewrite <-(Hcur (set_PasswordHash h u))|].
    eapply same_trans; [|done]. by eapply same_trans.
Qed.

(** Hashing and storing a new password with a new security stamp. *)
Lemma wp_store_password u pw w (Q : User * result unit → World S → Prop) :
  v_inv (w_store w) →
  (∀ h i j w', (w_step w <= i < j)%nat → current w u → h ≠ "" → h_check HS h pw = (true, false) →
    let u' := set_ConcurrencyStamp (o_uuid j) (set_SecurityStamp (RawURLEncode (o_read i 20))
      (set_PasswordHash h u)) in
    row_set w w' u' → Q (u', Ok tt) w') →
  (∀ u' e w', ¬ current w u → update_result (v_users (w_store w)) u = Err e → same w w' →
    Q (u', Err e) w') →
  wp (store_password m u pw) Q w.
Proof.
  intros Hi HQ HE. unfold store_password. rewrite wp_bind.
  wp_call (h_Hash HS); [done|]. intros h w1 (Hs1 & Hne & Hh).
  apply wp_stamp_Update; [by eapply same_inv| |].
  - intros i j w' Hij Hj Hc u' Hm. pose proof (same_step _ _ Hs1). apply (HQ h i j); try done; [lia| |].
    + by apply (current_same _ _ (set_PasswordHash h u) Hs1).
    + by eapply row_set_same.
  - intros i e w' Hc He Hs. rewrite (same_users _ _ Hs1) in He. apply HE; [|done|by eapply same_trans].
    intros Hc'. apply Hc. by apply (current_same _ _ (set_PasswordHash h u) Hs1).
Qed.
End manager.

(** ** Writing a copy back *)

Section cas.
Context `{Oracle} {S : Type} `{UserStore S, StoreView S, !UserStoreSpec S}.
Implicit Types w : World S.

(** The outcome of writing the row [v], a changed copy of [u], back: [v] is stored under
    a fresh concurrency stamp exactly if [u] carries that of its row. *)
Definition cas_outcome w (u v : User) (ur : User * result unit) w' : Prop :=
  match v_users (w_store w) !! ID u with
  | None => ur = (v, Err ErrNotFound) ∧ same w w'
  | Some row =>
    if bool_decide (ConcurrencyStamp row = ConcurrencyStamp u)
    then ∃ i, (w_step w <= i < w_step w')%nat
      ∧ ur = (set_ConcurrencyStamp (o_uuid i) v, Ok tt) ∧ row_set w w' ur.1
    else ur = (v, Err ErrConcurrencyFailure) ∧ same w w'
  end.

Lemma cas_outcome_same w1 w2 w3 u v ur : same w1 w2 → cas_outcome w2 u v ur w3 → cas_outcome w1 u v ur w3.
Proof.
  intros Hs. unfold cas_outcome. rewrite (same_users _ _ Hs).
  destruct (v_users (w_store w1) !! ID u) as [row|]; [case_bool_decide|].
  - intros (i & Hi & Hur & Hm). pose proof (same_step _ _ Hs). exists i.
    split_and!; [lia..|done|by eapply row_set_same].
  - intros [-> ?]. split; [done|]. by eapply same_trans.
  - intros [-> ?]. split; [done|]. by eapply same_trans.
Qed.

Lemma wp_Update_cas u v w :
  v_inv (w_store w) → ID v = ID u → ConcurrencyStamp v = ConcurrencyStamp u →
  wp (us_Update v) (cas_outcome w u v) w.
Proof.
  intros Hi Hid Hc. unfold cas_outcome. apply wp_Update; [done| |].
  - intros i w' Hw' (cur & Hcur & Heq) Hm. rewrite Hid in Hcur. rewrite Hcur, bool_decide_eq_true_2 by congruence.
    by exists i.
  - intros e w' _ He Hs. unfold update_result in He. rewrite Hid, Hc in He.
    destruct (v_users (w_store w) !! ID u) as [row|]; [case_bool_decide; [done|]|]; by injection He as <-.
Qed.

Lemma cas_outcome_inv w u v ur w' : cas_outcome w u v ur w' → v_inv (w_store w').
Proof.
  unfold cas_outcome. destruct (_ !! _); [case_bool_decide|].
  - intros (i & _ & _ & Hm). by eapply row_set_inv.
  - intros [_ Hs]. by eapply same_inv.
  - intros [_ Hs]. by eapply same_inv.
Qed.

(** A write seen by the holder of another copy of the same version. *)
Lemma cas_outcome_stale w u v v2 ur ur2 w1 w2 :
  cas_outcome w u v ur w1 → ur.2 = Ok tt → ID v = ID u →
  (∀ i, o_uuid i ≠ ConcurrencyStamp u) →
  ∀ u2, ID u2 = ID u → ConcurrencyStamp u2 = ConcurrencyStamp u →
  cas_outcome w1 u2 v2 ur2 w2 → ur2 = (v2, Err ErrConcurrencyFailure) ∧ same w1 w2.
Proof.
  unfold cas_outcome at 1. intros Hout Hok Hid Hfresh u2 Hid2 Hc2.
  destruct (v_users (w_store w) !! ID u) as [row|]; [case_bool_decide|]; [|by destruct Hout as [-> _]..].
  destruct Hout as (i & _ & -> & Hm%row_set_lookup). cbn [fst] in Hm.
  unfold cas_outcome. rewrite Hid2, <-Hid. change (ID v) with (ID (set_ConcurrencyStamp (o_uuid i) v)).
  rewrite Hm, bool_decide_eq_false_2; [done|]. rewrite Hc2. apply Hfresh.
Qed.
End cas.

(** ** Changes of one copy

    The operations whose new row is a function of the caller's copy, the clock and one
    random draw. *)
Inductive row_change :=
  | rc_UpdateSecurityStamp
  | rc_RemovePassword
  | rc_AccessFailed
  | rc_ResetAccessFailedCount.

Section row_changes.
Context `{Oracle} `{UnicodeDB} `{PBKDF2} {S : Type} `{UserStore S}.
Context (m : UserManager S).

Definition run_row_change (c : row_change) (u : User) : M S (User * result unit) :=
  match c with
  | rc_UpdateSecurityStamp => UpdateSecurityStamp u
  | rc_RemovePassword => RemovePassword u
  | rc_AccessFailed => AccessFailed m u
  | rc_ResetAccessFailedCount => ResetAccessFailedCount u
  end.

(** The row a change makes of the copy [u] at the time [t], with the stamp [stamp]. *)
Definition changed_row (c : row_change) (t : Time) (stamp : string) (u : User) : User :=
  match c with
  | rc_UpdateSecurityStamp => set_SecurityStamp stamp u
  | rc_RemovePassword => set_SecurityStamp stamp (set_PasswordHash "" u)
  | rc_AccessFailed =>
    let n := wrap_int64 (AccessFailedCount u + 1) in
    if bool_decide (n < MaxFailedAccessAttempts (Opt_Lockout (Mgr_Options m)))
    then set_AccessFailedCount n u
    else set_AccessFailedCount 0
      (set_LockoutEnd (Some (t + DefaultLockoutDuration (Opt_Lockout (Mgr_Options m)))) u)
  | rc_ResetAccessFailedCount => set_AccessFailedCount 0 u
  end.

(** Nothing is written to reset a counter that is 0. *)
Definition no_change (c : row_change) (u : User) : bool :=
  match c with rc_ResetAccessFailedCount => AccessFailedCount u =? 0 | _ => false end.

Lemma changed_row_ids c t stamp u :
  ID (changed_row c t stamp u) = ID u ∧ ConcurrencyStamp (changed_row c t stamp u) = ConcurrencyStamp u.
Proof. destruct c; cbn; try done. by case_bool_decide. Qed.

Context `{StoreView S, !UserStoreSpec S}.
Implicit Types w : World S.

Definition row_written c w (u : User) : User :=
  changed_row c (o_now (w_step w)) (RawURLEncode (o_read (w_step w) 20)) u.

Lemma wp_row_change c u w : v_inv (w_store w) → no_change c u = false →
  wp (run_row_change c u) (cas_outcome w u (row_written c w u)) w.
Proof.
  intros Hi Hn. pose proof (same_tick w Hi) as Ht.
  assert (wp (us_Update (row_written c w u)) (cas_outcome w u (row_written c w u)) (tick w)) as Htick.
  { destruct (changed_row_ids c (o_now (w_step w)) (RawURLEncode (o_read (w_step w) 20)) u).
    eapply wp_mono; [by apply (wp_Update_cas u)|]. intros ur w' Hr. by eapply cas_outcome_same. }
  unfold row_written in *. destruct c; cbn [run_row_change changed_row no_change] in *.
  - unfold UpdateSecurityStamp, newStamp. by wp_steps.
  - unfold RemovePassword, newStamp. by wp_steps.
  - unfold AccessFailed. wp_steps. change (AccessFailedCount (incr_failed u)) with (wrap_int64 (AccessFailedCount u + 1)).
    destruct (Z.leb_spec (MaxFailedAccessAttempts (Opt_Lockout (Mgr_Options m))) (wrap_int64 (AccessFailedCount u + 1))).
    + rewrite bool_decide_eq_false_2 in * by lia. by wp_steps.
    + rewrite bool_decide_eq_true_2 in * by lia. wp_steps. by apply (wp_Update_cas u).
  - unfold ResetAccessFailedCount. rewrite Hn. by apply (wp_Update_cas u).
Qed.
End row_changes.

(** ** Policies *)

Section policies.
Context `{UnicodeDB}.

(** The classes of a rune, in the order the loop tests them. *)
Definition rune_class (r : Z) : bool * bool * bool * bool :=
  (IsDigit r, negb (IsDigit r) && IsUpper r, negb (IsDigit r) && negb (IsUpper r) && IsLower r,
   negb (IsDigit r) && negb (IsUpper r) && negb (IsLower r) && negb (IsLetter r)).

Lemma char_classes_fold l a b c d :
  foldl char_classes (a, b, c, d) l =
    (a || existsb (λ r, (rune_class r).1.1.1) l, b || existsb (λ r, (rune_class r).1.1.2) l,
     c || existsb (λ r, (rune_class r).1.2) l, d || existsb (λ r, (rune_class r).2) l).
Proof.
  revert a b c d. induction l as [|r l IH]; intros a b c d; cbn [foldl existsb].
  { by rewrite !orb_false_r. }
  assert (char_classes (a, b, c, d) r = (a || (rune_class r).1.1.1, b || (rune_class r).1.1.2,
    c || (rune_class r).1.2, d || (rune_class r).2)) as ->.
  { unfold char_classes, rune_class. cbn [fst snd].
    destruct (IsDigit r), (IsUpper r), (IsLower r), (IsLetter r); cbn;
      by rewrite ?orb_false_r, ?orb_true_r. }
  rewrite IH. by rewrite !orb_assoc.
Qed.

Lemma existsb_runes (f : Z → bool) l : existsb f l = true ↔ ∃ r, r ∈ l ∧ f r = true.
Proof.
  rewrite existsb_exists. split; intros (r & Hr & Hf); exists r; by rewrite ?list_elem_of_In in *.
Qed.

Lemma ValidatePassword_ok o pw :
  ValidatePassword o pw = Ok tt ↔
    RequiredLength o <= Z.of_nat (length (runes pw))
    ∧ (RequireDigit o = true → ∃ r, r ∈ runes pw ∧ IsDigit r = true)
    ∧ (RequireUppercase o = true → ∃ r, r ∈ runes pw ∧ (rune_class r).1.1.2 = true)
    ∧ (RequireLowercase o = true → ∃ r, r ∈ runes pw ∧ (rune_class r).1.2 = true)
    ∧ (RequireNonAlphanumeric o = true → ∃ r, r ∈ runes pw ∧ (rune_class r).2 = true)
    ∧ (1 < RequiredUniqueChars o →
        RequiredUniqueChars o <= Z.of_nat (size (list_to_set (runes pw) : gset Z))).
Proof.
  unfold ValidatePassword. rewrite char_classes_fold. cbn [orb].
  rewrite <-!existsb_runes. change (λ r, (rune_class r).1.1.1) with IsDigit.
  destruct (existsb IsDigit _), (existsb _ _), (existsb _ _), (existsb _ _);
  destruct (RequireDigit o), (RequireUppercase o), (RequireLowercase o), (RequireNonAlphanumeric o);
  cbn [negb andb];
  destruct (Z.ltb_spec (Z.of_nat (length (runes pw))) (RequiredLength o));
  destruct (Z.ltb_spec 1 (RequiredUniqueChars o));
  destruct (Z.ltb_spec (Z.of_nat (size (list_to_set (runes pw) : gset Z))) (RequiredUniqueChars o));
  cbn [andb]; (split; [intros ?; try discriminate; split_and!; intros; first [done|lia]
    |intros (?&Hd&Hu&Hl&Hn&?); try done; exfalso;
     first [lia | by discriminate (Hd eq_refl) | by discriminate (Hu eq_refl)
           | by discriminate (Hl eq_refl) | by discriminate (Hn eq_refl)]]).
Qed.

Lemma ValidateUserName_ok o n :
  ValidateUserName o n = Ok tt ↔
    TrimSpace n ≠ "" ∧ (AllowedUserNameCharacters o ≠ "" →
      Forall (λ r, ContainsRune (AllowedUserNameCharacters o) r = true) (runes n)).
Proof.
  unfold ValidateUserName. destruct (String.eqb_spec (TrimSpace n) ""); [naive_solver|].
  destruct (String.eqb_spec (AllowedUserNameCharacters o) ""); [naive_solver|].
  case_if Hf; rewrite forallb_forall in Hf || rewrite <-not_true_iff_false, forallb_forall in Hf.
  - split; [|done]. intros _. split; [done|]. intros _. apply Forall_forall. intros r Hr.
    apply Hf. by apply list_elem_of_In.
  - split; [done|]. intros [_ Hall]. destruct Hf. intros r Hr. specialize (Hall n1).
    rewrite Forall_forall in Hall. apply Hall. by apply list_elem_of_In.
Qed.
End policies.

(** ** Properties *)

(** [CreateWithPassword] and [ChangePassword] only accept passwords that are long
    enough and contain every required class of rune and enough distinct runes; the
    first failed rule in the code's order is the error returned. *)
Theorem ValidatePassword_policy `{UnicodeDB} o pw :
  ValidatePassword o pw = Ok tt ↔
    RequiredLength o <= Z.of_nat (length (runes pw))
    ∧ (RequireDigit o = true → ∃ r, r ∈ runes pw ∧ IsDigit r = true)
    ∧ (RequireUppercase o = true → ∃ r, r ∈ runes pw ∧ (rune_class r).1.1.2 = true)
    ∧ (RequireLowercase o = true → ∃ r, r ∈ runes pw ∧ (rune_class r).1.2 = true)
    ∧ (RequireNonAlphanumeric o = true → ∃ r, r ∈ runes pw ∧ (rune_class r).2 = true)
    ∧ (1 < RequiredUniqueChars o →
        RequiredUniqueChars o <= Z.of_nat (size (list_to_set (runes pw) : gset Z))).
Proof. apply ValidatePassword_ok. Qed.

(** C28: [ChangePassword] succeeds only when the current password verifies, the new
    one satisfies the policy and the caller's copy is current; then the row holds a
    fresh hash that accepts the new password and asks for no rehash, a new random
    security stamp and a new concurrency stamp, and is otherwise the caller's.  A wrong
    password is reported and changes nothing; any other failure leaves the account
    with the old password (at most rehashed). *)
Theorem ChangePassword_spec `{Oracle} `{UnicodeDB} `{PBKDF2} {S} `{UserStore S, StoreView S, !UserStoreSpec S}
    (m : UserManager S) (HS : HasherSpec (Mgr_Hasher m)) (u : User) cur new (w : World S) :
  v_inv (w_store w) →
  wp (ChangePassword m u cur new) (λ '(u', r) w',
    let ok := negb (String.eqb (PasswordHash u) "") && (h_check HS (PasswordHash u) cur).1 in
    match r with
    | Ok _ => ok = true ∧ ValidatePassword (Opt_Password (Mgr_Options m)) new = Ok tt ∧ current w u
        ∧ row_set w w' u' ∧ ∃ h i j, h ≠ "" ∧ h_check HS h new = (true, false) ∧
          u' = set_ConcurrencyStamp (o_uuid j)
                 (set_SecurityStamp (RawURLEncode (o_read i 20)) (set_PasswordHash h u))
    | Err e => (ok = false ∧ e = ErrPasswordMismatch ∧ u' = u ∧ same w w')
        ∨ (ok = true ∧ (ValidatePassword (Opt_Password (Mgr_Options m)) new = Err e ∨ ¬ current w u)
           ∧ (same w w' ∨ ∃ h i, h_check HS h cur = (true, false)
                ∧ row_set w w' (set_ConcurrencyStamp (o_uuid i) (set_PasswordHash h u))))
    end) w.
Proof.
  intros Hi. unfold ChangePassword. rewrite wp_bind. apply (wp_CheckPassword m HS); [done|..];
    set (ok := negb _ && _).
  - intros w1 Hs1. destruct ok; cbn [negb]; [|wp_steps; by left].
    destruct (ValidatePassword _ _) as [[]|e]; [|wp_steps; right; by auto].
    apply (wp_store_password m HS); [by eapply same_inv|..].
    + intros h i j w2 _ Hc Hne Hh u' Hm. split_and!; [done|done|by apply (current_same _ _ u Hs1)| |by eauto 10].
      by eapply row_set_same.
    + intros u' e w2 Hc _ Hs2. right. split; [done|]. split; [|left; by eapply same_trans].
      right. by rewrite <-(current_same _ _ u Hs1).
  - intros h i w1 -> Hne Hh Hc u1 Hm1. cbn [negb].
    destruct (ValidatePassword _ _) as [[]|e]; [|wp_steps; right; by eauto 10].
    apply (wp_store_password m HS); [by eapply row_set_inv|..].
    + intros h' i' j w2 _ _ Hne' Hh' u' Hm. split_and!; [done..| |].
      * by eapply (row_set_trans _ _ _ u1 u').
      * exists h', i', j. by subst u1 u'.
    + intros u' e w2 Hc' _ Hs2. destruct Hc'. exists u1. split; [|done].
      by apply (row_set_lookup w w1 u1).
  - intros h w1 -> Hne Hh Hc Hs1. cbn [negb].
    destruct (ValidatePassword _ _) as [[]|e]; [|wp_steps; right; by auto].
    apply (wp_store_password m HS); [by eapply same_inv|..].
    + intros h' i j w2 _ Hc' _ _ u' _. exfalso. apply Hc. by apply (current_same _ _ u Hs1).
    + intros u' e w2 Hc' _ Hs2. right. split; [done|]. split; [by right|]. left. by eapply same_trans.
Qed.

(** C36: optimistic concurrency. Replacing the security stamp, removing the password, or
    counting or resetting failed sign-ins on the caller's copy [u] writes exactly the row
    the change makes of [u] (a newly drawn stamp; no hash; one failure more, or none and a
    lockout from now on once the maximum is reached), under a fresh concurrency stamp, if
    [u] still carries that of its row; a copy that another writer has overtaken is refused
    with [ErrConcurrencyFailure], a deleted row with [ErrNotFound], and the store keeps
    what it had.  So no update is lost: once one holder of a version of the row has
    succeeded, every change made on another copy of that version is refused. *)
Theorem optimistic_concurrency `{Oracle} `{UnicodeDB} `{PBKDF2} {S} `{UserStore S, StoreView S, !UserStoreSpec S}
    (m : UserManager S) (c : row_change) (u : User) (w : World S) :
  v_inv (w_store w) →
  wp (run_row_change m c u) (λ ur w',
    if no_change c u then ur = (u, Ok tt) ∧ w' = w
    else cas_outcome w u (changed_row m c (o_now (w_step w)) (RawURLEncode (o_read (w_step w) 20)) u) ur w'
      ∧ (ur.2 = Ok tt → (∀ i, o_uuid i ≠ ConcurrencyStamp u) →
          ∀ c2 u2, ID u2 = ID u → ConcurrencyStamp u2 = ConcurrencyStamp u → no_change c2 u2 = false →
          wp (run_row_change m c2 u2) (λ ur2 w2, ur2.2 = Err ErrConcurrencyFailure ∧ same w' w2) w')) w.
Proof.
  intros Hi. destruct (no_change c u) eqn:Hn.
  { destruct c; try done. cbn in *. unfold ResetAccessFailedCount. rewrite Hn. by wp_steps. }
  eapply wp_mono; [by apply wp_row_change|]. intros ur w1 Hr. split; [exact Hr|].
  intros Hok Hfresh c2 u2 Hid Hc Hn2.
  assert (v_inv (w_store w1)) as Hi1 by by eapply cas_outcome_inv.
  eapply wp_mono; [by apply wp_row_change|]. intros ur2 w2 Hr2.
  destruct (cas_outcome_stale _ _ _ _ _ _ _ _ Hr Hok (proj1 (changed_row_ids _ _ _ _ _)) Hfresh u2 Hid Hc Hr2) as [-> Hs].
  done.
Qed.
