(* ===== verification/AccountTokens.v ===== *)
(** * Tokens sent to users

    The manager methods of [identity/token_provider.go] and [identity/email.go]:
    confirming and changing an email address, resetting a password, remembering a
    device, and delivering the tokens. *)

From S2P Require Import Prelude GoStrings GoBytes Errors World Entities Stores Hasher TokenProvider.
From S2P Require Import UserManager.
From S2P Require Import GoCrypto StoreLaws UserManagerFacts.

Local Open Scope Z_scope.

Definition purposeEmailConfirmation : string := "EmailConfirmation".
Definition purposePasswordReset : string := "ResetPassword".
Definition purposeChangeEmail : string := "ChangeEmail".
Definition purposeTwoFactorRemember : string := "TwoFactorRemember".

Definition TwoFactorRememberTTL : Duration := 30 * 24 * Hour.

Section tokens.
Context `{Oracle} `{UnicodeDB} `{PBKDF2} {S : Type} `{UserStore S} (m : UserManager S).

(** [m.Tokens.Generate]: a nil provider is dereferenced. *)
Definition Tokens_Generate (purpose : string) (u : User) : M S string :=
  match Mgr_Tokens m with
  | None => panic "nil pointer dereference"
  | Some p => Generate p purpose u
  end.

(** [m.Tokens == nil || !m.Tokens.Validate(...)], negated. *)
Definition Tokens_Validate (purpose token : string) (u : User) : M S bool :=
  match Mgr_Tokens m with
  | None => mret false
  | Some p => Validate p purpose token u
  end.

Definition GenerateTwoFactorRememberToken (u : User) : M S string := Tokens_Generate purposeTwoFactorRemember u.

Definition VerifyTwoFactorRememberToken (u : User) (token : string) : M S bool :=
  match Mgr_Tokens m with
  | None => mret false
  | Some p =>
    if String.eqb token "" then mret false
    else ValidateWithLifespan p purposeTwoFactorRemember token u TwoFactorRememberTTL
  end.

Definition GenerateEmailConfirmationToken (u : User) : M S string := Tokens_Generate purposeEmailConfirmation u.

Definition ConfirmEmail (u : User) (token : string) : M S (User * result unit) :=
  ok ← Tokens_Validate purposeEmailConfirmation token u;
  if negb ok then mret (u, Err ErrInvalidToken)
  else us_Update (set_EmailConfirmed true u).

Definition GeneratePasswordResetToken (u : User) : M S string := Tokens_Generate purposePasswordReset u.

Definition ResetPassword (u : User) (token newPassword : string) : M S (User * result unit) :=
  ok ← Tokens_Validate purposePasswordReset token u;
  if negb ok then mret (u, Err ErrInvalidToken) else
  match ValidatePassword (Opt_Password (Mgr_Options m)) newPassword with
  | Err e => mret (u, Err e)
  | Ok _ => store_password m u newPassword
  end.

Definition change_email_purpose (newEmail : string) : string :=
  purposeChangeEmail +:+ ":" +:+ ToUpper newEmail.

Definition GenerateChangeEmailToken (u : User) (newEmail : string) : M S string :=
  Tokens_Generate (change_email_purpose newEmail) u.

Definition ChangeEmail (u : User) (newEmail token : string) : M S (User * result unit) :=
  ok ← Tokens_Validate (change_email_purpose newEmail) token u;
  if negb ok then mret (u, Err ErrInvalidToken) else
  let normalized := Mgr_Normalizer m newEmail in
  clash ← email_taken m u normalized;
  match clash with
  | Some e => mret (u, Err e)
  | None =>
    let u := set_EmailConfirmed true (set_NormalizedEmail normalized (set_Email newEmail u)) in
    stamp ← newStamp;
    us_Update (set_SecurityStamp stamp u)
  end.

(** ** Delivery *)

Definition sendTokenEmail (u : User) (subject : string) (body : string → string)
    (gen : User → M S string) : M S (result unit) :=
  match Mgr_Email m with
  | None => mret (Err (newErr "NoEmailSender" "no email sender configured"))
  | Some sender =>
    match Mgr_Tokens m with
    | None => mret (Err (newErr "NoTokenProvider" "no token provider configured"))
    | Some _ =>
      let to := Email u in
      if String.eqb to "" then mret (Err (newErr "NoEmail" "user has no email address")) else
      token ← gen u;
      email_Send sender to subject (body token)
    end
  end.

Definition SendEmailConfirmation (u : User) (subject : string) (body : string → string) : M S (result unit) :=
  sendTokenEmail u subject body GenerateEmailConfirmationToken.
Definition SendPasswordReset (u : User) (subject : string) (body : string → string) : M S (result unit) :=
  sendTokenEmail u subject body GeneratePasswordResetToken.
End tokens.

(** * Correctness of the tokens sent to users

    A password reset needs a token of the user's current security stamp and replaces
    the stamp, so the token works once; an email change re-checks uniqueness. *)

(** What an accepted token shows: its bytes, its MAC and its age at [t]. *)
Record accepted (p : DataTokenProvider) (purpose token : string) (u : User) (l : Duration)
    (ts : bytes) (t : Time) : Prop := mkAccepted {
  acc_bytes : RawURLDecode token = Some (ts ++ hmac_sha256 (key p) (ts ++ bound_data u purpose));
  acc_ts : length ts = 8%nat;
  acc_age : Sub t (FromUnix (wrap_int64 (get_be ts))) <= l;
}.

(** Two different payloads with one MAC under the provider's key. *)
Definition mac_collision (p : DataTokenProvider) (ts : bytes) (purpose : string) (u u' : User) : Prop :=
  bound_data u purpose ≠ bound_data u' purpose ∧
  hmac_sha256 (key p) (ts ++ bound_data u purpose) = hmac_sha256 (key p) (ts ++ bound_data u' purpose).

(** A token accepted for two users was made for one payload, or is a collision. *)
Lemma accepted_twice p purpose token u u' l l' ts ts' t t' :
  accepted p purpose token u l ts t → accepted p purpose token u' l' ts' t' →
  bound_data u purpose = bound_data u' purpose ∨ mac_collision p ts purpose u u'.
Proof.
  intros [H1 L1 _] [H2 L2 _]. rewrite H1 in H2. apply (inj Some) in H2.
  apply app_inj_1 in H2 as [<- Hm]; [|by rewrite L1, L2].
  destruct (decide (bound_data u purpose = bound_data u' purpose)); [by left|by right].
Qed.

Section facts.
Context `{Oracle} `{UnicodeDB} `{PBKDF2} {S : Type} `{UserStore S, StoreView S, !UserStoreSpec S}.
Context (m : UserManager S) (HS : HasherSpec (Mgr_Hasher m)).
Implicit Types w : World S.

Lemma wp_Tokens_Validate purpose token u w (Q : bool → World S → Prop) :
  v_inv (w_store w) →
  (∀ b w', same w w' →
    (b = true → ∃ p ts i, Mgr_Tokens m = Some p ∧ (w_step w <= i)%nat
      ∧ accepted p purpose token u (lifespan p) ts (o_now i)) → Q b w') →
  wp (Tokens_Validate m purpose token u) Q w.
Proof.
  intros Hi HQ. unfold Tokens_Validate. destruct (Mgr_Tokens m) as [p|]; [|wp_steps; by apply HQ; [apply same_refl|]].
  unfold Validate, ValidateWithLifespan.
  destruct (RawURLDecode token) as [raw|] eqn:Hraw; [|wp_steps; by apply HQ; [apply same_refl|]].
  case_bool_decide as Hlen; cbn [negb]; [|wp_steps; by apply HQ; [apply same_refl|]].
  wp_steps. case_if Hl; wp_steps; apply HQ; try by apply same_tick.
  - done.
  - intros Hc%const_eq_spec. apply Z.ltb_ge in Hl.
    exists p, (take 8 raw), (w_step w). split; [done|]. split; [lia|]. constructor.
    + rewrite Hraw. unfold sign in Hc. by rewrite <-Hc, take_drop.
    + rewrite length_take. lia.
    + done.
Qed.
End facts.

(** ** Properties *)

(** C20: a password reset succeeds only with a token of the account's current security
    stamp, no older than the lifespan, and an acceptable password on a current copy;
    it then stores a hash of the new password and a new stamp, under which the token
    is refused (short of an HMAC collision or a repeated random stamp).  Otherwise
    nothing changes. *)
Theorem ResetPassword_once `{Oracle} `{UnicodeDB} `{PBKDF2} {S} `{UserStore S, StoreView S, !UserStoreSpec S}
    (m : UserManager S) (HS : HasherSpec (Mgr_Hasher m)) (u : User) token new (w : World S) :
  v_inv (w_store w) → plain (ID u) →
  wp (ResetPassword m u token new) (λ '(u', r) w',
    match r with
    | Err _ => same w w'
    | Ok _ => ValidatePassword (Opt_Password (Mgr_Options m)) new = Ok tt ∧ current w u
        ∧ row_set w w' u' ∧ (∃ h, PasswordHash u' = h ∧ h_check HS h new = (true, false))
        ∧ ∃ p ts i, Mgr_Tokens m = Some p
          ∧ accepted p purposePasswordReset token u (lifespan p) ts (o_now i)
          ∧ wp (Tokens_Validate m purposePasswordReset token u') (λ b _, b = true →
              SecurityStamp u' = SecurityStamp u ∨ mac_collision p ts purposePasswordReset u u') w'
    end) w.
Proof.
  intros Hi Hp. unfold ResetPassword. rewrite wp_bind. apply wp_Tokens_Validate; [done|].
  intros b w1 Hs1 Hb. destruct b; cbn [negb]; [|wp_steps; done].
  destruct (Hb eq_refl) as (p & ts & i & Hm & _ & Hacc).
  destruct (ValidatePassword _ _) as [[]|e]; [|wp_steps; done].
  apply (wp_store_password m HS); [by eapply same_inv|..].
  2: { intros u' e w2 _ _ Hs2. by eapply same_trans. }
  intros h j k w2 _ Hc Hne Hh u' Hset.
  assert (row_set w w2 u') as Hset' by by eapply row_set_same.
  split_and!; [done|by apply (current_same _ _ u Hs1)|done|by exists h|].
  exists p, ts, i. do 2 (split; [done|]). apply wp_Tokens_Validate; [by eapply row_set_inv|].
  intros b w3 _ Hb' Htrue. destruct (Hb' Htrue) as (p' & ts' & i' & Hm' & _ & Hacc').
  rewrite Hm in Hm'. injection Hm' as <-.
  destruct (accepted_twice _ _ _ _ _ _ _ _ _ _ _ Hacc Hacc') as [Heq|Hcol]; [left|by right].
  apply bound_data_inj in Heq as (_ & _ & Hstamp); try done; apply (bool_decide_unpack _); vm_compute; done.
Qed.
