(* ===== verification/TwoFactor.v ===== *)
(** * Second factors

    [identity/twofactor.go], [identity/phone.go] and
    [identity/twofactor_providers.go]: authenticator keys, recovery codes and SMS
    codes, all kept in the user-token slots of the store, and the named providers.
    The manager is passed the caller's user; only the operations that update the row
    return it. *)

From S2P Require Import Prelude GoStrings GoBytes GoCrypto Errors World Entities Stores Hasher TokenProvider.
From S2P Require Import Totp UserManager.

Local Open Scope Z_scope.

Definition internalProvider : string := "[go-idento]".
Definition authenticatorKeyName : string := "AuthenticatorKey".
Definition recoveryCodesName : string := "RecoveryCodes".
Definition phoneTokenName : string := "PhoneToken".
Definition changePhoneTokenName : string := "ChangePhoneToken".

Definition PhoneTokenTTL : Duration := 5 * Minute.
Definition PhoneTokenMaxAttempts : Z := 5.

Definition TwoFactorProviderAuthenticator : string := "Authenticator".
Definition TwoFactorProviderPhone : string := "Phone".

(** [hashRefresh] of [identity/refresh.go]. *)
Definition hashRefresh (token : string) : string := RawStdEncode (sha256 (str_bytes token)).

Definition phoneCodeValue (hash : string) (exp attempts : Z) : string :=
  hash +:+ ":" +:+ FormatInt exp +:+ ":" +:+ FormatInt attempts.

(** The loop of [RedeemRecoveryCode]: the codes left, and whether one was consumed. *)
Definition redeem_step (target : string) (acc : list string * bool) (p : string) : list string * bool :=
  let '(remaining, found) := acc in
  if negb found && const_eq (str_bytes p) (str_bytes target) then (remaining, true)
  else if negb (String.eqb p "") then (remaining ++ [p], found) else (remaining, found).

Section twofactor.
Context `{Oracle} `{UnicodeDB} `{PBKDF2} {S : Type} `{UserStore S}.

Fixpoint replicate_M {A} (n : nat) (m : M S A) : M S (list A) :=
  match n with
  | O => mret []
  | Datatypes.S n => a ← m; l ← replicate_M n m; mret (a :: l)
  end.

Definition randomRecoveryCode : M S string :=
  b ← rand_read 10;
  let s := B32Encode b in
  mret (ToLower (slice_to s 5 +:+ "-" +:+ bytes_str (take 5 (drop 5 (str_bytes s))))).

Definition randomDigits (n : nat) : M S string :=
  l ← replicate_M n (rand_int 10);
  mret (bytes_str (digit_char <$> l)).

Section manager.
Context (m : UserManager S).

(** ** Authenticator keys *)

Definition GetAuthenticatorKey (u : User) : M S (result string) :=
  key ←? us_GetToken u internalProvider authenticatorKeyName;
  if negb (String.eqb key "") then mret (Ok key) else
  key ← GenerateSecret;
  _ ←? us_SetToken u internalProvider authenticatorKeyName key;
  mret (Ok key).

Definition ResetAuthenticatorKey (u : User) : M S (result string) :=
  key ← GenerateSecret;
  _ ←? us_SetToken u internalProvider authenticatorKeyName key;
  mret (Ok key).

Definition VerifyTwoFactorTOTP (u : User) (code : string) : M S (result bool) :=
  key ←? us_GetToken u internalProvider authenticatorKeyName;
  if String.eqb key "" then mret (Ok false) else
  t ← now;
  b ← lift (Validate DefaultTOTP key (TrimSpace code) t);
  mret (Ok b).

Definition SetTwoFactorEnabled (u : User) (enabled : bool) : M S (User * result unit) :=
  let u := set_TwoFactorEnabled enabled u in
  stamp ← newStamp;
  us_Update (set_SecurityStamp stamp u).

(** ** Recovery codes *)

(** [make([]string, n)] panics for a negative [n]. *)
Definition GenerateRecoveryCodes (u : User) (n : Z) : M S (result (list string)) :=
  if n <? 0 then panic "makeslice: len out of range" else
  codes ← replicate_M (Z.to_nat n) randomRecoveryCode;
  _ ←? us_SetToken u internalProvider recoveryCodesName (Join ";" (hashRefresh <$> codes));
  mret (Ok codes).

Definition RedeemRecoveryCode (u : User) (code : string) : M S (result bool) :=
  stored ←? us_GetToken u internalProvider recoveryCodesName;
  if String.eqb stored "" then mret (Ok false) else
  let target := hashRefresh (TrimSpace code) in
  let '(remaining, found) := foldl (redeem_step target) ([], false) (Split ";" stored) in
  if negb found then mret (Ok false) else
  _ ←? us_SetToken u internalProvider recoveryCodesName (Join ";" remaining);
  mret (Ok true).

Definition CountRecoveryCodes (u : User) : M S (result Z) :=
  stored ←? us_GetToken u internalProvider recoveryCodesName;
  if String.eqb stored "" then mret (Ok 0)
  else mret (Ok (Z.of_nat (length (Split ";" stored)))).

(** ** SMS codes *)

Definition consumePhoneCode (u : User) (name candidateHash : string) : M S (result bool) :=
  stored ←? us_GetToken u internalProvider name;
  if String.eqb stored "" then mret (Ok false) else
  match Split ":" stored with
  | hashPart :: expPart :: rest =>
    let '(exp, ok) := ParseInt expPart in
    expired ← (if negb ok then mret true else t ← now; mret (After t (FromUnix exp)));
    if expired : bool then
      _ ← us_RemoveToken u internalProvider name; mret (Ok false)
    else if const_eq (str_bytes hashPart) (str_bytes candidateHash) then
      _ ← us_RemoveToken u internalProvider name; mret (Ok true)
    else
      let attempts := match rest with [] => 0 | a :: _ => (ParseInt a).1 end in
      if PhoneTokenMaxAttempts <=? wrap_int64 (attempts + 1) then
        _ ← us_RemoveToken u internalProvider name; mret (Ok false)
      else
        _ ← us_SetToken u internalProvider name
              (phoneCodeValue hashPart exp (wrap_int64 (attempts + 1)));
        mret (Ok false)
  | _ => mret (Ok false)
  end.

Definition GeneratePhoneToken (u : User) : M S (result string) :=
  code ← randomDigits 6;
  t ← now;
  let exp := Unix (Add t PhoneTokenTTL) in
  _ ←? us_SetToken u internalProvider phoneTokenName (phoneCodeValue (hashRefresh code) exp 0);
  mret (Ok code).

Definition SendPhoneToken (u : User) : M S (result unit) :=
  match Mgr_SMS m with
  | None => mret (Err (newErr "NoSMSSender" "no SMS sender configured"))
  | Some sms =>
    code ←? GeneratePhoneToken u;
    let phone := PhoneNumber u in
    if String.eqb phone "" then mret (Err (newErr "NoPhoneNumber" "user has no phone number"))
    else sms_Send sms phone ("Your verification code is " +:+ code)
  end.

Definition VerifyPhoneToken (u : User) (code : string) : M S (result bool) :=
  consumePhoneCode u phoneTokenName (hashRefresh (TrimSpace code)).

Definition ConfirmPhoneNumber (u : User) (code : string) : M S (User * result unit) :=
  r ← VerifyPhoneToken u code;
  match r with
  | Err e => mret (u, Err e)
  | Ok false => mret (u, Err ErrInvalidToken)
  | Ok true => us_Update (set_PhoneNumberConfirmed true u)
  end.

Definition GetPhoneNumberConfirmed (u : User) : bool := PhoneNumberConfirmed u.

Definition SetPhoneNumber (u : User) (phone : string) : M S (User * result unit) :=
  let u := set_PhoneNumberConfirmed false (set_PhoneNumber phone u) in
  stamp ← newStamp;
  us_Update (set_SecurityStamp stamp u).

Definition GenerateChangePhoneNumberToken (u : User) (newPhone : string) : M S (result string) :=
  code ← randomDigits 6;
  t ← now;
  let exp := Unix (Add t PhoneTokenTTL) in
  let value := phoneCodeValue (hashRefresh (code +:+ "|" +:+ newPhone)) exp 0 in
  _ ←? us_SetToken u internalProvider changePhoneTokenName value;
  mret (Ok code).

Definition SendChangePhoneNumberToken (u : User) (newPhone : string) : M S (result unit) :=
  match Mgr_SMS m with
  | None => mret (Err (newErr "NoSMSSender" "no SMS sender configured"))
  | Some sms =>
    if String.eqb newPhone "" then mret (Err (newErr "NoPhoneNumber" "new phone number is empty")) else
    code ←? GenerateChangePhoneNumberToken u newPhone;
    sms_Send sms newPhone ("Your verification code is " +:+ code)
  end.

Definition ChangePhoneNumber (u : User) (newPhone code : string) : M S (User * result unit) :=
  let want := hashRefresh (TrimSpace code +:+ "|" +:+ newPhone) in
  r ← consumePhoneCode u changePhoneTokenName want;
  match r with
  | Err e => mret (u, Err e)
  | Ok false => mret (u, Err ErrInvalidToken)
  | Ok true =>
    let u := set_PhoneNumberConfirmed true (set_PhoneNumber newPhone u) in
    stamp ← newStamp;
    us_Update (set_SecurityStamp stamp u)
  end.

(** ** Named providers *)

Definition authenticatorProvider : TwoFactorTokenProvider S := mkTwoFactorTokenProvider
  TwoFactorProviderAuthenticator
  (λ u, r ← us_GetToken u internalProvider authenticatorKeyName;
        mret match r with Ok key => negb (String.eqb key "") | Err _ => false end)
  (λ _, mret (Ok ""))
  VerifyTwoFactorTOTP.

Definition phoneProvider : TwoFactorTokenProvider S := mkTwoFactorTokenProvider
  TwoFactorProviderPhone
  (λ u, mret (negb (String.eqb (PhoneNumber u) "")))
  GeneratePhoneToken
  VerifyPhoneToken.

Definition RegisterTwoFactorProvider (p : TwoFactorTokenProvider S) : UserManager S :=
  let ps := default ∅ (Mgr_tokenProviders m) in
  mkUserManager (Mgr_Hasher m) (Mgr_Options m) (Mgr_Normalizer m) (Mgr_Tokens m) (Mgr_SMS m)
    (Mgr_Email m) (Mgr_Logger m) (Some (<[tp_Name p := p]> ps)).

Definition resolveProvider (name : string) : option (TwoFactorTokenProvider S) :=
  match default ∅ (Mgr_tokenProviders m) !! name with
  | Some p => Some p
  | None =>
    if String.eqb name TwoFactorProviderAuthenticator then Some authenticatorProvider
    else if String.eqb name TwoFactorProviderPhone then Some phoneProvider
    else None
  end.

Definition unknown_provider (provider : string) : error :=
  newErr "UnknownTokenProvider" ("no such two-factor token provider: " +:+ provider).

Definition GenerateUserToken (u : User) (provider : string) : M S (result string) :=
  match resolveProvider provider with
  | None => mret (Err (unknown_provider provider))
  | Some p => tp_Generate p u
  end.

Definition VerifyUserToken (u : User) (provider token : string) : M S (result bool) :=
  match resolveProvider provider with
  | None => mret (Err (unknown_provider provider))
  | Some p => tp_Validate p u token
  end.

(** The range over the candidate names. *)
Fixpoint usable_providers (u : User) (names : list string) : M S (list string) :=
  match names with
  | [] => mret []
  | name :: names =>
    ok ← match resolveProvider name with
         | None => mret false
         | Some p => tp_CanGenerate p u
         end;
    l ← usable_providers u names;
    mret (if ok : bool then name :: l else l)
  end.

Definition GetValidTwoFactorProviders (u : User) : M S (result (list string)) :=
  let candidates : gset string :=
    {[TwoFactorProviderAuthenticator; TwoFactorProviderPhone]}
    ∪ dom (default ∅ (Mgr_tokenProviders m)) in
  names ← order (elements candidates);
  out ← usable_providers u names;
  mret (Ok (merge_sort String.le out)).
End manager.
End twofactor.
