(* ===== verification/TwoFactorFacts.v ===== *)
(** * Correctness of the second factors

    Recovery codes are a multiset of hashes of which each is used once; an SMS code
    is a small state machine (armed with a number of misses, or gone).  The manager
    implements these abstract machines on the token slots of any store that keeps
    its contract. *)

From S2P Require Import Prelude GoStrings GoBytes GoCrypto Errors World Entities Stores StoreLaws.
From S2P Require Import Hasher TokenProvider Totp UserManager UserManagerFacts TwoFactor.

Local Open Scope Z_scope.

(** ** Hashes as slot entries *)

Definition good_hash (h : string) : Prop :=
  h ≠ "" ∧ (";"%char ∉ str_bytes h) ∧ (":"%char ∉ str_bytes h).

Lemma hashRefresh_good t : good_hash (hashRefresh t).
Proof.
  unfold hashRefresh. split_and!; [|by apply RawStdEncode_outside..].
  intros He. apply (f_equal str_bytes) in He. unfold RawStdEncode in He. rewrite str_bytes_str in He.
  pose proof (length_sha256 (str_bytes t)) as Hl.
  destruct (sha256 (str_bytes t)) as [|c l]; [done|]. cbn in He. by destruct l as [|? [|??]].
Qed.

Lemma hashRefresh_inj t t' :
  sha256 (str_bytes t) = sha256 (str_bytes t') ↔ hashRefresh t = hashRefresh t'.
Proof. unfold hashRefresh. split; [by intros ->|]. apply RawStdEncode_inj. Qed.

Lemma internalProvider_plain : plain internalProvider.
Proof. by apply (bool_decide_unpack _). Qed.

(** ** Recovery codes *)

(** [l] without the first occurrence of [x]. *)
Fixpoint remove_first (x : string) (l : list string) : list string :=
  match l with
  | [] => []
  | y :: l => if bool_decide (y = x) then l else y :: remove_first x l
  end.

Lemma redeem_loop t hs acc :
  Forall good_hash hs →
  foldl (redeem_step t) (acc, true) hs = (acc ++ hs, true).
Proof.
  intros Hh. revert acc. induction Hh as [|h hs [Hne _] _ IH]; intros acc; cbn [foldl redeem_step negb andb].
  { by rewrite app_nil_r. }
  rewrite (proj2 (String.eqb_neq h "")) by done. cbn [negb]. by rewrite IH, <-app_assoc.
Qed.

Lemma redeem_fold t hs acc :
  Forall good_hash hs →
  foldl (redeem_step t) (acc, false) hs = (acc ++ remove_first t hs, bool_decide (t ∈ hs)).
Proof.
  intros Hh. revert acc. induction Hh as [|h hs [Hne ?] Hhs IH]; intros acc;
    cbn [foldl redeem_step negb andb remove_first].
  { rewrite app_nil_r, bool_decide_eq_false_2; [done|]. apply not_elem_of_nil. }
  destruct (decide (h = t)) as [->|Hht].
  - rewrite const_eq_refl, bool_decide_eq_true_2 by done. rewrite redeem_loop by done.
    by rewrite bool_decide_eq_true_2 by left.
  - assert (const_eq (str_bytes h) (str_bytes t) = false) as ->.
    { apply not_true_is_false. rewrite const_eq_spec. by intros ?%str_bytes_inj. }
    rewrite (proj2 (String.eqb_neq h "")), bool_decide_eq_false_2 by done. cbn [negb].
    rewrite IH, <-app_assoc. f_equal. apply bool_decide_ext. rewrite elem_of_cons. naive_solver.
Qed.

Lemma remove_first_good t hs : Forall good_hash hs → Forall good_hash (remove_first t hs).
Proof.
  induction 1 as [|h hs Hh Hhs IH]; cbn; [constructor|]. case_bool_decide; [done|]. by constructor.
Qed.

Lemma remove_first_length t hs : t ∈ hs → length hs = Datatypes.S (length (remove_first t hs)).
Proof.
  induction hs as [|h hs IH]; [by intros ?%elem_of_nil|]. rewrite elem_of_cons. cbn.
  case_bool_decide as Hh; [done|]. intros [->|Ht]; [done|]. cbn. by rewrite <-IH.
Qed.

Lemma not_elem_of_remove_first t hs : NoDup hs → t ∉ remove_first t hs.
Proof.
  induction 1 as [|h hs Hh Hhs IH]; cbn; [apply not_elem_of_nil|].
  case_bool_decide as Heq; [by subst|]. rewrite not_elem_of_cons. by split.
Qed.

Lemma elem_of_remove_first t x hs : x ≠ t → x ∈ remove_first t hs ↔ x ∈ hs.
Proof.
  intros Hx. induction hs as [|h hs IH]; [done|]. cbn. case_bool_decide as Heq.
  - subst. rewrite elem_of_cons. naive_solver.
  - by rewrite !elem_of_cons, IH.
Qed.

Lemma Join_empty hs : Forall good_hash hs → Join ";" hs = "" ↔ hs = [].
Proof.
  intros Hh. split; [|by intros ->]. destruct Hh as [|h hs [Hne _] _]; [done|]. intros He.
  destruct hs as [|h' hs]; [done|]. apply (f_equal str_bytes) in He. rewrite str_bytes_Join_cons in He.
  apply app_eq_nil in He as [He _]. by apply (str_bytes_inj h "") in He.
Qed.

Lemma Split_codes hs : hs ≠ [] → Forall good_hash hs → Split ";" (Join ";" hs) = hs.
Proof.
  intros Hne Hh. apply Split_Join; [done|]. eapply Forall_impl; [exact Hh|]. by intros h (_ & ? & _).
Qed.

Section facts.
Context `{Oracle} `{UnicodeDB} `{PBKDF2} {S : Type} `{UserStore S, StoreView S, !UserStoreSpec S}.
Implicit Types w : World S.

(** The token slot of a second factor, and the world after it is written. *)
Definition slot w (u : User) (name : string) : string := v_tok (w_store w) (ID u) internalProvider name.
Definition slot_set w w' (u : User) (name v : string) : Prop :=
  moves w w' (v_users (w_store w)) (set_tok (v_tok (w_store w)) (ID u) internalProvider name v)
    (v_sess (w_store w)) (v_keys (w_store w)).

Lemma slot_set_slot w w' u name v : plain (ID u) → slot_set w w' u name v → slot w' u name = v.
Proof.
  intros Hp [_ _ _ _ Ht _ _ _ _]. unfold slot. rewrite Ht by (done || apply internalProvider_plain).
  unfold set_tok. by rewrite bool_decide_eq_true_2.
Qed.

Lemma slot_set_other w w' u u' name name' v :
  plain (ID u) → plain (ID u') → slot_set w w' u name v → ID u ≠ ID u' ∨ name ≠ name' →
  slot w' u' name' = slot w u' name'.
Proof.
  intros Hp Hp' [_ _ _ _ Ht _ _] Hne. unfold slot. rewrite Ht by (done || apply internalProvider_plain).
  unfold set_tok. rewrite bool_decide_eq_false_2; [done|]. intros (Heq & _ & Hn). by destruct Hne.
Qed.

Lemma slot_set_inv w w' u name v : slot_set w w' u name v → v_inv (w_store w').
Proof. by intros []. Qed.

Lemma slot_same w w' u name : plain (ID u) → same w w' → slot w' u name = slot w u name.
Proof. intros Hp [_ _ _ _ Ht _ _ _ _]. unfold slot. apply Ht; [done|apply internalProvider_plain]. Qed.

Lemma slot_set_same w1 w2 w3 u name v : same w1 w2 → slot_set w2 w3 u name v → slot_set w1 w3 u name v.
Proof.
  intros Hs Hm. unfold slot_set in *. moves_after Hs Hm.
Qed.

Lemma wp_GetToken u name w (Q : result string → World S → Prop) :
  v_inv (w_store w) → plain (ID u) →
  (∀ w', same w w' → Q (Ok (slot w u name)) w') → wp (us_GetToken u internalProvider name) Q w.
Proof.
  intros Hi Hp HQ. wp_call spec_GetToken; [done..|apply internalProvider_plain|].
  intros r w' [Hs ->]. by apply HQ.
Qed.

Lemma wp_SetToken u name v w (Q : result unit → World S → Prop) :
  v_inv (w_store w) → plain (ID u) →
  (∀ w', slot_set w w' u name v → Q (Ok tt) w') → wp (us_SetToken u internalProvider name v) Q w.
Proof.
  intros Hi Hp HQ. wp_call spec_SetToken; [done..|apply internalProvider_plain|].
  intros r w' [-> Hm]. by apply HQ.
Qed.

Lemma wp_RemoveToken u name w (Q : result unit → World S → Prop) :
  v_inv (w_store w) → plain (ID u) →
  (∀ w', slot_set w w' u name "" → Q (Ok tt) w') → wp (us_RemoveToken u internalProvider name) Q w.
Proof.
  intros Hi Hp HQ. wp_call spec_RemoveToken; [done..|apply internalProvider_plain|].
  intros r w' [-> Hm]. by apply HQ.
Qed.

(** The unused codes of a user, as hashes. *)
Definition has_codes w (u : User) (hs : list string) : Prop :=
  slot w u recoveryCodesName = Join ";" hs ∧ Forall good_hash hs.

(** Redeeming removes one occurrence of the code's hash, or changes nothing. *)
Lemma wp_RedeemRecoveryCode u code hs w (Q : result bool → World S → Prop) :
  v_inv (w_store w) → plain (ID u) → has_codes w u hs →
  let t := hashRefresh (TrimSpace code) in
  (∀ w', t ∈ hs → slot_set w w' u recoveryCodesName (Join ";" (remove_first t hs)) → Q (Ok true) w') →
  (∀ w', t ∉ hs → same w w' → Q (Ok false) w') →
  wp (RedeemRecoveryCode u code) Q w.
Proof.
  intros Hi Hp [Hslot Hh] t HT HF. unfold RedeemRecoveryCode. rewrite wp_bind_ok.
  apply wp_GetToken; [done..|]. intros w1 Hs1. rewrite Hslot.
  destruct (String.eqb_spec (Join ";" hs) "") as [He|He].
  { rewrite Join_empty in He by done. subst hs. wp_steps. apply HF; [apply not_elem_of_nil|done]. }
  assert (hs ≠ []) as Hne by (intros ->; done).
  rewrite Split_codes, redeem_fold by done. fold t. rewrite app_nil_l.
  case_bool_decide as Ht; cbn [negb]; [|wp_steps; by apply HF].
  wp_steps. apply wp_SetToken; [by eapply same_inv|done|]. intros w2 Hs2. wp_steps.
  apply HT; [done|]. by eapply slot_set_same.
Qed.

Lemma has_codes_removed w w' u t hs :
  plain (ID u) → has_codes w u hs → slot_set w w' u recoveryCodesName (Join ";" (remove_first t hs)) →
  has_codes w' u (remove_first t hs).
Proof.
  intros Hp [_ Hh] Hm. split; [by eapply slot_set_slot|by apply remove_first_good].
Qed.

Lemma has_codes_same w w' u hs : plain (ID u) → same w w' → has_codes w u hs → has_codes w' u hs.
Proof. intros Hp Hs [Hslot Hh]. split; [|done]. by rewrite (slot_same w). Qed.
End facts.

(** ** SMS codes *)

(** An armed code: what a guess must hash to, its expiry in Unix seconds and the
    misses so far. *)
Record sms_code := mkSms { sms_hash : string; sms_exp : Z; sms_misses : Z }.

Definition sms_ok (c : sms_code) : Prop :=
  good_hash (sms_hash c) ∧ stamp_ok (sms_exp c) ∧ 0 <= sms_misses c < PhoneTokenMaxAttempts.

(** The state machine of a slot: one guess at time [t]. *)
Definition sms_step (c : option sms_code) (t : Time) (guess : string) : option sms_code * bool :=
  match c with
  | None => (None, false)
  | Some c =>
    if sms_exp c * Second <? t then (None, false)
    else if bool_decide (sms_hash c = guess) then (None, true)
    else if PhoneTokenMaxAttempts <=? sms_misses c + 1 then (None, false)
    else (Some (mkSms (sms_hash c) (sms_exp c) (sms_misses c + 1)), false)
  end.

Definition sms_slot (c : option sms_code) : string :=
  match c with None => "" | Some c => phoneCodeValue (sms_hash c) (sms_exp c) (sms_misses c) end.

Definition sms_all_ok (c : option sms_code) : Prop := match c with None => True | Some c => sms_ok c end.

Lemma sms_step_ok c t g : sms_all_ok c → sms_all_ok (sms_step c t g).1.
Proof.
  destruct c as [c|]; [|done]. intros (Hh & He & Hm). cbn.
  case_if H1; [done|]. case_if H2; [done|]. case_if H3; [done|]. apply Z.leb_gt in H3.
  cbn. split_and!; [done..| |]; cbn; lia.
Qed.

Lemma Split_phoneCodeValue h e a :
  good_hash h → Split ":" (phoneCodeValue h e a) = [h; FormatInt e; FormatInt a].
Proof.
  intros (_ & _ & Hh).
  assert (∀ n, ":"%char ∉ str_bytes (FormatInt n)) as Hn by (intros n; by apply FormatInt_chars).
  change (phoneCodeValue h e a) with (h +:+ String ":" (FormatInt e +:+ String ":" (FormatInt a))).
  rewrite !Split_app by done. by rewrite Split_none.
Qed.

Lemma phoneCodeValue_nonempty h e a : good_hash h → phoneCodeValue h e a ≠ "".
Proof.
  intros (Hne & _) He. apply (f_equal str_bytes) in He. unfold phoneCodeValue in He.
  rewrite str_bytes_app in He. apply app_eq_nil in He as [He _]. by apply (str_bytes_inj h "") in He.
Qed.

Section sms.
Context `{Oracle} `{UnicodeDB} `{PBKDF2} {S : Type} `{UserStore S, StoreView S, !UserStoreSpec S}.
Implicit Types w : World S.

(** [consumePhoneCode] is one step of the machine, on the slot and nothing else. *)
Lemma wp_consumePhoneCode u name guess c w (Q : result bool → World S → Prop) :
  v_inv (w_store w) → plain (ID u) → slot w u name = sms_slot c → sms_all_ok c →
  (∀ i w', let cr := sms_step c (o_now i) guess in
    (w_step w <= i)%nat → (w_step w <= w_step w')%nat → slot_set w w' u name (sms_slot cr.1) ∨ (c = None ∧ same w w') →
    Q (Ok cr.2) w') →
  wp (consumePhoneCode u name guess) Q w.
Proof.
  intros Hi Hp Hslot Hc HQ. unfold consumePhoneCode. rewrite wp_bind_ok.
  apply wp_GetToken; [done..|]. intros w1 Hs1. rewrite Hslot.
  destruct c as [[h e a]|]; cbn [sms_slot sms_hash sms_exp sms_misses].
  2: { wp_steps. apply (HQ (w_step w)); [lia|by apply same_step|by right]. }
  destruct Hc as (Hh & He & Ha). cbn [sms_hash sms_exp sms_misses] in *.
  pose proof (same_step _ _ Hs1) as Hle. assert (v_inv (w_store w1)) as Hi1 by by eapply same_inv.
  rewrite (proj2 (String.eqb_neq _ _)) by by apply phoneCodeValue_nonempty.
  rewrite Split_phoneCodeValue by done.
  rewrite ParseInt_FormatInt by (destruct He; done). cbn [negb]. wp_steps.
  rewrite FromUnix_small by done. unfold After.
  specialize (HQ (w_step w1)). cbn in HQ.
  assert (∀ v w2, slot_set (tick w1) w2 u name v → slot_set w w2 u name v) as Hset.
  { intros v w2 Hm. apply (slot_set_same _ (tick w1)); [|done].
    eapply same_trans; [done|by apply same_tick]. }
  destruct (Z.ltb_spec (e * Second) (o_now (w_step w1))).
  { wp_steps. apply wp_RemoveToken; [done..|]. intros w2 Hs2. wp_steps.
    apply HQ; [lia|destruct (Hset _ _ Hs2); lia|left; by apply Hset]. }
  assert (const_eq (str_bytes h) (str_bytes guess) = bool_decide (h = guess)) as ->.
  { apply eq_true_iff_eq. rewrite const_eq_spec, bool_decide_eq_true.
    split; [apply str_bytes_inj|by intros ->]. }
  destruct (bool_decide (h = guess)).
  { wp_steps. apply wp_RemoveToken; [done..|]. intros w2 Hs2. wp_steps.
    apply HQ; [lia|destruct (Hset _ _ Hs2); lia|left; by apply Hset]. }
  unfold PhoneTokenMaxAttempts in Ha.
  rewrite ParseInt_FormatInt by (unfold MinInt64, MaxInt64; lia). cbn [fst].
  rewrite wrap_int64_small by (unfold MinInt64, MaxInt64; lia).
  destruct (Z.leb_spec PhoneTokenMaxAttempts (a + 1)).
  { wp_steps. apply wp_RemoveToken; [done..|]. intros w2 Hs2. wp_steps.
    apply HQ; [lia|destruct (Hset _ _ Hs2); lia|left; by apply Hset]. }
  wp_steps. apply wp_SetToken; [done..|]. intros w2 Hs2. wp_steps.
  apply HQ; [lia|destruct (Hset _ _ Hs2); lia|left; by apply Hset].
Qed.

(** Whatever a slot holds, checking a code touches no other state. *)
Lemma wp_consumePhoneCode_any u name guess w (Q : result bool → World S → Prop) :
  v_inv (w_store w) → plain (ID u) →
  (∀ r w', same w w' ∨ (∃ v, slot_set w w' u name v) → Q r w') →
  wp (consumePhoneCode u name guess) Q w.
Proof.
  intros Hi Hp HQ. unfold consumePhoneCode. rewrite wp_bind_ok.
  apply wp_GetToken; [done..|]. intros w1 Hs1. assert (v_inv (w_store w1)) as Hi1 by by eapply same_inv.
  case_if He; [wp_steps; apply HQ; by left|].
  destruct (Split ":" _) as [|h [|e rest]]; [wp_steps; apply HQ; by left..|].
  destruct (ParseInt e) as [exp ok]. rewrite wp_bind.
  assert (∀ w2 w3 v, same w1 w2 → slot_set w2 w3 u name v → same w w3 ∨ ∃ v, slot_set w w3 u name v) as Hset.
  { intros w2 w3 v Hs2 Hm. right. exists v. eapply slot_set_same; [|done]. by eapply same_trans. }
  assert (wp (if negb ok then mret true else t ← now; mret (After t (FromUnix exp))) (λ _ w2, same w1 w2) w1) as Hexp.
  { destruct (negb ok); wp_steps; [by apply same_refl|by apply same_tick]. }
  eapply wp_mono; [exact Hexp|]. cbn beta. intros expired w2 Hs2.
  assert (v_inv (w_store w2)) as Hi2 by by eapply same_inv.
  destruct expired; [|case_if Heq; [|case_if Hmax]]; wp_steps;
    (apply wp_RemoveToken || apply wp_SetToken); try done; intros w3 Hm; wp_steps; apply HQ; by eapply Hset.
Qed.

(** A list of guesses against one slot. *)
Fixpoint guess_codes (u : User) (name : string) (guesses : list string) : M S (list (result bool)) :=
  match guesses with
  | [] => mret []
  | g :: gs => r ← consumePhoneCode u name g; rs ← guess_codes u name gs; mret (r :: rs)
  end.
End sms.

(** The machine run on timed guesses. *)
Fixpoint sms_run (c : option sms_code) (l : list (Time * string)) : list bool :=
  match l with
  | [] => []
  | (t, g) :: l => let '(c', b) := sms_step c t g in b :: sms_run c' l
  end.

Lemma sms_run_gone l k : sms_run None l !! k ≠ Some true.
Proof.
  revert k. induction l as [|[t g] l IH]; intros k; [done|]. cbn. destruct k; [done|]. apply IH.
Qed.

(** Only one guess is ever accepted, and only among the first
    [PhoneTokenMaxAttempts - misses]. *)
Lemma sms_run_true c l k :
  sms_run (Some c) l !! k = Some true →
  Z.of_nat k + sms_misses c < PhoneTokenMaxAttempts ∨ sms_misses c >= PhoneTokenMaxAttempts ∧ k = 0%nat.
Proof.
  revert c k. induction l as [|[t g] l IH]; intros c k; [done|]. cbn [sms_run sms_step].
  case_if H1. { destruct k; [done|]. intros Hk. by apply sms_run_gone in Hk. }
  case_if H2. { destruct k; [lia|]. intros Hk. by apply sms_run_gone in Hk. }
  case_if H3. { destruct k; [done|]. intros Hk. by apply sms_run_gone in Hk. }
  apply Z.leb_gt in H3. destruct k; [done|]. intros Hk. apply (IH (mkSms _ _ _) k) in Hk. cbn in Hk. lia.
Qed.

Lemma sms_run_once c l i j : sms_run c l !! i = Some true → sms_run c l !! j = Some true → i = j.
Proof.
  revert c i j. induction l as [|[t g] l IH]; intros c i j; [done|]. cbn [sms_run].
  destruct (sms_step c t g) as [c' b] eqn:Hs.
  assert (b = true → c' = None) as Hb.
  { intros ->. destruct c as [c|]; [|done]. cbn in Hs. repeat case_match; congruence. }
  destruct i, j; cbn; [done| | |intros; f_equal; by eapply IH].
  - intros [= ->] Hj. rewrite Hb in Hj by done. by apply sms_run_gone in Hj.
  - intros Hi [= ->]. rewrite Hb in Hi by done. by apply sms_run_gone in Hi.
Qed.

(** An accepted guess was the code, before its expiry. *)
Lemma sms_run_sound c l k :
  sms_run (Some c) l !! k = Some true →
  ∃ t, l !! k = Some (t, sms_hash c) ∧ t <= sms_exp c * Second.
Proof.
  revert c k. induction l as [|[t g] l IH]; intros c k; [done|]. cbn [sms_run sms_step].
  case_if H1. { destruct k; [done|]. intros Hk. by apply sms_run_gone in Hk. }
  apply Z.ltb_ge in H1.
  case_if H2. { apply bool_decide_eq_true in H2. subst g. destruct k; [by eauto|].
    intros Hk. by apply sms_run_gone in Hk. }
  case_if H3. { destruct k; [done|]. intros Hk. by apply sms_run_gone in Hk. }
  destruct k; [done|]. intros Hk. by apply (IH (mkSms _ _ _) k) in Hk.
Qed.

Section runs.
Context `{Oracle} `{UnicodeDB} `{PBKDF2} {S : Type} `{UserStore S, StoreView S, !UserStoreSpec S}.
Implicit Types w : World S.

Lemma wp_guess_codes u name gs c w (Q : list (result bool) → World S → Prop) :
  v_inv (w_store w) → plain (ID u) → slot w u name = sms_slot c → sms_all_ok c →
  (∀ ix w', length ix = length gs →
    Q (Ok <$> sms_run c (zip (o_now <$> ix) gs)) w') →
  wp (guess_codes u name gs) Q w.
Proof.
  revert c w Q. induction gs as [|g gs IH]; intros c w Q Hi Hp Hslot Hc HQ; cbn [guess_codes].
  { wp_steps. by apply (HQ []). }
  rewrite wp_bind. apply (wp_consumePhoneCode _ _ _ c); [done..|].
  intros i w1 cr _ _ Hw1. rewrite wp_bind.
  assert (slot w1 u name = sms_slot cr.1 ∧ v_inv (w_store w1)) as [Hslot1 Hi1].
  { destruct Hw1 as [Hm|[-> Hs]].
    - split; [by eapply slot_set_slot|by eapply slot_set_inv].
    - split; [by rewrite (slot_same w)|by eapply same_inv]. }
  apply (IH cr.1); [done..|by apply sms_step_ok|]. intros ix w2 Hl. wp_steps.
  specialize (HQ (i :: ix) w2). cbn in HQ. subst cr.
  destruct (sms_step c (o_now i) g) as [c' b]. cbn in *. apply HQ. by f_equal.
Qed.

Lemma wp_replicate_M {A} (n : nat) (m : M S A) (P : A → Prop) w (Q : list A → World S → Prop) :
  v_inv (w_store w) →
  (∀ w1 (R : A → World S → Prop), v_inv (w_store w1) → (∀ a w2, P a → same w1 w2 → R a w2) → wp m R w1) →
  (∀ l w', length l = n → Forall P l → same w w' → Q l w') →
  wp (replicate_M n m) Q w.
Proof.
  revert w Q. induction n as [|n IH]; intros w Q Hi Hm HQ; cbn [replicate_M].
  { wp_steps. apply HQ; [done|constructor|by apply same_refl]. }
  rewrite wp_bind. apply Hm; [done|]. intros a w1 Ha Hs1. rewrite wp_bind.
  apply IH; [by eapply same_inv|done|]. intros l w2 Hl HP Hs2. wp_steps.
  apply HQ; [cbn; by rewrite Hl|by constructor|by eapply same_trans].
Qed.

Lemma wp_randomDigits n w (Q : string → World S → Prop) :
  v_inv (w_store w) →
  (∀ s w', String.length s = n → Forall (λ c, is_digit_char c = true) (str_bytes s) → same w w' → Q s w') →
  wp (randomDigits n) Q w.
Proof.
  intros Hi HQ. unfold randomDigits. rewrite wp_bind.
  apply (wp_replicate_M _ _ (λ d, 0 <= d < 10)); [done| |].
  - intros w1 R Hi1 HR. wp_steps. apply HR; [by apply o_int_range|by apply same_tick].
  - intros l w1 Hl HP Hs. wp_steps. apply HQ; [| |done].
    + by rewrite <-length_str_bytes, str_bytes_str, length_fmap.
    + rewrite str_bytes_str. apply Forall_fmap. eapply Forall_impl; [exact HP|].
      intros d Hd. by apply digit_char_is_digit.
Qed.
End runs.

(** ** Properties *)

(** C22: a recovery code works once. Redeeming a code whose hash is among the unused
    ones succeeds and uses it up: the same code is then refused, one code fewer
    remains, and every other code still works; a code that is not among them is
    refused and changes nothing. *)
Theorem recovery_code_once `{Oracle} `{UnicodeDB} `{PBKDF2} {S} `{UserStore S, StoreView S, !UserStoreSpec S}
    (u : User) code hs (w : World S) :
  v_inv (w_store w) → plain (ID u) → has_codes w u hs → NoDup hs →
  let t := hashRefresh (TrimSpace code) in
  wp (RedeemRecoveryCode u code) (λ r w1,
    (t ∉ hs → r = Ok false ∧ same w w1) ∧
    (t ∈ hs → r = Ok true
      ∧ wp (RedeemRecoveryCode u code) (λ r w2, r = Ok false ∧ same w1 w2) w1
      ∧ wp (CountRecoveryCodes u) (λ r w2, r = Ok (Z.of_nat (length hs) - 1)) w1
      ∧ ∀ code', hashRefresh (TrimSpace code') ≠ t → hashRefresh (TrimSpace code') ∈ hs →
          wp (RedeemRecoveryCode u code') (λ r w2, r = Ok true) w1)) w.
Proof.
  intros Hi Hp Hhs Hnd t. apply (wp_RedeemRecoveryCode _ _ hs); [done..| |].
  2: { intros w1 Ht Hs1. by split. }
  intros w1 Ht Hm. fold t in Ht, Hm. pose proof (has_codes_removed _ _ _ _ _ Hp Hhs Hm) as Hhs1.
  pose proof (slot_set_inv _ _ _ _ _ Hm) as Hi1. split; [done|]. intros _. split; [done|]. split_and!.
  - apply (wp_RedeemRecoveryCode _ _ (remove_first t hs)); [done..| |].
    + intros w2 Ht2. by apply not_elem_of_remove_first in Ht2.
    + intros w2 _ Hs2. by split.
  - unfold CountRecoveryCodes. rewrite wp_bind_ok. apply wp_GetToken; [done..|]. intros w2 Hs2.
    destruct Hhs1 as [-> Hg]. pose proof (remove_first_length t hs Ht) as Hlen.
    destruct (String.eqb_spec (Join ";" (remove_first t hs)) "") as [He|He].
    + rewrite Join_empty in He by done. rewrite He in Hlen. wp_steps. cbn in Hlen. f_equal. lia.
    + wp_steps. rewrite Split_codes by (done || by intros Hn; rewrite Hn in He). f_equal. lia.
  - intros code' Hne Hin. apply (wp_RedeemRecoveryCode _ _ (remove_first t hs)); [done..|].
    intros w2 Hn _. destruct Hn. by apply elem_of_remove_first.
Qed.

(** An SMS code is armed for one user and slot with a six-digit code, expiring
    [PhoneTokenTTL] from now, and nothing else is written. *)
Theorem GeneratePhoneToken_arms `{Oracle} `{UnicodeDB} `{PBKDF2} {S} `{UserStore S, StoreView S, !UserStoreSpec S}
    (u : User) (w : World S) :
  v_inv (w_store w) → plain (ID u) →
  wp (GeneratePhoneToken u) (λ r w', ∃ code i, (w_step w <= i < w_step w')%nat
    ∧ r = Ok code ∧ len code = 6 ∧ Forall (λ c, is_digit_char c = true) (str_bytes code)
    ∧ slot_set w w' u phoneTokenName
        (sms_slot (Some (mkSms (hashRefresh code) (Unix (o_now i + PhoneTokenTTL)) 0)))) w.
Proof.
  intros Hi Hp. unfold GeneratePhoneToken. rewrite wp_bind. apply wp_randomDigits; [done|].
  intros code w1 Hl Hd Hs1. assert (v_inv (w_store w1)) as Hi1 by by eapply same_inv.
  wp_steps. apply wp_SetToken; [done..|]. intros w2 Hm. wp_steps.
  exists code, (w_step w1). pose proof (same_step _ _ Hs1). pose proof Hm as [Hle _ _ _ _ _ _].
  cbn in Hle. split; [lia|]. split; [done|]. split; [unfold len; by rewrite Hl|]. split; [done|].
  eapply slot_set_same; [|exact Hm]. eapply same_trans; [done|by apply same_tick].
Qed.

(** C21: guessing an armed SMS code is bounded. Whatever the guesses and the clock, at
    most one of them is accepted; it is the code, made before the expiry and among
    the first [PhoneTokenMaxAttempts - misses] guesses. *)
Theorem sms_guesses_bounded `{Oracle} `{UnicodeDB} `{PBKDF2} {S} `{UserStore S, StoreView S, !UserStoreSpec S}
    (u : User) name c gs (w : World S) :
  v_inv (w_store w) → plain (ID u) → slot w u name = sms_slot (Some c) → sms_ok c →
  wp (guess_codes u name gs) (λ rs _, length rs = length gs ∧ Forall (λ r, is_ok r = true) rs
    ∧ (∀ k, rs !! k = Some (Ok true) → gs !! k = Some (sms_hash c)
        ∧ Z.of_nat k + sms_misses c < PhoneTokenMaxAttempts ∧ ∃ i, o_now i <= sms_exp c * Second)
    ∧ (∀ i j, rs !! i = Some (Ok true) → rs !! j = Some (Ok true) → i = j)) w.
Proof.
  intros Hi Hp Hslot Hc. apply (wp_guess_codes _ _ _ (Some c)); [done..|]. intros ix w' Hl.
  set (l := zip (o_now <$> ix) gs).
  assert (∀ k, (Ok <$> sms_run (Some c) l) !! k = Some (Ok true) → sms_run (Some c) l !! k = Some true) as Hk.
  { intros k. rewrite list_lookup_fmap. destruct (_ !! k) as [b|]; [|done]. by intros [= ->]. }
  assert (∀ c, length (sms_run c l) = length gs) as Hlen.
  { assert (length l = length gs) as <- by (unfold l; rewrite length_zip_with, length_fmap; lia).
    clear. induction l as [|[t g] l IH]; intros c; [done|]. cbn. destruct (sms_step c t g). cbn. by rewrite IH. }
  split_and!.
  - by rewrite length_fmap.
  - apply Forall_fmap, Forall_true. done.
  - intros k Hrs. apply Hk in Hrs. destruct (sms_run_sound _ _ _ Hrs) as (t & Hlk & Ht).
    apply lookup_zip_with_Some in Hlk as (t' & g' & [= <- <-] & Ht' & Hg).
    split; [done|]. split.
    + apply sms_run_true in Hrs. destruct Hc as (_ & _ & Hm). lia.
    + rewrite list_lookup_fmap in Ht'. destruct (ix !! k) as [i|]; [|done]. injection Ht' as <-. by exists i.
  - intros i j Hi' Hj. apply (sms_run_once (Some c) l); by apply Hk.
Qed.
