(* ===== verification/Accounts.v ===== *)
(** * Account uniqueness

    No two accounts share a normalized user name, nor (when [RequireUniqueEmail] is
    set) a normalized email: every method of the user manager that writes the users
    table (every call of [Store.Create], [Store.Update], [Store.Delete] and the purge
    under src/identity) keeps this, run on the row of an account or creating a new
    one, in any order.  The other methods write role memberships, claims, logins and
    token slots only; the sign-in manager writes users through [CheckPassword],
    [AccessFailed] and [ResetAccessFailedCount].  The check and the write of one
    operation are not atomic in the code, so the theorem is about operations that run
    one after the other.  [CreateAnonymous] has no check: it relies on 16 random
    bytes, and the theorem asks that the name they give is not in use. *)

From S2P Require Import Prelude GoStrings GoBytes Errors World Entities Stores StoreLaws Hasher.
From S2P Require Import TokenProvider UserManager UserManagerFacts AccountTokens TwoFactor TwoFactorFacts.

Local Open Scope Z_scope.

Section uniqueness.
Context (unique_email : bool).

Definition accounts_ok (U : gmap string User) : Prop :=
  (∀ i j ui uj, U !! i = Some ui → U !! j = Some uj →
    NormalizedUserName ui = NormalizedUserName uj → i = j) ∧
  (unique_email = true → ∀ i j ui uj, U !! i = Some ui → U !! j = Some uj →
    NormalizedEmail ui = NormalizedEmail uj → NormalizedEmail ui ≠ "" → i = j).

(** The names of [u] are free for the account [ID u]. *)
Definition names_free (U : gmap string User) (u : User) : Prop :=
  map_Forall (λ k r, k = ID u ∨ NormalizedUserName r ≠ NormalizedUserName u) U ∧
  (unique_email = true → NormalizedEmail u ≠ "" →
    map_Forall (λ k r, k = ID u ∨ NormalizedEmail r ≠ NormalizedEmail u) U).

Lemma accounts_ok_insert U u : accounts_ok U → names_free U u → accounts_ok (<[ID u := u]> U).
Proof.
  intros [Hn He] [Fn Fe]. split.
  - intros i j ui uj [[<- <-]|[Hi Hui]]%lookup_insert_Some [[<- <-]|[Hj Huj]]%lookup_insert_Some Heq.
    + done.
    + by destruct (Fn j uj Huj).
    + by destruct (Fn i ui Hui).
    + by eapply Hn.
  - intros Hu. specialize (He Hu). specialize (Fe Hu).
    intros i j ui uj [[<- <-]|[Hi Hui]]%lookup_insert_Some [[<- <-]|[Hj Huj]]%lookup_insert_Some Heq Hne.
    + done.
    + by destruct (Fe Hne j uj Huj).
    + rewrite Heq in Hne. by destruct (Fe Hne i ui Hui).
    + by eapply He.
Qed.

(** A stored row's own names are free for it. *)
Lemma names_free_row U u u' :
  accounts_ok U → U !! ID u = Some u → ID u' = ID u →
  NormalizedUserName u' = NormalizedUserName u → NormalizedEmail u' = NormalizedEmail u →
  names_free U u'.
Proof.
  intros [Hn He] Hu Hid Hn' He'. split.
  - intros k r Hk. rewrite Hid, Hn'. destruct (decide (k = ID u)); [by left|]. right. intros Heq.
    by specialize (Hn _ _ _ _ Hk Hu Heq).
  - intros Hue Hne k r Hk. rewrite Hid, He' in *. destruct (decide (k = ID u)); [by left|]. right.
    intros Heq. rewrite <-Heq in Hne. by specialize (He Hue _ _ _ _ Hk Hu Heq Hne).
Qed.

(** Removing accounts frees names. *)
Lemma accounts_ok_subseteq U U' : U' ⊆ U → accounts_ok U → accounts_ok U'.
Proof.
  intros Hsub [Hn He]. split.
  - intros i j ui uj Hi Hj. eapply Hn; by eapply lookup_weaken.
  - intros Hu i j ui uj Hi Hj. eapply (He Hu); by eapply lookup_weaken.
Qed.
End uniqueness.

(** ** Account operations in sequence

    What a handler does: it creates an account from submitted names, or fetches one
    by id and runs an operation of the manager on the row it got. *)
Inductive account_op :=
  | op_Create (userName email : string)
  | op_CreateWithPassword (userName email password : string)
  | op_CreateAnonymous
  | op_ConvertToRegistered (id userName email password : string)
  | op_SetUserName (id userName : string)
  | op_SetEmail (id email : string)
  | op_ChangeEmail (id newEmail token : string)
  | op_ConfirmEmail (id token : string)
  | op_CheckPassword (id password : string)
  | op_ChangePassword (id current newPassword : string)
  | op_ResetPassword (id token newPassword : string)
  | op_AddPassword (id password : string)
  | op_RemovePassword (id : string)
  | op_UpdateSecurityStamp (id : string)
  | op_SetTwoFactorEnabled (id : string) (enabled : bool)
  | op_SetPhoneNumber (id phone : string)
  | op_ConfirmPhoneNumber (id code : string)
  | op_ChangePhoneNumber (id newPhone code : string)
  | op_AccessFailed (id : string)
  | op_ResetAccessFailedCount (id : string)
  | op_Delete (id : string)
  | op_PurgeAnonymousUsers (olderThan : Time).

Section driver.
Context `{Oracle} `{UnicodeDB} `{PBKDF2} {S : Type} `{UserStore S} (m : UserManager S).

(** Without an id: [prepareForCreate] draws one (an id set by the caller is kept as it is). *)
Definition new_user (userName email : string) : User := set_Email email (set_UserName userName zeroUser).

Definition with_account {A} (id : string) (f : User → M S A) : M S unit :=
  r ← FindByID id;
  match r with
  | Ok (Some u) => _ ← f u; mret tt
  | _ => mret tt
  end.

Definition run_op (op : account_op) : M S unit :=
  match op with
  | op_Create n e => _ ← Create m (new_user n e); mret tt
  | op_CreateWithPassword n e pw => _ ← CreateWithPassword m (new_user n e) pw; mret tt
  | op_CreateAnonymous => _ ← CreateAnonymous m; mret tt
  | op_ConvertToRegistered id n e pw => with_account id (λ u, ConvertToRegistered m u n e pw)
  | op_SetUserName id n => with_account id (λ u, SetUserName m u n)
  | op_SetEmail id e => with_account id (λ u, SetEmail m u e)
  | op_ChangeEmail id e token => with_account id (λ u, ChangeEmail m u e token)
  | op_ConfirmEmail id token => with_account id (λ u, ConfirmEmail m u token)
  | op_CheckPassword id pw => with_account id (λ u, CheckPassword m u pw)
  | op_ChangePassword id c n => with_account id (λ u, ChangePassword m u c n)
  | op_ResetPassword id token n => with_account id (λ u, ResetPassword m u token n)
  | op_AddPassword id pw => with_account id (λ u, AddPassword m u pw)
  | op_RemovePassword id => with_account id (λ u, RemovePassword u)
  | op_UpdateSecurityStamp id => with_account id UpdateSecurityStamp
  | op_SetTwoFactorEnabled id b => with_account id (λ u, SetTwoFactorEnabled u b)
  | op_SetPhoneNumber id phone => with_account id (λ u, SetPhoneNumber u phone)
  | op_ConfirmPhoneNumber id code => with_account id (λ u, ConfirmPhoneNumber u code)
  | op_ChangePhoneNumber id phone code => with_account id (λ u, ChangePhoneNumber u phone code)
  | op_AccessFailed id => with_account id (λ u, AccessFailed m u)
  | op_ResetAccessFailedCount id => with_account id ResetAccessFailedCount
  | op_Delete id => with_account id Delete
  | op_PurgeAnonymousUsers t => _ ← PurgeAnonymousUsers t; mret tt
  end.

Fixpoint run_ops (ops : list account_op) : M S unit :=
  match ops with
  | [] => mret tt
  | op :: ops => _ ← run_op op; run_ops ops
  end.

(** The normalized name of a guest created in [w]: the id is drawn first. *)
Definition guest_name (w : World S) : string :=
  Mgr_Normalizer m ("guest_" +:+ hex_encode (o_read (Datatypes.S (w_step w)) 16)).

Context `{StoreView S}.

(** Ids that reach the token slots have no ['|']; a guest's random name is not in use. *)
Definition op_ok (op : account_op) (w : World S) : Prop :=
  match op with
  | op_ConfirmPhoneNumber id _ | op_ChangePhoneNumber id _ _ => plain id
  | op_CreateAnonymous => map_Forall (λ _ r, NormalizedUserName r ≠ guest_name w) (v_users (w_store w))
  | _ => True
  end.

(** Every operation of the sequence is in order when its turn comes. *)
Fixpoint ops_ok (ops : list account_op) (w : World S) : Prop :=
  match ops with
  | [] => True
  | op :: ops => op_ok op w ∧ ∀ w', run_op op w = Done (tt, w') → ops_ok ops w'
  end.
End driver.

Section ops.
Context `{Oracle} `{UnicodeDB} `{PBKDF2} {S : Type} `{UserStore S, StoreView S, !UserStoreSpec S, !UserRemovalSpec S}.
Context (m : UserManager S) (HS : HasherSpec (Mgr_Hasher m)).
Implicit Types w : World S.

Definition unique_email : bool := RequireUniqueEmail (Opt_User (Mgr_Options m)).

(** The row of an account, or a new one under an id drawn in between. *)
Definition known_id w w' (u : User) : Prop :=
  is_Some (v_users (w_store w) !! ID u) ∨ ∃ i, (w_step w <= i < w_step w')%nat ∧ ID u = o_uuid i.

(** The users are as they were. *)
Definition kept w w' : Prop :=
  (w_step w <= w_step w')%nat ∧ v_inv (w_store w') ∧ v_users (w_store w') = v_users (w_store w).

(** No account was added, or one row with free names was written. *)
Definition keeps w w' : Prop :=
  (w_step w <= w_step w')%nat ∧ v_inv (w_store w') ∧
  (v_users (w_store w') ⊆ v_users (w_store w) ∨
   ∃ u, names_free unique_email (v_users (w_store w)) u ∧ known_id w w' u
     ∧ v_users (w_store w') = <[ID u := u]> (v_users (w_store w))).

Lemma same_kept w w' : same w w' → kept w w'.
Proof. by intros []. Qed.
Lemma slot_kept w w' u name v : slot_set w w' u name v → kept w w'.
Proof. by intros []. Qed.
Lemma kept_keeps w w' : kept w w' → keeps w w'.
Proof. intros (? & ? & Hu). split_and!; [done..|left; by rewrite Hu]. Qed.
Lemma same_keeps w w' : same w w' → keeps w w'.
Proof. intros Hs. by apply kept_keeps, same_kept. Qed.
Lemma row_set_keeps w w' u :
  names_free unique_email (v_users (w_store w)) u → known_id w w' u → row_set w w' u → keeps w w'.
Proof. intros Hf Hid []. split_and!; [done..|right; by exists u]. Qed.

Lemma keeps_after w1 w2 w3 : kept w1 w2 → keeps w2 w3 → keeps w1 w3.
Proof.
  unfold keeps, known_id. intros (Hle & _ & ->) (Hle' & Hi & Hk). split; [lia|]. split; [done|].
  destruct Hk as [?|(u & Hf & Hid & Hu)]; [by left|right]. exists u. split_and!; [done| |done].
  destruct Hid as [?|(i & ? & ?)]; [by left|right]. exists i. split; [lia|done].
Qed.
Lemma keeps_same w1 w2 w3 : same w1 w2 → keeps w2 w3 → keeps w1 w3.
Proof. intros Hs%same_kept. by apply keeps_after. Qed.

(** No id still to be drawn is in use. *)
Definition ids_fresh w : Prop := ∀ i, (w_step w <= i)%nat → v_users (w_store w) !! o_uuid i = None.

Lemma keeps_ok w w' :
  Inj (=) (=) o_uuid → keeps w w' →
  accounts_ok unique_email (v_users (w_store w)) → ids_fresh w →
  v_inv (w_store w') ∧ accounts_ok unique_email (v_users (w_store w')) ∧ ids_fresh w'.
Proof.
  intros Hinj (Hle & Hi & Hk) Ha Hfr. split; [done|]. unfold ids_fresh.
  destruct Hk as [Hsub|(u & Hf & Hid & ->)].
  - split; [by eapply accounts_ok_subseteq|]. intros i Hi'. eapply lookup_weaken_None; [apply Hfr; lia|done].
  - split; [by apply accounts_ok_insert|]. intros i Hi'.
    rewrite lookup_insert_ne; [apply Hfr; lia|]. intros Heq.
    destruct Hid as [[r Hr]|(j & Hj & Hid)].
    + rewrite Heq, Hfr in Hr by lia. done.
    + rewrite Hid in Heq. apply Hinj in Heq. lia.
Qed.

Lemma current_known w w' u : current w u → known_id w w' u.
Proof. intros (cur & Hc & _). left. by exists cur. Qed.

Lemma wp_Update_keeps u u0 w (Q : User * result unit → World S → Prop) :
  v_inv (w_store w) → names_free unique_email (v_users (w_store w)) u0 →
  ID u = ID u0 → NormalizedUserName u = NormalizedUserName u0 → NormalizedEmail u = NormalizedEmail u0 →
  (∀ r w', keeps w w' → Q r w') → wp (us_Update u) Q w.
Proof.
  intros Hi Hf Hid Hn He HQ. apply wp_Update; [done| |].
  - intros i w' _ Hc Hm. apply HQ. eapply row_set_keeps; [| |exact Hm].
    + unfold names_free in *. cbn. by rewrite Hid, Hn, He.
    + destruct (current_known w w' u Hc) as [?|?]; [by left|by right].
  - intros e w' _ _ Hs. by apply HQ, same_keeps.
Qed.

(** The lookups behind the uniqueness checks. *)
Lemma wp_name_check n id w (Q : result (option User) → World S → Prop) :
  v_inv (w_store w) → accounts_ok unique_email (v_users (w_store w)) →
  (∀ r w', same w w' →
    (lookup_clash r (λ ex, negb (String.eqb (ID ex) id)) ErrDuplicateUserName = None →
      map_Forall (λ k r, k = id ∨ NormalizedUserName r ≠ n) (v_users (w_store w))) → Q r w') →
  wp (us_FindByName n) Q w.
Proof.
  intros Hi [Hu _] HQ. wp_call spec_FindByName; [done|].
  intros r w' [Hs Hr]. apply HQ; [done|].
  destruct Hr as [(ex & -> & Hex & Hn)|[-> Hn]]; cbn; intros Hc k x Hk; [|right; by eapply Hn].
  destruct (String.eqb_spec (ID ex) id) as [<-|]; [|done].
  destruct (decide (k = ID ex)); [by left|]. right. intros Heq. rewrite <-Hn in Heq.
  by specialize (Hu _ _ _ _ Hk Hex Heq).
Qed.

Lemma wp_email_check e id w (Q : result (option User) → World S → Prop) :
  v_inv (w_store w) → accounts_ok unique_email (v_users (w_store w)) →
  (∀ r w', same w w' →
    (lookup_clash r (λ ex, negb (String.eqb (ID ex) id)) ErrDuplicateEmail = None →
      unique_email = true → e ≠ "" →
      map_Forall (λ k r, k = id ∨ NormalizedEmail r ≠ e) (v_users (w_store w))) → Q r w') →
  wp (us_FindByEmail e) Q w.
Proof.
  intros Hi [_ He] HQ. wp_call spec_FindByEmail; [done|].
  intros r w' [Hs Hr]. apply HQ; [done|].
  destruct Hr as [(ex & -> & Hex & Hn & Hne)|[-> Hn]]; cbn; intros Hc Hue Hne' k x Hk.
  - destruct (String.eqb_spec (ID ex) id) as [<-|]; [|done].
    destruct (decide (k = ID ex)); [by left|]. right. intros Heq. rewrite <-Hn in Heq, Hne'.
    by specialize (He Hue _ _ _ _ Hex Hk (eq_sym Heq) Hne').
  - destruct (Hn k x Hk); by auto.
Qed.

(** A clash with anybody is a clash with somebody else, for an id not in use. *)
Lemma lookup_clash_any {A} (r : result (option A)) (f : A → bool) e :
  lookup_clash r (λ _, true) e = None → lookup_clash r f e = None.
Proof. by destruct r as [[?|]|?]. Qed.

Lemma wp_email_taken u e w (Q : option error → World S → Prop) :
  v_inv (w_store w) → accounts_ok unique_email (v_users (w_store w)) →
  (∀ c w', same w w' →
    (c = None → unique_email = true → e ≠ "" →
      map_Forall (λ k r, k = ID u ∨ NormalizedEmail r ≠ e) (v_users (w_store w))) → Q c w') →
  wp (email_taken m u e) Q w.
Proof.
  intros Hi Ha HQ. unfold email_taken. fold unique_email.
  destruct (unique_email && negb (String.eqb e "")) eqn:Hc.
  - wp_steps. apply (wp_email_check _ (ID u)); [done..|]. intros r w' Hs Hr. wp_steps. by apply HQ.
  - wp_steps. apply HQ; [by apply same_refl|]. intros _ Hue Hne.
    rewrite Hue, (proj2 (String.eqb_neq _ _)) in Hc by done. done.
Qed.

(** A change of credentials that leaves the names alone. *)
Lemma wp_stamp_Update_keeps u u0 w (Q : User * result unit → World S → Prop) :
  v_inv (w_store w) → names_free unique_email (v_users (w_store w)) u0 →
  ID u = ID u0 → NormalizedUserName u = NormalizedUserName u0 → NormalizedEmail u = NormalizedEmail u0 →
  (∀ r w', keeps w w' → Q r w') →
  wp (stamp ← newStamp; us_Update (set_SecurityStamp stamp u)) Q w.
Proof.
  intros Hi Hf Hid Hn He HQ. apply wp_stamp_Update; [done| |].
  - intros i j w' _ _ Hc u' Hm. apply HQ. apply (row_set_keeps _ _ u'); [| |done].
    + unfold names_free in *. cbn. by rewrite Hid, Hn, He.
    + destruct (current_known w w' u Hc) as [?|?]; [by left|by right].
  - intros i e w' _ _ Hs. by apply HQ, same_keeps.
Qed.

Hypothesis Hnorm : Mgr_Normalizer m "" = "".

(** What [prepareForCreate] has established when it succeeds. *)
Definition prepared w w' (u u' : User) : Prop :=
  same w w' ∧ names_free unique_email (v_users (w_store w)) u'
  ∧ (if String.eqb (ID u) "" then ∃ i, (w_step w <= i < w_step w')%nat ∧ ID u' = o_uuid i else ID u' = ID u)
  ∧ UserName u' = UserName u ∧ NormalizedUserName u' = Mgr_Normalizer m (UserName u)
  ∧ NormalizedEmail u' = Mgr_Normalizer m (Email u)
  ∧ LockoutEnabled u' = AllowedForNewUsers (Opt_Lockout (Mgr_Options m))
  ∧ ValidateUserName (Opt_User (Mgr_Options m)) (UserName u) = Ok tt.

Lemma wp_prepareForCreate u w (Q : User * result unit → World S → Prop) :
  v_inv (w_store w) → accounts_ok unique_email (v_users (w_store w)) →
  (∀ u' e w', same w w' → Q (u', Err e) w') →
  (∀ u' w', prepared w w' u u' → Q (u', Ok tt) w') →
  wp (prepareForCreate m u) Q w.
Proof.
  intros Hi Ha HE HQ. unfold prepareForCreate.
  destruct (ValidateUserName _ _) as [[]|e] eqn:Hv; [|wp_steps; by apply HE, same_refl].
  wp_steps.
  assert (wp (if String.eqb (ID u) "" then uuid_NewString else mret (ID u)) (λ id w1, same w w1 ∧
    if String.eqb (ID u) "" then ∃ i, (w_step w <= i < w_step w1)%nat ∧ id = o_uuid i else id = ID u) w) as Hid.
  { destruct (String.eqb (ID u) ""); wp_steps.
    - split; [by apply same_tick|]. exists (w_step w). cbn. split; [lia|done].
    - split; [by apply same_refl|done]. }
  eapply wp_mono; [exact Hid|]. cbn beta. intros id w1 [Hs1 Hid1]. wp_steps.
  apply wp_newStamp; [by eapply same_inv|]. intros i w2 _ Hs2. wp_steps.
  pose proof (same_trans _ _ _ Hs1 Hs2) as Hs12.
  pose proof (same_trans _ _ _ Hs12 (same_tick _ (same_inv _ _ Hs12))) as Hs3.
  set (u3 := set_LockoutEnabled _ _).
  apply (wp_name_check _ (ID u3)); [by eapply same_inv|by rewrite (same_users _ _ Hs3)|].
  intros r w4 Hs4 Hr. rewrite (same_users _ _ Hs3) in Hr.
  pose proof (same_trans _ _ _ Hs3 Hs4) as Hs14.
  destruct (lookup_clash r (λ _, true) _) as [e|] eqn:Hc.
  { wp_steps. by apply HE. }
  specialize (Hr (lookup_clash_any _ _ _ Hc)).
  assert (∀ w5, same w w5 → (w_step w4 <= w_step w5)%nat →
    (unique_email = true → NormalizedEmail u3 ≠ "" →
      map_Forall (λ k r, k = ID u3 ∨ NormalizedEmail r ≠ NormalizedEmail u3) (v_users (w_store w))) →
    prepared w w5 u u3) as Hp.
  { intros w5 Hs5 Hle He. unfold prepared. split; [done|]. split; [by split|].
    split_and!; try done. cbn. destruct (String.eqb (ID u) ""); [|done].
    destruct Hid1 as (j & Hj & ->). exists j. split; [|done].
    pose proof (same_step _ _ Hs2). pose proof (same_step _ _ Hs4). cbn in *. lia. }
  change (RequireUniqueEmail (Opt_User (Mgr_Options m))) with unique_email.
  change (Email u3) with (Email u) in *.
  destruct (unique_email && negb (String.eqb (Email u) "")) eqn:Hue.
  - wp_steps. apply (wp_email_check _ (ID u3)); [by eapply same_inv|by rewrite (same_users _ _ Hs14)|].
    intros r' w5 Hs5 Hr'. rewrite (same_users _ _ Hs14) in Hr'.
    pose proof (same_trans _ _ _ Hs14 Hs5) as Hs15.
    destruct (lookup_clash r' (λ _, true) _) as [e|] eqn:Hc'; wp_steps; [by apply HE|].
    apply HQ, Hp; [done|by eapply same_step|]. exact (Hr' (lookup_clash_any _ _ _ Hc')).
  - wp_steps. apply HQ, Hp; [done|lia|]. intros Hu Hne. rewrite Hu in Hue. cbn in Hue.
    apply negb_false_iff, String.eqb_eq in Hue. change (Mgr_Normalizer m (Email u) ≠ "") in Hne. by rewrite Hue, Hnorm in Hne.
Qed.

(** ** Each operation keeps the rows' names free *)

Lemma wp_Create_keeps u w (Q : User * result unit → World S → Prop) :
  v_inv (w_store w) → accounts_ok unique_email (v_users (w_store w)) →
  ids_fresh w → ID u = "" → (∀ r w', keeps w w' → Q r w') → wp (Create m u) Q w.
Proof.
  intros Hi Ha Hfr Hid HQ. unfold Create. wp_steps. apply wp_prepareForCreate; [done..| |].
  - intros u' e w' Hs. wp_steps. by apply HQ, same_keeps.
  - intros u' w1 (Hs & Hf & Hnew & _). rewrite Hid in Hnew. cbn in Hnew.
    destruct Hnew as (i & Hi1 & Hnew).
    assert (v_users (w_store w) !! ID u' = None) as Hnone by (rewrite Hnew; apply Hfr; lia).
    wp_call spec_Create; [by eapply same_inv|by rewrite (same_users _ _ Hs)|].
    intros ur w2 [-> Hm]. apply HQ. apply (row_set_keeps _ _ u'); [done| |by eapply row_set_same].
    right. exists i. destruct Hm. split; [lia|done].
Qed.

Lemma wp_CreateWithPassword_keeps u pw w (Q : User * result unit → World S → Prop) :
  v_inv (w_store w) → accounts_ok unique_email (v_users (w_store w)) →
  ids_fresh w → ID u = "" → (∀ r w', keeps w w' → Q r w') → wp (CreateWithPassword m u pw) Q w.
Proof.
  intros Hi Ha Hfr Hid HQ. unfold CreateWithPassword.
  destruct (ValidatePassword _ _) as [[]|e]; [|wp_steps; by apply HQ, same_keeps, same_refl].
  wp_steps. apply wp_prepareForCreate; [done..| |].
  - intros u' e w' Hs. wp_steps. by apply HQ, same_keeps.
  - intros u' w1 (Hs & Hf & Hnew & _). rewrite Hid in Hnew. cbn in Hnew.
    destruct Hnew as (i & Hi1 & Hnew).
    assert (v_users (w_store w) !! ID u' = None) as Hnone by (rewrite Hnew; apply Hfr; lia).
    wp_steps. wp_call (h_Hash HS); [by eapply same_inv|]. intros h w2 (Hs2 & _).
    pose proof (same_trans _ _ _ Hs Hs2) as Hs12.
    wp_call spec_Create; [by eapply same_inv|by rewrite (same_users _ _ Hs12)|].
    intros ur w3 [-> Hm]. apply HQ.
    apply (row_set_keeps _ _ (set_PasswordHash h u')); [done| |by eapply (row_set_same _ _ _ (set_PasswordHash h u'))].
    right. exists i. apply same_step in Hs2. destruct Hm. split; [lia|done].
Qed.

Lemma wp_CreateAnonymous_keeps w (Q : result User → World S → Prop) :
  v_inv (w_store w) → ids_fresh w →
  map_Forall (λ _ r, NormalizedUserName r ≠ guest_name m w) (v_users (w_store w)) →
  (∀ r w', keeps w w' → Q r w') → wp (CreateAnonymous m) Q w.
Proof.
  intros Hi Hfr Hnew HQ. unfold CreateAnonymous, randomHex, newStamp. wp_steps. cbn [w_step tick].
  change (if CreatedAt _ =? zeroTime then ?x else _) with x. wp_steps.
  set (u := set_CreatedAt _ _). set (w1 := tick _).
  assert (same w w1) as Hs by (repeat (eapply same_trans; [|apply same_tick; done]); by apply same_refl).
  assert (ID u = o_uuid (w_step w)) as Hid by done.
  wp_call spec_Create; [by eapply same_inv|rewrite Hid, (same_users _ _ Hs); by apply Hfr|].
  intros ur w2 [-> Hm]. wp_steps. apply HQ. apply (row_set_keeps _ _ u); [| |by eapply row_set_same].
  - split; [|by intros _ []]. intros k r Hk. right. exact (Hnew k r Hk).
  - right. exists (w_step w). destruct Hm as [Hle _ _ _ _ _ _]. cbn in Hle. split; [lia|done].
Qed.

Lemma wp_SetUserName_keeps u n w (Q : User * result unit → World S → Prop) :
  v_inv (w_store w) → accounts_ok unique_email (v_users (w_store w)) →
  v_users (w_store w) !! ID u = Some u →
  (∀ r w', keeps w w' → Q r w') → wp (SetUserName m u n) Q w.
Proof.
  intros Hi Ha Hu HQ. unfold SetUserName.
  destruct (ValidateUserName _ _) as [[]|e]; [|wp_steps; by apply HQ, same_keeps, same_refl].
  rewrite wp_bind. apply (wp_name_check _ (ID u)); [done..|]. intros r w1 Hs1 Hr.
  destruct (lookup_clash r _ _) as [e|]; [wp_steps; by apply HQ, same_keeps|].
  pose proof (names_free_row _ _ _ u Ha Hu eq_refl eq_refl eq_refl) as [_ Fe].
  apply (wp_stamp_Update_keeps _ (set_NormalizedUserName (Mgr_Normalizer m n) (set_UserName n u)));
    [by eapply same_inv| |done..|].
  - rewrite (same_users _ _ Hs1). split; [by apply Hr|done].
  - intros r' w2 Hk. apply HQ. by eapply keeps_same.
Qed.

(** The check and the write shared by [SetEmail] and [ChangeEmail]. *)
Lemma wp_new_email_keeps u e confirmed w (Q : User * result unit → World S → Prop) :
  v_inv (w_store w) → accounts_ok unique_email (v_users (w_store w)) →
  v_users (w_store w) !! ID u = Some u →
  (∀ r w', keeps w w' → Q r w') →
  wp (clash ← email_taken m u (Mgr_Normalizer m e);
      match clash with
      | Some err => mret (u, Err err)
      | None =>
        stamp ← newStamp;
        us_Update (set_SecurityStamp stamp
          (set_EmailConfirmed confirmed (set_NormalizedEmail (Mgr_Normalizer m e) (set_Email e u))))
      end) Q w.
Proof.
  intros Hi Ha Hu HQ. rewrite wp_bind. apply wp_email_taken; [done..|].
  intros c w1 Hs1 Hr. destruct c as [err|]; [wp_steps; by apply HQ, same_keeps|].
  pose proof (names_free_row _ _ _ u Ha Hu eq_refl eq_refl eq_refl) as [Fn _].
  apply (wp_stamp_Update_keeps _ (set_NormalizedEmail (Mgr_Normalizer m e) (set_Email e u)));
    [by eapply same_inv| |done..|].
  - rewrite (same_users _ _ Hs1). split; [done|by apply Hr].
  - intros r' w2 Hk. apply HQ. by eapply keeps_same.
Qed.

Lemma wp_ChangeEmail_keeps u e token w (Q : User * result unit → World S → Prop) :
  v_inv (w_store w) → accounts_ok unique_email (v_users (w_store w)) →
  v_users (w_store w) !! ID u = Some u →
  (∀ r w', keeps w w' → Q r w') → wp (ChangeEmail m u e token) Q w.
Proof.
  intros Hi Ha Hu HQ. unfold ChangeEmail. rewrite wp_bind. apply wp_Tokens_Validate; [done|].
  intros ok w1 Hs _. destruct ok; cbn [negb]; [|wp_steps; by apply HQ, same_keeps].
  apply (wp_new_email_keeps u e true); [by eapply same_inv|by rewrite (same_users _ _ Hs)..|].
  intros r w2 Hk. apply HQ. by eapply keeps_same.
Qed.

Lemma wp_ConvertToRegistered_keeps u n e pw w (Q : User * result unit → World S → Prop) :
  v_inv (w_store w) → accounts_ok unique_email (v_users (w_store w)) →
  v_users (w_store w) !! ID u = Some u →
  (∀ r w', keeps w w' → Q r w') → wp (ConvertToRegistered m u n e pw) Q w.
Proof.
  intros Hi Ha Hu HQ. unfold ConvertToRegistered.
  destruct (negb (IsAnonymous u)); [wp_steps; by apply HQ, same_keeps, same_refl|].
  destruct (ValidateUserName _ _) as [[]|err]; [|wp_steps; by apply HQ, same_keeps, same_refl].
  destruct (ValidatePassword _ _) as [[]|err]; [|wp_steps; by apply HQ, same_keeps, same_refl].
  rewrite wp_bind. apply (wp_name_check _ (ID u)); [done..|]. intros r w1 Hs1 Hr.
  destruct (lookup_clash r _ _) as [err|]; [wp_steps; by apply HQ, same_keeps|].
  rewrite wp_bind. apply wp_email_taken; [by eapply same_inv|by rewrite (same_users _ _ Hs1)|].
  intros c w2 Hs2 Hr2. rewrite (same_users _ _ Hs1) in Hr2. pose proof (same_trans _ _ _ Hs1 Hs2) as Hs12.
  destruct c as [err|]; [wp_steps; by apply HQ, same_keeps|].
  rewrite wp_bind. wp_call (h_Hash HS); [by eapply same_inv|]. intros h w3 (Hs3 & _).
  pose proof (same_trans _ _ _ Hs12 Hs3) as Hs13.
  apply (wp_stamp_Update_keeps _ (set_NormalizedEmail (Mgr_Normalizer m e)
    (set_NormalizedUserName (Mgr_Normalizer m n) u))); [by eapply same_inv| |done..|].
  - rewrite (same_users _ _ Hs13). split; [by apply Hr|by apply Hr2].
  - intros r' w4 Hk. apply HQ. by eapply keeps_same.
Qed.

Lemma wp_CheckPassword_keeps u pw w (Q : User * bool → World S → Prop) :
  v_inv (w_store w) → accounts_ok unique_email (v_users (w_store w)) →
  v_users (w_store w) !! ID u = Some u →
  (∀ u' ok w', keeps w w' → (ok = true → same w w' ∨ v_users (w_store w') !! ID u' = Some u') →
    (same w w' ∨ row_set w w' u') → ID u' = ID u →
    NormalizedUserName u' = NormalizedUserName u → NormalizedEmail u' = NormalizedEmail u → Q (u', ok) w') →
  wp (CheckPassword m u pw) Q w.
Proof.
  intros Hi Ha Hu HQ. apply (wp_CheckPassword _ HS); [done|..].
  - intros w' Hs. apply HQ; try done; [by apply same_keeps|by left..].
  - intros h i w' _ _ _ Hc u' Hm. apply HQ; try done; [|right; by eapply row_set_lookup|by right].
    apply (row_set_keeps _ _ u'); [by eapply names_free_row| |done]. by destruct (current_known w w' u Hc); [left|right].
  - intros h w' _ _ _ Hc Hs. destruct Hc. by exists u.
Qed.

Lemma wp_store_password_keeps u pw w (Q : User * result unit → World S → Prop) :
  v_inv (w_store w) → names_free unique_email (v_users (w_store w)) u →
  (∀ r w', keeps w w' → Q r w') → wp (store_password m u pw) Q w.
Proof.
  intros Hi Hf HQ. apply (wp_store_password _ HS); [done| |].
  - intros h i j w' _ Hc _ _ u' Hm. apply HQ.
    apply (row_set_keeps _ _ u'); [done| |done]. by destruct (current_known w w' u Hc); [left|right].
  - intros u' e w' _ _ Hs. by apply HQ, same_keeps.
Qed.

(** ** Operations on a row *)

(** [f], run on the stored row of an account, keeps the rows' names free. *)
Definition row_op {A} (id : string) (f : User → M S A) : Prop := ∀ u w,
  ID u = id → v_users (w_store w) !! ID u = Some u → v_inv (w_store w) →
  accounts_ok unique_email (v_users (w_store w)) → wp (f u) (λ _ w', rtc keeps w w') w.

Lemma row_free u w :
  v_users (w_store w) !! ID u = Some u → accounts_ok unique_email (v_users (w_store w)) →
  names_free unique_email (v_users (w_store w)) u.
Proof. intros. by apply (names_free_row _ _ u). Qed.

(** An operation of one write. *)
Lemma row_op_once {A} id (f : User → M S A) :
  (∀ u w, ID u = id → v_users (w_store w) !! ID u = Some u → v_inv (w_store w) →
    accounts_ok unique_email (v_users (w_store w)) → wp (f u) (λ _ w', keeps w w') w) → row_op id f.
Proof. intros Hf u w Hid Hu Hi Ha. eapply wp_mono; [by apply Hf|]. intros r w' Hk. by apply rtc_once. Qed.

(** The row is stamped and written with its names as they are. *)
Lemma wp_stamp_row u u0 w :
  v_inv (w_store w) → accounts_ok unique_email (v_users (w_store w)) → v_users (w_store w) !! ID u = Some u →
  ID u0 = ID u → NormalizedUserName u0 = NormalizedUserName u → NormalizedEmail u0 = NormalizedEmail u →
  wp (stamp ← newStamp; us_Update (set_SecurityStamp stamp u0)) (λ _ w', keeps w w') w.
Proof. intros. apply (wp_stamp_Update_keeps _ u); [done|by apply row_free|done..]. Qed.

Lemma row_op_SetUserName id n : row_op id (λ u, SetUserName m u n).
Proof. apply row_op_once. intros. by apply wp_SetUserName_keeps. Qed.

Lemma row_op_SetEmail id e : row_op id (λ u, SetEmail m u e).
Proof. apply row_op_once. intros. by apply (wp_new_email_keeps _ e false). Qed.

Lemma row_op_ChangeEmail id e token : row_op id (λ u, ChangeEmail m u e token).
Proof. apply row_op_once. intros. by apply wp_ChangeEmail_keeps. Qed.

Lemma row_op_ConvertToRegistered id n e pw : row_op id (λ u, ConvertToRegistered m u n e pw).
Proof. apply row_op_once. intros. by apply wp_ConvertToRegistered_keeps. Qed.

Lemma row_op_ConfirmEmail id token : row_op id (λ u, ConfirmEmail m u token).
Proof.
  apply row_op_once. intros u w _ Hu Hi Ha. unfold ConfirmEmail. rewrite wp_bind.
  apply wp_Tokens_Validate; [done|]. intros ok w1 Hs _.
  destruct ok; cbn [negb]; [|wp_steps; by apply same_keeps].
  apply (wp_Update_keeps _ u); [by eapply same_inv|rewrite (same_users _ _ Hs); by apply row_free|done..|].
  intros r w2. by apply keeps_same.
Qed.

Lemma row_op_CheckPassword id pw : row_op id (λ u, CheckPassword m u pw).
Proof. apply row_op_once. intros. by apply wp_CheckPassword_keeps. Qed.

Lemma row_op_ChangePassword id c n : row_op id (λ u, ChangePassword m u c n).
Proof.
  intros u w _ Hu Hi Ha. unfold ChangePassword. wp_steps. apply wp_CheckPassword_keeps; [done..|].
  intros u' ok w2 Hk _ Hset Hid Hn He. pose proof (rtc_once _ _ Hk) as Honce.
  destruct ok; cbn [negb]; [|by wp_steps].
  destruct (ValidatePassword _ _) as [[]|e]; [|by wp_steps].
  apply wp_store_password_keeps; [apply Hk| |intros r w3 Hk3; by eapply rtc_r].
  destruct Hset as [Hs|Hm]; [rewrite (same_users _ _ Hs); by eapply names_free_row|].
  apply row_free; [by eapply row_set_lookup|]. destruct Hm as [_ _ _ -> _ _ _].
  apply accounts_ok_insert; [done|]. by eapply names_free_row.
Qed.

Lemma row_op_ResetPassword id token n : row_op id (λ u, ResetPassword m u token n).
Proof.
  apply row_op_once. intros u w _ Hu Hi Ha. unfold ResetPassword. rewrite wp_bind.
  apply wp_Tokens_Validate; [done|]. intros ok w1 Hs _.
  destruct ok; cbn [negb]; [|wp_steps; by apply same_keeps].
  destruct (ValidatePassword _ _) as [[]|e]; [|wp_steps; by apply same_keeps].
  apply wp_store_password_keeps; [by eapply same_inv|rewrite (same_users _ _ Hs); by apply row_free|].
  intros r w2. by apply keeps_same.
Qed.

Lemma row_op_AddPassword id pw : row_op id (λ u, AddPassword m u pw).
Proof.
  apply row_op_once. intros u w _ Hu Hi Ha. unfold AddPassword.
  destruct (HasPassword u); [wp_steps; by apply same_keeps, same_refl|].
  destruct (ValidatePassword _ _) as [[]|e]; [|wp_steps; by apply same_keeps, same_refl].
  apply wp_store_password_keeps; [done|by apply row_free|done].
Qed.

Lemma row_op_RemovePassword id : row_op id (λ u, RemovePassword u).
Proof. apply row_op_once. intros u w _ Hu Hi Ha. by apply (wp_stamp_row u). Qed.

Lemma row_op_UpdateSecurityStamp id : row_op id UpdateSecurityStamp.
Proof. apply row_op_once. intros u w _ Hu Hi Ha. by apply (wp_stamp_row u). Qed.

Lemma row_op_SetTwoFactorEnabled id b : row_op id (λ u, SetTwoFactorEnabled u b).
Proof. apply row_op_once. intros u w _ Hu Hi Ha. by apply (wp_stamp_row u). Qed.

Lemma row_op_SetPhoneNumber id phone : row_op id (λ u, SetPhoneNumber u phone).
Proof. apply row_op_once. intros u w _ Hu Hi Ha. by apply (wp_stamp_row u). Qed.

(** What follows a check of an SMS code. *)
Lemma wp_consume_then {A} u name guess (k : result bool → M S A) w :
  v_inv (w_store w) → plain (ID u) → v_users (w_store w) !! ID u = Some u →
  accounts_ok unique_email (v_users (w_store w)) →
  (∀ r w1, v_inv (w_store w1) → accounts_ok unique_email (v_users (w_store w1)) →
    v_users (w_store w1) !! ID u = Some u → wp (k r) (λ _ w', keeps w1 w') w1) →
  wp (r ← consumePhoneCode u name guess; k r) (λ _ w', keeps w w') w.
Proof.
  intros Hi Hp Hu Ha Hk. rewrite wp_bind. apply wp_consumePhoneCode_any; [done..|]. intros r w1 Hw1.
  assert (kept w w1) as Hkept by (destruct Hw1 as [Hs|[v Hm]]; [by apply same_kept|by eapply slot_kept]).
  destruct Hkept as (Hle & Hi1 & Hu1).
  eapply wp_mono; [apply Hk; by rewrite ?Hu1|]. intros a w2. by apply keeps_after.
Qed.

Lemma row_op_ConfirmPhoneNumber id code : plain id → row_op id (λ u, ConfirmPhoneNumber u code).
Proof.
  intros Hp. apply row_op_once. intros u w <- Hu Hi Ha.
  apply wp_consume_then; [done..|]. intros [[]|e] w1 Hi1 Ha1 Hu1; wp_steps; try by apply same_keeps, same_refl.
  apply (wp_Update_keeps _ u); [done|by apply row_free|done..].
Qed.

Lemma row_op_ChangePhoneNumber id phone code : plain id → row_op id (λ u, ChangePhoneNumber u phone code).
Proof.
  intros Hp. apply row_op_once. intros u w <- Hu Hi Ha.
  apply wp_consume_then; [done..|]. intros [[]|e] w1 Hi1 Ha1 Hu1; [|wp_steps; by apply same_keeps, same_refl..].
  by apply (wp_stamp_row u).
Qed.

Lemma row_op_AccessFailed id : row_op id (λ u, AccessFailed m u).
Proof.
  apply row_op_once. intros u w _ Hu Hi Ha. unfold AccessFailed. wp_steps.
  pose proof (row_free u w Hu Ha) as Hf.
  case_if Hmax; wp_steps; [|by apply (wp_Update_keeps _ u)].
  pose proof (same_tick w Hi) as Ht. apply (wp_Update_keeps _ u); [done..|].
  intros r w'. by apply keeps_same.
Qed.

Lemma row_op_ResetAccessFailedCount id : row_op id ResetAccessFailedCount.
Proof.
  apply row_op_once. intros u w _ Hu Hi Ha. unfold ResetAccessFailedCount.
  case_if Hz; wp_steps; [by apply same_keeps, same_refl|].
  apply (wp_Update_keeps _ u); [done|by apply row_free|done..].
Qed.

Lemma row_op_Delete id : row_op id Delete.
Proof.
  apply row_op_once. intros u w _ Hu Hi Ha. unfold Delete. wp_call spec_Delete; [done|].
  intros r w' (_ & Hle & Hi' & Hw'). split_and!; [done..|left]. rewrite Hw'. apply delete_subseteq.
Qed.

Lemma wp_PurgeAnonymousUsers_keeps t w :
  v_inv (w_store w) → wp (PurgeAnonymousUsers t) (λ _ w', keeps w w') w.
Proof.
  intros Hi. unfold PurgeAnonymousUsers. destruct us_PurgeAnonymousUsers as [purge|] eqn:Hp.
  - eapply wp_mono; [by eapply spec_PurgeAnonymousUsers|]. intros r w' (_ & Hle & Hi' & Hw').
    split_and!; [done..|left]. rewrite Hw'. apply map_filter_subseteq.
  - wp_steps. by apply same_keeps, same_refl.
Qed.

#[local] Hint Resolve row_op_SetUserName row_op_SetEmail row_op_ChangeEmail row_op_ConvertToRegistered
  row_op_ConfirmEmail row_op_CheckPassword row_op_ChangePassword row_op_ResetPassword row_op_AddPassword
  row_op_RemovePassword row_op_UpdateSecurityStamp row_op_SetTwoFactorEnabled row_op_SetPhoneNumber
  row_op_ConfirmPhoneNumber row_op_ChangePhoneNumber row_op_AccessFailed row_op_ResetAccessFailedCount
  row_op_Delete : core.

Lemma wp_with_account {A} id (f : User → M S A) w :
  row_op id f → v_inv (w_store w) → accounts_ok unique_email (v_users (w_store w)) →
  wp (with_account id f) (λ _ w', rtc keeps w w') w.
Proof.
  intros Hf Hi Ha. unfold with_account, FindByID. rewrite wp_bind. wp_call spec_FindByID; [done|].
  intros r w1 [Hs ->]. pose proof (same_keeps _ _ Hs) as Hk.
  destruct (v_users (w_store w) !! id) as [u|] eqn:Hu; [|wp_steps; by apply rtc_once].
  pose proof (spec_keyed _ Hi id u Hu) as Hid. cbn in Hid. wp_steps.
  eapply wp_mono; [apply Hf; rewrite ?(same_users _ _ Hs), ?Hid; try done; by eapply same_inv|].
  intros r w2 Hk2. wp_steps. by eapply rtc_l.
Qed.

Lemma wp_run_op op w :
  v_inv (w_store w) → accounts_ok unique_email (v_users (w_store w)) → ids_fresh w → op_ok m op w →
  wp (run_op m op) (λ _ w', rtc keeps w w') w.
Proof.
  intros Hi Ha Hfr Hok. destruct op; cbn [run_op op_ok] in *; try (apply wp_with_account; by auto);
    rewrite wp_bind; [apply wp_Create_keeps|apply wp_CreateWithPassword_keeps|apply wp_CreateAnonymous_keeps|
      eapply wp_mono; [by apply wp_PurgeAnonymousUsers_keeps|]]; try done;
    intros; wp_steps; by apply rtc_once.
Qed.

Lemma rtc_keeps_ok w w' :
  Inj (=) (=) o_uuid → rtc keeps w w' → v_inv (w_store w) →
  accounts_ok unique_email (v_users (w_store w)) → ids_fresh w →
  v_inv (w_store w') ∧ accounts_ok unique_email (v_users (w_store w')) ∧ ids_fresh w'.
Proof.
  intros Hinj. induction 1 as [|w1 w2 w3 Hk _ IH]; [done|]. intros _ Ha Hfr.
  destruct (keeps_ok _ _ Hinj Hk Ha Hfr) as (? & ? & ?). by apply IH.
Qed.
End ops.

(** ** Properties *)

(** C13: starting from a store whose accounts have pairwise distinct user names (and
    emails, when required), every sequence of account creations (of guests too),
    changes, deletions and purges, by any of the methods of the user manager that write
    the users table, keeps them distinct, without panicking, for any store and hasher
    that keep their contracts, while drawn ids are distinct and unused and the random
    name of a guest is not in use. *)
Theorem accounts_stay_unique `{Oracle} `{UnicodeDB} `{PBKDF2} {S}
    `{UserStore S, StoreView S, !UserStoreSpec S, !UserRemovalSpec S}
    (m : UserManager S) (HS : HasherSpec (Mgr_Hasher m)) (ops : list account_op) (w : World S) :
  Mgr_Normalizer m "" = "" → Inj (=) (=) o_uuid →
  v_inv (w_store w) → accounts_ok (unique_email m) (v_users (w_store w)) → ids_fresh w → ops_ok m ops w →
  wp (run_ops m ops) (λ _ w', v_inv (w_store w') ∧ accounts_ok (unique_email m) (v_users (w_store w'))) w.
Proof.
  intros Hnorm Hinj. revert w. induction ops as [|op ops IH]; intros w Hi Ha Hfr Hok; cbn [run_ops]; wp_steps; [done|].
  destruct Hok as [Hop Hops]. pose proof (wp_run_op m HS Hnorm op w Hi Ha Hfr Hop) as Hrun.
  apply wp_run in Hrun as ([] & w' & Hw' & Hk). eapply wp_done; [exact Hw'|].
  destruct (rtc_keeps_ok m w w' Hinj Hk Hi Ha Hfr) as (? & ? & ?). by apply IH; [..|apply Hops].
Qed.
