(* ===== verification/SignIn.v ===== *)
(** * Signing in

    [identity/signin_manager.go] and [ExternalLoginSignIn] of
    [identity/external_login.go]: password and second-factor sign-in with lockout,
    remembered devices, security-stamp validation.  The operations return the user as
    they leave it, also where the code mutates its argument. *)

From S2P Require Import Prelude GoStrings GoCrypto Errors World Entities Stores Hasher TokenProvider.
From S2P Require Import Totp UserManager AccountTokens TwoFactor.
From S2P Require Import GoBytes StoreLaws UserManagerFacts TwoFactorFacts.

(** [identity.SignInResult]. *)
Record SignInResult := mkSignInResult {
  Succeeded : bool;
  IsLockedOut : bool;
  IsNotAllowed : bool;
  RequiresTwoFactor : bool;
}.
#[export] Instance SignInResult_eq_dec : EqDecision SignInResult.
Proof. solve_decision. Defined.

Definition sr_failed : SignInResult := mkSignInResult false false false false.
Definition sr_succeeded : SignInResult := mkSignInResult true false false false.
Definition sr_locked : SignInResult := mkSignInResult false true false false.
Definition sr_not_allowed : SignInResult := mkSignInResult false false true false.
Definition sr_two_factor : SignInResult := mkSignInResult false false false true.

(** [subtleConstEq]. *)
Definition subtleConstEq (a b : string) : bool := const_eq (str_bytes a) (str_bytes b).

(** [identity.SignInManagerOf]. *)
Record SignInManager (S : Type) := mkSignInManager {
  SM_Users : UserManager S;
  SM_Options : SignInOptions;
}.
Arguments mkSignInManager {S} _ _.
Arguments SM_Users {S} _.
Arguments SM_Options {S} _.

Section signin.
Context `{Oracle} `{UnicodeDB} `{PBKDF2} {S : Type} `{UserStore S}.

Definition NewSignInManager (users : UserManager S) : SignInManager S :=
  mkSignInManager users (Opt_SignIn (Mgr_Options users)).

Section manager.
Context (s : SignInManager S).
Let m := SM_Users s.

Definition CanSignIn (u : User) : bool :=
  if RequireConfirmedEmail (SM_Options s) && negb (EmailConfirmed u) then false
  else if RequireConfirmedPhoneNumber (SM_Options s) && negb (PhoneNumberConfirmed u) then false
  else true.

(** [if err := ResetAccessFailedCount(); err != nil { Warn }]. *)
Definition reset_failures (u : User) : M S User :=
  '(u, r) ← ResetAccessFailedCount u;
  match r with
  | Ok _ => mret u
  | Err _ => _ ← log_Warn m "identity: failed to reset access-failed count"; mret u
  end.

Definition passwordSignInUser (u : User) (password : string) (lockoutOnFailure : bool)
    : M S (SignInResult * User) :=
  locked ← UserManager.IsLockedOut u;
  if locked : bool then mret (sr_locked, u) else
  if negb (CanSignIn u) then mret (sr_not_allowed, u) else
  '(u, ok) ← CheckPassword m u password;
  if ok : bool then
    u ← reset_failures u;
    if TwoFactorEnabled u then mret (sr_two_factor, u) else mret (sr_succeeded, u)
  else if lockoutOnFailure then
    '(u, r) ← AccessFailed m u;
    _ ← match r with
        | Ok _ => mret tt
        | Err _ => log_Warn m "identity: failed to record access failure"
        end;
    locked ← UserManager.IsLockedOut u;
    if locked : bool then mret (sr_locked, u) else mret (sr_failed, u)
  else mret (sr_failed, u).

Definition PasswordSignIn (userName password : string) (lockoutOnFailure : bool)
    : M S (SignInResult * option User) :=
  r ← FindByName m userName;
  match r with
  | Ok (Some u) =>
    '(res, u) ← passwordSignInUser u password lockoutOnFailure;
    mret (res, Some u)
  | _ => mret (sr_failed, None)
  end.

Definition IsTwoFactorClientRemembered (u : User) (rememberToken : string) : M S bool :=
  VerifyTwoFactorRememberToken m u rememberToken.

Definition PasswordSignInRemembering (userName password : string) (lockoutOnFailure : bool)
    (rememberToken : string) : M S (SignInResult * option User) :=
  r ← FindByName m userName;
  match r with
  | Ok (Some u) =>
    '(res, u) ← passwordSignInUser u password lockoutOnFailure;
    if RequiresTwoFactor res then
      ok ← IsTwoFactorClientRemembered u rememberToken;
      if ok : bool then mret (sr_succeeded, Some u) else mret (res, Some u)
    else mret (res, Some u)
  | _ => mret (sr_failed, None)
  end.

(** The common body of [TwoFactorAuthenticatorSignIn] and [TwoFactorPhoneSignIn]:
    the error of [AccessFailed] is dropped. *)
Definition second_factor (u : User) (verify : M S (result bool)) : M S (SignInResult * User) :=
  locked ← UserManager.IsLockedOut u;
  if locked : bool then mret (sr_locked, u) else
  r ← verify;
  match r with
  | Ok true => u ← reset_failures u; mret (sr_succeeded, u)
  | _ =>
    '(u, _) ← AccessFailed m u;
    locked ← UserManager.IsLockedOut u;
    if locked : bool then mret (sr_locked, u) else mret (sr_failed, u)
  end.

Definition TwoFactorAuthenticatorSignIn (u : User) (code : string) : M S (SignInResult * User) :=
  second_factor u (VerifyTwoFactorTOTP u code).
Definition TwoFactorPhoneSignIn (u : User) (code : string) : M S (SignInResult * User) :=
  second_factor u (VerifyPhoneToken u code).

Definition TwoFactorRecoveryCodeSignIn (u : User) (code : string) : M S (SignInResult * User) :=
  locked ← UserManager.IsLockedOut u;
  if locked : bool then mret (sr_locked, u) else
  r ← RedeemRecoveryCode u code;
  match r with
  | Ok true => u ← reset_failures u; mret (sr_succeeded, u)
  | _ => mret (sr_failed, u)
  end.

Definition ValidateSecurityStamp (userID stamp : string) : M S (option User) :=
  r ← FindByID userID;
  mret match r with
       | Ok (Some u) => if subtleConstEq (SecurityStamp u) stamp then Some u else None
       | _ => None
       end.

Definition RefreshSignIn (userID stamp : string) : M S (SignInResult * option User) :=
  r ← ValidateSecurityStamp userID stamp;
  match r with
  | None => mret (sr_failed, None)
  | Some u =>
    locked ← UserManager.IsLockedOut u;
    if locked : bool then mret (sr_locked, Some u) else
    if negb (CanSignIn u) then mret (sr_not_allowed, Some u)
    else mret (sr_succeeded, Some u)
  end.

Definition ExternalLoginSignIn (loginProvider providerKey : string) : M S (SignInResult * option User) :=
  r ← FindByLogin loginProvider providerKey;
  match r with
  | Ok (Some u) =>
    locked ← UserManager.IsLockedOut u;
    if locked : bool then mret (sr_locked, Some u) else
    if negb (CanSignIn u) then mret (sr_not_allowed, Some u) else
    '(u, _) ← ResetAccessFailedCount u;
    if TwoFactorEnabled u then mret (sr_two_factor, Some u) else mret (sr_succeeded, Some u)
  | _ => mret (sr_failed, None)
  end.
End manager.
End signin.

(** * Correctness of signing in

    What a password sign-in has checked for each result, the lockout counter as it
    advances over failed attempts, and the second factor. *)

Local Open Scope Z_scope.

(** Locked at [t]. *)
Definition locked_at (u : User) (t : Time) : bool :=
  LockoutEnabled u && match LockoutEnd u with Some e => t <? e | None => false end.

Lemma locked_at_spec u t :
  locked_at u t = true ↔ LockoutEnabled u = true ∧ ∃ e, LockoutEnd u = Some e ∧ t < e.
Proof.
  unfold locked_at. rewrite andb_true_iff. destruct (LockoutEnd u) as [e|]; [|naive_solver].
  rewrite Z.ltb_lt. naive_solver.
Qed.

(** The fields a failed or successful attempt leaves alone. *)
Definition same_account (u u' : User) : Prop :=
  u' = set_ConcurrencyStamp (ConcurrencyStamp u')
    (set_AccessFailedCount (AccessFailedCount u') (set_LockoutEnd (LockoutEnd u') u)).

Lemma same_account_refl u : same_account u u.
Proof. by destruct u. Qed.
Lemma same_account_trans u1 u2 u3 : same_account u1 u2 → same_account u2 u3 → same_account u1 u3.
Proof. unfold same_account. intros H1 H2. rewrite H2 at 1. rewrite H1. by destruct u1, u2, u3. Qed.

(** The row after [AccessFailed] at time [t], before [Update] stamps it. *)
Definition failed_row (o : LockoutOptions) (t : Time) (u : User) : User :=
  let u := incr_failed u in
  if MaxFailedAccessAttempts o <=? AccessFailedCount u
  then set_AccessFailedCount 0 (set_LockoutEnd (Some (t + DefaultLockoutDuration o)) u)
  else u.

Section facts.
Context `{Oracle} `{UnicodeDB} `{PBKDF2} {S : Type} `{UserStore S, StoreView S, !UserStoreSpec S}.
Context (s : SignInManager S) (HS : HasherSpec (Mgr_Hasher (SM_Users s))).
Abbreviation m := (SM_Users s).
Implicit Types w : World S.

(** The lock is read against the clock only when there is one. *)
Lemma wp_IsLockedOut u w (Q : bool → World S → Prop) :
  v_inv (w_store w) →
  (∀ i w', (w_step w <= i)%nat → same w w' → Q (locked_at u (o_now i)) w') →
  wp (UserManager.IsLockedOut u) Q w.
Proof.
  intros Hi HQ. unfold UserManager.IsLockedOut. specialize (HQ (w_step w)). unfold locked_at in HQ.
  destruct (LockoutEnabled u); cbn [negb andb] in *; [|wp_steps; apply HQ; [lia|by apply same_refl]].
  destruct (LockoutEnd u) as [e|]; wp_steps; apply HQ; try lia; [by apply same_tick|by apply same_refl].
Qed.

Lemma wp_AccessFailed u w (Q : User * result unit → World S → Prop) :
  v_inv (w_store w) →
  (∀ i j w', (w_step w <= i)%nat → current w u →
    let u' := set_ConcurrencyStamp (o_uuid j) (failed_row (Opt_Lockout (Mgr_Options m)) (o_now i) u) in
    row_set w w' u' → Q (u', Ok tt) w') →
  (∀ i e w', (w_step w <= i)%nat → ¬ current w u → same w w' →
    Q (failed_row (Opt_Lockout (Mgr_Options m)) (o_now i) u, Err e) w') →
  wp (AccessFailed m u) Q w.
Proof.
  intros Hi HQ HE. unfold AccessFailed. wp_steps.
  set (o := Opt_Lockout (Mgr_Options m)) in *. pose proof (same_tick w Hi) as Ht.
  assert (∀ t, current w u ↔ current w (failed_row o t u)) as Hcur
    by (intros t; unfold failed_row; by case_match).
  unfold failed_row in *. case_if Hmax; wp_steps.
  - apply wp_Update; [done| |].
    + intros j w' _ Hc Hm. apply (HQ (w_step w) j); [lia|by apply (Hcur (o_now (w_step w)))|].
      by eapply row_set_same.
    + intros e w' Hc _ Hs. apply (HE (w_step w)); [lia| |by eapply same_trans].
      intros Hc'. apply Hc. by apply (Hcur (o_now (w_step w))) in Hc'.
  - apply wp_Update; [done| |].
    + intros j w' _ Hc Hm. apply (HQ (w_step w) j); [lia|by apply (Hcur 0)|done].
    + intros e w' Hc _ Hs. apply (HE (w_step w)); [lia| |done].
      intros Hc'. apply Hc. by apply (Hcur 0) in Hc'.
Qed.

(** Clearing the counter writes at most the row. *)
Lemma wp_reset_failures u w (Q : User → World S → Prop) :
  v_inv (w_store w) →
  (∀ u' w', same_account u u' → (same w w' ∨ row_set w w' u') →
    AccessFailedCount u' = 0 → LockoutEnd u' = LockoutEnd u → Q u' w') →
  wp (reset_failures s u) Q w.
Proof.
  intros Hi HQ. unfold reset_failures, ResetAccessFailedCount.
  destruct (Z.eqb_spec (AccessFailedCount u) 0) as [Hz|Hz]; wp_steps.
  - apply HQ; [apply same_account_refl|left; by apply same_refl|done..].
  - apply wp_Update; [done| |].
    + intros i w' _ _ Hm. wp_steps. apply HQ; [by destruct u|by right|done..].
    + intros e w' _ _ Hs. wp_steps. apply wp_log_Warn; [by eapply same_inv|]. intros w2 Hs2. wp_steps.
      apply HQ; [by destruct u|left; by eapply same_trans|done..].
Qed.

(** The branches of a password sign-in. *)
Lemma wp_passwordSignInUser u pw lof w (Q : SignInResult * User → World S → Prop) :
  v_inv (w_store w) →
  let ok := negb (String.eqb (PasswordHash u) "") && (h_check HS (PasswordHash u) pw).1 in
  (∀ i w', (w_step w <= i)%nat → locked_at u (o_now i) = true → same w w' → Q (sr_locked, u) w') →
  (∀ i w', (w_step w <= i)%nat → locked_at u (o_now i) = false → CanSignIn s u = false → same w w' →
    Q (sr_not_allowed, u) w') →
  (∀ i u' w', (w_step w <= i)%nat → locked_at u (o_now i) = false → CanSignIn s u = true → ok = true →
    ID u' = ID u → v_inv (w_store w') →
    Q (if TwoFactorEnabled u then sr_two_factor else sr_succeeded, u') w') →
  (∀ i w', (w_step w <= i)%nat → locked_at u (o_now i) = false → CanSignIn s u = true → ok = false →
    lof = false → same w w' → Q (sr_failed, u) w') →
  (∀ i j k w', CanSignIn s u = true → ok = false → lof = true → (w_step w <= i)%nat → (w_step w <= j)%nat →
    locked_at u (o_now i) = false →
    let u' := failed_row (Opt_Lockout (Mgr_Options m)) (o_now j) u in
    (∀ c, current w u → row_set w w' (set_ConcurrencyStamp c u') →
      Q (if locked_at u' (o_now k) then sr_locked else sr_failed, set_ConcurrencyStamp c u') w') ∧
    (¬ current w u → same w w' →
      Q (if locked_at u' (o_now k) then sr_locked else sr_failed, u') w')) →
  wp (passwordSignInUser s u pw lof) Q w.
Proof.
  intros Hi ok HL HN HOk HF HA. unfold passwordSignInUser. rewrite wp_bind.
  apply wp_IsLockedOut; [done|]. intros i w1 Hi1 Hs1. destruct (locked_at u (o_now i)) eqn:Hl; [wp_steps; by eapply HL|].
  destruct (CanSignIn s u) eqn:Hcan; cbn [negb]; [|wp_steps; by eapply HN].
  assert (v_inv (w_store w1)) as Hv1 by by eapply same_inv.
  assert (∀ u1 w2, ok = true → v_inv (w_store w2) → ID u1 = ID u → TwoFactorEnabled u1 = TwoFactorEnabled u →
    wp (u2 ← reset_failures s u1; if TwoFactorEnabled u2 then mret (sr_two_factor, u2) else mret (sr_succeeded, u2)) Q w2) as Hsucc.
  { intros u1 w2 Hok Hv2 Hid Htf. rewrite wp_bind. apply wp_reset_failures; [done|].
    intros u2 w3 Hacc Hw3 _ _.
    assert (TwoFactorEnabled u2 = TwoFactorEnabled u ∧ ID u2 = ID u) as [Htf2 Hid2]
      by (rewrite Hacc; cbn; by rewrite Htf, Hid).
    assert (v_inv (w_store w3)) as Hv3
      by (destruct Hw3 as [?|?]; [by eapply same_inv|by eapply row_set_inv]).
    specialize (HOk i u2 w3 Hi1 Hl eq_refl Hok Hid2 Hv3). rewrite Htf2.
    by destruct (TwoFactorEnabled u); wp_steps. }
  rewrite wp_bind. apply (wp_CheckPassword m HS); [done|..]; fold ok.
  - intros w2 Hs2. pose proof (same_trans _ _ _ Hs1 Hs2) as Hs12.
    assert (v_inv (w_store w2)) as Hv2 by by eapply same_inv.
    destruct ok eqn:Hok; [by apply Hsucc|].
    destruct lof; [|wp_steps; by eapply HF].
    rewrite wp_bind. apply wp_AccessFailed; [done| |].
    + intros j c w3 Hj Hc u' Hm. wp_steps. apply wp_IsLockedOut; [by eapply row_set_inv|].
      intros k w4 Hk Hs4. apply (row_set_same w w2) in Hm; [|done].
      assert (row_set w w4 u') as Hm4.
      { unfold row_set, same in *. moves_after Hm Hs4. }
      pose proof (same_step _ _ Hs12).
      destruct (HA i j k w4 eq_refl eq_refl eq_refl Hi1 ltac:(lia) Hl) as [HA1 _].
      specialize (HA1 (o_uuid c) (proj1 (current_same _ _ _ Hs12) Hc) Hm4).
      change (locked_at u' (o_now k)) with (locked_at (failed_row (Opt_Lockout (Mgr_Options m)) (o_now j) u) (o_now k)).
      by case_match; wp_steps.
    + intros j e w3 Hj Hc Hs3. wp_steps. apply wp_log_Warn; [by eapply same_inv|]. intros w4 Hs4. wp_steps.
      apply wp_IsLockedOut; [by eapply same_inv|]. intros k w5 Hk Hs5.
      assert (same w w5) as Hs15 by (eapply same_trans; [|done]; eapply same_trans; [|done]; by eapply same_trans).
      pose proof (same_step _ _ Hs12).
      destruct (HA i j k w5 eq_refl eq_refl eq_refl Hi1 ltac:(lia) Hl) as [_ HA2].
      specialize (HA2 ltac:(by rewrite <-(current_same _ _ u Hs12)) Hs15).
      by case_match; wp_steps.
  - intros h c w2 Hok _ _ Hc u1 Hm. apply (row_set_same w w1) in Hm; [|done].
    apply Hsucc; [done|by eapply row_set_inv|done..].
  - intros h w2 Hok _ _ Hc Hs2. apply Hsucc; [done|by eapply same_inv|done..].
Qed.

(** [u] is the account behind a user name. *)
Definition account_of w (name : string) (u : User) : Prop :=
  v_users (w_store w) !! ID u = Some u ∧ NormalizedUserName u = Mgr_Normalizer m name ∧
  map_Forall (λ k r, NormalizedUserName r = Mgr_Normalizer m name → k = ID u) (v_users (w_store w)).

Lemma wp_FindByName_account name u w (Q : result (option User) → World S → Prop) :
  v_inv (w_store w) → account_of w name u →
  (∀ w', same w w' → Q (Ok (Some u)) w') → wp (FindByName m name) Q w.
Proof.
  intros Hi (Hu & Hn & Hsole) HQ. unfold FindByName. wp_call spec_FindByName; [done|].
  intros r w' [Hs Hr]. destruct Hr as [(u' & -> & Hu' & Hn')|[-> Hr]].
  - assert (ID u' = ID u) as Hid by by eapply Hsole. rewrite Hid, Hu in Hu'. injection Hu' as <-. by apply HQ.
  - by destruct (Hr (ID u) u Hu).
Qed.

Lemma account_of_same w w' name u : same w w' → account_of w name u → account_of w' name u.
Proof. intros Hs. unfold account_of. by rewrite (same_users _ _ Hs). Qed.

Lemma account_of_row_set w w' name u u' :
  account_of w name u → same_account u u' → row_set w w' u' → account_of w' name u'.
Proof.
  intros (Hu & Hn & Hsole) Hacc [_ _ _ HU _ _ _]. unfold account_of. rewrite HU.
  assert (ID u' = ID u ∧ NormalizedUserName u' = NormalizedUserName u) as [Hid Hn'] by by rewrite Hacc.
  split; [by rewrite lookup_insert_eq|]. split; [congruence|].
  apply map_Forall_insert_2; [done|]. by rewrite Hid.
Qed.

(** One failed attempt on an account without a lock. *)
Lemma wp_failed_attempt name pw u w (Q : SignInResult * option User → World S → Prop) :
  v_inv (w_store w) → account_of w name u → LockoutEnd u = None → CanSignIn s u = true →
  negb (String.eqb (PasswordHash u) "") && (h_check HS (PasswordHash u) pw).1 = false →
  (∀ c j k w', let u' := set_ConcurrencyStamp c (failed_row (Opt_Lockout (Mgr_Options m)) (o_now j) u) in
    row_set w w' u' → Q (if locked_at u' (o_now k) then sr_locked else sr_failed, Some u') w') →
  wp (PasswordSignIn s name pw true) Q w.
Proof.
  intros Hi Hacc Hend Hcan Hno HQ. unfold PasswordSignIn. rewrite wp_bind.
  apply (wp_FindByName_account name u); [done..|]. intros w1 Hs1. rewrite wp_bind.
  pose proof Hacc as (Hu & _ & _).
  assert (current w1 u) as Hc1 by (apply (current_same _ _ _ Hs1); by exists u).
  apply (wp_passwordSignInUser u pw true); [by eapply same_inv|..].
  - intros i w' _ Hl _. apply locked_at_spec in Hl as (_ & e & He & _). congruence.
  - congruence.
  - intros ????? _ Hok. by rewrite Hno in Hok.
  - done.
  - intros i j k w' _ _ _ _ _ _ u'. split; [|by intros Hc].
    intros c _ Hm. wp_steps. apply (HQ c j k). by eapply row_set_same.
Qed.

(** Below the limit, failures only count. *)
Lemma wp_failed_attempts n name pw w (Q : list (SignInResult * option User) → World S → Prop) u :
  v_inv (w_store w) → account_of w name u → LockoutEnd u = None → CanSignIn s u = true →
  negb (String.eqb (PasswordHash u) "") && (h_check HS (PasswordHash u) pw).1 = false →
  0 <= AccessFailedCount u → MaxFailedAccessAttempts (Opt_Lockout (Mgr_Options m)) <= MaxInt64 →
  AccessFailedCount u + Z.of_nat n < MaxFailedAccessAttempts (Opt_Lockout (Mgr_Options m)) →
  (∀ rs u' w', length rs = n → Forall (λ r, r.1 = sr_failed) rs → v_inv (w_store w') →
    account_of w' name u' → same_account u u' → LockoutEnd u' = None →
    AccessFailedCount u' = AccessFailedCount u + Z.of_nat n → Q rs w') →
  wp (replicate_M n (PasswordSignIn s name pw true)) Q w.
Proof.
  revert w Q u. induction n as [|n IH]; intros w Q u Hi Hacc Hend Hcan Hno Hc0 Hmax Hlt HQ; cbn [replicate_M].
  { wp_steps. apply (HQ [] u); try done; [apply same_account_refl|lia]. }
  rewrite wp_bind. apply (wp_failed_attempt name pw u); [done..|]. intros c j k w1 u' Hm.
  assert (failed_row (Opt_Lockout (Mgr_Options m)) (o_now j) u = incr_failed u) as Hfr.
  { unfold failed_row. cbn. rewrite wrap_int64_small by (unfold MinInt64; lia).
    by rewrite (proj2 (Z.leb_gt _ _)) by lia. }
  unfold u' in *. rewrite Hfr in *. set (u1 := set_ConcurrencyStamp c (incr_failed u)) in *.
  assert (same_account u u1) as Hsa by by destruct u.
  assert (locked_at u1 (o_now k) = false) as ->.
  { apply not_true_is_false. rewrite locked_at_spec. intros (_ & e & He & _). cbn in He. congruence. }
  assert (AccessFailedCount u1 = AccessFailedCount u + 1) as Hcnt.
  { cbn. by rewrite wrap_int64_small by (unfold MinInt64; lia). }
  rewrite wp_bind. apply (IH w1 _ u1); try done; [by eapply row_set_inv|by eapply account_of_row_set|lia|lia|].
  intros rs u2 w2 Hl Hf Hi2 Hacc2 Hsa2 Hend2 Hcnt2. wp_steps.
  apply (HQ _ u2); first [done|by constructor|by eapply same_account_trans|lia|by rewrite <-Hl].
Qed.

(** A locked account refuses every password while the lock lasts. *)
Lemma wp_locked_attempt name pw lof u w :
  v_inv (w_store w) → account_of w name u →
  wp (PasswordSignIn s name pw lof) (λ r w', ∃ i, (w_step w <= i)%nat ∧
    (locked_at u (o_now i) = true → r = (sr_locked, Some u) ∧ same w w')) w.
Proof.
  intros Hi Hacc. unfold PasswordSignIn. rewrite wp_bind.
  apply (wp_FindByName_account name u); [done..|]. intros w1 Hs1. rewrite wp_bind.
  pose proof (same_step _ _ Hs1).
  apply (wp_passwordSignInUser u pw lof); [by eapply same_inv|..].
  - intros i w' Hle Hl Hs. wp_steps. exists i. split; [lia|]. intros _. split; [done|by eapply same_trans].
  - intros i w' Hle Hl _ _. wp_steps. exists i. split; [lia|]. congruence.
  - intros i u' w' Hle Hl _ _ _ _. wp_steps. exists i. split; [lia|]. congruence.
  - intros i w' Hle Hl _ _ _ _. wp_steps. exists i. split; [lia|]. congruence.
  - intros i j k w' _ _ _ Hle _ Hl u'.
    split; intros; wp_steps; exists i; (split; [lia|congruence]).
Qed.
End facts.

(** ** Properties *)

(** C14: a password sign-in succeeds, or asks for the second factor, only for an
    account found under the normalized name, that was not locked at a time the attempt
    read the clock, meets the confirmation rules, and whose stored hash accepts the
    password; which of the two depends on whether two-factor is enabled.  It never
    panics, and an unknown name fails without touching the store. *)
Theorem PasswordSignIn_sound `{Oracle} `{UnicodeDB} `{PBKDF2} {S} `{UserStore S, StoreView S, !UserStoreSpec S}
    (s : SignInManager S) (HS : HasherSpec (Mgr_Hasher (SM_Users s))) name pw lof (w : World S) :
  v_inv (w_store w) →
  wp (PasswordSignIn s name pw lof) (λ '(res, ou) w',
    (Succeeded res = true ∨ RequiresTwoFactor res = true →
      ∃ u i, v_users (w_store w) !! ID u = Some u
        ∧ NormalizedUserName u = Mgr_Normalizer (SM_Users s) name
        ∧ (w_step w <= i)%nat ∧ locked_at u (o_now i) = false ∧ CanSignIn s u = true
        ∧ PasswordHash u ≠ "" ∧ (h_check HS (PasswordHash u) pw).1 = true
        ∧ res = (if TwoFactorEnabled u then sr_two_factor else sr_succeeded)
        ∧ ∃ u', ou = Some u' ∧ ID u' = ID u)
    ∧ (map_Forall (λ _ r, NormalizedUserName r ≠ Mgr_Normalizer (SM_Users s) name) (v_users (w_store w)) →
        res = sr_failed ∧ ou = None ∧ same w w')) w.
Proof.
  intros Hi. unfold PasswordSignIn. rewrite wp_bind. unfold FindByName. wp_call spec_FindByName; [done|].
  intros r w1 [Hs1 [(u & -> & Hu & Hn)|[-> Hr]]].
  2: { wp_steps. split; [by intros [?|?]|done]. }
  assert (∀ P : Prop, map_Forall (λ _ r, NormalizedUserName r ≠ Mgr_Normalizer (SM_Users s) name)
    (v_users (w_store w)) → P) as Hno by (intros P Hf; by destruct (Hf _ _ Hu)).
  rewrite wp_bind. apply (wp_passwordSignInUser s HS u pw lof); [by eapply same_inv|..].
  - intros. wp_steps. split; [by intros [?|?]|intros Hf; exact (Hno _ Hf)].
  - intros. wp_steps. split; [by intros [?|?]|intros Hf; exact (Hno _ Hf)].
  - intros i u' w' Hge Hl Hcan Hok Hid _. wp_steps. split; [|intros Hf; exact (Hno _ Hf)].
    apply same_step in Hs1. intros _. apply andb_true_iff in Hok as [Hne%negb_true_iff%String.eqb_neq Hck].
    exists u, i. split_and!; try done; [lia|by exists u'].
  - intros. wp_steps. split; [by intros [?|?]|intros Hf; exact (Hno _ Hf)].
  - intros i j k w' _ _ _ _ _ _ u'. split; intros; wp_steps;
      (split; [case_match; by intros [?|?]|intros Hf; exact (Hno _ Hf)]).
Qed.

(** C15: lockout. On an account with [c] recorded failures and a limit of [max], wrong
    passwords are refused and counted; the one that reaches the limit sets the lock to
    [DefaultLockoutDuration] from then and clears the counter; and while the lock
    lasts every attempt, also with the right password, is refused as locked and
    changes nothing. *)
Theorem lockout_after_max `{Oracle} `{UnicodeDB} `{PBKDF2} {S} `{UserStore S, StoreView S, !UserStoreSpec S}
    (s : SignInManager S) (HS : HasherSpec (Mgr_Hasher (SM_Users s))) name pw (u : User) (w : World S) :
  let o := Opt_Lockout (Mgr_Options (SM_Users s)) in
  v_inv (w_store w) → account_of s w name u → LockoutEnd u = None → CanSignIn s u = true →
  negb (String.eqb (PasswordHash u) "") && (h_check HS (PasswordHash u) pw).1 = false →
  0 <= AccessFailedCount u < MaxFailedAccessAttempts o → MaxFailedAccessAttempts o <= MaxInt64 →
  let n := Z.to_nat (MaxFailedAccessAttempts o - AccessFailedCount u - 1) in
  wp (replicate_M n (PasswordSignIn s name pw true)) (λ rs w1,
    Forall (λ r, r.1 = sr_failed) rs ∧
    wp (PasswordSignIn s name pw true) (λ r w2, ∃ u' j,
      account_of s w2 name u' ∧ same_account u u' ∧ AccessFailedCount u' = 0
      ∧ LockoutEnd u' = Some (o_now j + DefaultLockoutDuration o)
      ∧ ∀ pw' lof, wp (PasswordSignIn s name pw' lof) (λ r w3, ∃ i, (w_step w2 <= i)%nat ∧
          (LockoutEnabled u = true → o_now i < o_now j + DefaultLockoutDuration o →
            r = (sr_locked, Some u') ∧ same w2 w3)) w2) w1) w.
Proof.
  intros o Hi Hacc Hend Hcan Hno Hc Hmax n.
  apply (wp_failed_attempts s HS n name pw w _ u); try done; [lia|fold o; lia|].
  intros rs u1 w1 Hl Hf Hi1 Hacc1 Hsa1 Hend1 Hcnt1. split; [done|].
  assert (CanSignIn s u1 = CanSignIn s u ∧ PasswordHash u1 = PasswordHash u
    ∧ LockoutEnabled u1 = LockoutEnabled u) as (Hcan1 & Hph1 & Hle1) by (rewrite Hsa1; done).
  apply (wp_failed_attempt s HS name pw u1); [done..|by rewrite Hcan1|by rewrite Hph1|].
  intros c j k w2. cbn zeta. fold o.
  assert (failed_row o (o_now j) u1 = set_AccessFailedCount 0
    (set_LockoutEnd (Some (o_now j + DefaultLockoutDuration o)) (incr_failed u1))) as ->.
  { unfold failed_row. cbn. rewrite wrap_int64_small by (unfold MinInt64; lia).
    by rewrite (proj2 (Z.leb_le _ _)) by lia. }
  set (u2 := set_ConcurrencyStamp c _). intros Hm.
  assert (same_account u1 u2) as Hsa2 by by destruct u1.
  assert (account_of s w2 name u2) as Hacc2 by by eapply account_of_row_set.
  exists u2, j. split_and!; [done|by eapply same_account_trans|done|done|].
  intros pw' lof. eapply wp_mono; [apply (wp_locked_attempt s HS name pw' lof u2 w2); [by eapply row_set_inv|done]|].
  intros r w3 (i & Hle & Hr). exists i. split; [done|]. intros Hen Ht. apply Hr, locked_at_spec.
  split; [by rewrite <-Hle1 in Hen|]. by eexists.
Qed.
