(* ===== verification/Jwt.v ===== *)
(** * JSON Web Tokens

    [github.com/golang-jwt/jwt/v5] is third-party: [SignedString] and [Parse] are
    parameters ([JWT]), with the documented behaviour the program relies on as laws
    ([JWTLaws]): what an accepted token satisfies, and that a token signed with a key
    parses under the matching verification key while its claims are valid.  RSA and
    ECDSA keys are parameters too. *)

From S2P Require Import Prelude GoStrings Errors World.

Local Open Scope Z_scope.

(** A decoded JSON value; a number is an integer or kept as its text. *)
#[warnings="-register-all"]
Inductive json :=
  | JNull
  | JBool (b : bool)
  | JNum (z : Z)
  | JFloat (repr : string)
  | JStr (s : string)
  | JArr (l : list json)
  | JObj (l : list (string * json)).

(** [v, _ := x.(string)] on a map entry. *)
Definition as_string (v : option json) : string := match v with Some (JStr s) => s | _ => "" end.

Abbreviation MapClaims := (gmap string json).

(** [jwt.Token]: the algorithm of its method, the header and the claims. *)
Record Token := mkToken { tok_Alg : string; tok_Header : gmap string json; tok_Claims : MapClaims }.

(** The parser options the program passes. *)
Record ParserOptions := mkParserOptions {
  po_ValidMethods : list string;
  po_Issuer : string;
  po_Audience : option string;
  po_ExpirationRequired : bool;
}.

Class JWT := {
  RSAPrivateKey : Type;
  RSAPublicKey : Type;
  ECPrivateKey : Type;
  ECPublicKey : Type;
  RSA_Public : RSAPrivateKey → RSAPublicKey;
  EC_Public : ECPrivateKey → ECPublicKey;
  (** the signature of a token under raw key material *)
  jwt_SignHMAC : Token → bytes → result string;
  jwt_SignRSA : Token → RSAPrivateKey → result string;
  jwt_SignEC : Token → ECPrivateKey → result string;
  (** [jwt.Parse] at a given time, with the keys as in [VerifyKey] below *)
  jwt_ParseWith : (Token → result (bytes + (RSAPublicKey + ECPublicKey))) → ParserOptions → Time →
    string → result Token;
}.

Section keys.
Context `{JWT}.

(** [any] keys handed to the library; a nil key pointer is [None]. *)
Inductive SignKey :=
  | HMACKey (k : bytes)
  | RSAKey (k : option RSAPrivateKey)
  | ECKey (k : option ECPrivateKey).
Definition VerifyKey : Type := bytes + (RSAPublicKey + ECPublicKey).

(** [tok.SignedString(key)]; a nil private key is an error of the library. *)
Definition SignedString (t : Token) (k : SignKey) : result string :=
  match k with
  | HMACKey k => jwt_SignHMAC t k
  | RSAKey (Some k) => jwt_SignRSA t k
  | ECKey (Some k) => jwt_SignEC t k
  | _ => Err (OtherError "key is of invalid type")
  end.

Definition public_of (k : SignKey) : option VerifyKey :=
  match k with
  | HMACKey k => Some (inl k)
  | RSAKey (Some k) => Some (inr (inl (RSA_Public k)))
  | ECKey (Some k) => Some (inr (inr (EC_Public k)))
  | _ => None
  end.

Definition Parse (kf : Token → result VerifyKey) (po : ParserOptions) (t : Time) (s : string) : result Token :=
  jwt_ParseWith kf po t s.
End keys.

(** [jwt.NewWithClaims]: the header names the algorithm. *)
Definition NewWithClaims (alg : string) (claims : MapClaims) : Token :=
  mkToken alg {["typ" := JStr "JWT"; "alg" := JStr alg]} claims.
Definition set_Header (k : string) (v : json) (t : Token) : Token :=
  mkToken (tok_Alg t) (<[k := v]> (tok_Header t)) (tok_Claims t).

(** Registered claims as the parser checks them (no leeway): an empty expected issuer
    is not checked, an empty expected audience matches nothing. *)
Definition audience_ok (aud : string) (v : option json) : Prop :=
  match v with
  | Some (JStr a) => a = aud
  | Some (JArr l) => JStr aud ∈ l
  | _ => False
  end.
Definition claims_valid (po : ParserOptions) (t : Time) (c : MapClaims) : Prop :=
  (po_Issuer po = "" ∨ as_string (c !! "iss") = po_Issuer po)
  ∧ match po_Audience po with None => True | Some aud => aud ≠ "" ∧ audience_ok aud (c !! "aud") end
  ∧ match c !! "exp" with
    | Some (JNum e) => t < e * Second
    | None => po_ExpirationRequired po = false
    | _ => True
    end
  ∧ match c !! "nbf" with Some (JNum n) => n * Second <= t | _ => True end.

(** Values that a JSON round trip gives back: numbers exact in a [float64].  Strings are
    taken to be valid UTF-8; the encoder replaces other bytes by U+FFFD. *)
Fixpoint json_exact (v : json) : bool :=
  match v with
  | JNum z => Z.abs z <=? 2 ^ 53
  | JArr l => forallb json_exact l
  | JFloat _ | JObj _ => false
  | _ => true
  end.
Definition token_exact (t : Token) : Prop :=
  map_Forall (λ _ v, json_exact v = true) (tok_Header t) ∧ map_Forall (λ _ v, json_exact v = true) (tok_Claims t).

Class JWTLaws `{JWT} : Prop := {
  (** an accepted token has an allowed algorithm, a key from the key function and
      valid claims *)
  Parse_sound kf po t s tok : Parse kf po t s = Ok tok →
    tok_Alg tok ∈ po_ValidMethods po ∧ is_ok (kf tok) = true ∧ claims_valid po t (tok_Claims tok);
  (** a signed token is accepted under the matching key while its claims are valid *)
  Parse_signed kf po t s tok k pk : SignedString tok k = Ok s → public_of k = Some pk →
    kf tok = Ok pk → tok_Alg tok ∈ po_ValidMethods po → token_exact tok →
    tok_Header tok !! "alg" = Some (JStr (tok_Alg tok)) →
    claims_valid po t (tok_Claims tok) → Parse kf po t s = Ok tok;
}.
