(* ===== verification/GoJson.v ===== *)
(** * JSON text

    The parts of [encoding/json] the SQL stores use: [Marshal] of strings, string slices
    and string maps, and [Unmarshal] of any text into a slice or a map of strings, with the
    values that are left when it fails half-way.  A text is decoded rune by rune, so invalid
    UTF-8 becomes U+FFFD as in Go.  Nesting is bounded by the length of the text here, by
    10000 levels in Go. *)

From S2P Require Import Prelude GoStrings Jwt.

Local Open Scope Z_scope.

(** ** Marshal *)

Definition hex_digit (d : Z) : ascii := if d <? 10 then to_byte (0x30 + d) else to_byte (0x57 + d).
Definition u_escape (r : Z) : bytes :=
  str_bytes "\u" ++ [hex_digit (r / 4096); hex_digit (r / 256 mod 16); hex_digit (r / 16 mod 16); hex_digit (r mod 16)].

(** One rune of a string, with the bytes it was decoded from; HTML characters are escaped. *)
Definition json_rune (rb : Z * bytes) : bytes :=
  let '(r, b) := rb in
  if (r =? 0x22) || (r =? 0x5C) then [to_byte 0x5C; to_byte r]
  else if r =? 0x08 then str_bytes "\b"
  else if r =? 0x0C then str_bytes "\f"
  else if r =? 0x0A then str_bytes "\n"
  else if r =? 0x0D then str_bytes "\r"
  else if r =? 0x09 then str_bytes "\t"
  else if (r <? 0x20) || (r =? 0x3C) || (r =? 0x3E) || (r =? 0x26) || (r =? 0x2028) || (r =? 0x2029)
  then u_escape r
  else if (r =? RuneError) && bool_decide (length b = 1%nat) then str_bytes "\ufffd"
  else b.

Definition quote_mark : ascii := to_byte 0x22.

Definition json_string (s : string) : bytes :=
  quote_mark :: concat (json_rune <$> chunks (str_bytes s)) ++ [quote_mark].

(** Elements separated by commas. *)
Fixpoint json_join (l : list bytes) : bytes :=
  match l with
  | [] => []
  | [x] => x
  | x :: l => x ++ ","%char :: json_join l
  end.

(** [json.Marshal] of a non-nil [[]string]. *)
Definition Marshal_list (l : list string) : string :=
  bytes_str ("["%char :: json_join (json_string <$> l) ++ ["]"%char]).

(** Of a non-nil [map[string]string]: sorted by key. *)
Definition Marshal_map (m : gmap string string) : string :=
  let l := merge_sort (λ a b : string * string, String.le a.1 b.1) (map_to_list m) in
  bytes_str ("{"%char :: json_join ((λ kv, json_string kv.1 ++ ":"%char :: json_string kv.2) <$> l) ++ ["}"%char]).

(** ** Unmarshal *)

Definition is_space (r : Z) : bool := (r =? 0x20) || (r =? 0x09) || (r =? 0x0A) || (r =? 0x0D).
Fixpoint skip_space (l : list Z) : list Z :=
  match l with r :: t => if is_space r then skip_space t else l | [] => [] end.

Definition hex_val (r : Z) : option Z :=
  if in_range r 0x30 0x39 then Some (r - 0x30)
  else if in_range r 0x61 0x66 then Some (r - 0x57)
  else if in_range r 0x41 0x46 then Some (r - 0x37) else None.
Definition hex4 (a b c d : Z) : option Z :=
  a ← hex_val a; b ← hex_val b; c ← hex_val c; d ← hex_val d; Some (((a * 16 + b) * 16 + c) * 16 + d).

(** [utf16.DecodeRune] of a surrogate pair. *)
Definition DecodeRune (r1 r2 : Z) : option Z :=
  if in_range r1 0xD800 0xDBFF && in_range r2 0xDC00 0xDFFF
  then Some ((r1 - 0xD800) * 1024 + (r2 - 0xDC00) + 0x10000) else None.

Definition simple_escape (r : Z) : option Z :=
  if (r =? 0x22) || (r =? 0x5C) || (r =? 0x2F) then Some r
  else if r =? 0x62 then Some 0x08 else if r =? 0x66 then Some 0x0C
  else if r =? 0x6E then Some 0x0A else if r =? 0x72 then Some 0x0D
  else if r =? 0x74 then Some 0x09 else None.

(** The rest of a string after its opening quote: its bytes and what follows the closing one. *)
Fixpoint string_body (l : list Z) : option (bytes * list Z) :=
  match l with
  | [] => None
  | r :: l =>
    if r =? 0x22 then Some ([], l)
    else if r <? 0x20 then None
    else if negb (r =? 0x5C) then '(s, t) ← string_body l; Some (encode_rune r ++ s, t)
    else
    match l with
    | [] => None
    | e :: l =>
      if negb (e =? 0x75) then r ← simple_escape e; '(s, t) ← string_body l; Some (encode_rune r ++ s, t)
      else
      match l with
      | a :: b :: c :: d :: l =>
        r ← hex4 a b c d;
        let single := '(s, t) ← string_body l; Some (encode_rune r ++ s, t) in
        if negb (in_range r 0xD800 0xDFFF) then single else
        match l with
        | x :: u :: a :: b :: c :: d :: l =>
          if negb ((x =? 0x5C) && (u =? 0x75)) then single else
          match r2 ← hex4 a b c d; DecodeRune r r2 with
          | Some r => '(s, t) ← string_body l; Some (encode_rune r ++ s, t)
          | None => single
          end
        | _ => single
        end
      | _ => None
      end
    end
  end.

(** The longest prefix of digits. *)
Fixpoint digits (l : list Z) : list Z * list Z :=
  match l with
  | r :: t => if in_range r 0x30 0x39 then let '(d, t) := digits t in (r :: d, t) else ([], l)
  | [] => ([], [])
  end.
Definition rune_text (l : list Z) : string := bytes_str (to_byte <$> l).

Definition json_number (l : list Z) : option (json * list Z) :=
  let '(sign, l) := match l with r :: t => if r =? 0x2D then ([r], t) else ([], l) | [] => ([], l) end in
  let '(int, l) := digits l in
  if bool_decide (int = []) || (bool_decide (head int = Some 0x30) && (1 <? length int)%nat) then None else
  '(frac, l) ← match l with
    | r :: t => if negb (r =? 0x2E) then Some ([], l) else
        let '(d, t) := digits t in if bool_decide (d = []) then None else Some (r :: d, t)
    | [] => Some ([], l)
    end;
  '(exp, l) ← match l with
    | r :: t => if negb ((r =? 0x65) || (r =? 0x45)) then Some ([], l) else
        let '(s, t) := match t with
          | r :: t' => if (r =? 0x2B) || (r =? 0x2D) then ([r], t') else ([], t)
          | [] => ([], t) end in
        let '(d, t) := digits t in if bool_decide (d = []) then None else Some (r :: s ++ d, t)
    | [] => Some ([], l)
    end;
  let text := rune_text (sign ++ int ++ frac ++ exp) in
  Some (if bool_decide (frac = [] ∧ exp = [])
        then JNum (let v := default 0 (digits_val 0 (rune_text int)) in if bool_decide (sign = []) then v else - v)
        else JFloat text, l).

(** [l] after the word [w]. *)
Fixpoint after_word (w : list Z) (l : list Z) : option (list Z) :=
  match w, l with
  | [], _ => Some l
  | a :: w, b :: l => if a =? b then after_word w l else None
  | _, [] => None
  end.

(** A value, the elements of an array after its first bracket or comma, the members of an
    object; leading spaces are skipped. *)
Fixpoint json_value (n : nat) (l : list Z) : option (json * list Z) :=
  match n with
  | O => None
  | S n =>
    match skip_space l with
    | [] => None
    | r :: t =>
      if r =? 0x22 then '(s, t) ← string_body t; Some (JStr (bytes_str s), t)
      else if r =? 0x5B then
        match skip_space t with
        | 0x5D :: t => Some (JArr [], t)
        | _ => '(vs, t) ← json_elems n t; Some (JArr vs, t)
        end
      else if r =? 0x7B then
        match skip_space t with
        | 0x7D :: t => Some (JObj [], t)
        | _ => '(vs, t) ← json_members n t; Some (JObj vs, t)
        end
      else if r =? 0x74 then t ← after_word (runes "true") (r :: t); Some (JBool true, t)
      else if r =? 0x66 then t ← after_word (runes "false") (r :: t); Some (JBool false, t)
      else if r =? 0x6E then t ← after_word (runes "null") (r :: t); Some (JNull, t)
      else json_number (r :: t)
    end
  end
with json_elems (n : nat) (l : list Z) : option (list json * list Z) :=
  match n with
  | O => None
  | S n =>
    '(v, t) ← json_value n l;
    match skip_space t with
    | 0x2C :: t => '(vs, t) ← json_elems n t; Some (v :: vs, t)
    | 0x5D :: t => Some ([v], t)
    | _ => None
    end
  end
with json_members (n : nat) (l : list Z) : option (list (string * json) * list Z) :=
  match n with
  | O => None
  | S n =>
    match skip_space l with
    | 0x22 :: t =>
      '(k, t) ← string_body t;
      match skip_space t with
      | 0x3A :: t =>
        '(v, t) ← json_value n t;
        match skip_space t with
        | 0x2C :: t => '(vs, t) ← json_members n t; Some ((bytes_str k, v) :: vs, t)
        | 0x7D :: t => Some ([(bytes_str k, v)], t)
        | _ => None
        end
      | _ => None
      end
    | _ => None
    end
  end.

(** The value of a whole text. *)
Definition json_parse (s : string) : option json :=
  let l := runes s in
  '(v, t) ← json_value (2 * length l + 2) l;
  match skip_space t with [] => Some v | _ => None end.

Definition elem_string (v : json) : string := match v with JStr s => s | _ => "" end.
Definition elem_ok (v : json) : bool := match v with JStr _ | JNull => true | _ => false end.

(** [json.Unmarshal] into a nil [[]string]: what is decoded, and whether the error is nil. *)
Definition Unmarshal_list (s : string) : option (list string) * bool :=
  match json_parse s with
  | None => (None, false)
  | Some JNull => (None, true)
  | Some (JArr vs) => (Some (elem_string <$> vs), forallb elem_ok vs)
  | Some _ => (None, false)
  end.

(** Into a nil [map[string]string]. *)
Definition Unmarshal_map (s : string) : option (gmap string string) * bool :=
  match json_parse s with
  | None => (None, false)
  | Some JNull => (None, true)
  | Some (JObj kvs) =>
      (Some (foldl (λ m kv, <[kv.1 := elem_string kv.2]> m) ∅ kvs), forallb (λ kv, elem_ok kv.2) kvs)
  | Some _ => (None, false)
  end.

(** ** Facts *)

(** [strings.ToValidUTF8(s, "\uFFFD")]: what a JSON round trip makes of a string. *)
Definition ToValidUTF8 (s : string) : string := bytes_str (concat (encode_rune <$> runes s)).

Lemma ToValidUTF8_ascii s : Forall is_ascii (str_bytes s) → ToValidUTF8 s = s.
Proof.
  intros Hs. unfold ToValidUTF8. rewrite runes_ascii by done. rewrite <-(bytes_str_bytes s) at 2. f_equal.
  induction Hs as [|c l Hc Hl IH]; [done|]. cbn [fmap list_fmap map concat].
  rewrite encode_rune_ascii by done. cbn [app]. by f_equal.
Qed.

Lemma chunks_cons_ascii c l : is_ascii c → chunks (c :: l) = (byte_val c, [c]) :: chunks l.
Proof. apply (chunks_app_ascii []). Qed.

(** The three kinds of chunk: an ASCII byte, an invalid byte, a sequence decoded alike
    whatever follows. *)
Inductive chunk_kind : Z * bytes → Prop :=
  | chunk_ascii c : is_ascii c → chunk_kind (byte_val c, [c])
  | chunk_bad c : chunk_kind (RuneError, [c])
  | chunk_multi r b : 0x80 <= r → length b ≠ 1%nat → (∀ u, chunks (b ++ u) = (r, b) :: chunks u) → chunk_kind (r, b).

Lemma chunks_kinds l : Forall chunk_kind (chunks l).
Proof.
  remember (length l) as n eqn:Hn. revert l Hn. induction (lt_wf n) as [n _ IH]. intros l ->.
  destruct l as [|c t]; [constructor|]. rewrite chunks_decode.
  destruct (Z.ltb_spec (byte_val c) 0x80) as [Ha|Ha].
  { constructor; [by constructor|]. eapply IH; [|done]. cbn. lia. }
  destruct (decode c t) as [[r b]|] eqn:Hd; [|constructor; [constructor|eapply IH; [|done]; cbn; lia]].
  pose proof Hd as (Hb & u & -> & Hu)%decode_prefix. rewrite drop_app_length. constructor.
  - assert (∀ u', chunks ((c :: b) ++ u') = (r, c :: b) :: chunks u') as Hall.
    { intros u'. cbn [app]. rewrite chunks_decode, (proj2 (Z.ltb_ge _ _)), Hu by done. by rewrite drop_app_length. }
    destruct (chunks_non_ascii c (b ++ u)) as (r' & b' & t & Hc & Hr); [unfold is_ascii; lia|].
    change (c :: b ++ u) with ((c :: b) ++ u) in Hc. rewrite Hall in Hc. injection Hc as <- <- _.
    apply chunk_multi; [done| |done]. destruct b; [done|cbn; lia].
  - eapply IH; [|done]. cbn. rewrite length_app. lia.
Qed.

(** Reading one rune of a string back. *)
Definition reads_rune (out : list Z) (r : Z) : Prop :=
  ∀ l, string_body (out ++ l) = '(s, t) ← string_body l; Some (encode_rune r ++ s, t).

(** The ASCII characters that are escaped. *)
Definition escaped (r : Z) : bool := (r <? 0x20) || bool_decide (r ∈ [0x22; 0x5C; 0x3C; 0x3E; 0x26]).

Lemma plain_reads r : 0 <= r → escaped r = false → reads_rune [r] r.
Proof.
  intros Hr [Hlo Hs]%orb_false_iff l. apply bool_decide_eq_false in Hs. cbn [app string_body].
  rewrite (proj2 (Z.eqb_neq r 0x22)), Hlo, (proj2 (Z.eqb_neq r 0x5C)) by (intros ->; apply Hs; set_solver). done.
Qed.

Lemma simple_escape_reads e r : (e =? 0x75) = false → simple_escape e = Some r → reads_rune [0x5C; e] r.
Proof. intros He Hr l. cbn [app string_body]. cbn -[string_body encode_rune simple_escape]. by rewrite He, Hr. Qed.

Lemma u_escape_reads a b c d r : hex4 a b c d = Some r → in_range r 0xD800 0xDFFF = false →
  reads_rune [0x5C; 0x75; a; b; c; d] r.
Proof.
  intros Hx Hr l. cbn [app string_body]. cbn -[string_body encode_rune hex4 in_range].
  rewrite Hx. cbn -[string_body encode_rune in_range]. by rewrite Hr.
Qed.

(** A test that the runes [out] are an escape of [r]. *)
Definition escape_of (out : list Z) (r : Z) : bool :=
  match out with
  | [x; e] => (x =? 0x5C) && negb (e =? 0x75) && bool_decide (simple_escape e = Some r)
  | [x; u; a; b; c; d] => (x =? 0x5C) && (u =? 0x75) && bool_decide (hex4 a b c d = Some r)
      && negb (in_range r 0xD800 0xDFFF)
  | _ => false
  end.

Lemma escape_of_reads out r : escape_of out r = true → reads_rune out r.
Proof.
  destruct out as [|x [|e [|a [|b [|c [|d []]]]]]]; try done; cbn;
    rewrite ?andb_true_iff, ?negb_true_iff, ?bool_decide_eq_true.
  - intros [[->%Z.eqb_eq He] Hr]. by apply simple_escape_reads.
  - intros [[[->%Z.eqb_eq ->%Z.eqb_eq] Hx] Hr]. by apply u_escape_reads.
Qed.

Definition escapes : list Z := filter (λ r, escaped r = true) (seqZ 0 0x80).

Lemma escapes_read : Forall (λ r, Forall is_ascii (json_rune (r, [to_byte r]))
  ∧ reads_rune (byte_val <$> json_rune (r, [to_byte r])) r) escapes.
Proof.
  assert (forallb (λ r, bool_decide (Forall is_ascii (json_rune (r, [to_byte r])))
    && escape_of (byte_val <$> json_rune (r, [to_byte r])) r) escapes = true) as He by by vm_compute.
  apply Forall_forall. intros r Hr. rewrite forallb_forall in He. apply list_elem_of_In, He in Hr.
  apply andb_true_iff in Hr as [Ha%bool_decide_eq_true Hr]. split; [done|by apply escape_of_reads].
Qed.

Lemma json_rune_ascii_reads c : is_ascii c →
  Forall is_ascii (json_rune (byte_val c, [c])) ∧ reads_rune (byte_val <$> json_rune (byte_val c, [c])) (byte_val c).
Proof.
  intros Hc. pose proof (byte_val_range c) as Hr. destruct (escaped (byte_val c)) eqn:He.
  - pose proof (proj1 (Forall_forall _ _) escapes_read (byte_val c)) as H. cbn beta in H. rewrite to_byte_val in H. apply H.
    unfold escapes. rewrite list_elem_of_filter, elem_of_seqZ. unfold is_ascii in Hc. split; [done|lia].
  - assert (json_rune (byte_val c, [c]) = [c]) as ->.
    { apply orb_false_iff in He as [Hlo Hs]. apply Z.ltb_ge in Hlo. apply bool_decide_eq_false in Hs.
      rewrite !not_elem_of_cons in Hs. destruct Hs as (?&?&?&?&?&_). unfold is_ascii in Hc. unfold json_rune.
      rewrite !(proj2 (Z.eqb_neq (byte_val c) _)), (proj2 (Z.ltb_ge _ _)) by (unfold RuneError; lia). done. }
    split; [by constructor|]. by apply plain_reads; [lia|].
Qed.

Lemma json_rune_reads rb : chunk_kind rb →
  (∀ u, chunks (json_rune rb ++ u) = chunks (json_rune rb) ++ chunks u)
  ∧ reads_rune (chunks (json_rune rb)).*1 rb.1.
Proof.
  assert (∀ w, Forall is_ascii w → ∀ u, chunks (w ++ u) = chunks w ++ chunks u) as Hword.
  { intros w Hw. induction Hw as [|c w Hc Hw IH]; intros u; [done|]. cbn [app].
    by rewrite !chunks_cons_ascii, IH by done. }
  assert (∀ w, Forall is_ascii w → (chunks w).*1 = byte_val <$> w) as Hrunes.
  { intros w Hw. rewrite chunks_ascii by done. rewrite <-list_fmap_compose. by apply list_fmap_ext. }
  intros [c Hc|c|r b Hr Hl Hu].
  - destruct (json_rune_ascii_reads c Hc) as [Hw Hrd]. rewrite Hrunes by done. split; [by apply Hword|done].
  - assert (json_rune (RuneError, [c]) = str_bytes "\ufffd") as -> by reflexivity.
    assert (Forall is_ascii (str_bytes "\ufffd")) as Hw by (vm_compute; repeat constructor).
    rewrite Hrunes by done. split; [by apply Hword|]. intros l. reflexivity.
  - assert (json_rune (r, b) = if (r =? 0x2028) || (r =? 0x2029) then u_escape r else b) as ->.
    { unfold json_rune. rewrite !(proj2 (Z.eqb_neq r _)) by lia. rewrite (proj2 (Z.ltb_ge r _)) by lia.
      cbn [orb]. destruct (_ || _); [done|]. rewrite bool_decide_eq_false_2 by done. by rewrite andb_false_r. }
    destruct (Z.eqb_spec r 0x2028) as [->|H1]; [|destruct (Z.eqb_spec r 0x2029) as [->|H2]].
    1,2: cbn [orb]; match goal with |- context [u_escape ?z] =>
           assert (Forall is_ascii (u_escape z)) as Hw by (vm_compute; repeat constructor) end;
         rewrite Hrunes by done; split; [by apply Hword|intros l; reflexivity].
    cbn [orb]. pose proof (Hu []) as Hb. rewrite app_nil_r in Hb. rewrite Hb. split; [apply Hu|].
    cbn [fmap list_fmap map fst]. apply plain_reads; [lia|]. unfold escaped.
    rewrite (proj2 (Z.ltb_ge r 0x20)), bool_decide_eq_false_2 by (rewrite ?not_elem_of_cons; set_solver by lia || lia). done.
Qed.

Lemma string_reads s u :
  ∃ out, (chunks (json_string s ++ u)).*1 = 0x22 :: out ∧
    string_body out = Some (str_bytes (ToValidUTF8 s), (chunks u).*1).
Proof.
  unfold json_string, ToValidUTF8. rewrite str_bytes_str. unfold runes.
  pose proof (chunks_kinds (str_bytes s)) as Hk. set (cs := chunks (str_bytes s)) in *. clearbody cs.
  exists ((chunks (concat (json_rune <$> cs) ++ quote_mark :: u)).*1). split.
  { cbn [app]. rewrite <-app_assoc. by rewrite chunks_cons_ascii by done. }
  induction Hk as [|[r b] cs Hrb Hk IH].
  - cbn [fmap list_fmap map concat app]. by rewrite chunks_cons_ascii by done.
  - destruct (json_rune_reads _ Hrb) as [Hcs Hr]. cbn [fmap list_fmap map concat fst].
    rewrite <-app_assoc, Hcs, fmap_app, Hr. fold (@fmap list _ _ _ json_rune cs). rewrite IH. cbn. done.
Qed.

(** ** A list of strings comes back

    as the strings with invalid UTF-8 replaced. *)

(** The text of a list after its opening bracket. *)
Definition list_text (s : string) (l : list string) : bytes :=
  json_join (json_string s :: (json_string <$> l)) ++ ["]"%char].

Lemma list_text_cons s s' l : list_text s (s' :: l) = json_string s ++ ","%char :: list_text s' l.
Proof. unfold list_text. rewrite fmap_cons. cbn [json_join]. by rewrite <-app_assoc. Qed.

Lemma list_text_quote s l : ∃ t, (chunks (list_text s l)).*1 = 0x22 :: t.
Proof.
  assert (∃ u, list_text s l = json_string s ++ u) as [u ->].
  { destruct l as [|s' l]; [by eexists|]. rewrite list_text_cons. by eexists. }
  destruct (string_reads s u) as (out & -> & _). by exists out.
Qed.

Lemma string_value_reads n s u :
  json_value (S n) (chunks (json_string s ++ u)).*1 = Some (JStr (ToValidUTF8 s), (chunks u).*1).
Proof. destruct (string_reads s u) as (out & -> & Hout). cbn. rewrite Hout. cbn. by rewrite bytes_str_bytes. Qed.

Lemma elems_read l : ∀ n s, (length l < n)%nat →
  json_elems (S n) (chunks (list_text s l)).*1 = Some (JStr (ToValidUTF8 s) :: ((JStr ∘ ToValidUTF8) <$> l), []).
Proof.
  assert (∀ n l, json_elems (S n) l = '(v, t) ← json_value n l; match skip_space t with
    | 0x2C :: t => '(vs, t) ← json_elems n t; Some (v :: vs, t)
    | 0x5D :: t => Some ([v], t) | _ => None end) as Hunf by done.
  induction l as [|s' l IH]; intros [|n] s Hn; try (cbn in Hn; lia).
  - rewrite Hunf. unfold list_text. cbn [fmap list_fmap map json_join]. by rewrite string_value_reads.
  - rewrite Hunf, list_text_cons, string_value_reads, chunks_cons_ascii by done.
    cbn [mbind option_bind fst snd fmap list_fmap map skip_space].
    change (byte_val ","%char) with 0x2C. cbn [skip_space is_space Z.eqb orb Pos.eqb].
    fold (@fmap list _ _ _ (@fst Z bytes)). cbn beta iota. rewrite IH by (cbn in Hn; lia). done.
Qed.

Lemma elems_runes l : ∀ s, (length l < length (chunks (list_text s l)))%nat.
Proof.
  induction l as [|s' l IH]; intros s.
  - destruct (list_text_quote s []) as [t Ht]. apply (f_equal length) in Ht. rewrite length_fmap in Ht.
    rewrite Ht. cbn. lia.
  - rewrite list_text_cons, chunks_app_ascii, length_app by done. specialize (IH s'). cbn [length]. lia.
Qed.

Lemma Unmarshal_Marshal_list l : Unmarshal_list (Marshal_list l) = (Some (ToValidUTF8 <$> l), true).
Proof.
  unfold Unmarshal_list, json_parse, Marshal_list, runes. rewrite str_bytes_str.
  destruct l as [|s l]; [by vm_compute|]. rewrite fmap_cons. change (json_join _ ++ _) with (list_text s l).
  rewrite chunks_cons_ascii by done. rewrite fmap_cons, length_cons, length_fmap.
  pose proof (elems_runes l s) as Hn. destruct (list_text_quote s l) as [t Ht].
  replace (2 * S (length (chunks (list_text s l))) + 2)%nat
    with (S (S (2 * length (chunks (list_text s l)) + 2))) by lia.
  assert (∀ n, json_value (S n) (0x5B :: (chunks (list_text s l)).*1)
    = '(vs, t) ← json_elems n (chunks (list_text s l)).*1; Some (JArr vs, t)) as Hv by (intros n; by rewrite Ht).
  change (byte_val (ascii_of_nat 91)) with 0x5B. rewrite Hv, elems_read by lia. cbn.
  do 2 f_equal.
  - f_equal. rewrite <-list_fmap_compose. by apply list_fmap_ext.
  - clear. by induction l.
Qed.
