(* ===== verification/Pgx.v ===== *)
(** * The pgx interface

    [github.com/jackc/pgx/v5] and the server behind it are third-party: running a
    statement, starting a transaction and converting a column to a Go value are
    parameters.  [DBTX] is what a pool and a transaction have in common (the interface of
    [stores/pgxsqlc/internal/sqlcgen/db.go]), [Pool] adds batches and transactions, [Scanner]
    is what [Scan] does with one column.  What the stores make of the answers, rows scanned
    into structs, [pgx.ErrNoRows], the count of affected rows, is the program's. *)

From S2P Require Import Prelude GoStrings Errors World Sql.

Local Open Scope Z_scope.

(** An argument of a statement, with its Go type. *)
Inductive arg :=
  | AString (s : string)
  | ABool (b : bool)
  | AInt (z : Z)
  | AInt32 (z : Z)
  | ATime (t : Time)
  | ATimePtr (t : option Time)
  | ARawJSON (s : string).

#[export] Instance arg_eq_dec : EqDecision arg.
Proof. solve_decision. Defined.

Abbreviation row := (list value) (only parsing).

(** [Exec] with the count of its command tag; [Query] with the rows [Next] gives and the
    error [rows.Err] ends with; [QueryRow], whose error, [ErrNoRows] if there is no row,
    is the one [Scan] reports. *)
Record DBTX (S : Type) := mkDBTX {
  Exec : string → list arg → M S (result Z);
  Query : string → list arg → M S (result (list row * result unit));
  QueryRow : string → list arg → M S (result row);
}.
Arguments mkDBTX {S}.
Arguments Exec {S}.
Arguments Query {S}.
Arguments QueryRow {S}.

(** A transaction. *)
Record Tx (S : Type) := mkTx {
  tx_DBTX : DBTX S;
  Commit : M S (result unit);
  Rollback : M S (result unit);
}.
Arguments mkTx {S}.
Arguments tx_DBTX {S}.
Arguments Commit {S}.
Arguments Rollback {S}.

Class Pool (S : Type) := {
  pool : DBTX S;
  SendBatch : list (string * list arg) → M S (result unit);
  Begin : M S (result (Tx S));
}.

Class Scanner := {
  ErrNoRows : error;
  errColumns : error;
  scan_string : value → result string;
  scan_bool : value → result bool;
  scan_int : value → result Z;
  scan_int32 : value → result Z;
  scan_time : value → result Time;
  scan_timeptr : value → result (option Time);
  scan_bytes : value → result string;
}.

(** ** [(value, error)] computations without effects *)

#[export] Instance result_ret : MRet result := λ A a, Ok a.
#[export] Instance result_bind : MBind result := λ A B f r, match r with Ok a => f a | Err e => Err e end.

(** The effect-free end of a method. *)
Definition returns {S A B} (m : M S (result A)) (f : A → result B) : M S (result B) :=
  r ← m; mret (r ≫= f).

(** [_, err := m; return err]. *)
Definition only_err {S A} (m : M S (result A)) : M S (result unit) := returns m (λ _, Ok tt).

(** A failed [json.Unmarshal]. *)
Definition errJSON : error := OtherError "json: cannot unmarshal".

Section scan.
Context `{Scanner}.

(** [rows.Next] and [Scan] until the rows end or one does not scan, then [rows.Err]. *)
Fixpoint scan_rows {A} (scan : row → result A) (rows : list row) : result (list A) :=
  match rows with
  | [] => Ok []
  | r :: rows => a ← scan r; l ← scan_rows scan rows; Ok (a :: l)
  end.
Definition collect {A} (scan : row → result A) (q : list row * result unit) : result (list A) :=
  l ← scan_rows scan q.1; _ ← q.2; Ok l.

(** [Scan] into one destination. *)
Definition scan1 {A} (f : value → result A) (r : row) : result A :=
  match r with [v] => f v | _ => Err errColumns end.

(** [errors.Is(err, pgx.ErrNoRows)] and [mapNotFound]. *)
Definition no_rows (e : error) : bool := ErrorsIs e ErrNoRows.
Definition mapNotFound (e : error) : error := if no_rows e then ErrNotFound else e.
Definition map_err {A} (f : error → error) (r : result A) : result A :=
  match r with Ok a => Ok a | Err e => Err (f e) end.
End scan.

(** ** Rules *)

Section rules.
Context {S : Type}.
Implicit Types w : World S.

Lemma wp_returns {A B} (m : M S (result A)) (f : A → result B) Q w :
  wp (returns m f) Q w ↔ wp m (λ r w', Q (r ≫= f) w') w.
Proof. unfold returns. by rewrite wp_bind. Qed.

Lemma wp_only_err {A} (m : M S (result A)) Q w :
  wp (only_err m) Q w ↔ wp m (λ r w', Q (match r with Ok _ => Ok tt | Err e => Err e end) w') w.
Proof. unfold only_err. rewrite wp_returns. reflexivity. Qed.
End rules.
