(* ===== verification/PgStore.v ===== *)
(** * The pgx store: users and roles

    [stores/pgxstore/pgxstore.go].  Every method is one statement of [queries] (two where it
    must tell why nothing was changed) with its arguments, and what is made of the answer. *)

From S2P Require Import Prelude GoStrings Errors World Entities Stores Naming Sql GoJson Pgx PgQueries.

Local Open Scope Z_scope.

(** [marshalAttrs]; [json.Marshal] of a string map does not fail. *)
Definition marshalAttrs (a : option (gmap string string)) : result string :=
  match a with
  | None => Ok "{}"
  | Some m => Ok (Marshal_map m)
  end.

Section pgstore.
Context `{Oracle} `{UnicodeDB} `{Scanner} {S : Type} `{Pool S}.

Definition NewConcurrencyStamp : M S string := uuid_NewString.

(** The destinations of [row.Scan], in their order, and the text of the attributes. *)
Definition scan_user (r : row) : result (User * string) :=
  match r with
  | [c1; c2; c3; c4; c5; c6; c7; c8; c9; c10; c11; c12; c13; c14; c15; c16; c17; c18; c19] =>
    id ← scan_string c1; un ← scan_string c2; nun ← scan_string c3; em ← scan_string c4;
    nem ← scan_string c5; ec ← scan_bool c6; ph ← scan_string c7; ss ← scan_string c8;
    cs ← scan_string c9; pn ← scan_string c10; pc ← scan_bool c11; tf ← scan_bool c12;
    le ← scan_timeptr c13; len ← scan_bool c14; af ← scan_int c15; attrs ← scan_bytes c16;
    an ← scan_bool c17; ca ← scan_time c18; ua ← scan_time c19;
    Ok (mkUser id un nun em nem ec ph ss cs pn pc tf le len af an None ca ua, attrs)
  | _ => Err errColumns
  end.

(** [scanUser]: no row is [ErrNotFound], a malformed attribute text an error. *)
Definition scanUser (r : result row) : result User :=
  match c ← r; scan_user c with
  | Err e => Err (mapNotFound e)
  | Ok (u, attrs) =>
    if String.eqb attrs "" then Ok u else
    let '(m, ok) := Unmarshal_map attrs in
    if ok then Ok (set_Attributes m u) else Err errJSON
  end.

Definition one_user (text : string) (args : list arg) : M S (result (option User)) :=
  r ← QueryRow pool text args; mret (u ← scanUser r; Ok (Some u)).

(** [Query] and the loop over its rows. *)
Definition many {A} (scan : row → result A) (text : string) (args : list arg) : M S (result (list A)) :=
  returns (Query pool text args) (collect scan).

(** [QueryRow] and [Scan] of one column. *)
Definition one {A} (f : value → result A) (text : string) (args : list arg) : M S (result A) :=
  returns (QueryRow pool text args) (scan1 f).

Section users.
Context (q : queries).

(** ** User CRUD *)

(** The arguments both writes begin with; [stamp] is the concurrency stamp written. *)
Definition user_args (u : User) (stamp attrs : string) : list arg :=
  [AString (ID u); AString (UserName u); AString (NormalizedUserName u); AString (Email u);
   AString (NormalizedEmail u); ABool (EmailConfirmed u); AString (PasswordHash u);
   AString (SecurityStamp u); AString stamp; AString (PhoneNumber u);
   ABool (PhoneNumberConfirmed u); ABool (TwoFactorEnabled u); ATimePtr (LockoutEnd u);
   ABool (LockoutEnabled u); AInt (AccessFailedCount u); AString attrs; ABool (IsAnonymous u)].

Definition Create (u : User) : M S (User * result unit) :=
  match marshalAttrs (Attributes u) with
  | Err e => mret (u, Err e)
  | Ok attrs =>
    r ← only_err (Exec pool (createUser q) (user_args u (ConcurrencyStamp u) attrs));
    mret (u, r)
  end.

(** Zero affected rows are told apart by [gone], a second statement: it answers whether the
    row still exists. *)
Definition zero_rows (gone : string) (id : string) : M S (result unit) :=
  r ← one scan_bool gone [AString id];
  mret match r with Ok false => Err ErrNotFound | _ => Err ErrConcurrencyFailure end.

Definition Update (u : User) : M S (User * result unit) :=
  match marshalAttrs (Attributes u) with
  | Err e => mret (u, Err e)
  | Ok attrs =>
    let old := ConcurrencyStamp u in
    newStamp ← NewConcurrencyStamp;
    r ← Exec pool (updateUser q) (user_args u newStamp attrs ++ [AString old]);
    match r with
    | Err e => mret (u, Err e)
    | Ok n =>
      if n =? 0 then e ← zero_rows (userExists q) (ID u); mret (u, e)
      else mret (set_ConcurrencyStamp newStamp u, Ok tt)
    end
  end.

Definition PurgeAnonymousUsers (createdBefore : Time) : M S (result Z) :=
  Exec pool (purgeAnonymous q) [ATime createdBefore].

Definition Delete (u : User) : M S (result unit) :=
  only_err (Exec pool (deleteUser q) [AString (ID u)]).

Definition FindByID (id : string) : M S (result (option User)) :=
  one_user (findUserByID q) [AString id].

Definition FindByName (n : string) : M S (result (option User)) :=
  one_user (findUserByName q) [AString n].

Definition FindByEmail (e : string) : M S (result (option User)) :=
  if String.eqb e "" then mret (Err ErrNotFound) else one_user (findUserByEmail q) [AString e].

Definition ListUsers (f : ListFilter) : M S (result (list User * Z)) :=
  let search := ToUpper (Search f) in
  total ←? one scan_int (countUsers q) [AString search];
  returns (many (scanUser ∘ Ok) (listUsers q) [AString search; AInt (Limit f); AInt (Offset f)])
    (λ out, Ok (out, total)).

(** ** Roles of a user *)

Definition AddToRole (u : User) (normalizedRoleName : string) : M S (result unit) :=
  n ←? Exec pool (addToRole q) [AString (ID u); AString normalizedRoleName];
  if n =? 0 then
    r ← one scan_bool (roleExistsByName q) [AString normalizedRoleName];
    mret match r with Ok false => Err ErrRoleNotFound | _ => Ok tt end
  else mret (Ok tt).

Definition RemoveFromRole (u : User) (normalizedRoleName : string) : M S (result unit) :=
  only_err (Exec pool (removeFromRole q) [AString (ID u); AString normalizedRoleName]).

Definition GetRoles (u : User) : M S (result (list string)) :=
  many (scan1 scan_string) (getRoles q) [AString (ID u)].

Definition IsInRole (u : User) (normalizedRoleName : string) : M S (result bool) :=
  one scan_bool (isInRole q) [AString (ID u); AString normalizedRoleName].

Definition GetUsersInRole (normalizedRoleName : string) : M S (result (list User)) :=
  many (scanUser ∘ Ok) (usersInRole q) [AString normalizedRoleName].

(** ** Claims *)

Definition GetUsersForClaim (claimType claimValue : string) : M S (result (list User)) :=
  many (scanUser ∘ Ok) (usersForClaim q) [AString claimType; AString claimValue].

Definition scanClaim (r : row) : result Claim :=
  match r with
  | [c1; c2] => t ← scan_string c1; v ← scan_string c2; Ok (mkClaim t v)
  | _ => Err errColumns
  end.

Definition GetClaims (u : User) : M S (result (list Claim)) :=
  many scanClaim (getUserClaims q) [AString (ID u)].

Definition AddClaims (u : User) (claims : list Claim) : M S (result unit) :=
  SendBatch ((λ c, (addUserClaim q, [AString (ID u); AString (Claim_Type c); AString (Claim_Value c)])) <$> claims).

Definition RemoveClaims (u : User) (claims : list Claim) : M S (result unit) :=
  SendBatch ((λ c, (removeUserClaim q, [AString (ID u); AString (Claim_Type c); AString (Claim_Value c)])) <$> claims).

(** ** Tokens and logins *)

Definition GetToken (u : User) (loginProvider name : string) : M S (result string) :=
  r ← one scan_string (getToken q) [AString (ID u); AString loginProvider; AString name];
  mret match r with Err e => if no_rows e then Ok "" else Err e | Ok v => Ok v end.

Definition SetToken (u : User) (loginProvider name value : string) : M S (result unit) :=
  only_err (Exec pool (setToken q) [AString (ID u); AString loginProvider; AString name; AString value]).

Definition RemoveToken (u : User) (loginProvider name : string) : M S (result unit) :=
  only_err (Exec pool (removeToken q) [AString (ID u); AString loginProvider; AString name]).

Definition AddLogin (u : User) (login : UserLoginInfo) : M S (result unit) :=
  only_err (Exec pool (addLogin q) [AString (LoginProvider login); AString (ProviderKey login);
    AString (ProviderDisplayName login); AString (ID u)]).

Definition RemoveLogin (u : User) (loginProvider providerKey : string) : M S (result unit) :=
  only_err (Exec pool (removeLogin q) [AString (ID u); AString loginProvider; AString providerKey]).

Definition scanLogin (r : row) : result UserLoginInfo :=
  match r with
  | [c1; c2; c3] => p ← scan_string c1; k ← scan_string c2; n ← scan_string c3; Ok (mkLogin p k n)
  | _ => Err errColumns
  end.

Definition GetLogins (u : User) : M S (result (list UserLoginInfo)) :=
  many scanLogin (getLogins q) [AString (ID u)].

Definition FindByLogin (loginProvider providerKey : string) : M S (result (option User)) :=
  r ← one scan_string (findByLogin q) [AString loginProvider; AString providerKey];
  match r with
  | Err e => mret (Err (mapNotFound e))
  | Ok uid => FindByID uid
  end.

(** ** Roles *)

Definition Role_Create (r : Role) : M S (Role * result unit) :=
  e ← only_err (Exec pool (createRole q) [AString (Role_ID r); AString (Role_Name r);
    AString (Role_NormalizedName r); AString (Role_ConcurrencyStamp r)]);
  mret (r, e).

Definition Role_Update (r : Role) : M S (Role * result unit) :=
  let old := Role_ConcurrencyStamp r in
  newStamp ← NewConcurrencyStamp;
  n ← Exec pool (updateRole q) [AString (Role_ID r); AString (Role_Name r);
    AString (Role_NormalizedName r); AString newStamp; AString old];
  match n with
  | Err e => mret (r, Err e)
  | Ok n =>
    if n =? 0 then e ← zero_rows (roleExists q) (Role_ID r); mret (r, e)
    else mret (set_Role_ConcurrencyStamp newStamp r, Ok tt)
  end.

Definition Role_Delete (r : Role) : M S (result unit) :=
  only_err (Exec pool (deleteRole q) [AString (Role_ID r)]).

Definition scan_role (r : row) : result Role :=
  match r with
  | [c1; c2; c3; c4] =>
    id ← scan_string c1; n ← scan_string c2; nn ← scan_string c3; cs ← scan_string c4;
    Ok (mkRole id n nn cs)
  | _ => Err errColumns
  end.

Definition scanRole (r : result row) : result Role := map_err mapNotFound (r ≫= scan_role).

Definition one_role (text : string) (args : list arg) : M S (result (option Role)) :=
  r ← QueryRow pool text args; mret (r ← scanRole r; Ok (Some r)).

Definition Role_FindByID (id : string) : M S (result (option Role)) :=
  one_role (findRoleByID q) [AString id].

Definition Role_FindByName (normalizedName : string) : M S (result (option Role)) :=
  one_role (findRoleByName q) [AString normalizedName].

Definition Role_GetClaims (r : Role) : M S (result (list Claim)) :=
  many scanClaim (getRoleClaims q) [AString (Role_ID r)].

Definition Role_AddClaim (r : Role) (c : Claim) : M S (result unit) :=
  only_err (Exec pool (addRoleClaim q) [AString (Role_ID r); AString (Claim_Type c); AString (Claim_Value c)]).

Definition Role_RemoveClaim (r : Role) (c : Claim) : M S (result unit) :=
  only_err (Exec pool (removeRoleClaim q) [AString (Role_ID r); AString (Claim_Type c); AString (Claim_Value c)]).
End users.

(** ** The stores *)

(** [NewUserStore]. *)
Definition NewUserStore (opts : list Option) : UserStore S :=
  let q := buildQueries (resolve opts) in {|
  us_Create := Create q; us_Update := Update q; us_Delete := Delete q;
  us_FindByID := FindByID q; us_FindByName := FindByName q; us_FindByEmail := FindByEmail q;
  us_AddToRole := AddToRole q; us_RemoveFromRole := RemoveFromRole q; us_GetRoles := GetRoles q;
  us_IsInRole := IsInRole q; us_GetUsersInRole := GetUsersInRole q;
  us_GetClaims := GetClaims q; us_AddClaims := AddClaims q; us_RemoveClaims := RemoveClaims q;
  us_GetUsersForClaim := GetUsersForClaim q;
  us_GetToken := GetToken q; us_SetToken := SetToken q; us_RemoveToken := RemoveToken q;
  us_AddLogin := AddLogin q; us_RemoveLogin := RemoveLogin q; us_GetLogins := GetLogins q;
  us_FindByLogin := FindByLogin q;
  us_ListUsers := Some (ListUsers q); us_PurgeAnonymousUsers := Some (PurgeAnonymousUsers q);
|}.

(** [NewRoleStore]. *)
Definition NewRoleStore (opts : list Option) : RoleStore S :=
  let q := buildQueries (resolve opts) in {|
  rs_Create := Role_Create q; rs_Update := Role_Update q; rs_Delete := Role_Delete q;
  rs_FindByID := Role_FindByID q; rs_FindByName := Role_FindByName q;
  rs_GetClaims := Role_GetClaims q; rs_AddClaim := Role_AddClaim q; rs_RemoveClaim := Role_RemoveClaim q;
|}.

(** ** Migration *)

(** [Migrate]: nothing is sent unless every name is a valid identifier. *)
Definition Migrate (opts : list Option) : M S (result unit) :=
  let n := resolve opts in
  _ ←? Naming_Validate n;
  only_err (Exec pool (buildDDL n) []).
End pgstore.
