(* ===== verification/PgOAuth.v ===== *)
(** * The pgx store: the authorization server, API keys and refresh sessions

    [stores/pgxstore/oauth.go], [apikey.go] and [refreshtoken.go]. *)

From S2P Require Import Prelude GoStrings Errors World Entities OAuthTypes Stores Naming Sql GoJson.
From S2P Require Import Pgx PgQueries PgStore.

Local Open Scope Z_scope.

(** [tag.RowsAffected() == 1, err]. *)
Definition one_row {S} (m : M S (result Z)) : M S (result bool) := returns m (λ n, Ok (n =? 1)).

Section pgoauth.
Context `{Oracle} `{Scanner} {S : Type} `{Pool S}.

(** [QueryRow], [Scan], and [mapNotFound] on its error. *)
Definition found {A} (scan : row → result A) (text : string) (args : list arg) : M S (result A) :=
  r ← QueryRow pool text args; mret (map_err mapNotFound (r ≫= scan)).

Section oauth.
Context (q : oauthQueries).

(** ** Clients *)

(** [jsonList]: a nil slice is stored as an empty one. *)
Definition jsonList (v : list string) : string := Marshal_list v.

Definition CreateClient (c : Client) : M S (result unit) :=
  let ru := jsonList (RedirectURIs c) in
  let gt := jsonList (GrantTypes c) in
  only_err (Exec pool (createClient q) [AString (Client_ID c); AString (SecretHash c);
    AString (Client_Name c); AString ru; AString (TokenEndpointAuthMethod c); AString gt;
    ATime (Client_CreatedAt c); ATimePtr (Client_LastUsedAt c)]).

(** The scanned client and the texts of its two lists. *)
Definition scan_client (r : row) : result (Client * (string * string)) :=
  match r with
  | [c1; c2; c3; c4; c5; c6; c7; c8] =>
    id ← scan_string c1; sh ← scan_string c2; n ← scan_string c3; ru ← scan_string c4;
    am ← scan_string c5; gt ← scan_string c6; ca ← scan_time c7; lu ← scan_timeptr c8;
    Ok (mkClient id sh n [] am [] ca lu, (ru, gt))
  | _ => Err errColumns
  end.

(** [json.Unmarshal] into a slice; a JSON null leaves it nil. *)
Definition unmarshal_list (s : string) : result (list string) :=
  let '(l, ok) := Unmarshal_list s in if ok then Ok (default [] l) else Err errJSON.

Definition decode_client (x : Client * (string * string)) : result Client :=
  let '(c, (ru, gt)) := x in
  uris ← unmarshal_list ru; grants ← unmarshal_list gt;
  Ok (mkClient (Client_ID c) (SecretHash c) (Client_Name c) uris (TokenEndpointAuthMethod c) grants
    (Client_CreatedAt c) (Client_LastUsedAt c)).

Definition GetClient (clientID : string) : M S (result Client) :=
  returns (found scan_client (getClient q) [AString clientID]) decode_client.

Definition TouchClient (clientID : string) (at_ : Time) : M S (result unit) :=
  only_err (Exec pool (touchClient q) [AString clientID; ATime at_]).

Definition DeleteStaleClients (before : Time) : M S (result Z) :=
  Exec pool (deleteStaleClients q) [ATime before].

(** ** Codes *)

Definition CreateCode (c : Code) : M S (result unit) :=
  only_err (Exec pool (createCode q) [AString (CodeHash c); AString (Code_ClientID c);
    AString (Code_UserID c); AString (Code_RedirectURI c); AString (Code_Scopes c);
    AString (Code_Resource c); AString (CodeChallenge c); ATime (Code_ExpiresAt c);
    ATimePtr (UsedAt c); AString (Code_GrantID c)]).

Definition scan_code (r : row) : result Code :=
  match r with
  | [c1; c2; c3; c4; c5; c6; c7; c8; c9; c10] =>
    h ← scan_string c1; cl ← scan_string c2; u ← scan_string c3; ru ← scan_string c4;
    sc ← scan_string c5; re ← scan_string c6; cc ← scan_string c7; ex ← scan_time c8;
    us ← scan_timeptr c9; g ← scan_string c10;
    Ok (mkCode h cl u ru sc re cc ex us g)
  | _ => Err errColumns
  end.

Definition GetCode (codeHash : string) : M S (result Code) :=
  found scan_code (getCode q) [AString codeHash].

Definition MarkCodeUsed (codeHash grantID : string) (at_ : Time) : M S (result bool) :=
  one_row (Exec pool (markCodeUsed q) [AString codeHash; AString grantID; ATime at_]).

Definition DeleteExpiredCodes (before : Time) : M S (result Z) :=
  Exec pool (deleteExpiredCodes q) [ATime before].

(** ** Consents *)

Definition scan_consent (r : row) : result Consent :=
  match r with
  | [c1; c2; c3; c4; c5] =>
    u ← scan_string c1; cl ← scan_string c2; sc ← scan_string c3; ca ← scan_time c4; ua ← scan_time c5;
    Ok (mkConsent u cl sc ca ua)
  | _ => Err errColumns
  end.

Definition GetConsent (userID clientID : string) : M S (result Consent) :=
  found scan_consent (getConsent q) [AString userID; AString clientID].

Definition SaveConsent (c : Consent) : M S (result unit) :=
  only_err (Exec pool (saveConsent q) [AString (Consent_UserID c); AString (Consent_ClientID c);
    AString (Consent_Scopes c); ATime (Consent_CreatedAt c); ATime (Consent_UpdatedAt c)]).

Definition DeleteConsent (userID clientID : string) : M S (result unit) :=
  only_err (Exec pool (deleteConsent q) [AString userID; AString clientID]).

(** ** Grants *)

Definition CreateGrant (g : Grant) : M S (result unit) :=
  only_err (Exec pool (createGrant q) [AString (Grant_ID g); AString (Grant_UserID g);
    AString (Grant_ClientID g); AString (Grant_Scopes g); AString (Grant_Resource g);
    AString (Grant_TokenHash g); AString (PrevTokenHash g); AString (Grant_SecurityStamp g);
    ATime (Grant_ExpiresAt g); ATime (Grant_CreatedAt g); ATimePtr (Grant_LastUsedAt g)]).

Definition scan_grant (r : row) : result Grant :=
  match r with
  | [c1; c2; c3; c4; c5; c6; c7; c8; c9; c10; c11] =>
    id ← scan_string c1; u ← scan_string c2; cl ← scan_string c3; sc ← scan_string c4;
    re ← scan_string c5; th ← scan_string c6; pt ← scan_string c7; ss ← scan_string c8;
    ex ← scan_time c9; ca ← scan_time c10; lu ← scan_timeptr c11;
    Ok (mkGrant id u cl sc re th pt ss ex ca lu)
  | _ => Err errColumns
  end.

Definition GetGrant (id : string) : M S (result Grant) :=
  found scan_grant (getGrant q) [AString id].

Definition RotateGrant (id oldHash newHash : string) (expiresAt usedAt : Time) : M S (result bool) :=
  one_row (Exec pool (rotateGrant q) [AString id; AString oldHash; AString newHash; ATime expiresAt; ATime usedAt]).

Definition DeleteGrant (id : string) : M S (result unit) :=
  only_err (Exec pool (deleteGrant q) [AString id]).

Definition DeleteUserClientGrants (userID clientID : string) : M S (result Z) :=
  Exec pool (deleteUserClientGrants q) [AString userID; AString clientID].

Definition ListUserGrants (userID : string) : M S (result (list Grant)) :=
  many (map_err mapNotFound ∘ scan_grant) (listUserGrants q) [AString userID].

Definition DeleteExpiredGrants (before : Time) : M S (result Z) :=
  Exec pool (deleteExpiredGrants q) [ATime before].

(** ** Client assertions *)

Definition UseClientAssertion (clientID jti : string) (expiresAt : Time) : M S (result bool) :=
  one_row (Exec pool (useAssertion q) [AString clientID; AString jti; ATime expiresAt]).

Definition DeleteExpiredClientAssertions (before : Time) : M S (result Z) :=
  Exec pool (deleteExpiredAssertions q) [ATime before].
End oauth.

Definition NewOAuthStore (opts : list Option) : OAuthStore S :=
  let q := buildOAuthQueries (resolve opts) in {|
  os_CreateClient := CreateClient q; os_GetClient := GetClient q; os_TouchClient := TouchClient q;
  os_DeleteStaleClients := DeleteStaleClients q;
  os_CreateCode := CreateCode q; os_GetCode := GetCode q; os_MarkCodeUsed := MarkCodeUsed q;
  os_DeleteExpiredCodes := DeleteExpiredCodes q;
  os_GetConsent := GetConsent q; os_SaveConsent := SaveConsent q; os_DeleteConsent := DeleteConsent q;
  os_CreateGrant := CreateGrant q; os_GetGrant := GetGrant q; os_RotateGrant := RotateGrant q;
  os_DeleteGrant := DeleteGrant q; os_DeleteUserClientGrants := DeleteUserClientGrants q;
  os_ListUserGrants := ListUserGrants q; os_DeleteExpiredGrants := DeleteExpiredGrants q;
  os_UseClientAssertion := UseClientAssertion q;
  os_DeleteExpiredClientAssertions := DeleteExpiredClientAssertions q;
|}.

(** ** API keys *)

Section apikeys.
Context (q : apiKeyQueries).

(** A zero creation time is replaced by the current one. *)
Definition created_or_now (t : Time) : M S Time := if t =? zeroTime then now else mret t.

Definition CreateAPIKey (k : APIKey) : M S (result unit) :=
  let scopes := match Key_Scopes k with None => "null" | Some l => Marshal_list l end in
  created ← created_or_now (Key_CreatedAt k);
  only_err (Exec pool (ak_create q) [AString (Key_ID k); AString (Key_UserID k); AString (Key_Name k);
    AString (Key_Prefix k); AString (KeyHash k); AString scopes; ATimePtr (Key_ExpiresAt k); ATime created]).

(** A malformed scope text is ignored. *)
Definition scan_api_key (r : row) : result APIKey :=
  match r with
  | [c1; c2; c3; c4; c5; c6; c7; c8; c9; c10] =>
    id ← scan_string c1; u ← scan_string c2; n ← scan_string c3; p ← scan_string c4; h ← scan_string c5;
    sc ← scan_bytes c6; ex ← scan_timeptr c7; lu ← scan_timeptr c8; rv ← scan_timeptr c9; ca ← scan_time c10;
    Ok (mkAPIKey id u n p h (if String.eqb sc "" then None else (Unmarshal_list sc).1) ex lu rv ca)
  | _ => Err errColumns
  end.

Definition GetActiveAPIKeyByHash (keyHash : string) : M S (result APIKey) :=
  found scan_api_key (ak_getActiveByHash q) [AString keyHash].

Definition ListAPIKeysByUser (userID : string) : M S (result (list APIKey)) :=
  many (map_err mapNotFound ∘ scan_api_key) (ak_listByUser q) [AString userID].

Definition RevokeAPIKey (id : string) : M S (result unit) := only_err (Exec pool (ak_revoke q) [AString id]).

Definition TouchAPIKeyLastUsed (id : string) : M S (result unit) := only_err (Exec pool (ak_touch q) [AString id]).
End apikeys.

Definition NewAPIKeyStore (opts : list Option) : APIKeyStore S :=
  let q := buildAPIKeyQueries (resolve opts) in {|
  ks_CreateAPIKey := CreateAPIKey q; ks_GetActiveAPIKeyByHash := GetActiveAPIKeyByHash q;
  ks_ListAPIKeysByUser := ListAPIKeysByUser q; ks_RevokeAPIKey := RevokeAPIKey q;
  ks_TouchAPIKeyLastUsed := TouchAPIKeyLastUsed q;
|}.

(** ** Refresh sessions *)

Section sessions.
Context (q : refreshTokenQueries).

Definition CreateRefreshToken (rt : RefreshToken) : M S (result unit) :=
  created ← created_or_now (Session_CreatedAt rt);
  only_err (Exec pool (rt_create q) [AString (SessionID rt); AString (Session_UserID rt);
    AString (TokenHash rt); AString (Session_Name rt); ATime (ExpiresAt rt); ATime created;
    ATimePtr (LastUsedAt rt)]).

Definition scan_session (r : row) : result RefreshToken :=
  match r with
  | [c1; c2; c3; c4; c5; c6; c7] =>
    s ← scan_string c1; u ← scan_string c2; h ← scan_string c3; n ← scan_string c4;
    ex ← scan_time c5; ca ← scan_time c6; lu ← scan_timeptr c7;
    Ok (mkRefreshToken s u h n ex ca lu)
  | _ => Err errColumns
  end.

Definition GetRefreshTokenBySession (sessionID : string) : M S (result RefreshToken) :=
  found scan_session (rt_getBySession q) [AString sessionID].

Definition UpdateRefreshToken (rt : RefreshToken) : M S (result unit) :=
  n ←? Exec pool (rt_update q) [AString (SessionID rt); AString (TokenHash rt); ATime (ExpiresAt rt);
    ATimePtr (LastUsedAt rt); AString (Session_Name rt)];
  mret (if n =? 0 then Err ErrNotFound else Ok tt).

Definition DeleteRefreshToken (sessionID : string) : M S (result unit) :=
  only_err (Exec pool (rt_del q) [AString sessionID]).

Definition DeleteUserRefreshTokens (userID : string) : M S (result Z) :=
  Exec pool (rt_delByUser q) [AString userID].

Definition DeleteExpiredRefreshTokens (before : Time) : M S (result Z) :=
  Exec pool (rt_delExpired q) [ATime before].

Definition ListUserRefreshTokens (userID : string) : M S (result (list RefreshToken)) :=
  many (map_err mapNotFound ∘ scan_session) (rt_listByUser q) [AString userID].
End sessions.

Definition NewRefreshTokenStore (opts : list Option) : RefreshTokenStore S :=
  let q := buildRefreshTokenQueries (resolve opts) in {|
  ts_CreateRefreshToken := CreateRefreshToken q;
  ts_GetRefreshTokenBySession := GetRefreshTokenBySession q;
  ts_UpdateRefreshToken := UpdateRefreshToken q; ts_DeleteRefreshToken := DeleteRefreshToken q;
  ts_DeleteUserRefreshTokens := DeleteUserRefreshTokens q;
  ts_DeleteExpiredRefreshTokens := DeleteExpiredRefreshTokens q;
  ts_ListUserRefreshTokens := ListUserRefreshTokens q;
|}.
End pgoauth.
