(* ===== verification/Gorm.v ===== *)
(** * The GORM interface

    [gorm.io/gorm] is third-party: the statements it builds and the server behind them are
    parameters.  A chain such as [db.Table(t).Where(q, a).Take(&v)] is a finisher of [Conn]
    applied to the clauses collected before it.  What GORM learns from a struct by
    reflection, its columns, its keys and the values of its fields, is [GormModel]; the
    instances are read off the struct tags of [identity/entities.go] and [oauth/types.go]. *)

From S2P Require Import Prelude GoStrings Errors World Entities OAuthTypes Sql GoJson Pgx.

Local Open Scope Z_scope.

(** ** Clauses *)

(** What is bound to a [?]; a list stands for all its elements. *)
Inductive garg := GArg (a : arg) | GList (l : list string).

(** [clause.OnConflict]. *)
Record conflict := mkConflict {
  oc_Columns : list string;
  oc_DoUpdates : list string;
  oc_DoNothing : bool;
}.

Inductive clause :=
  | Table (name : string)
  | Where (query : string) (args : list garg)
  | SelectC (columns : list string)
  | Order (column : string)
  | LimitC (n : Z)
  | OffsetC (n : Z)
  | Clauses (c : conflict).

(** [.Where(query, a, b)] with plain arguments. *)
Definition WhereA (query : string) (args : list arg) : clause := Where query (GArg <$> args).

(** ** Models *)

(** The columns of a struct in the order of its fields, the primary key, what each field is
    stored as, [None] for NULL, and a struct filled from a row. *)
Class GormModel (T : Type) := {
  gm_columns : list string;
  gm_keys : list string;
  gm_values : T → list (option arg);
  gm_scan : list value → result T;
}.
Arguments gm_columns T {_}.
Arguments gm_keys T {_}.

(** A column into a field; NULL leaves the zero value. *)
Definition errScan : error := OtherError "sql: Scan error".
Definition into_string (v : value) : result string :=
  match v with VText s => Ok s | VNull => Ok "" | _ => Err errScan end.
Definition into_bool (v : value) : result bool :=
  match v with VBool b => Ok b | VNull => Ok false | _ => Err errScan end.
Definition into_int (v : value) : result Z :=
  match v with VInt z => Ok z | VNull => Ok 0 | _ => Err errScan end.
Definition into_time (v : value) : result Time :=
  match v with VTime t => Ok (t * 1000) | VNull => Ok zeroTime | _ => Err errScan end.
Definition into_timeptr (v : value) : result (option Time) :=
  match v with VTime t => Ok (Some (t * 1000)) | VNull => Ok None | _ => Err errScan end.

(** [serializer:json]: NULL and the empty text leave the field nil. *)
Definition into_json {A} (f : string → option A * bool) (v : value) : result (option A) :=
  s ← into_string v;
  if String.eqb s "" then Ok None else let '(a, ok) := f s in if ok : bool then Ok a else Err errJSON.
Definition json_value {A} (f : A → string) (o : option A) : option arg := AString ∘ f <$> o.
(** A slice without elements is taken to be nil. *)
Definition nil_list (l : list string) : option (list string) := match l with [] => None | _ => Some l end.

#[export] Instance User_model : GormModel User := {|
  gm_columns := ["id"; "user_name"; "normalized_user_name"; "email"; "normalized_email"; "email_confirmed";
    "password_hash"; "security_stamp"; "concurrency_stamp"; "phone_number"; "phone_number_confirmed";
    "two_factor_enabled"; "lockout_end"; "lockout_enabled"; "access_failed_count"; "is_anonymous";
    "attributes"; "created_at"; "updated_at"];
  gm_keys := ["id"];
  gm_values u := [Some (AString (ID u)); Some (AString (UserName u)); Some (AString (NormalizedUserName u));
    Some (AString (Email u)); Some (AString (NormalizedEmail u)); Some (ABool (EmailConfirmed u));
    Some (AString (PasswordHash u)); Some (AString (SecurityStamp u)); Some (AString (ConcurrencyStamp u));
    Some (AString (PhoneNumber u)); Some (ABool (PhoneNumberConfirmed u)); Some (ABool (TwoFactorEnabled u));
    Some (ATimePtr (LockoutEnd u)); Some (ABool (LockoutEnabled u)); Some (AInt (AccessFailedCount u));
    Some (ABool (IsAnonymous u)); json_value Marshal_map (Attributes u); Some (ATime (CreatedAt u));
    Some (ATime (UpdatedAt u))];
  gm_scan r :=
    match r with
    | [c1; c2; c3; c4; c5; c6; c7; c8; c9; c10; c11; c12; c13; c14; c15; c16; c17; c18; c19] =>
      id ← into_string c1; un ← into_string c2; nun ← into_string c3; em ← into_string c4;
      nem ← into_string c5; ec ← into_bool c6; ph ← into_string c7; ss ← into_string c8;
      cs ← into_string c9; pn ← into_string c10; pc ← into_bool c11; tf ← into_bool c12;
      le ← into_timeptr c13; len ← into_bool c14; af ← into_int c15; an ← into_bool c16;
      at_ ← into_json Unmarshal_map c17; ca ← into_time c18; ua ← into_time c19;
      Ok (mkUser id un nun em nem ec ph ss cs pn pc tf le len af an at_ ca ua)
    | _ => Err errScan
    end;
|}.

#[export] Instance Role_model : GormModel Role := {|
  gm_columns := ["id"; "name"; "normalized_name"; "concurrency_stamp"];
  gm_keys := ["id"];
  gm_values r := Some ∘ AString <$> [Role_ID r; Role_Name r; Role_NormalizedName r; Role_ConcurrencyStamp r];
  gm_scan r :=
    match r with
    | [c1; c2; c3; c4] =>
      id ← into_string c1; n ← into_string c2; nn ← into_string c3; cs ← into_string c4; Ok (mkRole id n nn cs)
    | _ => Err errScan
    end;
|}.

(** [identity.UserRole], [UserClaim], [RoleClaim], [UserLogin] and [UserToken]: the rows
    about a user or role. *)
Record UserRole := mkUserRole { UserRole_UserID : string; UserRole_RoleID : string }.
Record UserClaim := mkUserClaim {
  UserClaim_ID : Z; UserClaim_UserID : string; UserClaim_ClaimType : string; UserClaim_ClaimValue : string }.
Record RoleClaim := mkRoleClaim {
  RoleClaim_ID : Z; RoleClaim_RoleID : string; RoleClaim_ClaimType : string; RoleClaim_ClaimValue : string }.
Record UserLogin := mkUserLogin {
  UserLogin_LoginProvider : string; UserLogin_ProviderKey : string; UserLogin_ProviderDisplayName : string;
  UserLogin_UserID : string }.
Record UserToken := mkUserToken {
  UserToken_UserID : string; UserToken_LoginProvider : string; UserToken_Name : string; UserToken_Value : string }.

#[export] Instance UserRole_model : GormModel UserRole := {|
  gm_columns := ["user_id"; "role_id"];
  gm_keys := ["user_id"; "role_id"];
  gm_values r := Some ∘ AString <$> [UserRole_UserID r; UserRole_RoleID r];
  gm_scan r :=
    match r with
    | [c1; c2] => u ← into_string c1; r ← into_string c2; Ok (mkUserRole u r)
    | _ => Err errScan
    end;
|}.

(** An id of zero is left to the server to choose. *)
#[export] Instance UserClaim_model : GormModel UserClaim := {|
  gm_columns := ["id"; "user_id"; "claim_type"; "claim_value"];
  gm_keys := ["id"];
  gm_values c := [Some (AInt (UserClaim_ID c)); Some (AString (UserClaim_UserID c));
    Some (AString (UserClaim_ClaimType c)); Some (AString (UserClaim_ClaimValue c))];
  gm_scan r :=
    match r with
    | [c1; c2; c3; c4] =>
      i ← into_int c1; u ← into_string c2; t ← into_string c3; v ← into_string c4; Ok (mkUserClaim i u t v)
    | _ => Err errScan
    end;
|}.

#[export] Instance RoleClaim_model : GormModel RoleClaim := {|
  gm_columns := ["id"; "role_id"; "claim_type"; "claim_value"];
  gm_keys := ["id"];
  gm_values c := [Some (AInt (RoleClaim_ID c)); Some (AString (RoleClaim_RoleID c));
    Some (AString (RoleClaim_ClaimType c)); Some (AString (RoleClaim_ClaimValue c))];
  gm_scan r :=
    match r with
    | [c1; c2; c3; c4] =>
      i ← into_int c1; u ← into_string c2; t ← into_string c3; v ← into_string c4; Ok (mkRoleClaim i u t v)
    | _ => Err errScan
    end;
|}.

#[export] Instance UserLogin_model : GormModel UserLogin := {|
  gm_columns := ["login_provider"; "provider_key"; "provider_display_name"; "user_id"];
  gm_keys := ["login_provider"; "provider_key"];
  gm_values l := Some ∘ AString <$> [UserLogin_LoginProvider l; UserLogin_ProviderKey l;
    UserLogin_ProviderDisplayName l; UserLogin_UserID l];
  gm_scan r :=
    match r with
    | [c1; c2; c3; c4] =>
      p ← into_string c1; k ← into_string c2; d ← into_string c3; u ← into_string c4; Ok (mkUserLogin p k d u)
    | _ => Err errScan
    end;
|}.

#[export] Instance UserToken_model : GormModel UserToken := {|
  gm_columns := ["user_id"; "login_provider"; "name"; "value"];
  gm_keys := ["user_id"; "login_provider"; "name"];
  gm_values t := Some ∘ AString <$> [UserToken_UserID t; UserToken_LoginProvider t; UserToken_Name t;
    UserToken_Value t];
  gm_scan r :=
    match r with
    | [c1; c2; c3; c4] =>
      u ← into_string c1; p ← into_string c2; n ← into_string c3; v ← into_string c4; Ok (mkUserToken u p n v)
    | _ => Err errScan
    end;
|}.

#[export] Instance APIKey_model : GormModel APIKey := {|
  gm_columns := ["id"; "user_id"; "name"; "prefix"; "key_hash"; "scopes"; "expires_at"; "last_used_at";
    "revoked_at"; "created_at"];
  gm_keys := ["id"];
  gm_values k := [Some (AString (Key_ID k)); Some (AString (Key_UserID k)); Some (AString (Key_Name k));
    Some (AString (Key_Prefix k)); Some (AString (KeyHash k)); json_value Marshal_list (Key_Scopes k);
    Some (ATimePtr (Key_ExpiresAt k)); Some (ATimePtr (Key_LastUsedAt k)); Some (ATimePtr (Key_RevokedAt k));
    Some (ATime (Key_CreatedAt k))];
  gm_scan r :=
    match r with
    | [c1; c2; c3; c4; c5; c6; c7; c8; c9; c10] =>
      id ← into_string c1; u ← into_string c2; n ← into_string c3; p ← into_string c4; h ← into_string c5;
      sc ← into_json Unmarshal_list c6; ex ← into_timeptr c7; lu ← into_timeptr c8; rv ← into_timeptr c9;
      ca ← into_time c10; Ok (mkAPIKey id u n p h sc ex lu rv ca)
    | _ => Err errScan
    end;
|}.

#[export] Instance RefreshToken_model : GormModel RefreshToken := {|
  gm_columns := ["session_id"; "user_id"; "token_hash"; "name"; "expires_at"; "created_at"; "last_used_at"];
  gm_keys := ["session_id"];
  gm_values t := [Some (AString (SessionID t)); Some (AString (Session_UserID t)); Some (AString (TokenHash t));
    Some (AString (Session_Name t)); Some (ATime (ExpiresAt t)); Some (ATime (Session_CreatedAt t));
    Some (ATimePtr (LastUsedAt t))];
  gm_scan r :=
    match r with
    | [c1; c2; c3; c4; c5; c6; c7] =>
      s ← into_string c1; u ← into_string c2; h ← into_string c3; n ← into_string c4;
      ex ← into_time c5; ca ← into_time c6; lu ← into_timeptr c7; Ok (mkRefreshToken s u h n ex ca lu)
    | _ => Err errScan
    end;
|}.

#[export] Instance Client_model : GormModel Client := {|
  gm_columns := ["client_id"; "secret_hash"; "name"; "redirect_uris"; "token_endpoint_auth_method";
    "grant_types"; "created_at"; "last_used_at"];
  gm_keys := ["client_id"];
  gm_values c := [Some (AString (Client_ID c)); Some (AString (SecretHash c)); Some (AString (Client_Name c));
    json_value Marshal_list (nil_list (RedirectURIs c)); Some (AString (TokenEndpointAuthMethod c));
    json_value Marshal_list (nil_list (GrantTypes c)); Some (ATime (Client_CreatedAt c));
    Some (ATimePtr (Client_LastUsedAt c))];
  gm_scan r :=
    match r with
    | [c1; c2; c3; c4; c5; c6; c7; c8] =>
      id ← into_string c1; sh ← into_string c2; n ← into_string c3; ru ← into_json Unmarshal_list c4;
      am ← into_string c5; gt ← into_json Unmarshal_list c6; ca ← into_time c7; lu ← into_timeptr c8;
      Ok (mkClient id sh n (default [] ru) am (default [] gt) ca lu)
    | _ => Err errScan
    end;
|}.

#[export] Instance Code_model : GormModel Code := {|
  gm_columns := ["code_hash"; "client_id"; "user_id"; "redirect_uri"; "scopes"; "resource"; "code_challenge";
    "expires_at"; "used_at"; "grant_id"];
  gm_keys := ["code_hash"];
  gm_values c := [Some (AString (CodeHash c)); Some (AString (Code_ClientID c)); Some (AString (Code_UserID c));
    Some (AString (Code_RedirectURI c)); Some (AString (Code_Scopes c)); Some (AString (Code_Resource c));
    Some (AString (CodeChallenge c)); Some (ATime (Code_ExpiresAt c)); Some (ATimePtr (UsedAt c));
    Some (AString (Code_GrantID c))];
  gm_scan r :=
    match r with
    | [c1; c2; c3; c4; c5; c6; c7; c8; c9; c10] =>
      h ← into_string c1; cl ← into_string c2; u ← into_string c3; ru ← into_string c4;
      sc ← into_string c5; re ← into_string c6; cc ← into_string c7; ex ← into_time c8;
      us ← into_timeptr c9; g ← into_string c10; Ok (mkCode h cl u ru sc re cc ex us g)
    | _ => Err errScan
    end;
|}.

#[export] Instance Consent_model : GormModel Consent := {|
  gm_columns := ["user_id"; "client_id"; "scopes"; "created_at"; "updated_at"];
  gm_keys := ["user_id"; "client_id"];
  gm_values c := [Some (AString (Consent_UserID c)); Some (AString (Consent_ClientID c));
    Some (AString (Consent_Scopes c)); Some (ATime (Consent_CreatedAt c)); Some (ATime (Consent_UpdatedAt c))];
  gm_scan r :=
    match r with
    | [c1; c2; c3; c4; c5] =>
      u ← into_string c1; cl ← into_string c2; sc ← into_string c3; ca ← into_time c4; ua ← into_time c5;
      Ok (mkConsent u cl sc ca ua)
    | _ => Err errScan
    end;
|}.

#[export] Instance Grant_model : GormModel Grant := {|
  gm_columns := ["id"; "user_id"; "client_id"; "scopes"; "resource"; "token_hash"; "prev_token_hash";
    "security_stamp"; "expires_at"; "created_at"; "last_used_at"];
  gm_keys := ["id"];
  gm_values g := [Some (AString (Grant_ID g)); Some (AString (Grant_UserID g)); Some (AString (Grant_ClientID g));
    Some (AString (Grant_Scopes g)); Some (AString (Grant_Resource g)); Some (AString (Grant_TokenHash g));
    Some (AString (PrevTokenHash g)); Some (AString (Grant_SecurityStamp g)); Some (ATime (Grant_ExpiresAt g));
    Some (ATime (Grant_CreatedAt g)); Some (ATimePtr (Grant_LastUsedAt g))];
  gm_scan r :=
    match r with
    | [c1; c2; c3; c4; c5; c6; c7; c8; c9; c10; c11] =>
      id ← into_string c1; u ← into_string c2; cl ← into_string c3; sc ← into_string c4;
      re ← into_string c5; th ← into_string c6; pt ← into_string c7; ss ← into_string c8;
      ex ← into_time c9; ca ← into_time c10; lu ← into_timeptr c11;
      Ok (mkGrant id u cl sc re th pt ss ex ca lu)
    | _ => Err errScan
    end;
|}.

(** [oauth.ClientAssertion]: an accepted assertion. *)
Record ClientAssertion := mkClientAssertion {
  Assertion_ClientID : string; Assertion_JTI : string; Assertion_ExpiresAt : Time }.

#[export] Instance ClientAssertion_model : GormModel ClientAssertion := {|
  gm_columns := ["client_id"; "jti"; "expires_at"];
  gm_keys := ["client_id"; "jti"];
  gm_values a := [Some (AString (Assertion_ClientID a)); Some (AString (Assertion_JTI a));
    Some (ATime (Assertion_ExpiresAt a))];
  gm_scan r :=
    match r with
    | [c1; c2; c3] => c ← into_string c1; j ← into_string c2; e ← into_time c3; Ok (mkClientAssertion c j e)
    | _ => Err errScan
    end;
|}.

(** ** Connections *)

(** The finishers, on a pool or in a transaction.  A result is [Error], or [RowsAffected]
    where it is asked for; one that writes through its argument returns the written struct. *)
Record Conn (S : Type) := mkConn {
  g_Create : ∀ {T} `{GormModel T}, list clause → T → M S (T * result Z);
  g_CreateAll : ∀ {T} `{GormModel T}, list clause → list T → M S (list T * result Z);
  g_Updates : ∀ {T} `{GormModel T}, list clause → T → M S (T * result Z);
  g_UpdateColumns : list clause → list (string * arg) → M S (result Z);
  g_Delete : ∀ T `{GormModel T}, list clause → M S (result Z);
  g_Take : ∀ {T} `{GormModel T}, list clause → M S (result T);
  g_Find : ∀ {T} `{GormModel T}, list clause → M S (result (list T));
  g_Count : list clause → M S (result Z);
  g_Pluck : list clause → string → M S (result (list string));
  g_RawStrings : string → list arg → M S (result (list string));
  g_RawCount : string → list arg → M S (result Z);
  g_Exec : string → list arg → M S (result Z);
  g_AutoMigrate : ∀ T `{GormModel T}, list clause → M S (result unit);
}.
Arguments g_Create {S} _ {T _}.
Arguments g_CreateAll {S} _ {T _}.
Arguments g_Updates {S} _ {T _}.
Arguments g_UpdateColumns {S}.
Arguments g_Delete {S} _ T {_}.
Arguments g_Take {S} _ {T _}.
Arguments g_Find {S} _ {T _}.
Arguments g_Count {S}.
Arguments g_Pluck {S}.
Arguments g_RawStrings {S}.
Arguments g_RawCount {S}.
Arguments g_Exec {S}.
Arguments g_AutoMigrate {S} _ T {_}.

(** [*gorm.DB]: [Transaction(f)] commits when [f] returns nil. *)
Class GormDB (S : Type) := {
  db : Conn S;
  Transaction : (Conn S → M S (result unit)) → M S (result unit);
  ErrRecordNotFound : error;
}.

(** [.Create(&v).Error] of a value the caller drops. *)
Definition dropped {S A B} (m : M S (A * result B)) : M S (result unit) := '(_, r) ← m; mret (r ≫= λ _, Ok tt).
