(* ===== verification/GormStore.v ===== *)
(** * The GORM store: users and roles

    [stores/gormstore/gormstore.go]: every method is a chain of GORM calls
    with its table, conditions and arguments, and what is made of the answer. *)

From S2P Require Import Prelude GoStrings Errors World Entities OAuthTypes Stores Naming Sql Pgx PgQueries PgStore Gorm.

Local Open Scope Z_scope.

(** ** Options *)

Definition Option : Type := Naming → Naming.
Definition WithSchema (schema : string) : Option := λ n, mkNaming schema (Tables n).
Definition WithTablePrefix (prefix : string) : Option :=
  λ n, mkNaming (Schema n) (WithPrefix (Tables n) prefix).
Definition WithTableNames (t : TableNames) : Option := λ n, mkNaming (Schema n) t.
Definition WithNaming (nm : Naming) : Option := λ _, nm.
Definition resolve (opts : list Option) : Naming := foldl (λ n o, o n) DefaultNaming opts.

(** The qualified table names. *)
Record tables := mk_tables {
  users : string;
  roles : string;
  userRoles : string;
  userClaims : string;
  roleClaims : string;
  userLogins : string;
  userTokens : string;
  apiKeys : string;
  refreshTokens : string;
  oauthClients : string;
  oauthCodes : string;
  oauthConsents : string;
  oauthGrants : string;
  oauthAssertions : string;
}.

Definition resolveTables (n : Naming) : tables := {|
  users := Qualify n (Users (Tables n));
  roles := Qualify n (Roles (Tables n));
  userRoles := Qualify n (UserRoles (Tables n));
  userClaims := Qualify n (UserClaims (Tables n));
  roleClaims := Qualify n (RoleClaims (Tables n));
  userLogins := Qualify n (UserLogins (Tables n));
  userTokens := Qualify n (UserTokens (Tables n));
  apiKeys := Qualify n (APIKeys (Tables n));
  refreshTokens := Qualify n (RefreshTokens (Tables n));
  oauthClients := Qualify n (OAuthClients (Tables n));
  oauthCodes := Qualify n (OAuthCodes (Tables n));
  oauthConsents := Qualify n (OAuthConsents (Tables n));
  oauthGrants := Qualify n (OAuthGrants (Tables n));
  oauthAssertions := Qualify n (OAuthAssertions (Tables n));
|}.

Section gormstore.
Context `{Oracle} `{UnicodeDB} {S : Type} `{GormDB S}.

Definition mapNotFound (e : error) : error := if ErrorsIs e ErrRecordNotFound then ErrNotFound else e.

(** One step of a loop that returns the first error. *)
Fixpoint each {A} (f : A → M S (result unit)) (l : list A) : M S (result unit) :=
  match l with
  | [] => mret (Ok tt)
  | a :: l => _ ←? f a; each f l
  end.

Section stores.
Context (t : tables).

(** The tables with rows about a user, in the order they are emptied. *)
Definition satellites : list string :=
  [userRoles t; userClaims t; userLogins t; userTokens t; apiKeys t; refreshTokens t; oauthCodes t;
   oauthConsents t; oauthGrants t].

Definition deleteUserCascade (userID : string) : M S (result unit) :=
  Transaction (λ tx,
    _ ←? each (λ table, only_err (g_Exec tx (Sprintf "DELETE FROM %s WHERE user_id = ?" [table]) [AString userID]))
      satellites;
    only_err (g_Exec tx (Sprintf "DELETE FROM %s WHERE id = ?" [users t]) [AString userID])).

Definition purgeAnonymous (createdBefore : Time) : M S (result Z) :=
  ids ←? g_Pluck db [Table (users t); WhereA "is_anonymous = ? AND created_at < ?" [ABool true; ATime createdBefore]] "id";
  _ ←? each deleteUserCascade ids;
  mret (Ok (Z.of_nat (length ids))).

(** ** User CRUD *)

Definition Create (u : User) : M S (User * result unit) :=
  '(u, r) ← g_Create db [Table (users t)] u; mret (u, r ≫= λ _, Ok tt).

(** [Count] on the id, its error ignored. *)
Definition absent (table id : string) : M S bool :=
  r ← g_Count db [Table table; WhereA "id = ?" [AString id]];
  mret match r with Ok n => n =? 0 | Err _ => true end.

Definition Update (u : User) : M S (User * result unit) :=
  let old := ConcurrencyStamp u in
  stamp ← NewConcurrencyStamp;
  '(u, r) ← g_Updates db [Table (users t); WhereA "id = ? AND concurrency_stamp = ?" [AString (ID u); AString old];
    SelectC ["*"]] (set_ConcurrencyStamp stamp u);
  match r with
  | Err e => mret (set_ConcurrencyStamp old u, Err e)
  | Ok n =>
    if n =? 0 then
      gone ← absent (users t) (ID u);
      mret (set_ConcurrencyStamp old u, Err (if gone : bool then ErrNotFound else ErrConcurrencyFailure))
    else mret (u, Ok tt)
  end.

Definition Delete (u : User) : M S (result unit) := deleteUserCascade (ID u).
Definition PurgeAnonymousUsers (createdBefore : Time) : M S (result Z) := purgeAnonymous createdBefore.

Definition findUser (where_ : string) (a : arg) : M S (result (option User)) :=
  r ← g_Take db [Table (users t); WhereA where_ [a]];
  mret match r with Ok u => Ok (Some u) | Err e => Err (mapNotFound e) end.

Definition FindByID (id : string) : M S (result (option User)) := findUser "id = ?" (AString id).
Definition FindByName (normalizedUserName : string) : M S (result (option User)) :=
  findUser "normalized_user_name = ?" (AString normalizedUserName).
Definition FindByEmail (normalizedEmail : string) : M S (result (option User)) :=
  if String.eqb normalizedEmail "" then mret (Err ErrNotFound)
  else findUser "normalized_email = ?" (AString normalizedEmail).

(** The clauses of the list; the search is a pattern. *)
Definition filtered (f : ListFilter) : list clause :=
  Table (users t) ::
  (if String.eqb (Search f) "" then [] else
   let like := "%" +:+ ToUpper (Search f) +:+ "%" in
   [WhereA "normalized_user_name LIKE ? OR normalized_email LIKE ?" [AString like; AString like]]).

Definition ListUsers (f : ListFilter) : M S (result (list User * Z)) :=
  total ←? g_Count db (filtered f);
  us ←? g_Find db (filtered f ++ [Order "id"; LimitC (Limit f); OffsetC (Offset f)]);
  mret (Ok (us, total)).

(** ** Roles of a user *)

Definition roleIDByName (normalizedRoleName : string) : M S (result string) :=
  r ← g_Take (T := Role) db [Table (roles t); WhereA "normalized_name = ?" [AString normalizedRoleName]];
  mret match r with Ok r => Ok (Role_ID r) | Err e => Err (mapNotFound e) end.

(** [clause.OnConflict{DoNothing: true}]. *)
Definition do_nothing : clause := Clauses (mkConflict [] [] true).

Definition AddToRole (u : User) (normalizedRoleName : string) : M S (result unit) :=
  r ← roleIDByName normalizedRoleName;
  match r with
  | Err e => mret (Err (if ErrorsIs e ErrNotFound then ErrRoleNotFound else e))
  | Ok rid => dropped (g_Create db [Table (userRoles t); do_nothing] (mkUserRole (ID u) rid))
  end.

Definition RemoveFromRole (u : User) (normalizedRoleName : string) : M S (result unit) :=
  r ← roleIDByName normalizedRoleName;
  match r with
  | Err e => mret (if ErrorsIs e ErrNotFound then Ok tt else Err e)
  | Ok rid => only_err (g_Delete db UserRole [Table (userRoles t);
      WhereA "user_id = ? AND role_id = ?" [AString (ID u); AString rid]])
  end.

Definition GetRoles (u : User) : M S (result (list string)) :=
  g_RawStrings db (Sprintf "SELECT r.name FROM %s r JOIN %s ur ON ur.role_id = r.id WHERE ur.user_id = ?"
    [roles t; userRoles t]) [AString (ID u)].

Definition IsInRole (u : User) (normalizedRoleName : string) : M S (result bool) :=
  returns (g_RawCount db (Sprintf "SELECT count(*) FROM %s ur JOIN %s r ON r.id = ur.role_id WHERE ur.user_id = ? AND r.normalized_name = ?"
    [userRoles t; roles t]) [AString (ID u); AString normalizedRoleName]) (λ n, Ok (0 <? n)).

Definition usersByIDs (ids : list string) : M S (result (list User)) :=
  match ids with
  | [] => mret (Ok [])
  | _ => g_Find db [Table (users t); Where "id IN ?" [GList ids]; Order "id"]
  end.

Definition GetUsersInRole (normalizedRoleName : string) : M S (result (list User)) :=
  ids ←? g_RawStrings db (Sprintf "SELECT ur.user_id FROM %s ur JOIN %s r ON r.id = ur.role_id WHERE r.normalized_name = ?"
    [userRoles t; roles t]) [AString normalizedRoleName];
  usersByIDs ids.

Definition GetUsersForClaim (claimType claimValue : string) : M S (result (list User)) :=
  ids ←? g_RawStrings db (Sprintf "SELECT user_id FROM %s WHERE claim_type = ? AND claim_value = ?" [userClaims t])
    [AString claimType; AString claimValue];
  usersByIDs ids.

(** ** Claims *)

Definition GetClaims (u : User) : M S (result (list Claim)) :=
  returns (g_Find db [Table (userClaims t); WhereA "user_id = ?" [AString (ID u)]])
    (λ rows, Ok ((λ r, mkClaim (UserClaim_ClaimType r) (UserClaim_ClaimValue r)) <$> rows)).

Definition AddClaims (u : User) (claims : list Claim) : M S (result unit) :=
  dropped (g_CreateAll db [Table (userClaims t)]
    ((λ c, mkUserClaim 0 (ID u) (Claim_Type c) (Claim_Value c)) <$> claims)).

Definition RemoveClaims (u : User) (claims : list Claim) : M S (result unit) :=
  Transaction (λ tx, each (λ c, only_err (g_Delete tx UserClaim [Table (userClaims t);
    WhereA "user_id = ? AND claim_type = ? AND claim_value = ?"
      [AString (ID u); AString (Claim_Type c); AString (Claim_Value c)]])) claims).

(** ** Tokens and logins *)

Definition token_where (u : User) (loginProvider name : string) : list clause :=
  [Table (userTokens t); WhereA "user_id = ? AND login_provider = ? AND name = ?"
    [AString (ID u); AString loginProvider; AString name]].

Definition GetToken (u : User) (loginProvider name : string) : M S (result string) :=
  r ← g_Take db (token_where u loginProvider name);
  mret match r with
  | Ok tok => Ok (UserToken_Value tok)
  | Err e => if ErrorsIs e ErrRecordNotFound then Ok "" else Err e
  end.

Definition SetToken (u : User) (loginProvider name value : string) : M S (result unit) :=
  dropped (g_Create db [Table (userTokens t);
    Clauses (mkConflict ["user_id"; "login_provider"; "name"] ["value"] false)]
    (mkUserToken (ID u) loginProvider name value)).

Definition RemoveToken (u : User) (loginProvider name : string) : M S (result unit) :=
  only_err (g_Delete db UserToken (token_where u loginProvider name)).

Definition AddLogin (u : User) (login : UserLoginInfo) : M S (result unit) :=
  dropped (g_Create db [Table (userLogins t)]
    (mkUserLogin (LoginProvider login) (ProviderKey login) (ProviderDisplayName login) (ID u))).

Definition RemoveLogin (u : User) (loginProvider providerKey : string) : M S (result unit) :=
  only_err (g_Delete db UserLogin [Table (userLogins t);
    WhereA "user_id = ? AND login_provider = ? AND provider_key = ?"
      [AString (ID u); AString loginProvider; AString providerKey]]).

Definition GetLogins (u : User) : M S (result (list UserLoginInfo)) :=
  returns (g_Find db [Table (userLogins t); WhereA "user_id = ?" [AString (ID u)]])
    (λ rows, Ok ((λ r, mkLogin (UserLogin_LoginProvider r) (UserLogin_ProviderKey r)
      (UserLogin_ProviderDisplayName r)) <$> rows)).

Definition FindByLogin (loginProvider providerKey : string) : M S (result (option User)) :=
  r ← g_Take db [Table (userLogins t);
    WhereA "login_provider = ? AND provider_key = ?" [AString loginProvider; AString providerKey]];
  match r with
  | Err e => mret (Err (mapNotFound e))
  | Ok login => FindByID (UserLogin_UserID login)
  end.

(** ** Roles *)

Definition Role_Create (r : Role) : M S (Role * result unit) :=
  '(r, e) ← g_Create db [Table (roles t)] r; mret (r, e ≫= λ _, Ok tt).

Definition Role_Update (r : Role) : M S (Role * result unit) :=
  let old := Role_ConcurrencyStamp r in
  stamp ← NewConcurrencyStamp;
  '(r, n) ← g_Updates db [Table (roles t);
    WhereA "id = ? AND concurrency_stamp = ?" [AString (Role_ID r); AString old];
    SelectC ["name"; "normalized_name"; "concurrency_stamp"]] (set_Role_ConcurrencyStamp stamp r);
  match n with
  | Err e => mret (set_Role_ConcurrencyStamp old r, Err e)
  | Ok n =>
    if n =? 0 then
      gone ← absent (roles t) (Role_ID r);
      mret (set_Role_ConcurrencyStamp old r, Err (if gone : bool then ErrNotFound else ErrConcurrencyFailure))
    else mret (r, Ok tt)
  end.

Definition Role_Delete (r : Role) : M S (result unit) :=
  only_err (g_Delete db Role [Table (roles t); WhereA "id = ?" [AString (Role_ID r)]]).

Definition findRole (where_ : string) (a : arg) : M S (result (option Role)) :=
  r ← g_Take db [Table (roles t); WhereA where_ [a]];
  mret match r with Ok r => Ok (Some r) | Err e => Err (mapNotFound e) end.
Definition Role_FindByID (id : string) : M S (result (option Role)) := findRole "id = ?" (AString id).
Definition Role_FindByName (normalizedName : string) : M S (result (option Role)) :=
  findRole "normalized_name = ?" (AString normalizedName).

Definition Role_GetClaims (r : Role) : M S (result (list Claim)) :=
  returns (g_Find db [Table (roleClaims t); WhereA "role_id = ?" [AString (Role_ID r)]])
    (λ rows, Ok ((λ r, mkClaim (RoleClaim_ClaimType r) (RoleClaim_ClaimValue r)) <$> rows)).

Definition Role_AddClaim (r : Role) (c : Claim) : M S (result unit) :=
  dropped (g_Create db [Table (roleClaims t)] (mkRoleClaim 0 (Role_ID r) (Claim_Type c) (Claim_Value c))).

Definition Role_RemoveClaim (r : Role) (c : Claim) : M S (result unit) :=
  only_err (g_Delete db RoleClaim [Table (roleClaims t);
    WhereA "role_id = ? AND claim_type = ? AND claim_value = ?"
      [AString (Role_ID r); AString (Claim_Type c); AString (Claim_Value c)]]).
End stores.

(** ** The stores *)

Definition NewUserStore (opts : list Option) : UserStore S :=
  let t := resolveTables (resolve opts) in {|
  us_Create := Create t; us_Update := Update t; us_Delete := Delete t;
  us_FindByID := FindByID t; us_FindByName := FindByName t; us_FindByEmail := FindByEmail t;
  us_AddToRole := AddToRole t; us_RemoveFromRole := RemoveFromRole t; us_GetRoles := GetRoles t;
  us_IsInRole := IsInRole t; us_GetUsersInRole := GetUsersInRole t;
  us_GetClaims := GetClaims t; us_AddClaims := AddClaims t; us_RemoveClaims := RemoveClaims t;
  us_GetUsersForClaim := GetUsersForClaim t;
  us_GetToken := GetToken t; us_SetToken := SetToken t; us_RemoveToken := RemoveToken t;
  us_AddLogin := AddLogin t; us_RemoveLogin := RemoveLogin t; us_GetLogins := GetLogins t;
  us_FindByLogin := FindByLogin t;
  us_ListUsers := Some (ListUsers t); us_PurgeAnonymousUsers := Some (PurgeAnonymousUsers t);
|}.

Definition NewRoleStore (opts : list Option) : RoleStore S :=
  let t := resolveTables (resolve opts) in {|
  rs_Create := Role_Create t; rs_Update := Role_Update t; rs_Delete := Role_Delete t;
  rs_FindByID := Role_FindByID t; rs_FindByName := Role_FindByName t;
  rs_GetClaims := Role_GetClaims t; rs_AddClaim := Role_AddClaim t; rs_RemoveClaim := Role_RemoveClaim t;
|}.

(** ** Migration *)

Definition create_schema (n : Naming) : M S (result unit) :=
  if String.eqb (Schema n) "" then mret (Ok tt)
  else only_err (g_Exec db ("CREATE SCHEMA IF NOT EXISTS " +:+ Schema n) []).

(** The tables beside the users', with their models. *)
Definition shared_steps (t : tables) : list (M S (result unit)) := [
  g_AutoMigrate db Role [Table (roles t)]; g_AutoMigrate db UserRole [Table (userRoles t)];
  g_AutoMigrate db UserClaim [Table (userClaims t)]; g_AutoMigrate db RoleClaim [Table (roleClaims t)];
  g_AutoMigrate db UserLogin [Table (userLogins t)]; g_AutoMigrate db UserToken [Table (userTokens t)];
  g_AutoMigrate db APIKey [Table (apiKeys t)]; g_AutoMigrate db RefreshToken [Table (refreshTokens t)];
  g_AutoMigrate db Client [Table (oauthClients t)]; g_AutoMigrate db Code [Table (oauthCodes t)];
  g_AutoMigrate db Consent [Table (oauthConsents t)]; g_AutoMigrate db Grant [Table (oauthGrants t)];
  g_AutoMigrate db ClientAssertion [Table (oauthAssertions t)]].

Definition Migrate (opts : list Option) : M S (result unit) :=
  let n := resolve opts in
  _ ←? Naming_Validate n;
  _ ←? create_schema n;
  let t := resolveTables n in
  each id (g_AutoMigrate db User [Table (users t)] :: shared_steps t).
End gormstore.
