(* ===== verification/GormGeneric.v ===== *)
(** * The generic GORM store

    [stores/gormstore/generic.go]: [GenericUserStore[T, PT]], the same methods for a struct
    [T] that embeds [User]; [Base] is the embedded user and [set_Base] writes it. *)

From S2P Require Import Prelude GoStrings Errors World Entities OAuthTypes Stores Naming Sql Pgx PgQueries PgStore Gorm.
From S2P Require Import GormStore.

Local Open Scope Z_scope.

Section generic.
Context `{Oracle} `{UnicodeDB} {S : Type} `{GormDB S}.
Context {T : Type} `{GormModel T} (Base : T → User) (set_Base : User → T → T) (t : tables).

(** [u.Base().ConcurrencyStamp = stamp]. *)
Definition set_stamp (stamp : string) (u : T) : T := set_Base (set_ConcurrencyStamp stamp (Base u)) u.

(** ** User CRUD *)

Definition Create (u : T) : M S (T * result unit) :=
  '(u, r) ← g_Create db [Table (users t)] u; mret (u, r ≫= λ _, Ok tt).

Definition Update (u : T) : M S (T * result unit) :=
  let old := ConcurrencyStamp (Base u) in
  stamp ← NewConcurrencyStamp;
  '(u, r) ← g_Updates db [Table (users t); WhereA "id = ? AND concurrency_stamp = ?" [AString (ID (Base u)); AString old];
    SelectC ["*"]] (set_stamp stamp u);
  match r with
  | Err e => mret (set_stamp old u, Err e)
  | Ok n =>
    if n =? 0 then
      gone ← absent (users t) (ID (Base u));
      mret (set_stamp old u, Err (if gone : bool then ErrNotFound else ErrConcurrencyFailure))
    else mret (u, Ok tt)
  end.

Definition Delete (u : T) : M S (result unit) := deleteUserCascade t (ID (Base u)).
Definition PurgeAnonymousUsers (createdBefore : Time) : M S (result Z) := purgeAnonymous t createdBefore.

Definition find (where_ : string) (a : arg) : M S (result (option T)) :=
  r ← g_Take db [Table (users t); WhereA where_ [a]];
  mret match r with Ok u => Ok (Some u) | Err e => Err (mapNotFound e) end.

Definition FindByID (id : string) : M S (result (option T)) := find "id = ?" (AString id).
Definition FindByName (normalizedUserName : string) : M S (result (option T)) :=
  find "normalized_user_name = ?" (AString normalizedUserName).
Definition FindByEmail (normalizedEmail : string) : M S (result (option T)) :=
  if String.eqb normalizedEmail "" then mret (Err ErrNotFound)
  else find "normalized_email = ?" (AString normalizedEmail).

(** The clauses of the list; the search is a pattern. *)
Definition filtered (f : ListFilter) : list clause :=
  Table (users t) ::
  (if String.eqb (Search f) "" then [] else
   let like := "%" +:+ ToUpper (Search f) +:+ "%" in
   [WhereA "normalized_user_name LIKE ? OR normalized_email LIKE ?" [AString like; AString like]]).

Definition ListUsers (f : ListFilter) : M S (result (list T * Z)) :=
  total ←? g_Count db (filtered f);
  us ←? g_Find db (filtered f ++ [Order "id"; LimitC (Limit f); OffsetC (Offset f)]);
  mret (Ok (us, total)).

(** ** Roles of a user *)

Definition roleIDByName (normalizedRoleName : string) : M S (result string) :=
  r ← g_Take (T := Role) db [Table (roles t); WhereA "normalized_name = ?" [AString normalizedRoleName]];
  mret match r with Ok r => Ok (Role_ID r) | Err e => Err (mapNotFound e) end.

Definition AddToRole (u : T) (normalizedRoleName : string) : M S (result unit) :=
  r ← roleIDByName normalizedRoleName;
  match r with
  | Err e => mret (Err (if ErrorsIs e ErrNotFound then ErrRoleNotFound else e))
  | Ok rid => dropped (g_Create db [Table (userRoles t); do_nothing] (mkUserRole (ID (Base u)) rid))
  end.

Definition RemoveFromRole (u : T) (normalizedRoleName : string) : M S (result unit) :=
  r ← roleIDByName normalizedRoleName;
  match r with
  | Err e => mret (if ErrorsIs e ErrNotFound then Ok tt else Err e)
  | Ok rid => only_err (g_Delete db UserRole [Table (userRoles t);
      WhereA "user_id = ? AND role_id = ?" [AString (ID (Base u)); AString rid]])
  end.

Definition GetRoles (u : T) : M S (result (list string)) :=
  g_RawStrings db (Sprintf "SELECT r.name FROM %s r JOIN %s ur ON ur.role_id = r.id WHERE ur.user_id = ?"
    [roles t; userRoles t]) [AString (ID (Base u))].

Definition IsInRole (u : T) (normalizedRoleName : string) : M S (result bool) :=
  returns (g_RawCount db (Sprintf "SELECT count(*) FROM %s ur JOIN %s r ON r.id = ur.role_id WHERE ur.user_id = ? AND r.normalized_name = ?"
    [userRoles t; roles t]) [AString (ID (Base u)); AString normalizedRoleName]) (λ n, Ok (0 <? n)).

Definition usersByIDs (ids : list string) : M S (result (list T)) :=
  match ids with
  | [] => mret (Ok [])
  | _ => g_Find db [Table (users t); Where "id IN ?" [GList ids]; Order "id"]
  end.

Definition GetUsersInRole (normalizedRoleName : string) : M S (result (list T)) :=
  ids ←? g_RawStrings db (Sprintf "SELECT ur.user_id FROM %s ur JOIN %s r ON r.id = ur.role_id WHERE r.normalized_name = ?"
    [userRoles t; roles t]) [AString normalizedRoleName];
  usersByIDs ids.

Definition GetUsersForClaim (claimType claimValue : string) : M S (result (list T)) :=
  ids ←? g_RawStrings db (Sprintf "SELECT user_id FROM %s WHERE claim_type = ? AND claim_value = ?" [userClaims t])
    [AString claimType; AString claimValue];
  usersByIDs ids.

(** ** Claims *)

Definition GetClaims (u : T) : M S (result (list Claim)) :=
  returns (g_Find db [Table (userClaims t); WhereA "user_id = ?" [AString (ID (Base u))]])
    (λ rows, Ok ((λ r, mkClaim (UserClaim_ClaimType r) (UserClaim_ClaimValue r)) <$> rows)).

Definition AddClaims (u : T) (claims : list Claim) : M S (result unit) :=
  dropped (g_CreateAll db [Table (userClaims t)]
    ((λ c, mkUserClaim 0 (ID (Base u)) (Claim_Type c) (Claim_Value c)) <$> claims)).

Definition RemoveClaims (u : T) (claims : list Claim) : M S (result unit) :=
  Transaction (λ tx, each (λ c, only_err (g_Delete tx UserClaim [Table (userClaims t);
    WhereA "user_id = ? AND claim_type = ? AND claim_value = ?"
      [AString (ID (Base u)); AString (Claim_Type c); AString (Claim_Value c)]])) claims).

(** ** Tokens and logins *)

Definition token_where (u : T) (loginProvider name : string) : list clause :=
  [Table (userTokens t); WhereA "user_id = ? AND login_provider = ? AND name = ?"
    [AString (ID (Base u)); AString loginProvider; AString name]].

Definition GetToken (u : T) (loginProvider name : string) : M S (result string) :=
  r ← g_Take db (token_where u loginProvider name);
  mret match r with
  | Ok tok => Ok (UserToken_Value tok)
  | Err e => if ErrorsIs e ErrRecordNotFound then Ok "" else Err e
  end.

Definition SetToken (u : T) (loginProvider name value : string) : M S (result unit) :=
  dropped (g_Create db [Table (userTokens t);
    Clauses (mkConflict ["user_id"; "login_provider"; "name"] ["value"] false)]
    (mkUserToken (ID (Base u)) loginProvider name value)).

Definition RemoveToken (u : T) (loginProvider name : string) : M S (result unit) :=
  only_err (g_Delete db UserToken (token_where u loginProvider name)).

Definition AddLogin (u : T) (login : UserLoginInfo) : M S (result unit) :=
  dropped (g_Create db [Table (userLogins t)]
    (mkUserLogin (LoginProvider login) (ProviderKey login) (ProviderDisplayName login) (ID (Base u)))).

Definition RemoveLogin (u : T) (loginProvider providerKey : string) : M S (result unit) :=
  only_err (g_Delete db UserLogin [Table (userLogins t);
    WhereA "user_id = ? AND login_provider = ? AND provider_key = ?"
      [AString (ID (Base u)); AString loginProvider; AString providerKey]]).

Definition GetLogins (u : T) : M S (result (list UserLoginInfo)) :=
  returns (g_Find db [Table (userLogins t); WhereA "user_id = ?" [AString (ID (Base u))]])
    (λ rows, Ok ((λ r, mkLogin (UserLogin_LoginProvider r) (UserLogin_ProviderKey r)
      (UserLogin_ProviderDisplayName r)) <$> rows)).

Definition FindByLogin (loginProvider providerKey : string) : M S (result (option T)) :=
  r ← g_Take db [Table (userLogins t);
    WhereA "login_provider = ? AND provider_key = ?" [AString loginProvider; AString providerKey]];
  match r with
  | Err e => mret (Err (mapNotFound e))
  | Ok login => FindByID (UserLogin_UserID login)
  end.
End generic.

(** [MigrateOf]. *)
Definition MigrateOf `{Oracle} `{UnicodeDB} {S} `{GormDB S} T `{GormModel T} (opts : list Option) : M S (result unit) :=
  let n := resolve opts in
  _ ←? Naming_Validate n;
  _ ←? create_schema n;
  let t := resolveTables n in
  _ ←? g_AutoMigrate db T [Table (users t)];
  each id (shared_steps t).

(** [NewUserStoreOf] at [User] itself, whose [Base] is the identity. *)
Definition NewUserStoreOf `{Oracle} `{UnicodeDB} {S} `{GormDB S} (opts : list Option) : UserStore S :=
  let t := resolveTables (resolve opts) in let B := id : User → User in let W u (_ : User) := u : User in {|
  us_Create := Create t; us_Update := Update B W t; us_Delete := Delete B t;
  us_FindByID := FindByID t; us_FindByName := FindByName t; us_FindByEmail := FindByEmail t;
  us_AddToRole := AddToRole B t; us_RemoveFromRole := RemoveFromRole B t;
  us_GetRoles := GetRoles B t; us_IsInRole := IsInRole B t;
  us_GetUsersInRole := GetUsersInRole t;
  us_GetClaims := GetClaims B t; us_AddClaims := AddClaims B t;
  us_RemoveClaims := RemoveClaims B t; us_GetUsersForClaim := GetUsersForClaim t;
  us_GetToken := GetToken B t; us_SetToken := SetToken B t; us_RemoveToken := RemoveToken B t;
  us_AddLogin := AddLogin B t; us_RemoveLogin := RemoveLogin B t; us_GetLogins := GetLogins B t;
  us_FindByLogin := FindByLogin t;
  us_ListUsers := Some (ListUsers t); us_PurgeAnonymousUsers := Some (PurgeAnonymousUsers t);
|}.

(** The two implementations are the same store. *)
Lemma generic_store_agrees `{Oracle} `{UnicodeDB} {S} `{GormDB S} opts : NewUserStoreOf opts = NewUserStore opts.
Proof. reflexivity. Qed.
