(* ===== verification/GormOAuth.v ===== *)
(** * The GORM store: the authorization server, API keys and refresh sessions

    [stores/gormstore/oauth.go], [apikey.go] and [refreshtoken.go]. *)

From S2P Require Import Prelude GoStrings Errors World Entities OAuthTypes Stores Naming Sql Pgx PgQueries PgStore.
From S2P Require Import PgOAuth Gorm GormStore.

Local Open Scope Z_scope.

Section gormoauth.
Context `{Oracle} {S : Type} `{GormDB S}.

(** [take]. *)
Definition take {T} `{GormModel T} (q : list clause) : M S (result T) :=
  r ← g_Take db q;
  mret match r with Ok v => Ok v | Err e => Err (if ErrorsIs e ErrRecordNotFound then ErrNotFound else e) end.

(** What a dropped struct leaves: [RowsAffected], or [Error]. *)
Definition created {T} (m : M S (T * result Z)) : M S (result Z) := '(_, r) ← m; mret r.

Section oauth.
Context (t : tables).

(** ** Clients *)

Definition CreateClient (c : Client) : M S (result unit) :=
  only_err (created (g_Create db [Table (oauthClients t)] c)).

Definition GetClient (clientID : string) : M S (result Client) :=
  take [Table (oauthClients t); WhereA "client_id = ?" [AString clientID]].

Definition TouchClient (clientID : string) (at_ : Time) : M S (result unit) :=
  only_err (g_UpdateColumns db [Table (oauthClients t); WhereA "client_id = ?" [AString clientID]]
    [("last_used_at", ATime at_)]).

(** Two statements: the ids, then the rows. *)
Definition DeleteStaleClients (before : Time) : M S (result Z) :=
  let q := Sprintf "SELECT c.client_id FROM %s c WHERE c.created_at < ? AND (c.last_used_at IS NULL OR c.last_used_at < ?)
		AND NOT EXISTS (SELECT 1 FROM %s g WHERE g.client_id = c.client_id)" [oauthClients t; oauthGrants t] in
  ids ←? g_RawStrings db q [ATime before; ATime before];
  match ids with
  | [] => mret (Ok 0)
  | _ => g_Delete db Client [Table (oauthClients t); Where "client_id IN ?" [GList ids]]
  end.

(** ** Codes *)

Definition CreateCode (c : Code) : M S (result unit) :=
  only_err (created (g_Create db [Table (oauthCodes t)] c)).

Definition GetCode (codeHash : string) : M S (result Code) :=
  take [Table (oauthCodes t); WhereA "code_hash = ?" [AString codeHash]].

Definition MarkCodeUsed (codeHash grantID : string) (at_ : Time) : M S (result bool) :=
  one_row (g_UpdateColumns db [Table (oauthCodes t); WhereA "code_hash = ? AND used_at IS NULL" [AString codeHash]]
    [("used_at", ATime at_); ("grant_id", AString grantID)]).

Definition DeleteExpiredCodes (before : Time) : M S (result Z) :=
  g_Delete db Code [Table (oauthCodes t); WhereA "expires_at < ?" [ATime before]].

(** ** Consents *)

Definition consent_where (userID clientID : string) : list clause :=
  [Table (oauthConsents t); WhereA "user_id = ? AND client_id = ?" [AString userID; AString clientID]].

Definition GetConsent (userID clientID : string) : M S (result Consent) := take (consent_where userID clientID).

Definition SaveConsent (c : Consent) : M S (result unit) :=
  only_err (created (g_Create db [Table (oauthConsents t);
    Clauses (mkConflict ["user_id"; "client_id"] ["scopes"; "updated_at"] false)] c)).

Definition DeleteConsent (userID clientID : string) : M S (result unit) :=
  only_err (g_Delete db Consent (consent_where userID clientID)).

(** ** Grants *)

Definition CreateGrant (g : Grant) : M S (result unit) :=
  only_err (created (g_Create db [Table (oauthGrants t)] g)).

Definition GetGrant (id : string) : M S (result Grant) :=
  take [Table (oauthGrants t); WhereA "id = ?" [AString id]].

Definition RotateGrant (id oldHash newHash : string) (expiresAt usedAt : Time) : M S (result bool) :=
  one_row (g_UpdateColumns db [Table (oauthGrants t); WhereA "id = ? AND token_hash = ?" [AString id; AString oldHash]]
    [("prev_token_hash", AString oldHash); ("token_hash", AString newHash); ("expires_at", ATime expiresAt);
     ("last_used_at", ATime usedAt)]).

Definition DeleteGrant (id : string) : M S (result unit) :=
  only_err (g_Delete db Grant [Table (oauthGrants t); WhereA "id = ?" [AString id]]).

Definition DeleteUserClientGrants (userID clientID : string) : M S (result Z) :=
  g_Delete db Grant [Table (oauthGrants t); WhereA "user_id = ? AND client_id = ?" [AString userID; AString clientID]].

Definition ListUserGrants (userID : string) : M S (result (list Grant)) :=
  g_Find db [Table (oauthGrants t); WhereA "user_id = ?" [AString userID]; Order "created_at"].

Definition DeleteExpiredGrants (before : Time) : M S (result Z) :=
  g_Delete db Grant [Table (oauthGrants t); WhereA "expires_at < ?" [ATime before]].

(** ** Client assertions *)

Definition UseClientAssertion (clientID jti : string) (expiresAt : Time) : M S (result bool) :=
  one_row (created (g_Create db [Table (oauthAssertions t); do_nothing] (mkClientAssertion clientID jti expiresAt))).

Definition DeleteExpiredClientAssertions (before : Time) : M S (result Z) :=
  g_Delete db ClientAssertion [Table (oauthAssertions t); WhereA "expires_at < ?" [ATime before]].
End oauth.

Definition NewOAuthStore (opts : list Option) : OAuthStore S :=
  let t := resolveTables (resolve opts) in {|
  os_CreateClient := CreateClient t; os_GetClient := GetClient t; os_TouchClient := TouchClient t;
  os_DeleteStaleClients := DeleteStaleClients t;
  os_CreateCode := CreateCode t; os_GetCode := GetCode t; os_MarkCodeUsed := MarkCodeUsed t;
  os_DeleteExpiredCodes := DeleteExpiredCodes t;
  os_GetConsent := GetConsent t; os_SaveConsent := SaveConsent t; os_DeleteConsent := DeleteConsent t;
  os_CreateGrant := CreateGrant t; os_GetGrant := GetGrant t; os_RotateGrant := RotateGrant t;
  os_DeleteGrant := DeleteGrant t; os_DeleteUserClientGrants := DeleteUserClientGrants t;
  os_ListUserGrants := ListUserGrants t; os_DeleteExpiredGrants := DeleteExpiredGrants t;
  os_UseClientAssertion := UseClientAssertion t;
  os_DeleteExpiredClientAssertions := DeleteExpiredClientAssertions t;
|}.

(** ** API keys *)

Section apikeys.
Context (t : tables).

Definition CreateAPIKey (k : APIKey) : M S (result unit) :=
  only_err (created (g_Create db [Table (apiKeys t)] k)).

Definition GetActiveAPIKeyByHash (keyHash : string) : M S (result APIKey) :=
  now_ ← now;
  r ← g_Take db [Table (apiKeys t);
    WhereA "key_hash = ? AND revoked_at IS NULL AND (expires_at IS NULL OR expires_at > ?)"
      [AString keyHash; ATime now_]];
  mret match r with
  | Ok k => Ok k
  | Err e => Err (if ErrorsIs e ErrRecordNotFound then ErrNotFound else e)
  end.

Definition ListAPIKeysByUser (userID : string) : M S (result (list APIKey)) :=
  g_Find db [Table (apiKeys t); WhereA "user_id = ?" [AString userID]; Order "created_at"].

Definition RevokeAPIKey (id : string) : M S (result unit) :=
  now_ ← now;
  only_err (g_UpdateColumns db [Table (apiKeys t); WhereA "id = ? AND revoked_at IS NULL" [AString id]]
    [("revoked_at", ATime now_)]).

Definition TouchAPIKeyLastUsed (id : string) : M S (result unit) :=
  now_ ← now;
  only_err (g_Exec db (Sprintf "UPDATE %s SET last_used_at = ? WHERE id = ?" [apiKeys t]) [ATime now_; AString id]).
End apikeys.

Definition NewAPIKeyStore (opts : list Option) : APIKeyStore S :=
  let t := resolveTables (resolve opts) in {|
  ks_CreateAPIKey := CreateAPIKey t; ks_GetActiveAPIKeyByHash := GetActiveAPIKeyByHash t;
  ks_ListAPIKeysByUser := ListAPIKeysByUser t; ks_RevokeAPIKey := RevokeAPIKey t;
  ks_TouchAPIKeyLastUsed := TouchAPIKeyLastUsed t;
|}.

(** ** Refresh sessions *)

Section sessions.
Context (t : tables).

Definition CreateRefreshToken (rt : RefreshToken) : M S (result unit) :=
  only_err (created (g_Create db [Table (refreshTokens t)] rt)).

Definition GetRefreshTokenBySession (sessionID : string) : M S (result RefreshToken) :=
  r ← g_Take db [Table (refreshTokens t); WhereA "session_id = ?" [AString sessionID]];
  mret match r with
  | Ok rt => Ok rt
  | Err e => Err (if ErrorsIs e ErrRecordNotFound then ErrNotFound else e)
  end.

Definition UpdateRefreshToken (rt : RefreshToken) : M S (result unit) :=
  n ←? created (g_Updates db [Table (refreshTokens t); WhereA "session_id = ?" [AString (SessionID rt)];
    SelectC ["token_hash"; "expires_at"; "last_used_at"; "name"]] rt);
  mret (if n =? 0 then Err ErrNotFound else Ok tt).

Definition DeleteRefreshToken (sessionID : string) : M S (result unit) :=
  only_err (g_Delete db RefreshToken [Table (refreshTokens t); WhereA "session_id = ?" [AString sessionID]]).

Definition DeleteUserRefreshTokens (userID : string) : M S (result Z) :=
  g_Delete db RefreshToken [Table (refreshTokens t); WhereA "user_id = ?" [AString userID]].

Definition DeleteExpiredRefreshTokens (before : Time) : M S (result Z) :=
  g_Delete db RefreshToken [Table (refreshTokens t); WhereA "expires_at < ?" [ATime before]].

Definition ListUserRefreshTokens (userID : string) : M S (result (list RefreshToken)) :=
  g_Find db [Table (refreshTokens t); WhereA "user_id = ?" [AString userID]; Order "created_at"].
End sessions.

Definition NewRefreshTokenStore (opts : list Option) : RefreshTokenStore S :=
  let t := resolveTables (resolve opts) in {|
  ts_CreateRefreshToken := CreateRefreshToken t;
  ts_GetRefreshTokenBySession := GetRefreshTokenBySession t;
  ts_UpdateRefreshToken := UpdateRefreshToken t; ts_DeleteRefreshToken := DeleteRefreshToken t;
  ts_DeleteUserRefreshTokens := DeleteUserRefreshTokens t;
  ts_DeleteExpiredRefreshTokens := DeleteExpiredRefreshTokens t;
  ts_ListUserRefreshTokens := ListUserRefreshTokens t;
|}.
End gormoauth.
