(* ===== verification/SqlcGen.v ===== *)
(** * The generated queries of the sqlc store

    [stores/pgxsqlc/internal/sqlcgen]: one constant text, one parameter struct and one method
    per query, over the interface [DBTX] a pool and a transaction share. *)

From S2P Require Import Prelude GoStrings Errors World Sql Pgx PgStore PgOAuth.

Local Open Scope Z_scope.

(** ** Rows ([models.go]) *)

Record IdentityApiKey := mk_IdentityApiKey {
  IdentityApiKey_ID : string;
  IdentityApiKey_UserID : string;
  IdentityApiKey_Name : string;
  IdentityApiKey_Prefix : string;
  IdentityApiKey_KeyHash : string;
  IdentityApiKey_Scopes : string;
  IdentityApiKey_ExpiresAt : option Time;
  IdentityApiKey_LastUsedAt : option Time;
  IdentityApiKey_RevokedAt : option Time;
  IdentityApiKey_CreatedAt : Time;
}.

Record IdentityOauthClient := mk_IdentityOauthClient {
  IdentityOauthClient_ClientID : string;
  IdentityOauthClient_SecretHash : string;
  IdentityOauthClient_Name : string;
  IdentityOauthClient_RedirectUris : string;
  IdentityOauthClient_TokenEndpointAuthMethod : string;
  IdentityOauthClient_GrantTypes : string;
  IdentityOauthClient_CreatedAt : Time;
  IdentityOauthClient_LastUsedAt : option Time;
}.

Record IdentityOauthCode := mk_IdentityOauthCode {
  IdentityOauthCode_CodeHash : string;
  IdentityOauthCode_ClientID : string;
  IdentityOauthCode_UserID : string;
  IdentityOauthCode_RedirectUri : string;
  IdentityOauthCode_Scopes : string;
  IdentityOauthCode_Resource : string;
  IdentityOauthCode_CodeChallenge : string;
  IdentityOauthCode_ExpiresAt : Time;
  IdentityOauthCode_UsedAt : option Time;
  IdentityOauthCode_GrantID : string;
}.

Record IdentityOauthConsent := mk_IdentityOauthConsent {
  IdentityOauthConsent_UserID : string;
  IdentityOauthConsent_ClientID : string;
  IdentityOauthConsent_Scopes : string;
  IdentityOauthConsent_CreatedAt : Time;
  IdentityOauthConsent_UpdatedAt : Time;
}.

Record IdentityOauthGrant := mk_IdentityOauthGrant {
  IdentityOauthGrant_ID : string;
  IdentityOauthGrant_UserID : string;
  IdentityOauthGrant_ClientID : string;
  IdentityOauthGrant_Scopes : string;
  IdentityOauthGrant_Resource : string;
  IdentityOauthGrant_TokenHash : string;
  IdentityOauthGrant_PrevTokenHash : string;
  IdentityOauthGrant_SecurityStamp : string;
  IdentityOauthGrant_ExpiresAt : Time;
  IdentityOauthGrant_CreatedAt : Time;
  IdentityOauthGrant_LastUsedAt : option Time;
}.

Record IdentityRefreshToken := mk_IdentityRefreshToken {
  IdentityRefreshToken_SessionID : string;
  IdentityRefreshToken_UserID : string;
  IdentityRefreshToken_TokenHash : string;
  IdentityRefreshToken_Name : string;
  IdentityRefreshToken_ExpiresAt : Time;
  IdentityRefreshToken_CreatedAt : Time;
  IdentityRefreshToken_LastUsedAt : option Time;
}.

Record IdentityRole := mk_IdentityRole {
  IdentityRole_ID : string;
  IdentityRole_Name : string;
  IdentityRole_NormalizedName : string;
  IdentityRole_ConcurrencyStamp : string;
}.

Record GetRoleClaimsRow := mk_GetRoleClaimsRow {
  GetRoleClaimsRow_ClaimType : string;
  GetRoleClaimsRow_ClaimValue : string;
}.

Record IdentityUser := mk_IdentityUser {
  IdentityUser_ID : string;
  IdentityUser_UserName : string;
  IdentityUser_NormalizedUserName : string;
  IdentityUser_Email : string;
  IdentityUser_NormalizedEmail : string;
  IdentityUser_EmailConfirmed : bool;
  IdentityUser_PasswordHash : string;
  IdentityUser_SecurityStamp : string;
  IdentityUser_ConcurrencyStamp : string;
  IdentityUser_PhoneNumber : string;
  IdentityUser_PhoneNumberConfirmed : bool;
  IdentityUser_TwoFactorEnabled : bool;
  IdentityUser_LockoutEnd : option Time;
  IdentityUser_LockoutEnabled : bool;
  IdentityUser_AccessFailedCount : Z;
  IdentityUser_Attributes : string;
  IdentityUser_IsAnonymous : bool;
  IdentityUser_CreatedAt : Time;
  IdentityUser_UpdatedAt : Time;
}.

Record GetUserClaimsRow := mk_GetUserClaimsRow {
  GetUserClaimsRow_ClaimType : string;
  GetUserClaimsRow_ClaimValue : string;
}.

Record GetUserLoginsRow := mk_GetUserLoginsRow {
  GetUserLoginsRow_LoginProvider : string;
  GetUserLoginsRow_ProviderKey : string;
  GetUserLoginsRow_ProviderDisplayName : string;
}.

Section sqlcgen.
Context `{Scanner} {S : Type}.

(** [Queries], [New] and [WithTx] ([db.go]). *)
Definition Queries : Type := DBTX S.
Definition New (db : DBTX S) : Queries := db.
Definition WithTx (q : Queries) (tx : Tx S) : Queries := tx_DBTX tx.

(** ** Scanning a row *)

Definition scan_IdentityApiKey (r : row) : result IdentityApiKey :=
  match r with
  | [c1; c2; c3; c4; c5; c6; c7; c8; c9; c10] =>
    x1 ← scan_string c1; x2 ← scan_string c2; x3 ← scan_string c3; x4 ← scan_string c4;
    x5 ← scan_string c5; x6 ← scan_bytes c6; x7 ← scan_timeptr c7; x8 ← scan_timeptr c8;
    x9 ← scan_timeptr c9; x10 ← scan_time c10;
    Ok (mk_IdentityApiKey x1 x2 x3 x4 x5 x6 x7 x8 x9 x10)
  | _ => Err errColumns
  end.

Definition scan_IdentityOauthClient (r : row) : result IdentityOauthClient :=
  match r with
  | [c1; c2; c3; c4; c5; c6; c7; c8] =>
    x1 ← scan_string c1; x2 ← scan_string c2; x3 ← scan_string c3; x4 ← scan_string c4;
    x5 ← scan_string c5; x6 ← scan_string c6; x7 ← scan_time c7; x8 ← scan_timeptr c8;
    Ok (mk_IdentityOauthClient x1 x2 x3 x4 x5 x6 x7 x8)
  | _ => Err errColumns
  end.

Definition scan_IdentityOauthCode (r : row) : result IdentityOauthCode :=
  match r with
  | [c1; c2; c3; c4; c5; c6; c7; c8; c9; c10] =>
    x1 ← scan_string c1; x2 ← scan_string c2; x3 ← scan_string c3; x4 ← scan_string c4;
    x5 ← scan_string c5; x6 ← scan_string c6; x7 ← scan_string c7; x8 ← scan_time c8;
    x9 ← scan_timeptr c9; x10 ← scan_string c10;
    Ok (mk_IdentityOauthCode x1 x2 x3 x4 x5 x6 x7 x8 x9 x10)
  | _ => Err errColumns
  end.

Definition scan_IdentityOauthConsent (r : row) : result IdentityOauthConsent :=
  match r with
  | [c1; c2; c3; c4; c5] =>
    x1 ← scan_string c1; x2 ← scan_string c2; x3 ← scan_string c3; x4 ← scan_time c4;
    x5 ← scan_time c5;
    Ok (mk_IdentityOauthConsent x1 x2 x3 x4 x5)
  | _ => Err errColumns
  end.

Definition scan_IdentityOauthGrant (r : row) : result IdentityOauthGrant :=
  match r with
  | [c1; c2; c3; c4; c5; c6; c7; c8; c9; c10; c11] =>
    x1 ← scan_string c1; x2 ← scan_string c2; x3 ← scan_string c3; x4 ← scan_string c4;
    x5 ← scan_string c5; x6 ← scan_string c6; x7 ← scan_string c7; x8 ← scan_string c8;
    x9 ← scan_time c9; x10 ← scan_time c10; x11 ← scan_timeptr c11;
    Ok (mk_IdentityOauthGrant x1 x2 x3 x4 x5 x6 x7 x8 x9 x10 x11)
  | _ => Err errColumns
  end.

Definition scan_IdentityRefreshToken (r : row) : result IdentityRefreshToken :=
  match r with
  | [c1; c2; c3; c4; c5; c6; c7] =>
    x1 ← scan_string c1; x2 ← scan_string c2; x3 ← scan_string c3; x4 ← scan_string c4;
    x5 ← scan_time c5; x6 ← scan_time c6; x7 ← scan_timeptr c7;
    Ok (mk_IdentityRefreshToken x1 x2 x3 x4 x5 x6 x7)
  | _ => Err errColumns
  end.

Definition scan_IdentityRole (r : row) : result IdentityRole :=
  match r with
  | [c1; c2; c3; c4] =>
    x1 ← scan_string c1; x2 ← scan_string c2; x3 ← scan_string c3; x4 ← scan_string c4;
    Ok (mk_IdentityRole x1 x2 x3 x4)
  | _ => Err errColumns
  end.

Definition scan_GetRoleClaimsRow (r : row) : result GetRoleClaimsRow :=
  match r with
  | [c1; c2] =>
    x1 ← scan_string c1; x2 ← scan_string c2;
    Ok (mk_GetRoleClaimsRow x1 x2)
  | _ => Err errColumns
  end.

Definition scan_IdentityUser (r : row) : result IdentityUser :=
  match r with
  | [c1; c2; c3; c4; c5; c6; c7; c8; c9; c10; c11; c12; c13; c14; c15; c16; c17; c18; c19] =>
    x1 ← scan_string c1; x2 ← scan_string c2; x3 ← scan_string c3; x4 ← scan_string c4;
    x5 ← scan_string c5; x6 ← scan_bool c6; x7 ← scan_string c7; x8 ← scan_string c8;
    x9 ← scan_string c9; x10 ← scan_string c10; x11 ← scan_bool c11; x12 ← scan_bool c12;
    x13 ← scan_timeptr c13; x14 ← scan_bool c14; x15 ← scan_int32 c15; x16 ← scan_bytes c16;
    x17 ← scan_bool c17; x18 ← scan_time c18; x19 ← scan_time c19;
    Ok (mk_IdentityUser x1 x2 x3 x4 x5 x6 x7 x8 x9 x10 x11 x12 x13 x14 x15 x16 x17 x18 x19)
  | _ => Err errColumns
  end.

Definition scan_GetUserClaimsRow (r : row) : result GetUserClaimsRow :=
  match r with
  | [c1; c2] =>
    x1 ← scan_string c1; x2 ← scan_string c2;
    Ok (mk_GetUserClaimsRow x1 x2)
  | _ => Err errColumns
  end.

Definition scan_GetUserLoginsRow (r : row) : result GetUserLoginsRow :=
  match r with
  | [c1; c2; c3] =>
    x1 ← scan_string c1; x2 ← scan_string c2; x3 ← scan_string c3;
    Ok (mk_GetUserLoginsRow x1 x2 x3)
  | _ => Err errColumns
  end.

(** ** The queries *)

Context (db : Queries).

Definition addRoleClaim : string := "-- name: AddRoleClaim :exec
INSERT INTO identity_role_claims (role_id, claim_type, claim_value) VALUES ($1,$2,$3)
".

Record AddRoleClaimParams := mk_AddRoleClaimParams {
  AddRoleClaim_RoleID : string;
  AddRoleClaim_ClaimType : string;
  AddRoleClaim_ClaimValue : string;
}.

Definition AddRoleClaim (p : AddRoleClaimParams) : M S (result unit) :=
  only_err (Exec db addRoleClaim [AString (AddRoleClaim_RoleID p);
    AString (AddRoleClaim_ClaimType p); AString (AddRoleClaim_ClaimValue p)]).

Definition addUserClaim : string := "-- name: AddUserClaim :exec
INSERT INTO identity_user_claims (user_id, claim_type, claim_value) VALUES ($1,$2,$3)
".

Record AddUserClaimParams := mk_AddUserClaimParams {
  AddUserClaim_UserID : string;
  AddUserClaim_ClaimType : string;
  AddUserClaim_ClaimValue : string;
}.

Definition AddUserClaim (p : AddUserClaimParams) : M S (result unit) :=
  only_err (Exec db addUserClaim [AString (AddUserClaim_UserID p);
    AString (AddUserClaim_ClaimType p); AString (AddUserClaim_ClaimValue p)]).

Definition addUserLogin : string := "-- name: AddUserLogin :exec
INSERT INTO identity_user_logins (login_provider, provider_key, provider_display_name, user_id)
VALUES ($1,$2,$3,$4)
".

Record AddUserLoginParams := mk_AddUserLoginParams {
  AddUserLogin_LoginProvider : string;
  AddUserLogin_ProviderKey : string;
  AddUserLogin_ProviderDisplayName : string;
  AddUserLogin_UserID : string;
}.

Definition AddUserLogin (p : AddUserLoginParams) : M S (result unit) :=
  only_err (Exec db addUserLogin [AString (AddUserLogin_LoginProvider p);
    AString (AddUserLogin_ProviderKey p); AString (AddUserLogin_ProviderDisplayName p);
    AString (AddUserLogin_UserID p)]).

Definition addUserToRole : string := "-- name: AddUserToRole :exec
INSERT INTO identity_user_roles (user_id, role_id) VALUES ($1, $2)
ON CONFLICT (user_id, role_id) DO NOTHING
".

Record AddUserToRoleParams := mk_AddUserToRoleParams {
  AddUserToRole_UserID : string;
  AddUserToRole_RoleID : string;
}.

Definition AddUserToRole (p : AddUserToRoleParams) : M S (result unit) :=
  only_err (Exec db addUserToRole [AString (AddUserToRole_UserID p);
    AString (AddUserToRole_RoleID p)]).

Definition countUsers : string := "-- name: CountUsers :one
SELECT count(*) FROM identity_users
WHERE $1::text = '' OR normalized_user_name LIKE '%' || $1 || '%'
   OR normalized_email LIKE '%' || $1 || '%'
".

Definition CountUsers (search : string) : M S (result Z) :=
  returns (QueryRow db countUsers [AString search]) (scan1 scan_int).

Definition createAPIKey : string := "-- name: CreateAPIKey :exec
INSERT INTO identity_api_keys (id, user_id, name, prefix, key_hash, scopes, expires_at, created_at)
VALUES ($1,$2,$3,$4,$5,$6,$7,$8)
".

Record CreateAPIKeyParams := mk_CreateAPIKeyParams {
  CreateAPIKey_ID : string;
  CreateAPIKey_UserID : string;
  CreateAPIKey_Name : string;
  CreateAPIKey_Prefix : string;
  CreateAPIKey_KeyHash : string;
  CreateAPIKey_Scopes : string;
  CreateAPIKey_ExpiresAt : option Time;
  CreateAPIKey_CreatedAt : Time;
}.

Definition CreateAPIKey (p : CreateAPIKeyParams) : M S (result unit) :=
  only_err (Exec db createAPIKey [AString (CreateAPIKey_ID p); AString (CreateAPIKey_UserID p);
    AString (CreateAPIKey_Name p); AString (CreateAPIKey_Prefix p);
    AString (CreateAPIKey_KeyHash p); ARawJSON (CreateAPIKey_Scopes p);
    ATimePtr (CreateAPIKey_ExpiresAt p); ATime (CreateAPIKey_CreatedAt p)]).

Definition createOAuthClient : string := "-- name: CreateOAuthClient :exec
INSERT INTO identity_oauth_clients (client_id, secret_hash, name, redirect_uris, token_endpoint_auth_method, grant_types, created_at, last_used_at)
VALUES ($1,$2,$3,$4,$5,$6,$7,$8)
".

Record CreateOAuthClientParams := mk_CreateOAuthClientParams {
  CreateOAuthClient_ClientID : string;
  CreateOAuthClient_SecretHash : string;
  CreateOAuthClient_Name : string;
  CreateOAuthClient_RedirectUris : string;
  CreateOAuthClient_TokenEndpointAuthMethod : string;
  CreateOAuthClient_GrantTypes : string;
  CreateOAuthClient_CreatedAt : Time;
  CreateOAuthClient_LastUsedAt : option Time;
}.

Definition CreateOAuthClient (p : CreateOAuthClientParams) : M S (result unit) :=
  only_err (Exec db createOAuthClient [AString (CreateOAuthClient_ClientID p);
    AString (CreateOAuthClient_SecretHash p); AString (CreateOAuthClient_Name p);
    AString (CreateOAuthClient_RedirectUris p);
    AString (CreateOAuthClient_TokenEndpointAuthMethod p);
    AString (CreateOAuthClient_GrantTypes p); ATime (CreateOAuthClient_CreatedAt p);
    ATimePtr (CreateOAuthClient_LastUsedAt p)]).

Definition createOAuthCode : string := "-- name: CreateOAuthCode :exec
INSERT INTO identity_oauth_codes (code_hash, client_id, user_id, redirect_uri, scopes, resource, code_challenge, expires_at, used_at, grant_id)
VALUES ($1,$2,$3,$4,$5,$6,$7,$8,$9,$10)
".

Record CreateOAuthCodeParams := mk_CreateOAuthCodeParams {
  CreateOAuthCode_CodeHash : string;
  CreateOAuthCode_ClientID : string;
  CreateOAuthCode_UserID : string;
  CreateOAuthCode_RedirectUri : string;
  CreateOAuthCode_Scopes : string;
  CreateOAuthCode_Resource : string;
  CreateOAuthCode_CodeChallenge : string;
  CreateOAuthCode_ExpiresAt : Time;
  CreateOAuthCode_UsedAt : option Time;
  CreateOAuthCode_GrantID : string;
}.

Definition CreateOAuthCode (p : CreateOAuthCodeParams) : M S (result unit) :=
  only_err (Exec db createOAuthCode [AString (CreateOAuthCode_CodeHash p);
    AString (CreateOAuthCode_ClientID p); AString (CreateOAuthCode_UserID p);
    AString (CreateOAuthCode_RedirectUri p); AString (CreateOAuthCode_Scopes p);
    AString (CreateOAuthCode_Resource p); AString (CreateOAuthCode_CodeChallenge p);
    ATime (CreateOAuthCode_ExpiresAt p); ATimePtr (CreateOAuthCode_UsedAt p);
    AString (CreateOAuthCode_GrantID p)]).

Definition createOAuthGrant : string := "-- name: CreateOAuthGrant :exec
INSERT INTO identity_oauth_grants (id, user_id, client_id, scopes, resource, token_hash, prev_token_hash, security_stamp, expires_at, created_at, last_used_at)
VALUES ($1,$2,$3,$4,$5,$6,$7,$8,$9,$10,$11)
".

Record CreateOAuthGrantParams := mk_CreateOAuthGrantParams {
  CreateOAuthGrant_ID : string;
  CreateOAuthGrant_UserID : string;
  CreateOAuthGrant_ClientID : string;
  CreateOAuthGrant_Scopes : string;
  CreateOAuthGrant_Resource : string;
  CreateOAuthGrant_TokenHash : string;
  CreateOAuthGrant_PrevTokenHash : string;
  CreateOAuthGrant_SecurityStamp : string;
  CreateOAuthGrant_ExpiresAt : Time;
  CreateOAuthGrant_CreatedAt : Time;
  CreateOAuthGrant_LastUsedAt : option Time;
}.

Definition CreateOAuthGrant (p : CreateOAuthGrantParams) : M S (result unit) :=
  only_err (Exec db createOAuthGrant [AString (CreateOAuthGrant_ID p);
    AString (CreateOAuthGrant_UserID p); AString (CreateOAuthGrant_ClientID p);
    AString (CreateOAuthGrant_Scopes p); AString (CreateOAuthGrant_Resource p);
    AString (CreateOAuthGrant_TokenHash p); AString (CreateOAuthGrant_PrevTokenHash p);
    AString (CreateOAuthGrant_SecurityStamp p); ATime (CreateOAuthGrant_ExpiresAt p);
    ATime (CreateOAuthGrant_CreatedAt p); ATimePtr (CreateOAuthGrant_LastUsedAt p)]).

Definition createRefreshToken : string := "-- name: CreateRefreshToken :exec
INSERT INTO identity_refresh_tokens (session_id, user_id, token_hash, name, expires_at, created_at, last_used_at)
VALUES ($1,$2,$3,$4,$5,$6,$7)
".

Record CreateRefreshTokenParams := mk_CreateRefreshTokenParams {
  CreateRefreshToken_SessionID : string;
  CreateRefreshToken_UserID : string;
  CreateRefreshToken_TokenHash : string;
  CreateRefreshToken_Name : string;
  CreateRefreshToken_ExpiresAt : Time;
  CreateRefreshToken_CreatedAt : Time;
  CreateRefreshToken_LastUsedAt : option Time;
}.

Definition CreateRefreshToken (p : CreateRefreshTokenParams) : M S (result unit) :=
  only_err (Exec db createRefreshToken [AString (CreateRefreshToken_SessionID p);
    AString (CreateRefreshToken_UserID p); AString (CreateRefreshToken_TokenHash p);
    AString (CreateRefreshToken_Name p); ATime (CreateRefreshToken_ExpiresAt p);
    ATime (CreateRefreshToken_CreatedAt p); ATimePtr (CreateRefreshToken_LastUsedAt p)]).

Definition createRole : string := "-- name: CreateRole :exec
INSERT INTO identity_roles (id, name, normalized_name, concurrency_stamp)
VALUES ($1,$2,$3,$4)
".

Record CreateRoleParams := mk_CreateRoleParams {
  CreateRole_ID : string;
  CreateRole_Name : string;
  CreateRole_NormalizedName : string;
  CreateRole_ConcurrencyStamp : string;
}.

Definition CreateRole (p : CreateRoleParams) : M S (result unit) :=
  only_err (Exec db createRole [AString (CreateRole_ID p); AString (CreateRole_Name p);
    AString (CreateRole_NormalizedName p); AString (CreateRole_ConcurrencyStamp p)]).

Definition createUser : string := "-- name: CreateUser :exec
INSERT INTO identity_users (
    id, user_name, normalized_user_name, email, normalized_email, email_confirmed,
    password_hash, security_stamp, concurrency_stamp, phone_number,
    phone_number_confirmed, two_factor_enabled, lockout_end, lockout_enabled,
    access_failed_count, attributes, is_anonymous
) VALUES (
    $1,$2,$3,$4,$5,$6,$7,$8,$9,$10,$11,$12,$13,$14,$15,$16,$17
)
".

Record CreateUserParams := mk_CreateUserParams {
  CreateUser_ID : string;
  CreateUser_UserName : string;
  CreateUser_NormalizedUserName : string;
  CreateUser_Email : string;
  CreateUser_NormalizedEmail : string;
  CreateUser_EmailConfirmed : bool;
  CreateUser_PasswordHash : string;
  CreateUser_SecurityStamp : string;
  CreateUser_ConcurrencyStamp : string;
  CreateUser_PhoneNumber : string;
  CreateUser_PhoneNumberConfirmed : bool;
  CreateUser_TwoFactorEnabled : bool;
  CreateUser_LockoutEnd : option Time;
  CreateUser_LockoutEnabled : bool;
  CreateUser_AccessFailedCount : Z;
  CreateUser_Attributes : string;
  CreateUser_IsAnonymous : bool;
}.

Definition CreateUser (p : CreateUserParams) : M S (result unit) :=
  only_err (Exec db createUser [AString (CreateUser_ID p); AString (CreateUser_UserName p);
    AString (CreateUser_NormalizedUserName p); AString (CreateUser_Email p);
    AString (CreateUser_NormalizedEmail p); ABool (CreateUser_EmailConfirmed p);
    AString (CreateUser_PasswordHash p); AString (CreateUser_SecurityStamp p);
    AString (CreateUser_ConcurrencyStamp p); AString (CreateUser_PhoneNumber p);
    ABool (CreateUser_PhoneNumberConfirmed p); ABool (CreateUser_TwoFactorEnabled p);
    ATimePtr (CreateUser_LockoutEnd p); ABool (CreateUser_LockoutEnabled p);
    AInt32 (CreateUser_AccessFailedCount p); ARawJSON (CreateUser_Attributes p);
    ABool (CreateUser_IsAnonymous p)]).

Definition deleteExpiredOAuthClientAssertions : string := "-- name: DeleteExpiredOAuthClientAssertions :execrows
DELETE FROM identity_oauth_assertions WHERE expires_at < $1
".

Definition DeleteExpiredOAuthClientAssertions (expiresAt : Time) : M S (result Z) :=
  Exec db deleteExpiredOAuthClientAssertions [ATime expiresAt].

Definition deleteExpiredOAuthCodes : string := "-- name: DeleteExpiredOAuthCodes :execrows
DELETE FROM identity_oauth_codes WHERE expires_at < $1
".

Definition DeleteExpiredOAuthCodes (expiresAt : Time) : M S (result Z) :=
  Exec db deleteExpiredOAuthCodes [ATime expiresAt].

Definition deleteExpiredOAuthGrants : string := "-- name: DeleteExpiredOAuthGrants :execrows
DELETE FROM identity_oauth_grants WHERE expires_at < $1
".

Definition DeleteExpiredOAuthGrants (expiresAt : Time) : M S (result Z) :=
  Exec db deleteExpiredOAuthGrants [ATime expiresAt].

Definition deleteExpiredRefreshTokens : string := "-- name: DeleteExpiredRefreshTokens :execrows
DELETE FROM identity_refresh_tokens WHERE expires_at < $1
".

Definition DeleteExpiredRefreshTokens (expiresAt : Time) : M S (result Z) :=
  Exec db deleteExpiredRefreshTokens [ATime expiresAt].

Definition deleteOAuthConsent : string := "-- name: DeleteOAuthConsent :exec
DELETE FROM identity_oauth_consents WHERE user_id = $1 AND client_id = $2
".

Record DeleteOAuthConsentParams := mk_DeleteOAuthConsentParams {
  DeleteOAuthConsent_UserID : string;
  DeleteOAuthConsent_ClientID : string;
}.

Definition DeleteOAuthConsent (p : DeleteOAuthConsentParams) : M S (result unit) :=
  only_err (Exec db deleteOAuthConsent [AString (DeleteOAuthConsent_UserID p);
    AString (DeleteOAuthConsent_ClientID p)]).

Definition deleteOAuthGrant : string := "-- name: DeleteOAuthGrant :exec
DELETE FROM identity_oauth_grants WHERE id = $1
".

Definition DeleteOAuthGrant (id : string) : M S (result unit) :=
  only_err (Exec db deleteOAuthGrant [AString id]).

Definition deleteRefreshToken : string := "-- name: DeleteRefreshToken :exec
DELETE FROM identity_refresh_tokens WHERE session_id = $1
".

Definition DeleteRefreshToken (sessionID : string) : M S (result unit) :=
  only_err (Exec db deleteRefreshToken [AString sessionID]).

Definition deleteRole : string := "-- name: DeleteRole :exec
DELETE FROM identity_roles WHERE id=$1
".

Definition DeleteRole (id : string) : M S (result unit) :=
  only_err (Exec db deleteRole [AString id]).

Definition deleteRoleClaim : string := "-- name: DeleteRoleClaim :exec
DELETE FROM identity_role_claims WHERE role_id=$1 AND claim_type=$2 AND claim_value=$3
".

Record DeleteRoleClaimParams := mk_DeleteRoleClaimParams {
  DeleteRoleClaim_RoleID : string;
  DeleteRoleClaim_ClaimType : string;
  DeleteRoleClaim_ClaimValue : string;
}.

Definition DeleteRoleClaim (p : DeleteRoleClaimParams) : M S (result unit) :=
  only_err (Exec db deleteRoleClaim [AString (DeleteRoleClaim_RoleID p);
    AString (DeleteRoleClaim_ClaimType p); AString (DeleteRoleClaim_ClaimValue p)]).

Definition deleteStaleOAuthClients : string := "-- name: DeleteStaleOAuthClients :execrows
DELETE FROM identity_oauth_clients c
WHERE c.created_at < $1 AND (c.last_used_at IS NULL OR c.last_used_at < $1)
  AND NOT EXISTS (SELECT 1 FROM identity_oauth_grants g WHERE g.client_id = c.client_id)
".

Definition DeleteStaleOAuthClients (before : Time) : M S (result Z) :=
  Exec db deleteStaleOAuthClients [ATime before].

Definition deleteUser : string := "-- name: DeleteUser :exec
DELETE FROM identity_users WHERE id=$1
".

Definition DeleteUser (id : string) : M S (result unit) :=
  only_err (Exec db deleteUser [AString id]).

Definition deleteUserClaim : string := "-- name: DeleteUserClaim :exec
DELETE FROM identity_user_claims WHERE user_id=$1 AND claim_type=$2 AND claim_value=$3
".

Record DeleteUserClaimParams := mk_DeleteUserClaimParams {
  DeleteUserClaim_UserID : string;
  DeleteUserClaim_ClaimType : string;
  DeleteUserClaim_ClaimValue : string;
}.

Definition DeleteUserClaim (p : DeleteUserClaimParams) : M S (result unit) :=
  only_err (Exec db deleteUserClaim [AString (DeleteUserClaim_UserID p);
    AString (DeleteUserClaim_ClaimType p); AString (DeleteUserClaim_ClaimValue p)]).

Definition deleteUserClientOAuthGrants : string := "-- name: DeleteUserClientOAuthGrants :execrows
DELETE FROM identity_oauth_grants WHERE user_id = $1 AND client_id = $2
".

Record DeleteUserClientOAuthGrantsParams := mk_DeleteUserClientOAuthGrantsParams {
  DeleteUserClientOAuthGrants_UserID : string;
  DeleteUserClientOAuthGrants_ClientID : string;
}.

Definition DeleteUserClientOAuthGrants (p : DeleteUserClientOAuthGrantsParams) : M S (result Z) :=
  Exec db deleteUserClientOAuthGrants [AString (DeleteUserClientOAuthGrants_UserID p);
    AString (DeleteUserClientOAuthGrants_ClientID p)].

Definition deleteUserRefreshTokens : string := "-- name: DeleteUserRefreshTokens :execrows
DELETE FROM identity_refresh_tokens WHERE user_id = $1
".

Definition DeleteUserRefreshTokens (userID : string) : M S (result Z) :=
  Exec db deleteUserRefreshTokens [AString userID].

Definition deleteUserToken : string := "-- name: DeleteUserToken :exec
DELETE FROM identity_user_tokens WHERE user_id=$1 AND login_provider=$2 AND name=$3
".

Record DeleteUserTokenParams := mk_DeleteUserTokenParams {
  DeleteUserToken_UserID : string;
  DeleteUserToken_LoginProvider : string;
  DeleteUserToken_Name : string;
}.

Definition DeleteUserToken (p : DeleteUserTokenParams) : M S (result unit) :=
  only_err (Exec db deleteUserToken [AString (DeleteUserToken_UserID p);
    AString (DeleteUserToken_LoginProvider p); AString (DeleteUserToken_Name p)]).

Definition getActiveAPIKeyByHash : string := "-- name: GetActiveAPIKeyByHash :one
SELECT id, user_id, name, prefix, key_hash, scopes, expires_at, last_used_at, revoked_at, created_at
FROM identity_api_keys
WHERE key_hash = $1 AND revoked_at IS NULL AND (expires_at IS NULL OR expires_at > now())
".

Definition GetActiveAPIKeyByHash (keyHash : string) : M S (result IdentityApiKey) :=
  returns (QueryRow db getActiveAPIKeyByHash [AString keyHash]) scan_IdentityApiKey.

Definition getOAuthClient : string := "-- name: GetOAuthClient :one
SELECT client_id, secret_hash, name, redirect_uris, token_endpoint_auth_method, grant_types, created_at, last_used_at
FROM identity_oauth_clients WHERE client_id = $1
".

Definition GetOAuthClient (clientID : string) : M S (result IdentityOauthClient) :=
  returns (QueryRow db getOAuthClient [AString clientID]) scan_IdentityOauthClient.

Definition getOAuthCode : string := "-- name: GetOAuthCode :one
SELECT code_hash, client_id, user_id, redirect_uri, scopes, resource, code_challenge, expires_at, used_at, grant_id
FROM identity_oauth_codes WHERE code_hash = $1
".

Definition GetOAuthCode (codeHash : string) : M S (result IdentityOauthCode) :=
  returns (QueryRow db getOAuthCode [AString codeHash]) scan_IdentityOauthCode.

Definition getOAuthConsent : string := "-- name: GetOAuthConsent :one
SELECT user_id, client_id, scopes, created_at, updated_at
FROM identity_oauth_consents WHERE user_id = $1 AND client_id = $2
".

Record GetOAuthConsentParams := mk_GetOAuthConsentParams {
  GetOAuthConsent_UserID : string;
  GetOAuthConsent_ClientID : string;
}.

Definition GetOAuthConsent (p : GetOAuthConsentParams) : M S (result IdentityOauthConsent) :=
  returns (QueryRow db getOAuthConsent [AString (GetOAuthConsent_UserID p);
    AString (GetOAuthConsent_ClientID p)]) scan_IdentityOauthConsent.

Definition getOAuthGrant : string := "-- name: GetOAuthGrant :one
SELECT id, user_id, client_id, scopes, resource, token_hash, prev_token_hash, security_stamp, expires_at, created_at, last_used_at
FROM identity_oauth_grants WHERE id = $1
".

Definition GetOAuthGrant (id : string) : M S (result IdentityOauthGrant) :=
  returns (QueryRow db getOAuthGrant [AString id]) scan_IdentityOauthGrant.

Definition getRefreshTokenBySession : string := "-- name: GetRefreshTokenBySession :one
SELECT session_id, user_id, token_hash, name, expires_at, created_at, last_used_at
FROM identity_refresh_tokens WHERE session_id = $1
".

Definition GetRefreshTokenBySession (sessionID : string) : M S (result IdentityRefreshToken) :=
  returns (QueryRow db getRefreshTokenBySession [AString sessionID]) scan_IdentityRefreshToken.

Definition getRoleByID : string := "-- name: GetRoleByID :one
SELECT id, name, normalized_name, concurrency_stamp FROM identity_roles WHERE id=$1
".

Definition GetRoleByID (id : string) : M S (result IdentityRole) :=
  returns (QueryRow db getRoleByID [AString id]) scan_IdentityRole.

Definition getRoleByName : string := "-- name: GetRoleByName :one
SELECT id, name, normalized_name, concurrency_stamp FROM identity_roles WHERE normalized_name=$1
".

Definition GetRoleByName (normalizedName : string) : M S (result IdentityRole) :=
  returns (QueryRow db getRoleByName [AString normalizedName]) scan_IdentityRole.

Definition getRoleClaims : string := "-- name: GetRoleClaims :many
SELECT claim_type, claim_value FROM identity_role_claims WHERE role_id=$1
".

Definition GetRoleClaims (roleID : string) : M S (result (list GetRoleClaimsRow)) :=
  returns (Query db getRoleClaims [AString roleID]) (collect scan_GetRoleClaimsRow).

Definition getRoleIDByName : string := "-- name: GetRoleIDByName :one
SELECT id FROM identity_roles WHERE normalized_name=$1
".

Definition GetRoleIDByName (normalizedName : string) : M S (result string) :=
  returns (QueryRow db getRoleIDByName [AString normalizedName]) (scan1 scan_string).

Definition getUserByEmail : string := "-- name: GetUserByEmail :one
SELECT id, user_name, normalized_user_name, email, normalized_email, email_confirmed, password_hash, security_stamp, concurrency_stamp, phone_number, phone_number_confirmed, two_factor_enabled, lockout_end, lockout_enabled, access_failed_count, attributes, is_anonymous, created_at, updated_at FROM identity_users WHERE normalized_email=$1
".

Definition GetUserByEmail (normalizedEmail : string) : M S (result IdentityUser) :=
  returns (QueryRow db getUserByEmail [AString normalizedEmail]) scan_IdentityUser.

Definition getUserByID : string := "-- name: GetUserByID :one
SELECT id, user_name, normalized_user_name, email, normalized_email, email_confirmed, password_hash, security_stamp, concurrency_stamp, phone_number, phone_number_confirmed, two_factor_enabled, lockout_end, lockout_enabled, access_failed_count, attributes, is_anonymous, created_at, updated_at FROM identity_users WHERE id=$1
".

Definition GetUserByID (id : string) : M S (result IdentityUser) :=
  returns (QueryRow db getUserByID [AString id]) scan_IdentityUser.

Definition getUserByName : string := "-- name: GetUserByName :one
SELECT id, user_name, normalized_user_name, email, normalized_email, email_confirmed, password_hash, security_stamp, concurrency_stamp, phone_number, phone_number_confirmed, two_factor_enabled, lockout_end, lockout_enabled, access_failed_count, attributes, is_anonymous, created_at, updated_at FROM identity_users WHERE normalized_user_name=$1
".

Definition GetUserByName (normalizedUserName : string) : M S (result IdentityUser) :=
  returns (QueryRow db getUserByName [AString normalizedUserName]) scan_IdentityUser.

Definition getUserClaims : string := "-- name: GetUserClaims :many
SELECT claim_type, claim_value FROM identity_user_claims WHERE user_id=$1
".

Definition GetUserClaims (userID : string) : M S (result (list GetUserClaimsRow)) :=
  returns (Query db getUserClaims [AString userID]) (collect scan_GetUserClaimsRow).

Definition getUserIDByLogin : string := "-- name: GetUserIDByLogin :one
SELECT user_id FROM identity_user_logins WHERE login_provider=$1 AND provider_key=$2
".

Record GetUserIDByLoginParams := mk_GetUserIDByLoginParams {
  GetUserIDByLogin_LoginProvider : string;
  GetUserIDByLogin_ProviderKey : string;
}.

Definition GetUserIDByLogin (p : GetUserIDByLoginParams) : M S (result string) :=
  returns (QueryRow db getUserIDByLogin [AString (GetUserIDByLogin_LoginProvider p);
    AString (GetUserIDByLogin_ProviderKey p)]) (scan1 scan_string).

Definition getUserLogins : string := "-- name: GetUserLogins :many
SELECT login_provider, provider_key, provider_display_name
FROM identity_user_logins WHERE user_id=$1
".

Definition GetUserLogins (userID : string) : M S (result (list GetUserLoginsRow)) :=
  returns (Query db getUserLogins [AString userID]) (collect scan_GetUserLoginsRow).

Definition getUserRoles : string := "-- name: GetUserRoles :many
SELECT r.name FROM identity_roles r
JOIN identity_user_roles ur ON ur.role_id = r.id
WHERE ur.user_id=$1
".

Definition GetUserRoles (userID : string) : M S (result (list string)) :=
  returns (Query db getUserRoles [AString userID]) (collect (scan1 scan_string)).

Definition getUserToken : string := "-- name: GetUserToken :one
SELECT value FROM identity_user_tokens
WHERE user_id=$1 AND login_provider=$2 AND name=$3
".

Record GetUserTokenParams := mk_GetUserTokenParams {
  GetUserToken_UserID : string;
  GetUserToken_LoginProvider : string;
  GetUserToken_Name : string;
}.

Definition GetUserToken (p : GetUserTokenParams) : M S (result string) :=
  returns (QueryRow db getUserToken [AString (GetUserToken_UserID p);
    AString (GetUserToken_LoginProvider p); AString (GetUserToken_Name p)]) (scan1 scan_string).

Definition getUsersForClaim : string := "-- name: GetUsersForClaim :many
SELECT id, user_name, normalized_user_name, email, normalized_email, email_confirmed, password_hash, security_stamp, concurrency_stamp, phone_number, phone_number_confirmed, two_factor_enabled, lockout_end, lockout_enabled, access_failed_count, attributes, is_anonymous, created_at, updated_at FROM identity_users
WHERE id IN (
    SELECT user_id FROM identity_user_claims WHERE claim_type = $1 AND claim_value = $2
)
ORDER BY id
".

Record GetUsersForClaimParams := mk_GetUsersForClaimParams {
  GetUsersForClaim_ClaimType : string;
  GetUsersForClaim_ClaimValue : string;
}.

Definition GetUsersForClaim (p : GetUsersForClaimParams) : M S (result (list IdentityUser)) :=
  returns (Query db getUsersForClaim [AString (GetUsersForClaim_ClaimType p);
    AString (GetUsersForClaim_ClaimValue p)]) (collect scan_IdentityUser).

Definition getUsersInRole : string := "-- name: GetUsersInRole :many
SELECT id, user_name, normalized_user_name, email, normalized_email, email_confirmed, password_hash, security_stamp, concurrency_stamp, phone_number, phone_number_confirmed, two_factor_enabled, lockout_end, lockout_enabled, access_failed_count, attributes, is_anonymous, created_at, updated_at FROM identity_users
WHERE id IN (
    SELECT user_id FROM identity_user_roles
    WHERE role_id = (SELECT id FROM identity_roles WHERE normalized_name = $1)
)
ORDER BY id
".

Definition GetUsersInRole (normalizedName : string) : M S (result (list IdentityUser)) :=
  returns (Query db getUsersInRole [AString normalizedName]) (collect scan_IdentityUser).

Definition isUserInRole : string := "-- name: IsUserInRole :one
SELECT EXISTS(
    SELECT 1 FROM identity_user_roles ur
    JOIN identity_roles r ON r.id = ur.role_id
    WHERE ur.user_id=$1 AND r.normalized_name=$2
)
".

Record IsUserInRoleParams := mk_IsUserInRoleParams {
  IsUserInRole_UserID : string;
  IsUserInRole_NormalizedName : string;
}.

Definition IsUserInRole (p : IsUserInRoleParams) : M S (result bool) :=
  returns (QueryRow db isUserInRole [AString (IsUserInRole_UserID p);
    AString (IsUserInRole_NormalizedName p)]) (scan1 scan_bool).

Definition listAPIKeysByUser : string := "-- name: ListAPIKeysByUser :many
SELECT id, user_id, name, prefix, key_hash, scopes, expires_at, last_used_at, revoked_at, created_at
FROM identity_api_keys WHERE user_id = $1 ORDER BY created_at
".

Definition ListAPIKeysByUser (userID : string) : M S (result (list IdentityApiKey)) :=
  returns (Query db listAPIKeysByUser [AString userID]) (collect scan_IdentityApiKey).

Definition listUserOAuthGrants : string := "-- name: ListUserOAuthGrants :many
SELECT id, user_id, client_id, scopes, resource, token_hash, prev_token_hash, security_stamp, expires_at, created_at, last_used_at
FROM identity_oauth_grants WHERE user_id = $1 ORDER BY created_at
".

Definition ListUserOAuthGrants (userID : string) : M S (result (list IdentityOauthGrant)) :=
  returns (Query db listUserOAuthGrants [AString userID]) (collect scan_IdentityOauthGrant).

Definition listUserRefreshTokens : string := "-- name: ListUserRefreshTokens :many
SELECT session_id, user_id, token_hash, name, expires_at, created_at, last_used_at
FROM identity_refresh_tokens WHERE user_id = $1 ORDER BY created_at
".

Definition ListUserRefreshTokens (userID : string) : M S (result (list IdentityRefreshToken)) :=
  returns (Query db listUserRefreshTokens [AString userID]) (collect scan_IdentityRefreshToken).

Definition listUsers : string := "-- name: ListUsers :many
SELECT id, user_name, normalized_user_name, email, normalized_email, email_confirmed, password_hash, security_stamp, concurrency_stamp, phone_number, phone_number_confirmed, two_factor_enabled, lockout_end, lockout_enabled, access_failed_count, attributes, is_anonymous, created_at, updated_at FROM identity_users
WHERE $1::text = '' OR normalized_user_name LIKE '%' || $1 || '%'
   OR normalized_email LIKE '%' || $1 || '%'
ORDER BY id
LIMIT $3 OFFSET $2
".

Record ListUsersParams := mk_ListUsersParams {
  ListUsers_Search : string;
  ListUsers_Off : Z;
  ListUsers_Lim : Z;
}.

Definition ListUsers (p : ListUsersParams) : M S (result (list IdentityUser)) :=
  returns (Query db listUsers [AString (ListUsers_Search p); AInt32 (ListUsers_Off p);
    AInt32 (ListUsers_Lim p)]) (collect scan_IdentityUser).

Definition markOAuthCodeUsed : string := "-- name: MarkOAuthCodeUsed :execrows
UPDATE identity_oauth_codes SET used_at = $1, grant_id = $2
WHERE code_hash = $3 AND used_at IS NULL
".

Record MarkOAuthCodeUsedParams := mk_MarkOAuthCodeUsedParams {
  MarkOAuthCodeUsed_UsedAt : option Time;
  MarkOAuthCodeUsed_GrantID : string;
  MarkOAuthCodeUsed_CodeHash : string;
}.

Definition MarkOAuthCodeUsed (p : MarkOAuthCodeUsedParams) : M S (result Z) :=
  Exec db markOAuthCodeUsed [ATimePtr (MarkOAuthCodeUsed_UsedAt p);
    AString (MarkOAuthCodeUsed_GrantID p); AString (MarkOAuthCodeUsed_CodeHash p)].

Definition purgeAnonymousUsers : string := "-- name: PurgeAnonymousUsers :execrows
DELETE FROM identity_users WHERE is_anonymous AND created_at < $1
".

Definition PurgeAnonymousUsers (createdAt : Time) : M S (result Z) :=
  Exec db purgeAnonymousUsers [ATime createdAt].

Definition removeUserFromRole : string := "-- name: RemoveUserFromRole :exec
DELETE FROM identity_user_roles WHERE user_id=$1 AND role_id=$2
".

Record RemoveUserFromRoleParams := mk_RemoveUserFromRoleParams {
  RemoveUserFromRole_UserID : string;
  RemoveUserFromRole_RoleID : string;
}.

Definition RemoveUserFromRole (p : RemoveUserFromRoleParams) : M S (result unit) :=
  only_err (Exec db removeUserFromRole [AString (RemoveUserFromRole_UserID p);
    AString (RemoveUserFromRole_RoleID p)]).

Definition removeUserLogin : string := "-- name: RemoveUserLogin :exec
DELETE FROM identity_user_logins WHERE user_id=$1 AND login_provider=$2 AND provider_key=$3
".

Record RemoveUserLoginParams := mk_RemoveUserLoginParams {
  RemoveUserLogin_UserID : string;
  RemoveUserLogin_LoginProvider : string;
  RemoveUserLogin_ProviderKey : string;
}.

Definition RemoveUserLogin (p : RemoveUserLoginParams) : M S (result unit) :=
  only_err (Exec db removeUserLogin [AString (RemoveUserLogin_UserID p);
    AString (RemoveUserLogin_LoginProvider p); AString (RemoveUserLogin_ProviderKey p)]).

Definition revokeAPIKey : string := "-- name: RevokeAPIKey :exec
UPDATE identity_api_keys SET revoked_at = now() WHERE id = $1 AND revoked_at IS NULL
".

Definition RevokeAPIKey (id : string) : M S (result unit) :=
  only_err (Exec db revokeAPIKey [AString id]).

Definition roleExists : string := "-- name: RoleExists :one
SELECT EXISTS(SELECT 1 FROM identity_roles WHERE id=$1)
".

Definition RoleExists (id : string) : M S (result bool) :=
  returns (QueryRow db roleExists [AString id]) (scan1 scan_bool).

Definition rotateOAuthGrant : string := "-- name: RotateOAuthGrant :execrows
UPDATE identity_oauth_grants
SET prev_token_hash = token_hash, token_hash = $1, expires_at = $2, last_used_at = $3
WHERE id = $4 AND token_hash = $5
".

Record RotateOAuthGrantParams := mk_RotateOAuthGrantParams {
  RotateOAuthGrant_NewHash : string;
  RotateOAuthGrant_ExpiresAt : Time;
  RotateOAuthGrant_LastUsedAt : option Time;
  RotateOAuthGrant_ID : string;
  RotateOAuthGrant_OldHash : string;
}.

Definition RotateOAuthGrant (p : RotateOAuthGrantParams) : M S (result Z) :=
  Exec db rotateOAuthGrant [AString (RotateOAuthGrant_NewHash p);
    ATime (RotateOAuthGrant_ExpiresAt p); ATimePtr (RotateOAuthGrant_LastUsedAt p);
    AString (RotateOAuthGrant_ID p); AString (RotateOAuthGrant_OldHash p)].

Definition saveOAuthConsent : string := "-- name: SaveOAuthConsent :exec
INSERT INTO identity_oauth_consents (user_id, client_id, scopes, created_at, updated_at)
VALUES ($1,$2,$3,$4,$5)
ON CONFLICT (user_id, client_id) DO UPDATE SET scopes = EXCLUDED.scopes, updated_at = EXCLUDED.updated_at
".

Record SaveOAuthConsentParams := mk_SaveOAuthConsentParams {
  SaveOAuthConsent_UserID : string;
  SaveOAuthConsent_ClientID : string;
  SaveOAuthConsent_Scopes : string;
  SaveOAuthConsent_CreatedAt : Time;
  SaveOAuthConsent_UpdatedAt : Time;
}.

Definition SaveOAuthConsent (p : SaveOAuthConsentParams) : M S (result unit) :=
  only_err (Exec db saveOAuthConsent [AString (SaveOAuthConsent_UserID p);
    AString (SaveOAuthConsent_ClientID p); AString (SaveOAuthConsent_Scopes p);
    ATime (SaveOAuthConsent_CreatedAt p); ATime (SaveOAuthConsent_UpdatedAt p)]).

Definition touchAPIKeyLastUsed : string := "-- name: TouchAPIKeyLastUsed :exec
UPDATE identity_api_keys SET last_used_at = now() WHERE id = $1
".

Definition TouchAPIKeyLastUsed (id : string) : M S (result unit) :=
  only_err (Exec db touchAPIKeyLastUsed [AString id]).

Definition touchOAuthClient : string := "-- name: TouchOAuthClient :exec
UPDATE identity_oauth_clients SET last_used_at = $2 WHERE client_id = $1
".

Record TouchOAuthClientParams := mk_TouchOAuthClientParams {
  TouchOAuthClient_ClientID : string;
  TouchOAuthClient_LastUsedAt : option Time;
}.

Definition TouchOAuthClient (p : TouchOAuthClientParams) : M S (result unit) :=
  only_err (Exec db touchOAuthClient [AString (TouchOAuthClient_ClientID p);
    ATimePtr (TouchOAuthClient_LastUsedAt p)]).

Definition updateRefreshToken : string := "-- name: UpdateRefreshToken :execrows
UPDATE identity_refresh_tokens
SET token_hash = $1, expires_at = $2, last_used_at = $3, name = $4
WHERE session_id = $5
".

Record UpdateRefreshTokenParams := mk_UpdateRefreshTokenParams {
  UpdateRefreshToken_TokenHash : string;
  UpdateRefreshToken_ExpiresAt : Time;
  UpdateRefreshToken_LastUsedAt : option Time;
  UpdateRefreshToken_Name : string;
  UpdateRefreshToken_SessionID : string;
}.

Definition UpdateRefreshToken (p : UpdateRefreshTokenParams) : M S (result Z) :=
  Exec db updateRefreshToken [AString (UpdateRefreshToken_TokenHash p);
    ATime (UpdateRefreshToken_ExpiresAt p); ATimePtr (UpdateRefreshToken_LastUsedAt p);
    AString (UpdateRefreshToken_Name p); AString (UpdateRefreshToken_SessionID p)].

Definition updateRole : string := "-- name: UpdateRole :execrows
UPDATE identity_roles SET name = $1, normalized_name = $2,
    concurrency_stamp = $3
WHERE id = $4 AND concurrency_stamp = $5
".

Record UpdateRoleParams := mk_UpdateRoleParams {
  UpdateRole_Name : string;
  UpdateRole_NormalizedName : string;
  UpdateRole_NewConcurrencyStamp : string;
  UpdateRole_ID : string;
  UpdateRole_OldConcurrencyStamp : string;
}.

Definition UpdateRole (p : UpdateRoleParams) : M S (result Z) :=
  Exec db updateRole [AString (UpdateRole_Name p); AString (UpdateRole_NormalizedName p);
    AString (UpdateRole_NewConcurrencyStamp p); AString (UpdateRole_ID p);
    AString (UpdateRole_OldConcurrencyStamp p)].

Definition updateUser : string := "-- name: UpdateUser :execrows
UPDATE identity_users SET
    user_name = $1, normalized_user_name = $2, email = $3,
    normalized_email = $4, email_confirmed = $5,
    password_hash = $6, security_stamp = $7,
    concurrency_stamp = $8, phone_number = $9,
    phone_number_confirmed = $10, two_factor_enabled = $11,
    lockout_end = $12, lockout_enabled = $13,
    access_failed_count = $14, attributes = $15,
    is_anonymous = $16, updated_at = now()
WHERE id = $17 AND concurrency_stamp = $18
".

Record UpdateUserParams := mk_UpdateUserParams {
  UpdateUser_UserName : string;
  UpdateUser_NormalizedUserName : string;
  UpdateUser_Email : string;
  UpdateUser_NormalizedEmail : string;
  UpdateUser_EmailConfirmed : bool;
  UpdateUser_PasswordHash : string;
  UpdateUser_SecurityStamp : string;
  UpdateUser_NewConcurrencyStamp : string;
  UpdateUser_PhoneNumber : string;
  UpdateUser_PhoneNumberConfirmed : bool;
  UpdateUser_TwoFactorEnabled : bool;
  UpdateUser_LockoutEnd : option Time;
  UpdateUser_LockoutEnabled : bool;
  UpdateUser_AccessFailedCount : Z;
  UpdateUser_Attributes : string;
  UpdateUser_IsAnonymous : bool;
  UpdateUser_ID : string;
  UpdateUser_OldConcurrencyStamp : string;
}.

Definition UpdateUser (p : UpdateUserParams) : M S (result Z) :=
  Exec db updateUser [AString (UpdateUser_UserName p); AString (UpdateUser_NormalizedUserName p);
    AString (UpdateUser_Email p); AString (UpdateUser_NormalizedEmail p);
    ABool (UpdateUser_EmailConfirmed p); AString (UpdateUser_PasswordHash p);
    AString (UpdateUser_SecurityStamp p); AString (UpdateUser_NewConcurrencyStamp p);
    AString (UpdateUser_PhoneNumber p); ABool (UpdateUser_PhoneNumberConfirmed p);
    ABool (UpdateUser_TwoFactorEnabled p); ATimePtr (UpdateUser_LockoutEnd p);
    ABool (UpdateUser_LockoutEnabled p); AInt32 (UpdateUser_AccessFailedCount p);
    ARawJSON (UpdateUser_Attributes p); ABool (UpdateUser_IsAnonymous p);
    AString (UpdateUser_ID p); AString (UpdateUser_OldConcurrencyStamp p)].

Definition upsertUserToken : string := "-- name: UpsertUserToken :exec
INSERT INTO identity_user_tokens (user_id, login_provider, name, value)
VALUES ($1,$2,$3,$4)
ON CONFLICT (user_id, login_provider, name) DO UPDATE SET value=EXCLUDED.value
".

Record UpsertUserTokenParams := mk_UpsertUserTokenParams {
  UpsertUserToken_UserID : string;
  UpsertUserToken_LoginProvider : string;
  UpsertUserToken_Name : string;
  UpsertUserToken_Value : string;
}.

Definition UpsertUserToken (p : UpsertUserTokenParams) : M S (result unit) :=
  only_err (Exec db upsertUserToken [AString (UpsertUserToken_UserID p);
    AString (UpsertUserToken_LoginProvider p); AString (UpsertUserToken_Name p);
    AString (UpsertUserToken_Value p)]).

Definition useOAuthClientAssertion : string := "-- name: UseOAuthClientAssertion :execrows
INSERT INTO identity_oauth_assertions (client_id, jti, expires_at) VALUES ($1, $2, $3)
ON CONFLICT (client_id, jti) DO NOTHING
".

Record UseOAuthClientAssertionParams := mk_UseOAuthClientAssertionParams {
  UseOAuthClientAssertion_ClientID : string;
  UseOAuthClientAssertion_Jti : string;
  UseOAuthClientAssertion_ExpiresAt : Time;
}.

Definition UseOAuthClientAssertion (p : UseOAuthClientAssertionParams) : M S (result Z) :=
  Exec db useOAuthClientAssertion [AString (UseOAuthClientAssertion_ClientID p);
    AString (UseOAuthClientAssertion_Jti p); ATime (UseOAuthClientAssertion_ExpiresAt p)].

End sqlcgen.
