(* ===== verification/SqlcStore.v ===== *)
(** * The sqlc store

    [stores/pgxsqlc/store.go], [oauth.go] and [migrate.go]: the generated queries of [SqlcGen] adapted to
    the store interfaces. *)

From S2P Require Import Prelude GoStrings Errors World Entities OAuthTypes Stores Sql GoJson Pgx.
From S2P Require Import PgStore PgOAuth SqlcGen.

Local Open Scope Z_scope.

(** The conversion [int32(x)]. *)
Definition int32 (z : Z) : Z := (z + 2 ^ 31) mod 2 ^ 32 - 2 ^ 31.

Definition attrsToJSON (a : option (gmap string string)) : string :=
  match a with
  | None => "{}"
  | Some m => Marshal_map m
  end.

(** A malformed attribute text is ignored. *)
Definition toUser (r : IdentityUser) : User :=
  mkUser (IdentityUser_ID r) (IdentityUser_UserName r) (IdentityUser_NormalizedUserName r)
    (IdentityUser_Email r) (IdentityUser_NormalizedEmail r) (IdentityUser_EmailConfirmed r)
    (IdentityUser_PasswordHash r) (IdentityUser_SecurityStamp r) (IdentityUser_ConcurrencyStamp r)
    (IdentityUser_PhoneNumber r) (IdentityUser_PhoneNumberConfirmed r) (IdentityUser_TwoFactorEnabled r)
    (IdentityUser_LockoutEnd r) (IdentityUser_LockoutEnabled r) (IdentityUser_AccessFailedCount r)
    (IdentityUser_IsAnonymous r)
    (if String.eqb (IdentityUser_Attributes r) "" then None else (Unmarshal_map (IdentityUser_Attributes r)).1)
    (IdentityUser_CreatedAt r) (IdentityUser_UpdatedAt r).

(** [schema.sql], embedded in the binary. *)
Definition schema : string := "-- Schema for the sqlc-generated pgx store. Columns are NOT NULL with defaults so
-- sqlc emits plain Go types (string/bool/int) instead of pgtype wrappers;
-- lockout_end stays nullable (-> *time.Time via the override in sqlc.yaml).
CREATE TABLE IF NOT EXISTS identity_users (
    id                     varchar(36) PRIMARY KEY,
    user_name              varchar(256) NOT NULL DEFAULT '',
    normalized_user_name   varchar(256) NOT NULL DEFAULT '',
    email                  varchar(256) NOT NULL DEFAULT '',
    normalized_email       varchar(256) NOT NULL DEFAULT '',
    email_confirmed        boolean      NOT NULL DEFAULT false,
    password_hash          varchar(256) NOT NULL DEFAULT '',
    security_stamp         varchar(64)  NOT NULL DEFAULT '',
    concurrency_stamp      varchar(64)  NOT NULL DEFAULT '',
    phone_number           varchar(32)  NOT NULL DEFAULT '',
    phone_number_confirmed boolean      NOT NULL DEFAULT false,
    two_factor_enabled     boolean      NOT NULL DEFAULT false,
    lockout_end            timestamptz,
    lockout_enabled        boolean      NOT NULL DEFAULT false,
    access_failed_count    integer      NOT NULL DEFAULT 0,
    attributes             jsonb        NOT NULL DEFAULT '{}'::jsonb,
    is_anonymous           boolean      NOT NULL DEFAULT false,
    created_at             timestamptz  NOT NULL DEFAULT now(),
    updated_at             timestamptz  NOT NULL DEFAULT now()
);
CREATE UNIQUE INDEX IF NOT EXISTS ux_identity_users_uname ON identity_users (normalized_user_name);
CREATE INDEX IF NOT EXISTS ix_identity_users_email ON identity_users (normalized_email);
CREATE INDEX IF NOT EXISTS ix_identity_users_guest ON identity_users (created_at) WHERE is_anonymous;

CREATE TABLE IF NOT EXISTS identity_roles (
    id                varchar(36) PRIMARY KEY,
    name              varchar(256) NOT NULL DEFAULT '',
    normalized_name   varchar(256) NOT NULL DEFAULT '',
    concurrency_stamp varchar(64)  NOT NULL DEFAULT ''
);
CREATE UNIQUE INDEX IF NOT EXISTS ux_identity_roles_name ON identity_roles (normalized_name);

CREATE TABLE IF NOT EXISTS identity_user_roles (
    user_id varchar(36) NOT NULL REFERENCES identity_users(id) ON DELETE CASCADE,
    role_id varchar(36) NOT NULL REFERENCES identity_roles(id) ON DELETE CASCADE,
    PRIMARY KEY (user_id, role_id)
);

CREATE TABLE IF NOT EXISTS identity_user_claims (
    id          bigserial PRIMARY KEY,
    user_id     varchar(36)  NOT NULL REFERENCES identity_users(id) ON DELETE CASCADE,
    claim_type  varchar(256) NOT NULL DEFAULT '',
    claim_value varchar(256) NOT NULL DEFAULT ''
);
CREATE INDEX IF NOT EXISTS ix_identity_user_claims_user ON identity_user_claims (user_id);

CREATE TABLE IF NOT EXISTS identity_role_claims (
    id          bigserial PRIMARY KEY,
    role_id     varchar(36)  NOT NULL REFERENCES identity_roles(id) ON DELETE CASCADE,
    claim_type  varchar(256) NOT NULL DEFAULT '',
    claim_value varchar(256) NOT NULL DEFAULT ''
);
CREATE INDEX IF NOT EXISTS ix_identity_role_claims_role ON identity_role_claims (role_id);

CREATE TABLE IF NOT EXISTS identity_user_logins (
    login_provider        varchar(128) NOT NULL,
    provider_key          varchar(128) NOT NULL,
    provider_display_name varchar(128) NOT NULL DEFAULT '',
    user_id               varchar(36)  NOT NULL REFERENCES identity_users(id) ON DELETE CASCADE,
    PRIMARY KEY (login_provider, provider_key)
);
CREATE INDEX IF NOT EXISTS ix_identity_user_logins_user ON identity_user_logins (user_id);

CREATE TABLE IF NOT EXISTS identity_user_tokens (
    user_id        varchar(36)  NOT NULL REFERENCES identity_users(id) ON DELETE CASCADE,
    login_provider varchar(128) NOT NULL,
    name           varchar(128) NOT NULL,
    value          text         NOT NULL DEFAULT '',
    PRIMARY KEY (user_id, login_provider, name)
);

CREATE TABLE IF NOT EXISTS identity_api_keys (
    id           varchar(36)  PRIMARY KEY,
    user_id      varchar(36)  NOT NULL REFERENCES identity_users(id) ON DELETE CASCADE,
    name         varchar(256) NOT NULL DEFAULT '',
    prefix       varchar(32)  NOT NULL DEFAULT '',
    key_hash     varchar(128) NOT NULL,
    scopes       jsonb        NOT NULL DEFAULT '[]'::jsonb,
    expires_at   timestamptz,
    last_used_at timestamptz,
    revoked_at   timestamptz,
    created_at   timestamptz  NOT NULL DEFAULT now()
);
CREATE UNIQUE INDEX IF NOT EXISTS ux_identity_api_keys_hash ON identity_api_keys (key_hash);
CREATE INDEX IF NOT EXISTS ix_identity_api_keys_user ON identity_api_keys (user_id);

CREATE TABLE IF NOT EXISTS identity_refresh_tokens (
    session_id   varchar(36)  PRIMARY KEY,
    user_id      varchar(36)  NOT NULL REFERENCES identity_users(id) ON DELETE CASCADE,
    token_hash   varchar(128) NOT NULL,
    name         varchar(256) NOT NULL DEFAULT '',
    expires_at   timestamptz  NOT NULL,
    created_at   timestamptz  NOT NULL DEFAULT now(),
    last_used_at timestamptz
);
CREATE UNIQUE INDEX IF NOT EXISTS ux_identity_refresh_tokens_hash ON identity_refresh_tokens (token_hash);
CREATE INDEX IF NOT EXISTS ix_identity_refresh_tokens_user ON identity_refresh_tokens (user_id);
CREATE INDEX IF NOT EXISTS ix_identity_refresh_tokens_exp ON identity_refresh_tokens (expires_at);

-- Embedded OAuth 2.1 authorization server (package oauth).
CREATE TABLE IF NOT EXISTS identity_oauth_clients (
    client_id                  varchar(512) PRIMARY KEY,
    secret_hash                varchar(128) NOT NULL DEFAULT '',
    name                       varchar(256) NOT NULL DEFAULT '',
    redirect_uris              text         NOT NULL DEFAULT '[]',
    token_endpoint_auth_method varchar(32)  NOT NULL DEFAULT '',
    grant_types                text         NOT NULL DEFAULT '[]',
    created_at                 timestamptz  NOT NULL DEFAULT now(),
    last_used_at               timestamptz
);

CREATE TABLE IF NOT EXISTS identity_oauth_codes (
    code_hash      varchar(128) PRIMARY KEY,
    client_id      varchar(512) NOT NULL,
    user_id        varchar(36)  NOT NULL REFERENCES identity_users(id) ON DELETE CASCADE,
    redirect_uri   text         NOT NULL,
    scopes         text         NOT NULL DEFAULT '',
    resource       text         NOT NULL DEFAULT '',
    code_challenge varchar(128) NOT NULL,
    expires_at     timestamptz  NOT NULL,
    used_at        timestamptz,
    grant_id       varchar(36)  NOT NULL DEFAULT ''
);
CREATE INDEX IF NOT EXISTS ix_identity_oauth_codes_user ON identity_oauth_codes (user_id);
CREATE INDEX IF NOT EXISTS ix_identity_oauth_codes_exp ON identity_oauth_codes (expires_at);

CREATE TABLE IF NOT EXISTS identity_oauth_consents (
    user_id    varchar(36)  NOT NULL REFERENCES identity_users(id) ON DELETE CASCADE,
    client_id  varchar(512) NOT NULL,
    scopes     text         NOT NULL DEFAULT '',
    created_at timestamptz  NOT NULL DEFAULT now(),
    updated_at timestamptz  NOT NULL DEFAULT now(),
    PRIMARY KEY (user_id, client_id)
);

CREATE TABLE IF NOT EXISTS identity_oauth_grants (
    id              varchar(36)  PRIMARY KEY,
    user_id         varchar(36)  NOT NULL REFERENCES identity_users(id) ON DELETE CASCADE,
    client_id       varchar(512) NOT NULL,
    scopes          text         NOT NULL DEFAULT '',
    resource        text         NOT NULL DEFAULT '',
    token_hash      varchar(128) NOT NULL DEFAULT '',
    prev_token_hash varchar(128) NOT NULL DEFAULT '',
    security_stamp  varchar(64)  NOT NULL DEFAULT '',
    expires_at      timestamptz  NOT NULL,
    created_at      timestamptz  NOT NULL DEFAULT now(),
    last_used_at    timestamptz
);
CREATE INDEX IF NOT EXISTS ix_identity_oauth_grants_user ON identity_oauth_grants (user_id);
CREATE INDEX IF NOT EXISTS ix_identity_oauth_grants_client ON identity_oauth_grants (client_id);
CREATE INDEX IF NOT EXISTS ix_identity_oauth_grants_exp ON identity_oauth_grants (expires_at);

CREATE TABLE IF NOT EXISTS identity_oauth_assertions (
    client_id  varchar(512) NOT NULL,
    jti        varchar(256) NOT NULL,
    expires_at timestamptz  NOT NULL,
    PRIMARY KEY (client_id, jti)
);
CREATE INDEX IF NOT EXISTS ix_identity_oauth_assertions_exp ON identity_oauth_assertions (expires_at);
".

Section sqlcstore.
Context `{Oracle} `{UnicodeDB} `{Scanner} {S : Type} `{Pool S}.

(** [gen.New(db)]. *)
Definition gen_New : Queries (S := S) := New pool.

(** [x, err := m; if err != nil { return nil, mapNotFound(err) }; return f(x), nil]. *)
Definition found_as {A B} (m : M S (result A)) (f : A → B) : M S (result B) :=
  r ← m; mret match r with Ok a => Ok (f a) | Err e => Err (mapNotFound e) end.
Definition listed_as {A B} (m : M S (result (list A))) (f : A → B) : M S (result (list B)) :=
  returns m (λ rows, Ok (f <$> rows)).

Section stores.
Context (q : Queries (S := S)).

(** ** User CRUD *)

Definition Create (u : User) : M S (User * result unit) :=
  r ← CreateUser q (mk_CreateUserParams (ID u) (UserName u) (NormalizedUserName u) (Email u)
    (NormalizedEmail u) (EmailConfirmed u) (PasswordHash u) (SecurityStamp u) (ConcurrencyStamp u)
    (PhoneNumber u) (PhoneNumberConfirmed u) (TwoFactorEnabled u) (LockoutEnd u) (LockoutEnabled u)
    (int32 (AccessFailedCount u)) (attrsToJSON (Attributes u)) (IsAnonymous u));
  mret (u, r).

Definition Update (u : User) : M S (User * result unit) :=
  newStamp ← NewConcurrencyStamp;
  n ← UpdateUser q (mk_UpdateUserParams (UserName u) (NormalizedUserName u) (Email u)
    (NormalizedEmail u) (EmailConfirmed u) (PasswordHash u) (SecurityStamp u) newStamp
    (PhoneNumber u) (PhoneNumberConfirmed u) (TwoFactorEnabled u) (LockoutEnd u) (LockoutEnabled u)
    (int32 (AccessFailedCount u)) (attrsToJSON (Attributes u)) (IsAnonymous u) (ID u) (ConcurrencyStamp u));
  match n with
  | Err e => mret (u, Err e)
  | Ok n =>
    if n =? 0 then
      r ← GetUserByID q (ID u);
      mret (u, match r with
        | Err e => if no_rows e then Err ErrNotFound else Err ErrConcurrencyFailure
        | Ok _ => Err ErrConcurrencyFailure end)
    else mret (set_ConcurrencyStamp newStamp u, Ok tt)
  end.

Definition PurgeAnonymousUsers (createdBefore : Time) : M S (result Z) :=
  SqlcGen.PurgeAnonymousUsers q createdBefore.

Definition Delete (u : User) : M S (result unit) := DeleteUser q (ID u).

Definition FindByID (id : string) : M S (result (option User)) :=
  found_as (GetUserByID q id) (Some ∘ toUser).

Definition FindByName (n : string) : M S (result (option User)) :=
  found_as (GetUserByName q n) (Some ∘ toUser).

Definition FindByEmail (e : string) : M S (result (option User)) :=
  if String.eqb e "" then mret (Err ErrNotFound) else found_as (GetUserByEmail q e) (Some ∘ toUser).

Definition ListUsers (f : ListFilter) : M S (result (list User * Z)) :=
  let search := ToUpper (Search f) in
  total ←? CountUsers q search;
  returns (SqlcGen.ListUsers q (mk_ListUsersParams search (int32 (Offset f)) (int32 (Limit f))))
    (λ rows, Ok (toUser <$> rows, total)).

(** ** Roles of a user *)

Definition AddToRole (u : User) (normalizedRoleName : string) : M S (result unit) :=
  r ← GetRoleIDByName q normalizedRoleName;
  match r with
  | Err e => mret (Err (if no_rows e then ErrRoleNotFound else e))
  | Ok rid => AddUserToRole q (mk_AddUserToRoleParams (ID u) rid)
  end.

Definition RemoveFromRole (u : User) (normalizedRoleName : string) : M S (result unit) :=
  r ← GetRoleIDByName q normalizedRoleName;
  match r with
  | Err e => mret (if no_rows e then Ok tt else Err e)
  | Ok rid => RemoveUserFromRole q (mk_RemoveUserFromRoleParams (ID u) rid)
  end.

Definition GetRoles (u : User) : M S (result (list string)) := GetUserRoles q (ID u).

Definition usersFromRows (rows : list IdentityUser) : list User := toUser <$> rows.

Definition GetUsersInRole (normalizedRoleName : string) : M S (result (list User)) :=
  returns (SqlcGen.GetUsersInRole q normalizedRoleName) (λ rows, Ok (usersFromRows rows)).

Definition GetUsersForClaim (claimType claimValue : string) : M S (result (list User)) :=
  returns (SqlcGen.GetUsersForClaim q (mk_GetUsersForClaimParams claimType claimValue))
    (λ rows, Ok (usersFromRows rows)).

Definition IsInRole (u : User) (normalizedRoleName : string) : M S (result bool) :=
  IsUserInRole q (mk_IsUserInRoleParams (ID u) normalizedRoleName).

(** ** Claims *)

Definition GetClaims (u : User) : M S (result (list Claim)) :=
  listed_as (GetUserClaims q (ID u))
    (λ r, mkClaim (GetUserClaimsRow_ClaimType r) (GetUserClaimsRow_ClaimValue r)).

(** [inTx]: the deferred rollback does nothing after a commit. *)
Definition inTx (fn : Queries (S := S) → M S (result unit)) : M S (result unit) :=
  tx ←? Begin;
  r ← fn (WithTx q tx);
  match r with
  | Err e => _ ← Rollback tx; mret (Err e)
  | Ok _ => c ← Commit tx; _ ← Rollback tx; mret c
  end.

Fixpoint each_claim (f : Claim → M S (result unit)) (claims : list Claim) : M S (result unit) :=
  match claims with
  | [] => mret (Ok tt)
  | c :: claims => _ ←? f c; each_claim f claims
  end.

Definition AddClaims (u : User) (claims : list Claim) : M S (result unit) :=
  inTx (λ q, each_claim (λ c, AddUserClaim q (mk_AddUserClaimParams (ID u) (Claim_Type c) (Claim_Value c))) claims).

Definition RemoveClaims (u : User) (claims : list Claim) : M S (result unit) :=
  inTx (λ q, each_claim (λ c, DeleteUserClaim q (mk_DeleteUserClaimParams (ID u) (Claim_Type c) (Claim_Value c))) claims).

(** ** Tokens and logins *)

Definition GetToken (u : User) (loginProvider name : string) : M S (result string) :=
  r ← GetUserToken q (mk_GetUserTokenParams (ID u) loginProvider name);
  mret match r with Err e => if no_rows e then Ok "" else Err e | Ok v => Ok v end.

Definition SetToken (u : User) (loginProvider name value : string) : M S (result unit) :=
  UpsertUserToken q (mk_UpsertUserTokenParams (ID u) loginProvider name value).

Definition RemoveToken (u : User) (loginProvider name : string) : M S (result unit) :=
  DeleteUserToken q (mk_DeleteUserTokenParams (ID u) loginProvider name).

Definition AddLogin (u : User) (login : UserLoginInfo) : M S (result unit) :=
  AddUserLogin q (mk_AddUserLoginParams (LoginProvider login) (ProviderKey login)
    (ProviderDisplayName login) (ID u)).

Definition RemoveLogin (u : User) (loginProvider providerKey : string) : M S (result unit) :=
  RemoveUserLogin q (mk_RemoveUserLoginParams (ID u) loginProvider providerKey).

Definition GetLogins (u : User) : M S (result (list UserLoginInfo)) :=
  listed_as (GetUserLogins q (ID u)) (λ r, mkLogin (GetUserLoginsRow_LoginProvider r)
    (GetUserLoginsRow_ProviderKey r) (GetUserLoginsRow_ProviderDisplayName r)).

Definition FindByLogin (loginProvider providerKey : string) : M S (result (option User)) :=
  r ← GetUserIDByLogin q (mk_GetUserIDByLoginParams loginProvider providerKey);
  match r with
  | Err e => mret (Err (mapNotFound e))
  | Ok uid => FindByID uid
  end.

(** ** Roles *)

Definition toRole (r : IdentityRole) : Role := mkRole (IdentityRole_ID r) (IdentityRole_Name r)
  (IdentityRole_NormalizedName r) (IdentityRole_ConcurrencyStamp r).

Definition Role_Create (r : Role) : M S (Role * result unit) :=
  e ← CreateRole q (mk_CreateRoleParams (Role_ID r) (Role_Name r) (Role_NormalizedName r) (Role_ConcurrencyStamp r));
  mret (r, e).

Definition Role_Update (r : Role) : M S (Role * result unit) :=
  newStamp ← NewConcurrencyStamp;
  n ← UpdateRole q (mk_UpdateRoleParams (Role_Name r) (Role_NormalizedName r) newStamp (Role_ID r)
    (Role_ConcurrencyStamp r));
  match n with
  | Err e => mret (r, Err e)
  | Ok n =>
    if n =? 0 then
      x ← RoleExists q (Role_ID r);
      mret (r, match x with Ok false => Err ErrNotFound | _ => Err ErrConcurrencyFailure end)
    else mret (set_Role_ConcurrencyStamp newStamp r, Ok tt)
  end.

Definition Role_Delete (r : Role) : M S (result unit) := DeleteRole q (Role_ID r).

Definition Role_FindByID (id : string) : M S (result (option Role)) :=
  found_as (GetRoleByID q id) (Some ∘ toRole).

Definition Role_FindByName (normalizedName : string) : M S (result (option Role)) :=
  found_as (GetRoleByName q normalizedName) (Some ∘ toRole).

Definition Role_GetClaims (r : Role) : M S (result (list Claim)) :=
  listed_as (GetRoleClaims q (Role_ID r))
    (λ r, mkClaim (GetRoleClaimsRow_ClaimType r) (GetRoleClaimsRow_ClaimValue r)).

Definition Role_AddClaim (r : Role) (c : Claim) : M S (result unit) :=
  AddRoleClaim q (mk_AddRoleClaimParams (Role_ID r) (Claim_Type c) (Claim_Value c)).

Definition Role_RemoveClaim (r : Role) (c : Claim) : M S (result unit) :=
  DeleteRoleClaim q (mk_DeleteRoleClaimParams (Role_ID r) (Claim_Type c) (Claim_Value c)).

(** ** API keys *)

Definition toAPIKey (r : IdentityApiKey) : APIKey :=
  mkAPIKey (IdentityApiKey_ID r) (IdentityApiKey_UserID r) (IdentityApiKey_Name r)
    (IdentityApiKey_Prefix r) (IdentityApiKey_KeyHash r)
    (if String.eqb (IdentityApiKey_Scopes r) "" then None else (Unmarshal_list (IdentityApiKey_Scopes r)).1)
    (IdentityApiKey_ExpiresAt r) (IdentityApiKey_LastUsedAt r) (IdentityApiKey_RevokedAt r)
    (IdentityApiKey_CreatedAt r).

Definition scopesJSON (s : option (list string)) : string :=
  match s with
  | None | Some [] => "[]"
  | Some l => Marshal_list l
  end.

Definition CreateAPIKey (k : APIKey) : M S (result unit) :=
  created ← created_or_now (Key_CreatedAt k);
  SqlcGen.CreateAPIKey q (mk_CreateAPIKeyParams (Key_ID k) (Key_UserID k) (Key_Name k) (Key_Prefix k)
    (KeyHash k) (scopesJSON (Key_Scopes k)) (Key_ExpiresAt k) created).

Definition GetActiveAPIKeyByHash (keyHash : string) : M S (result APIKey) :=
  found_as (SqlcGen.GetActiveAPIKeyByHash q keyHash) toAPIKey.

Definition ListAPIKeysByUser (userID : string) : M S (result (list APIKey)) :=
  listed_as (SqlcGen.ListAPIKeysByUser q userID) toAPIKey.

Definition RevokeAPIKey (id : string) : M S (result unit) := SqlcGen.RevokeAPIKey q id.
Definition TouchAPIKeyLastUsed (id : string) : M S (result unit) := SqlcGen.TouchAPIKeyLastUsed q id.

(** ** Refresh sessions *)

Definition toRefreshToken (r : IdentityRefreshToken) : RefreshToken :=
  mkRefreshToken (IdentityRefreshToken_SessionID r) (IdentityRefreshToken_UserID r)
    (IdentityRefreshToken_TokenHash r) (IdentityRefreshToken_Name r) (IdentityRefreshToken_ExpiresAt r)
    (IdentityRefreshToken_CreatedAt r) (IdentityRefreshToken_LastUsedAt r).

Definition CreateRefreshToken (rt : RefreshToken) : M S (result unit) :=
  created ← created_or_now (Session_CreatedAt rt);
  SqlcGen.CreateRefreshToken q (mk_CreateRefreshTokenParams (SessionID rt) (Session_UserID rt)
    (TokenHash rt) (Session_Name rt) (ExpiresAt rt) created (LastUsedAt rt)).

Definition GetRefreshTokenBySession (sessionID : string) : M S (result RefreshToken) :=
  found_as (SqlcGen.GetRefreshTokenBySession q sessionID) toRefreshToken.

Definition UpdateRefreshToken (rt : RefreshToken) : M S (result unit) :=
  n ←? SqlcGen.UpdateRefreshToken q (mk_UpdateRefreshTokenParams (TokenHash rt) (ExpiresAt rt)
    (LastUsedAt rt) (Session_Name rt) (SessionID rt));
  mret (if n =? 0 then Err ErrNotFound else Ok tt).

Definition DeleteRefreshToken (sessionID : string) : M S (result unit) :=
  SqlcGen.DeleteRefreshToken q sessionID.
Definition DeleteUserRefreshTokens (userID : string) : M S (result Z) :=
  SqlcGen.DeleteUserRefreshTokens q userID.
Definition DeleteExpiredRefreshTokens (before : Time) : M S (result Z) :=
  SqlcGen.DeleteExpiredRefreshTokens q before.

Definition ListUserRefreshTokens (userID : string) : M S (result (list RefreshToken)) :=
  listed_as (SqlcGen.ListUserRefreshTokens q userID) toRefreshToken.

(** ** The authorization server *)

(** [listJSON]: a nil slice is stored as an empty one. *)
Definition listJSON (v : list string) : string := Marshal_list v.
(** [timePtr]. *)
Definition timePtr (t : Time) : option Time := Some t.

Definition CreateClient (c : Client) : M S (result unit) :=
  CreateOAuthClient q (mk_CreateOAuthClientParams (Client_ID c) (SecretHash c) (Client_Name c)
    (listJSON (RedirectURIs c)) (TokenEndpointAuthMethod c) (listJSON (GrantTypes c))
    (Client_CreatedAt c) (Client_LastUsedAt c)).

Definition toClient (r : IdentityOauthClient) : result Client :=
  uris ← unmarshal_list (IdentityOauthClient_RedirectUris r);
  grants ← unmarshal_list (IdentityOauthClient_GrantTypes r);
  Ok (mkClient (IdentityOauthClient_ClientID r) (IdentityOauthClient_SecretHash r)
    (IdentityOauthClient_Name r) uris (IdentityOauthClient_TokenEndpointAuthMethod r) grants
    (IdentityOauthClient_CreatedAt r) (IdentityOauthClient_LastUsedAt r)).

Definition GetClient (clientID : string) : M S (result Client) :=
  returns (found_as (GetOAuthClient q clientID) id) toClient.

Definition TouchClient (clientID : string) (at_ : Time) : M S (result unit) :=
  TouchOAuthClient q (mk_TouchOAuthClientParams clientID (timePtr at_)).

Definition DeleteStaleClients (before : Time) : M S (result Z) := DeleteStaleOAuthClients q before.

Definition CreateCode (c : Code) : M S (result unit) :=
  CreateOAuthCode q (mk_CreateOAuthCodeParams (CodeHash c) (Code_ClientID c) (Code_UserID c)
    (Code_RedirectURI c) (Code_Scopes c) (Code_Resource c) (CodeChallenge c) (Code_ExpiresAt c)
    (UsedAt c) (Code_GrantID c)).

Definition toCode (r : IdentityOauthCode) : Code :=
  mkCode (IdentityOauthCode_CodeHash r) (IdentityOauthCode_ClientID r) (IdentityOauthCode_UserID r)
    (IdentityOauthCode_RedirectUri r) (IdentityOauthCode_Scopes r) (IdentityOauthCode_Resource r)
    (IdentityOauthCode_CodeChallenge r) (IdentityOauthCode_ExpiresAt r) (IdentityOauthCode_UsedAt r)
    (IdentityOauthCode_GrantID r).

Definition GetCode (codeHash : string) : M S (result Code) := found_as (GetOAuthCode q codeHash) toCode.

(** [n == 1, err]. *)
Definition MarkCodeUsed (codeHash grantID : string) (at_ : Time) : M S (result bool) :=
  one_row (MarkOAuthCodeUsed q (mk_MarkOAuthCodeUsedParams (timePtr at_) grantID codeHash)).

Definition DeleteExpiredCodes (before : Time) : M S (result Z) := DeleteExpiredOAuthCodes q before.

Definition toConsent (r : IdentityOauthConsent) : Consent :=
  mkConsent (IdentityOauthConsent_UserID r) (IdentityOauthConsent_ClientID r)
    (IdentityOauthConsent_Scopes r) (IdentityOauthConsent_CreatedAt r) (IdentityOauthConsent_UpdatedAt r).

Definition GetConsent (userID clientID : string) : M S (result Consent) :=
  found_as (GetOAuthConsent q (mk_GetOAuthConsentParams userID clientID)) toConsent.

Definition SaveConsent (c : Consent) : M S (result unit) :=
  SaveOAuthConsent q (mk_SaveOAuthConsentParams (Consent_UserID c) (Consent_ClientID c)
    (Consent_Scopes c) (Consent_CreatedAt c) (Consent_UpdatedAt c)).

Definition DeleteConsent (userID clientID : string) : M S (result unit) :=
  DeleteOAuthConsent q (mk_DeleteOAuthConsentParams userID clientID).

Definition CreateGrant (g : Grant) : M S (result unit) :=
  CreateOAuthGrant q (mk_CreateOAuthGrantParams (Grant_ID g) (Grant_UserID g) (Grant_ClientID g)
    (Grant_Scopes g) (Grant_Resource g) (Grant_TokenHash g) (PrevTokenHash g) (Grant_SecurityStamp g)
    (Grant_ExpiresAt g) (Grant_CreatedAt g) (Grant_LastUsedAt g)).

Definition toGrant (r : IdentityOauthGrant) : Grant :=
  mkGrant (IdentityOauthGrant_ID r) (IdentityOauthGrant_UserID r) (IdentityOauthGrant_ClientID r)
    (IdentityOauthGrant_Scopes r) (IdentityOauthGrant_Resource r) (IdentityOauthGrant_TokenHash r)
    (IdentityOauthGrant_PrevTokenHash r) (IdentityOauthGrant_SecurityStamp r)
    (IdentityOauthGrant_ExpiresAt r) (IdentityOauthGrant_CreatedAt r) (IdentityOauthGrant_LastUsedAt r).

Definition GetGrant (id : string) : M S (result Grant) := found_as (GetOAuthGrant q id) toGrant.

Definition RotateGrant (id oldHash newHash : string) (expiresAt usedAt : Time) : M S (result bool) :=
  one_row (RotateOAuthGrant q (mk_RotateOAuthGrantParams newHash expiresAt (timePtr usedAt) id oldHash)).

Definition DeleteGrant (id : string) : M S (result unit) := DeleteOAuthGrant q id.

Definition DeleteUserClientGrants (userID clientID : string) : M S (result Z) :=
  DeleteUserClientOAuthGrants q (mk_DeleteUserClientOAuthGrantsParams userID clientID).

Definition ListUserGrants (userID : string) : M S (result (list Grant)) :=
  listed_as (ListUserOAuthGrants q userID) toGrant.

Definition DeleteExpiredGrants (before : Time) : M S (result Z) := DeleteExpiredOAuthGrants q before.

Definition UseClientAssertion (clientID jti : string) (expiresAt : Time) : M S (result bool) :=
  one_row (UseOAuthClientAssertion q (mk_UseOAuthClientAssertionParams clientID jti expiresAt)).

Definition DeleteExpiredClientAssertions (before : Time) : M S (result Z) :=
  DeleteExpiredOAuthClientAssertions q before.
End stores.

(** [Migrate]. *)
Definition Migrate : M S (result unit) := only_err (Exec pool schema []).

(** ** The stores *)

Definition NewUserStore : UserStore S := let q := gen_New in {|
  us_Create := Create q; us_Update := Update q; us_Delete := Delete q;
  us_FindByID := FindByID q; us_FindByName := FindByName q; us_FindByEmail := FindByEmail q;
  us_AddToRole := AddToRole q; us_RemoveFromRole := RemoveFromRole q; us_GetRoles := GetRoles q;
  us_IsInRole := IsInRole q; us_GetUsersInRole := GetUsersInRole q;
  us_GetClaims := GetClaims q; us_AddClaims := AddClaims q; us_RemoveClaims := RemoveClaims q;
  us_GetUsersForClaim := GetUsersForClaim q;
  us_GetToken := GetToken q; us_SetToken := SetToken q; us_RemoveToken := RemoveToken q;
  us_AddLogin := AddLogin q; us_RemoveLogin := RemoveLogin q; us_GetLogins := GetLogins q;
  us_FindByLogin := FindByLogin q;
  us_ListUsers := Some (ListUsers q); us_PurgeAnonymousUsers := Some (PurgeAnonymousUsers q);
|}.

Definition NewRoleStore : RoleStore S := let q := gen_New in {|
  rs_Create := Role_Create q; rs_Update := Role_Update q; rs_Delete := Role_Delete q;
  rs_FindByID := Role_FindByID q; rs_FindByName := Role_FindByName q;
  rs_GetClaims := Role_GetClaims q; rs_AddClaim := Role_AddClaim q; rs_RemoveClaim := Role_RemoveClaim q;
|}.

Definition NewAPIKeyStore : APIKeyStore S := let q := gen_New in {|
  ks_CreateAPIKey := CreateAPIKey q; ks_GetActiveAPIKeyByHash := GetActiveAPIKeyByHash q;
  ks_ListAPIKeysByUser := ListAPIKeysByUser q; ks_RevokeAPIKey := RevokeAPIKey q;
  ks_TouchAPIKeyLastUsed := TouchAPIKeyLastUsed q;
|}.

Definition NewRefreshTokenStore : RefreshTokenStore S := let q := gen_New in {|
  ts_CreateRefreshToken := CreateRefreshToken q;
  ts_GetRefreshTokenBySession := GetRefreshTokenBySession q;
  ts_UpdateRefreshToken := UpdateRefreshToken q; ts_DeleteRefreshToken := DeleteRefreshToken q;
  ts_DeleteUserRefreshTokens := DeleteUserRefreshTokens q;
  ts_DeleteExpiredRefreshTokens := DeleteExpiredRefreshTokens q;
  ts_ListUserRefreshTokens := ListUserRefreshTokens q;
|}.

Definition NewOAuthStore : OAuthStore S := let q := gen_New in {|
  os_CreateClient := CreateClient q; os_GetClient := GetClient q; os_TouchClient := TouchClient q;
  os_DeleteStaleClients := DeleteStaleClients q;
  os_CreateCode := CreateCode q; os_GetCode := GetCode q; os_MarkCodeUsed := MarkCodeUsed q;
  os_DeleteExpiredCodes := DeleteExpiredCodes q;
  os_GetConsent := GetConsent q; os_SaveConsent := SaveConsent q; os_DeleteConsent := DeleteConsent q;
  os_CreateGrant := CreateGrant q; os_GetGrant := GetGrant q; os_RotateGrant := RotateGrant q;
  os_DeleteGrant := DeleteGrant q; os_DeleteUserClientGrants := DeleteUserClientGrants q;
  os_ListUserGrants := ListUserGrants q; os_DeleteExpiredGrants := DeleteExpiredGrants q;
  os_UseClientAssertion := UseClientAssertion q;
  os_DeleteExpiredClientAssertions := DeleteExpiredClientAssertions q;
|}.
End sqlcstore.
