(* ===== verification/SqlSchema.v ===== *)
(** * Schemas and types of statements

    The tables a migration creates, read from its DDL, and a static check of a statement
    against them: its tables and columns exist, its values have the types of the columns they
    meet, an insertion supplies what has no default, and its placeholders are exactly the
    arguments passed with it. *)

From S2P Require Import Prelude GoStrings Errors World Naming Sql Pgx.

Local Open Scope Z_scope.

(** ** Tables *)

(** [TyInt] is [integer], [TyBig] is [bigint]. *)
Inductive coltype := TyText | TyBool | TyInt | TyBig | TyTime | TyJson.

#[export] Instance coltype_eq_dec : EqDecision coltype.
Proof. solve_decision. Defined.

Record column := mkColumn {
  col_name : string;
  col_type : coltype;
  col_size : option Z;
  col_null : bool;
  col_default : option expr;
  col_ref : option (string * string);
}.

(** A table's columns, primary key and other unique keys. *)
Record table := mkTable {
  tbl_cols : list column;
  tbl_pk : list string;
  tbl_unique : list (list string);
}.

Definition schema : Type := list ((string * string) * table).

Definition lookup_table (sch : schema) (t : string * string) : option table :=
  '(_, (_, tb)) ← list_find (λ kv, kv.1 = t) sch; Some tb.
Definition lookup_column (t : table) (c : string) : option column :=
  '(_, x) ← list_find (λ x, col_name x = c) (tbl_cols t); Some x.

(** ** Reading DDL *)

Definition coltype_of (ty : string) : option coltype :=
  if bool_decide (ty ∈ ["varchar"; "text"]) then Some TyText
  else if String.eqb ty "integer" then Some TyInt
  else if bool_decide (ty ∈ ["bigint"; "bigserial"]) then Some TyBig
  else if String.eqb ty "boolean" then Some TyBool
  else if String.eqb ty "timestamptz" then Some TyTime
  else if String.eqb ty "jsonb" then Some TyJson
  else None.

(** What follows a column's type; [pk] when it is the primary key. *)
Fixpoint p_options (n : nat) (c : column) (pk : bool) (l : list token) : option (column * bool * list token) :=
  match n with
  | O => None
  | S n =>
    match is_kw "primary" l with
    | Some l => l ← is_kw "key" l;
      p_options n (mkColumn (col_name c) (col_type c) (col_size c) false (col_default c) (col_ref c)) true l
    | None =>
      match is_kw "not" l with
      | Some l => l ← is_kw "null" l;
        p_options n (mkColumn (col_name c) (col_type c) (col_size c) false (col_default c) (col_ref c)) pk l
      | None =>
        match is_kw "default" l with
        | Some l => '(e, l) ← p_prim n l;
          p_options n (mkColumn (col_name c) (col_type c) (col_size c) (col_null c) (Some e) (col_ref c)) pk l
        | None =>
          match is_kw "references" l with
          | Some l =>
            '(t, l) ← p_table l; l ← is_sym "(" l; '(_, l) ← is_ident l; l ← is_sym ")" l;
            l ← is_kw "on" l; l ← is_kw "delete" l; l ← is_kw "cascade" l;
            p_options n (mkColumn (col_name c) (col_type c) (col_size c) (col_null c) (col_default c) (Some t)) pk l
          | None => Some (c, pk, l)
          end
        end
      end
    end
  end.

(** [name type[(size)] options]; a [bigserial] column numbers its rows by itself. *)
Definition p_column (n : nat) (l : list token) : option (column * bool * list token) :=
  '(name, l) ← is_ident l; '(ty, l) ← is_ident l; t ← coltype_of ty;
  '(size, l) ← match is_sym "(" l with
    | Some (TNum z :: l) => l ← is_sym ")" l; Some (Some z, l)
    | Some _ => None
    | None => Some (None, l)
    end;
  let d := if String.eqb ty "bigserial" then Some (ECol "" "nextval") else None in
  p_options n (mkColumn name t size true d None) false l.

(** The columns and the primary key of a table, up to its closing parenthesis. *)
Fixpoint p_columns (n : nat) (l : list token) : option (list column * list string * list token) :=
  match n with
  | O => None
  | S n =>
    '(cs, pk, l) ← match is_kw "primary" l with
      | Some l =>
        l ← is_kw "key" l; l ← is_sym "(" l; '(pk, l) ← p_idents n l; l ← is_sym ")" l; Some ([], pk, l)
      | None => '(c, pk, l) ← p_column n l; Some ([c], if pk : bool then [col_name c] else [], l)
      end;
    match is_sym "," l with
    | Some l => '(cs', pk', l) ← p_columns n l; Some (cs ++ cs', pk ++ pk', l)
    | None => l ← is_sym ")" l; Some (cs, pk, l)
    end
  end.

Definition is_words (ws : list string) (l : list token) : option (list token) :=
  foldl (λ l w, l ← l; is_kw w l) (Some l) ws.

Definition add_unique (t : string * string) (cols : list string) (sch : schema) : schema :=
  (λ kv, if bool_decide (kv.1 = t)
         then (kv.1, mkTable (tbl_cols kv.2) (tbl_pk kv.2) (cols :: tbl_unique kv.2)) else kv) <$> sch.

(** Up to the next semicolon. *)
Fixpoint skip_stmt (l : list token) : list token :=
  match l with
  | [] => []
  | TSym s :: l => if String.eqb s ";" then l else skip_stmt l
  | _ :: l => skip_stmt l
  end.

(** The statements of a migration: [CREATE SCHEMA], [CREATE TABLE] and [CREATE [UNIQUE] INDEX],
    each [IF NOT EXISTS]; only unique indexes constrain the data. *)
Fixpoint p_ddl (n : nat) (sch : schema) (l : list token) : option schema :=
  match n with
  | O => None
  | S n =>
    match l with
    | [] => Some sch
    | _ =>
      l ← is_kw "create" l;
      match is_kw "table" l with
      | Some l =>
        l ← is_words ["if"; "not"; "exists"] l; '(t, l) ← p_table l; l ← is_sym "(" l;
        '(cs, pk, l) ← p_columns n l; l ← is_sym ";" l;
        p_ddl n (sch ++ [(t, mkTable cs pk [])]) l
      | None =>
        match is_kw "unique" l with
        | Some l =>
          l ← is_words ["index"; "if"; "not"; "exists"] l; '(_, l) ← is_ident l; l ← is_kw "on" l;
          '(t, l) ← p_table l; l ← is_sym "(" l; '(cols, l) ← p_idents n l; l ← is_sym ")" l; l ← is_sym ";" l;
          p_ddl n (add_unique t cols sch) l
        | None => p_ddl n sch (skip_stmt l)
        end
      end
    end
  end.

Definition parse_ddl (s : string) : option schema := l ← lex s; p_ddl (length l + 2) [] l.

(** ** Types of arguments *)

(** What an argument of a Go type may stand for: a column type, and whether it can be NULL. *)
Definition fits (a : arg) (ty : coltype) : bool :=
  match a, ty with
  | AString _, (TyText | TyJson) | ARawJSON _, TyJson | ABool _, TyBool | (AInt _ | AInt32 _), (TyInt | TyBig)
  | ATime _, TyTime | ATimePtr _, TyTime => true
  | _, _ => false
  end.
Definition may_be_null (a : arg) : bool := match a with ATimePtr _ => true | _ => false end.

(** The values of a type; integers have the width of their column. *)
Definition value_is (ty : coltype) (v : value) : bool :=
  match ty, v with
  | TyText, VText _ | TyBool, VBool _ | TyTime, VTime _ | TyJson, VJson _ => true
  | TyInt, VInt z => in_range z (- 2 ^ 31) (2 ^ 31 - 1)
  | TyBig, VInt z => in_range z MinInt64 MaxInt64
  | _, _ => false
  end.

Section check.
Context (sch : schema) (args : list arg).

(** The columns in scope: one level per enclosing query, innermost first. *)
Abbreviation levels := (list (list (string * table))) (only parsing).

Fixpoint column_type (ctx : levels) (q c : string) : option column :=
  match ctx with
  | [] => None
  | lvl :: ctx =>
    match omap (λ at_ : string * table, if String.eqb q "" || String.eqb q at_.1 then lookup_column at_.2 c else None) lvl with
    | [] => column_type ctx q c
    | [x] => Some x
    | _ => None
    end
  end.

(** Placeholder [$n] can be of type [ty]. *)
Definition param_fits (n : Z) (ty : coltype) : bool :=
  match args !! Z.to_nat (n - 1) with Some a => (0 <? n) && fits a ty | None => false end.

Definition opt_all {A} (f : A → bool) (o : option A) : bool := match o with Some a => f a | None => true end.

(** [e] can be of type [ty]; a boolean expression is checked through. *)
Fixpoint has_type (ctx : levels) (e : expr) (ty : coltype) : bool :=
  match e with
  | ECol q c => match column_type ctx q c with Some x => bool_decide (col_type x = ty) | None => false end
  | EParam n => param_fits n ty
  | EVal v => value_is ty v
  | ENow => bool_decide (ty = TyTime)
  | ECount => bool_decide (ty = TyBig)
  | ECast e t => bool_decide (coltype_of t = Some ty) && (has_type ctx e ty || has_type ctx e TyText)
  | EOp o e1 e2 =>
    match o with
    | OAnd | OOr => bool_decide (ty = TyBool) && has_type ctx e1 TyBool && has_type ctx e2 TyBool
    | OCat => bool_decide (ty = TyText) && has_type ctx e1 TyText && has_type ctx e2 TyText
    | OLike => bool_decide (ty = TyBool) && has_type ctx e1 TyText && has_type ctx e2 TyText
    | OEq => bool_decide (ty = TyBool)
        && existsb (λ t, has_type ctx e1 t && has_type ctx e2 t) [TyText; TyBool; TyInt; TyBig; TyTime]
    | OLt | OGt => bool_decide (ty = TyBool)
        && existsb (λ t, has_type ctx e1 t && has_type ctx e2 t) [TyInt; TyBig; TyTime]
    end
  | ENot e => bool_decide (ty = TyBool) && has_type ctx e TyBool
  | EIsNull e => bool_decide (ty = TyBool)
      && existsb (has_type ctx e) [TyText; TyBool; TyInt; TyBig; TyTime; TyJson]
  | EExists q => bool_decide (ty = TyBool) && has_query ctx q None
  | EIn e q => bool_decide (ty = TyBool)
      && existsb (λ t, has_type ctx e t && has_query ctx q (Some t)) [TyText; TyInt; TyBig]
  | EInList e es => bool_decide (ty = TyBool)
      && existsb (λ t, has_type ctx e t && forallb (λ e, has_type ctx e t) es) [TyText; TyInt; TyBig]
  | EScalar q => has_query ctx q (Some ty)
  end
with has_query (ctx : levels) (q : select) (ty : option coltype) : bool :=
  match q with
  | Select items from join wh order limit offset =>
    match from with
    | None => match items, ty with [e], Some t => has_type ([] :: ctx) e t | _, _ => false end
    | Some (t, a) =>
      match lookup_table sch t with
      | None => false
      | Some tb =>
        let base := [(a, tb)] in
        let lvl := match join with
          | Some (t2, a2, _) => match lookup_table sch t2 with Some tb2 => Some ((a2, tb2) :: base) | None => None end
          | None => Some base
          end in
        match lvl with
        | None => false
        | Some lvl =>
          let ctx := lvl :: ctx in
          match join with Some (_, _, e) => has_type ctx e TyBool | None => true end
          && match wh with Some e => has_type ctx e TyBool | None => true end
          && opt_all (λ c, bool_decide (is_Some (column_type ctx "" c))) order
          && match limit with Some e => has_type ctx e TyBig | None => true end
          && match offset with Some e => has_type ctx e TyBig | None => true end
          && match items with
             | [e] => match ty with Some t => has_type ctx e t
                 | None => existsb (has_type ctx e) [TyText; TyBool; TyInt; TyBig; TyTime; TyJson] end
             | _ => false
             end
        end
      end
    end
  end.

(** The type of a selected column, and whether it can be NULL. *)
Definition item_type (ctx : levels) (e : expr) : option (coltype * bool) :=
  match e with
  | ECol q c => x ← column_type ctx q c; Some (col_type x, col_null x)
  | EExists _ => if has_type ctx e TyBool then Some (TyBool, false) else None
  | ECount => Some (TyBig, false)
  | _ => None
  end.

(** The scope of a query's own tables. *)
Definition query_level (from : option ((string * string) * string))
    (join : option ((string * string) * string * expr)) : option (list (string * table)) :=
  match from with
  | None => Some []
  | Some (t, a) =>
    tb ← lookup_table sch t;
    match join with
    | None => Some [(a, tb)]
    | Some (t2, a2, _) => tb2 ← lookup_table sch t2; Some [(a2, tb2); (a, tb)]
    end
  end.

(** A query on its own: the types of its columns. *)
Definition check_select (q : select) : option (list (coltype * bool)) :=
  match q with
  | Select items from join wh order limit offset =>
    lvl ← query_level from join;
    let ctx := [lvl] in
    if opt_all (λ x, has_type ctx x.2 TyBool) join && opt_all (λ e, has_type ctx e TyBool) wh
      && opt_all (λ c, bool_decide (is_Some (column_type ctx "" c))) order
      && opt_all (λ e, has_type ctx e TyBig) limit && opt_all (λ e, has_type ctx e TyBig) offset
    then mapM (item_type ctx) items else None
  end.

(** [e] can be stored in a column. *)
Definition stores (ctx : levels) (e : expr) (c : column) : bool :=
  match e with
  | EParam n => param_fits n (col_type c)
      && match args !! Z.to_nat (n - 1) with Some a => col_null c || negb (may_be_null a) | None => false end
  | ECol q x => match column_type ctx q x with
      | Some y => bool_decide (col_type y = col_type c) && (col_null c || negb (col_null y)) | None => false end
  | _ => has_type ctx e (col_type c)
  end.

Definition check_sets (ctx : levels) (tb : table) (sets : list (string * expr)) : bool :=
  forallb (λ ce, bool_decide (ce.1 ∉ tbl_pk tb)
    && match lookup_column tb ce.1 with Some c => stores ctx ce.2 c | None => false end) sets.

(** The values of an insertion, and the scope they are read in. *)
Definition check_source (src : source) : option (levels * list expr) :=
  match src with
  | FromValues es => Some ([], es)
  | FromQuery (Select items from None wh None None None) =>
    lvl ← query_level from None;
    if opt_all (λ e, has_type [lvl] e TyBool) wh then Some ([lvl], items) else None
  | FromQuery _ => None
  end.

Definition supplied (cols : list string) (c : column) : bool :=
  bool_decide (col_name c ∈ cols) || col_null c || bool_decide (is_Some (col_default c)).

(** The result columns of a statement that checks; none for a change. *)
Definition check_stmt (st : stmt) : option (list (coltype * bool)) :=
  match st with
  | SSelect q => check_select q
  | SInsert t cols src conflict =>
    tb ← lookup_table sch t; '(ctx, es) ← check_source src; cs ← mapM (lookup_column tb) cols;
    if bool_decide (length es = length cs) && bool_decide (NoDup cols)
      && forallb (λ ec, stores ctx ec.1 ec.2) (zip es cs) && forallb (supplied cols) (tbl_cols tb)
      && opt_all (λ x, (bool_decide (x.1 ∈ tbl_pk tb :: tbl_unique tb) || match x with ([], []) => true | _ => false end)
           && check_sets [[(t.2, tb); ("excluded", tb)]] tb x.2) conflict
    then Some [] else None
  | SUpdate t sets wh =>
    tb ← lookup_table sch t;
    if check_sets [[(t.2, tb)]] tb sets && opt_all (λ e, has_type [[(t.2, tb)]] e TyBool) wh then Some [] else None
  | SDelete t a wh =>
    tb ← lookup_table sch t;
    if opt_all (λ e, has_type [[(a, tb)]] e TyBool) wh then Some [] else None
  end.
End check.

(** The placeholders of a statement. *)
Fixpoint expr_params (e : expr) : list Z :=
  match e with
  | EParam n => [n]
  | ECol _ _ | EVal _ | ENow | ECount => []
  | ECast e _ | ENot e | EIsNull e => expr_params e
  | EOp _ e1 e2 => expr_params e1 ++ expr_params e2
  | EExists q | EScalar q => query_params q
  | EIn e q => expr_params e ++ query_params q
  | EInList e es => expr_params e ++ flat_map expr_params es
  end
with query_params (q : select) : list Z :=
  match q with
  | Select items _ join wh _ limit offset =>
    flat_map expr_params items
    ++ match join with Some (_, e) => expr_params e | None => [] end
    ++ match wh with Some e => expr_params e | None => [] end
    ++ match limit with Some e => expr_params e | None => [] end
    ++ match offset with Some e => expr_params e | None => [] end
  end.

Definition stmt_params (st : stmt) : list Z :=
  let sets l := flat_map (λ ce : string * expr, expr_params ce.2) l in
  let opt e := match e with Some e => expr_params e | None => [] end in
  match st with
  | SSelect q => query_params q
  | SInsert _ _ src c =>
    match src with FromValues es => flat_map expr_params es | FromQuery q => query_params q end
    ++ match c with Some (_, l) => sets l | None => [] end
  | SUpdate _ l wh => sets l ++ opt wh
  | SDelete _ _ wh => opt wh
  end.

(** [$1] to [$n] are used, and nothing else. *)
Definition params_exact (st : stmt) (n : nat) : bool :=
  let used := stmt_params st in
  forallb (λ i, bool_decide (i ∈ used)) (seqZ 1 (Z.of_nat n)) && forallb (λ i, bool_decide (i ∈ seqZ 1 (Z.of_nat n))) used.

(** A statement's text with the arguments passed to it: the types of the columns it returns. *)
Definition check_call (sch : schema) (text : string) (args : list arg) : option (list (coltype * bool)) :=
  st ← parse text;
  if params_exact st (length args) then check_stmt sch args st else None.
