(* ===== verification/SqlTyped.v ===== *)
(** * The SQL stores send well-typed statements

    A database that is only known to run statements that check against the schema of the
    migration, and to answer with rows of the types they select.  On it no method of the
    pgx and sqlc stores sends a statement that does not check, and whatever is answered
    scans: the only errors are the database's own and those the interfaces promise. *)

From S2P Require Import Prelude GoStrings Errors World Entities OAuthTypes Stores Naming Sql GoJson Pgx.
From S2P Require Import PgQueries PgStore PgOAuth SqlcGen SqlcStore SqlSchema.

Local Open Scope Z_scope.

(** The schema of [Migrate], in the default layout. *)
Definition default_schema : SqlSchema.schema := Eval vm_compute in default [] (parse_ddl (buildDDL DefaultNaming)).

Lemma default_schema_ddl : parse_ddl (buildDDL DefaultNaming) = Some default_schema.
Proof. vm_compute. reflexivity. Qed.

(** A row has values of the given types, and NULL only where it may. *)
Definition value_ok (ty : coltype * bool) (v : value) : Prop := value_is ty.1 v = true ∨ v = VNull ∧ ty.2 = true.
Definition row_ok (ts : list (coltype * bool)) (r : list value) : Prop := Forall2 value_ok ts r.

(** A query that always has a row: a constant or a count. *)
Definition always_row (text : string) : bool :=
  match parse text with
  | Some (SSelect (Select [ECount] _ _ _ None None None)) | Some (SSelect (Select _ None _ _ _ _ _)) => true
  | _ => false
  end.

(** [Scan] of a column into a variable of its type. *)
Class ScannerLaws `{Scanner} : Prop := {
  law_scan_string s : scan_string (VText s) = Ok s;
  law_scan_bool b : scan_bool (VBool b) = Ok b;
  law_scan_int z : in_range z MinInt64 MaxInt64 = true → scan_int (VInt z) = Ok z;
  law_scan_int32 z : in_range z (- 2 ^ 31) (2 ^ 31 - 1) = true → scan_int32 (VInt z) = Ok z;
  law_scan_time t : scan_time (VTime t) = Ok (t * 1000);
  law_scan_timeptr t : scan_timeptr (VTime t) = Ok (Some (t * 1000));
  law_scan_null : scan_timeptr VNull = Ok None;
  law_scan_bytes s : scan_bytes (VJson s) = Ok s;
}.

Section typed.
Context `{Oracle} `{UnicodeDB} `{Scanner, !ScannerLaws} {S : Type}.
Context (sch : SqlSchema.schema) (db_err : error → Prop).

Definition only_db {A} (r : result A) : Prop := ∀ e, r = Err e → db_err e.

(** What is asked of a connection: to run statements that check. *)
Record typed (db : DBTX S) : Prop := {
  typed_Exec text args w : check_call sch text args = Some [] → wp (Exec db text args) (λ r _, only_db r) w;
  typed_Query text args ts w : check_call sch text args = Some ts →
    wp (Query db text args) (λ r _, match r with
      | Ok (rows, fin) => Forall (row_ok ts) rows ∧ only_db fin | Err e => db_err e end) w;
  typed_QueryRow text args ts w : check_call sch text args = Some ts →
    wp (QueryRow db text args) (λ r _, match r with
      | Ok row => row_ok ts row
      | Err e => db_err e ∨ e = ErrNoRows ∧ always_row text = false end) w;
}.

Class TypedPool `{Pool S} : Prop := {
  typed_pool : typed pool;
  typed_batch l w : Forall (λ ta, check_call sch ta.1 ta.2 = Some []) l → wp (SendBatch l) (λ r _, only_db r) w;
  typed_begin w : wp Begin (λ r _, match r with
    | Ok tx => typed (tx_DBTX tx) ∧ (∀ w, wp (Commit tx) (λ r _, only_db r) w)
        ∧ (∀ w, wp (Rollback tx) (λ _ _, True) w)
    | Err e => db_err e end) w;
}.

(** The errors a method may end with. *)
Definition expected (e : error) : Prop :=
  db_err e ∨ e ∈ [ErrNotFound; ErrRoleNotFound; ErrConcurrencyFailure; errJSON].
Definition safe {A} (m : M S (result A)) : Prop := ∀ w, wp m (λ r _, ∀ e, r = Err e → expected e) w.
Definition safe' {A B} (m : M S (A * result B)) : Prop := ∀ w, wp m (λ r _, ∀ e, r.2 = Err e → expected e) w.

(** ** Scanning *)

Lemma value_ok_text v : value_ok (TyText, false) v → ∃ s, v = VText s.
Proof. intros [Hv|[_ ?]]; [|done]. destruct v; by eauto. Qed.
Lemma scans_string v : value_ok (TyText, false) v → ∃ s, scan_string v = Ok s.
Proof. intros [s ->]%value_ok_text. eauto using law_scan_string. Qed.
Lemma scans_bool v : value_ok (TyBool, false) v → ∃ b, scan_bool v = Ok b.
Proof. intros [Hv|[_ ?]]; [|done]. destruct v; try done. eauto using law_scan_bool. Qed.
Lemma scans_int v : value_ok (TyInt, false) v → ∃ z, scan_int v = Ok z.
Proof.
  intros [Hv|[_ ?]]; [|done]. destruct v; try done. exists z. apply law_scan_int. cbn in Hv.
  apply in_range_spec in Hv. apply in_range_spec. unfold MinInt64, MaxInt64. lia.
Qed.
Lemma scans_big v : value_ok (TyBig, false) v → ∃ z, scan_int v = Ok z.
Proof. intros [Hv|[_ ?]]; [|done]. destruct v; try done. eauto using law_scan_int. Qed.
Lemma scans_int32 v : value_ok (TyInt, false) v → ∃ z, scan_int32 v = Ok z.
Proof. intros [Hv|[_ ?]]; [|done]. destruct v; try done. eauto using law_scan_int32. Qed.
Lemma scans_time v : value_ok (TyTime, false) v → ∃ t, scan_time v = Ok t.
Proof. intros [Hv|[_ ?]]; [|done]. destruct v; try done. eauto using law_scan_time. Qed.
Lemma scans_timeptr v : value_ok (TyTime, true) v → ∃ t, scan_timeptr v = Ok t.
Proof.
  intros [Hv|[-> _]]; [|eauto using law_scan_null]. destruct v; try done. eauto using law_scan_timeptr.
Qed.
Lemma scans_bytes v : value_ok (TyJson, false) v → ∃ s, scan_bytes v = Ok s.
Proof. intros [Hv|[_ ?]]; [|done]. destruct v; try done. eauto using law_scan_bytes. Qed.

(** Every row of the types scans, but for malformed JSON. *)
Definition scans {A} (ts : list (coltype * bool)) (scan : list value → result A) : Prop :=
  ∀ row, row_ok ts row → ∀ e, scan row = Err e → expected e.

Lemma scan_rows_errors {A} ts (scan : list value → result A) rows e :
  scans ts scan → Forall (row_ok ts) rows → scan_rows scan rows = Err e → expected e.
Proof.
  intros Hs. induction 1 as [|row rows Hr Hrows IH]; cbn; [done|].
  destruct (scan row) eqn:Hrow; cbn; [|intros [= <-]; by eapply Hs].
  destruct (scan_rows scan rows); cbn; [done|]. intros [= <-]. by apply IH.
Qed.

Lemma expected_db e : db_err e → expected e.
Proof. by left. Qed.
Lemma expected_ErrNotFound : expected ErrNotFound.
Proof. right. set_solver. Qed.
Lemma expected_ErrRoleNotFound : expected ErrRoleNotFound.
Proof. right. set_solver. Qed.
Lemma expected_ErrConcurrencyFailure : expected ErrConcurrencyFailure.
Proof. right. set_solver. Qed.
Lemma expected_errJSON : expected errJSON.
Proof. right. set_solver. Qed.

Lemma no_rows_ErrNoRows : no_rows ErrNoRows = true.
Proof. unfold no_rows. destruct ErrNoRows; cbn; by rewrite bool_decide_eq_true_2. Qed.

Lemma mapNotFound_expected e b : db_err e ∨ e = ErrNoRows ∧ b = false → expected (mapNotFound e).
Proof.
  unfold mapNotFound. intros [He|[-> _]]; [|rewrite no_rows_ErrNoRows; apply expected_ErrNotFound].
  destruct (no_rows e); [apply expected_ErrNotFound|by left].
Qed.

(** ** Calls *)

Section calls.
Context (db : DBTX S) (Hdb : typed db).

Lemma safe_Exec text args : check_call sch text args = Some [] → safe (Exec db text args).
Proof.
  intros Hc w. eapply wp_mono; [by apply (typed_Exec db)|]. intros r w1 Hr e He. by apply expected_db, Hr.
Qed.
Lemma safe_only_err {A} (m : M S (result A)) : safe m → safe (only_err m).
Proof.
  intros Hm w. apply wp_only_err. eapply wp_mono; [apply Hm|]. intros [a|e] w1 Hr e'; [done|]. intros [= <-]. by apply Hr.
Qed.
Lemma safe_returns {A B} (m : M S (result A)) (f : A → result B) :
  safe m → (∀ a e, f a = Err e → expected e) → safe (returns m f).
Proof.
  intros Hm Hf w. apply wp_returns. eapply wp_mono; [apply Hm|]. intros [a|e] w1 Hr e'; cbn; [apply Hf|]. intros [= <-]. by apply Hr.
Qed.
Lemma safe_bind_ok {A B} (m : M S (result A)) (k : A → M S (result B)) :
  safe m → (∀ a, safe (k a)) → safe (bind_ok m k).
Proof.
  intros Hm Hk w. apply wp_bind_ok. eapply wp_mono; [apply Hm|]. intros [a|e] w' Hr; [apply Hk|].
  intros e'. intros [= <-]. by apply Hr.
Qed.
Lemma safe_collect {A} text args ts (scan : list value → result A) :
  check_call sch text args = Some ts → scans ts scan → safe (returns (Query db text args) (collect scan)).
Proof.
  intros Hc Hs w. apply wp_returns. eapply wp_mono; [by eapply (typed_Query db)|].
  intros [[rows fin]|e] w1 Hr e'; cbn; [|intros [= <-]; by left].
  unfold collect. cbn. destruct Hr as [Hrows Hfin]. destruct (scan_rows scan rows) eqn:Hsc; cbn.
  - destruct fin; cbn; [done|]. intros [= <-]. by apply expected_db, Hfin.
  - intros [= <-]. by eapply scan_rows_errors.
Qed.
Lemma safe_QueryRow text args ts :
  check_call sch text args = Some ts →
  ∀ w, wp (QueryRow db text args) (λ r _, match r with
    | Ok row => row_ok ts row | Err e => db_err e ∨ e = ErrNoRows ∧ always_row text = false end) w.
Proof. intros Hc w. by eapply (typed_QueryRow db). Qed.

(** A single row whose absence is an error of its own kind. *)
Lemma safe_one {A} text args ts (scan : list value → result A) :
  check_call sch text args = Some ts → always_row text = true → scans ts scan →
  safe (returns (QueryRow db text args) scan).
Proof.
  intros Hc Ha Hs w. apply wp_returns. eapply wp_mono; [by eapply safe_QueryRow|].
  intros [row|e] w1 Hr e' He; [by eapply Hs|]. cbn in He. injection He as <-. destruct Hr as [?|[_ ?]]; [by left|congruence].
Qed.
Lemma safe_found {A B} text args ts (scan : list value → result A) (f : A → B) :
  check_call sch text args = Some ts → scans ts scan →
  safe (r ← returns (QueryRow db text args) scan;
        mret (match r with Ok a => Ok (f a) | Err e => Err (mapNotFound e) end)).
Proof.
  intros Hc Hs w. apply wp_bind, wp_returns. eapply wp_mono; [by eapply safe_QueryRow|].
  intros [row|e] w1 Hr e' He; cbn in He.
  - destruct (scan row) eqn:Hrow; [done|]. injection He as <-. pose proof (Hs _ Hr _ Hrow) as Hex.
    unfold mapNotFound. destruct (no_rows e); [apply expected_ErrNotFound|done].
  - injection He as <-. by eapply mapNotFound_expected.
Qed.
End calls.
End typed.

(** The types of a row, column by column. *)
Ltac split_row Hrow :=
  repeat (apply Forall2_cons_inv_l in Hrow as (? & ? & ? & Hrow & ->)); apply Forall2_nil_inv_l in Hrow as ->.

Ltac scan_step :=
  match goal with
  | Hv : value_ok (TyText, false) ?v |- context [scan_string ?v] => destruct (scans_string v Hv) as [? ->]
  | Hv : value_ok (TyBool, false) ?v |- context [scan_bool ?v] => destruct (scans_bool v Hv) as [? ->]
  | Hv : value_ok (TyInt, false) ?v |- context [scan_int ?v] => destruct (scans_int v Hv) as [? ->]
  | Hv : value_ok (TyBig, false) ?v |- context [scan_int ?v] => destruct (scans_big v Hv) as [? ->]
  | Hv : value_ok (TyInt, false) ?v |- context [scan_int32 ?v] => destruct (scans_int32 v Hv) as [? ->]
  | Hv : value_ok (TyTime, false) ?v |- context [scan_time ?v] => destruct (scans_time v Hv) as [? ->]
  | Hv : value_ok (TyTime, true) ?v |- context [scan_timeptr ?v] => destruct (scans_timeptr v Hv) as [? ->]
  | Hv : value_ok (TyJson, false) ?v |- context [scan_bytes ?v] => destruct (scans_bytes v Hv) as [? ->]
  end; cbn [mbind result_bind].

(** A call that checks, by evaluation. *)
Ltac checks := vm_compute; reflexivity.

Section stores.
Context `{Oracle} `{UnicodeDB} `{Scanner, !ScannerLaws} {S : Type} (db_err : error → Prop).
Context `{Pool S, !TypedPool default_schema db_err}.

Abbreviation safe := (safe db_err) (only parsing).
Abbreviation safe' := (safe' db_err) (only parsing).

(** ** All methods of an interface *)

Record users_safe (st : UserStore S) : Prop := {
  _ : ∀ u, safe' (us_Create u); _ : ∀ u, safe' (us_Update u); _ : ∀ u, safe (us_Delete u);
  _ : ∀ id, safe (us_FindByID id); _ : ∀ n, safe (us_FindByName n); _ : ∀ e, safe (us_FindByEmail e);
  _ : ∀ u r, safe (us_AddToRole u r); _ : ∀ u r, safe (us_RemoveFromRole u r);
  _ : ∀ u, safe (us_GetRoles u); _ : ∀ u r, safe (us_IsInRole u r); _ : ∀ r, safe (us_GetUsersInRole r);
  _ : ∀ u, safe (us_GetClaims u); _ : ∀ u l, safe (us_AddClaims u l); _ : ∀ u l, safe (us_RemoveClaims u l);
  _ : ∀ t v, safe (us_GetUsersForClaim t v);
  _ : ∀ u p n, safe (us_GetToken u p n); _ : ∀ u p n v, safe (us_SetToken u p n v);
  _ : ∀ u p n, safe (us_RemoveToken u p n);
  _ : ∀ u l, safe (us_AddLogin u l); _ : ∀ u p k, safe (us_RemoveLogin u p k); _ : ∀ u, safe (us_GetLogins u);
  _ : ∀ p k, safe (us_FindByLogin p k);
  _ : ∀ f, match us_ListUsers with Some m => safe (m f) | None => True end;
  _ : ∀ t, match us_PurgeAnonymousUsers with Some m => safe (m t) | None => True end;
}.

Record roles_safe (st : RoleStore S) : Prop := {
  _ : ∀ r, safe' (rs_Create r); _ : ∀ r, safe' (rs_Update r); _ : ∀ r, safe (rs_Delete r);
  _ : ∀ id, safe (rs_FindByID id); _ : ∀ n, safe (rs_FindByName n); _ : ∀ r, safe (rs_GetClaims r);
  _ : ∀ r c, safe (rs_AddClaim r c); _ : ∀ r c, safe (rs_RemoveClaim r c);
}.

Record keys_safe (st : APIKeyStore S) : Prop := {
  _ : ∀ k, safe (ks_CreateAPIKey k); _ : ∀ h, safe (ks_GetActiveAPIKeyByHash h);
  _ : ∀ u, safe (ks_ListAPIKeysByUser u); _ : ∀ id, safe (ks_RevokeAPIKey id);
  _ : ∀ id, safe (ks_TouchAPIKeyLastUsed id);
}.

Record sessions_safe (st : RefreshTokenStore S) : Prop := {
  _ : ∀ t, safe (ts_CreateRefreshToken t); _ : ∀ s, safe (ts_GetRefreshTokenBySession s);
  _ : ∀ t, safe (ts_UpdateRefreshToken t); _ : ∀ s, safe (ts_DeleteRefreshToken s);
  _ : ∀ u, safe (ts_DeleteUserRefreshTokens u); _ : ∀ t, safe (ts_DeleteExpiredRefreshTokens t);
  _ : ∀ u, safe (ts_ListUserRefreshTokens u);
}.

Record oauth_safe (st : OAuthStore S) : Prop := {
  _ : ∀ c, safe (os_CreateClient c); _ : ∀ id, safe (os_GetClient id); _ : ∀ id t, safe (os_TouchClient id t);
  _ : ∀ t, safe (os_DeleteStaleClients t);
  _ : ∀ c, safe (os_CreateCode c); _ : ∀ h, safe (os_GetCode h); _ : ∀ h g t, safe (os_MarkCodeUsed h g t);
  _ : ∀ t, safe (os_DeleteExpiredCodes t);
  _ : ∀ u c, safe (os_GetConsent u c); _ : ∀ c, safe (os_SaveConsent c); _ : ∀ u c, safe (os_DeleteConsent u c);
  _ : ∀ g, safe (os_CreateGrant g); _ : ∀ id, safe (os_GetGrant id);
  _ : ∀ id o n e t, safe (os_RotateGrant id o n e t); _ : ∀ id, safe (os_DeleteGrant id);
  _ : ∀ u c, safe (os_DeleteUserClientGrants u c); _ : ∀ u, safe (os_ListUserGrants u);
  _ : ∀ t, safe (os_DeleteExpiredGrants t);
  _ : ∀ c j t, safe (os_UseClientAssertion c j t); _ : ∀ t, safe (os_DeleteExpiredClientAssertions t);
}.

Lemma pool_typed : typed default_schema db_err pool.
Proof. by apply typed_pool. Qed.
#[local] Hint Resolve pool_typed : core.

Lemma safe_pair {A B} (a : A) (m : M S (result B)) : safe m → safe' (r ← m; mret (a, r)).
Proof. intros Hm w. apply wp_bind. eapply wp_mono; [apply Hm|]. intros r w1 Hr e. apply Hr. Qed.

(** ** The stores' scans *)

Abbreviation text_col := (TyText, false) (only parsing).
Abbreviation time_col := (TyTime, false) (only parsing).
Abbreviation time_null := (TyTime, true) (only parsing).

Definition user_cols : list (coltype * bool) :=
  [text_col; text_col; text_col; text_col; text_col; (TyBool, false); text_col; text_col; text_col;
   text_col; (TyBool, false); (TyBool, false); time_null; (TyBool, false); (TyInt, false);
   (TyJson, false); (TyBool, false); time_col; time_col].
Definition role_cols : list (coltype * bool) := [text_col; text_col; text_col; text_col].
Definition client_cols : list (coltype * bool) :=
  [text_col; text_col; text_col; text_col; text_col; text_col; time_col; time_null].
Definition code_cols : list (coltype * bool) :=
  [text_col; text_col; text_col; text_col; text_col; text_col; text_col; time_col; time_null; text_col].
Definition consent_cols : list (coltype * bool) := [text_col; text_col; text_col; time_col; time_col].
Definition grant_cols : list (coltype * bool) :=
  [text_col; text_col; text_col; text_col; text_col; text_col; text_col; text_col; time_col; time_col; time_null].
Definition key_cols : list (coltype * bool) :=
  [text_col; text_col; text_col; text_col; text_col; (TyJson, false); time_null; time_null; time_null; time_col].
Definition session_cols : list (coltype * bool) :=
  [text_col; text_col; text_col; text_col; time_col; time_col; time_null].

(** A scan that cannot fail on a row of its types. *)
Definition total {A} (ts : list (coltype * bool)) (scan : list value → result A) : Prop :=
  ∀ row, row_ok ts row → ∃ a, scan row = Ok a.

Lemma total_scans {A} ts (scan : list value → result A) : total ts scan → scans db_err ts scan.
Proof. intros Hs row Hr e. destruct (Hs row Hr) as [a ->]. done. Qed.
Lemma mapped_ok {A} ts (scan : list value → result A) :
  total ts scan → scans db_err ts (map_err mapNotFound ∘ scan).
Proof. intros Hs row Hr e. destruct (Hs row Hr) as [a Ha]. unfold compose. by rewrite Ha. Qed.
Lemma total_scan1 {A} ty (f : value → result A) : (∀ v, value_ok ty v → ∃ a, f v = Ok a) → total [ty] (scan1 f).
Proof. intros Hf row Hrow. unfold row_ok in Hrow. split_row Hrow. by apply Hf. Qed.

Tactic Notation "total_row" reference(f) :=
  intros row Hrow; unfold row_ok in Hrow; split_row Hrow; unfold f; repeat scan_step; by eexists.

Lemma total_user : total user_cols scan_user.
Proof. total_row scan_user. Qed.
Lemma total_role : total role_cols scan_role.
Proof. total_row scan_role. Qed.
Lemma total_claim : total [text_col; text_col] scanClaim.
Proof. total_row scanClaim. Qed.
Lemma total_login : total [text_col; text_col; text_col] scanLogin.
Proof. total_row scanLogin. Qed.
Lemma total_client : total client_cols scan_client.
Proof. total_row scan_client. Qed.
Lemma total_code : total code_cols scan_code.
Proof. total_row scan_code. Qed.
Lemma total_consent : total consent_cols scan_consent.
Proof. total_row scan_consent. Qed.
Lemma total_grant : total grant_cols scan_grant.
Proof. total_row scan_grant. Qed.
Lemma total_key : total key_cols scan_api_key.
Proof. total_row scan_api_key. Qed.
Lemma total_session : total session_cols scan_session.
Proof. total_row scan_session. Qed.

Lemma scanUser_ok : scans db_err user_cols (scanUser ∘ Ok).
Proof.
  intros row Hr e. unfold scanUser, compose. cbn [mbind result_bind]. destruct (total_user row Hr) as [[u attrs] ->].
  destruct (String.eqb _ _); [done|]. destruct (Unmarshal_map _) as [m []]; [done|]. intros [= <-].
  apply expected_errJSON.
Qed.

(** ** The pgx store *)

Section pgx.
Abbreviation q := (buildQueries (resolve [])) (only parsing).

Lemma safe_many {A} text args ts (scan : list value → result A) :
  check_call default_schema text args = Some ts → scans db_err ts scan → safe (many scan text args).
Proof. intros. by eapply safe_collect. Qed.

Lemma safe_one_user text args :
  check_call default_schema text args = Some user_cols → safe (one_user text args).
Proof.
  intros Hc w. unfold one_user. apply wp_bind. eapply wp_mono; [by eapply safe_QueryRow|].
  intros [row|e] w1 Hr e' He; cbn in He.
  - pose proof (scanUser_ok row Hr) as Hs. unfold compose in Hs. destruct (scanUser (Ok row)); [done|].
    cbn in He. injection He as <-. by apply Hs.
  - unfold scanUser in He. cbn in He. injection He as <-. by eapply mapNotFound_expected.
Qed.

Lemma safe_one_role text args :
  check_call default_schema text args = Some role_cols → safe (one_role text args).
Proof.
  intros Hc w. unfold one_role. apply wp_bind. eapply wp_mono; [by eapply safe_QueryRow|].
  intros [row|e] w1 Hr e' He; unfold scanRole in He.
  - cbn [mbind result_bind] in He. destruct (total_role row Hr) as [a Ha]. by rewrite Ha in He.
  - cbn in He. injection He as <-. by eapply mapNotFound_expected.
Qed.

Lemma safe_zero_rows text id :
  check_call default_schema text [AString id] = Some [(TyBool, false)] → safe (zero_rows text id).
Proof.
  intros Hc w. unfold zero_rows, one. apply wp_bind, wp_returns. eapply wp_mono; [by eapply safe_QueryRow|].
  intros r w1 Hr. apply wp_ret. intros e He. destruct (r ≫= scan1 scan_bool) as [[]|]; injection He as <-;
    first [apply expected_ErrNotFound|apply expected_ErrConcurrencyFailure].
Qed.

Lemma safe_found_pgx {A} text args ts (scan : list value → result A) :
  check_call default_schema text args = Some ts → total ts scan →
  safe (found scan text args).
Proof.
  intros Hc Hs w. unfold found. apply wp_bind. eapply wp_mono; [by eapply safe_QueryRow|].
  intros [row|e] w1 Hr e' He; cbn in He.
  - destruct (Hs row Hr) as [a Ha]. by rewrite Ha in He.
  - injection He as <-. by eapply mapNotFound_expected.
Qed.

Lemma pgx_Create u : safe' (PgStore.Create q u).
Proof.
  unfold PgStore.Create. destruct (marshalAttrs _) eqn:Hm; [|by destruct (Attributes u)].
  apply safe_pair, safe_only_err. eapply safe_Exec; [done|]. checks.
Qed.
Lemma pgx_Update u : safe' (PgStore.Update q u).
Proof.
  intros w. unfold PgStore.Update. destruct (marshalAttrs _) eqn:Hm; [|by destruct (Attributes u)].
  unfold NewConcurrencyStamp. wp_steps. eapply wp_mono; [eapply safe_Exec; [done|checks]|].
  intros [n|e] w1 Hr; [|intros e' [= <-]; by apply Hr].
  destruct (n =? 0); [|by intros e]. apply wp_bind. eapply wp_mono; [apply safe_zero_rows; checks|].
  intros r w2 Hr2 e. apply Hr2.
Qed.
Lemma pgx_Role_Update r : safe' (PgStore.Role_Update q r).
Proof.
  intros w. unfold PgStore.Role_Update, NewConcurrencyStamp. wp_steps.
  eapply wp_mono; [eapply safe_Exec; [done|checks]|].
  intros [n|e] w1 Hr; [|intros e' [= <-]; by apply Hr].
  destruct (n =? 0); [|by intros e]. apply wp_bind. eapply wp_mono; [apply safe_zero_rows; checks|].
  intros x w2 Hr2 e. apply Hr2.
Qed.
Lemma pgx_AddToRole u n : safe (PgStore.AddToRole q u n).
Proof.
  apply safe_bind_ok; [eapply safe_Exec; [done|checks]|]. intros k. destruct (k =? 0); [|by intros w e].
  intros w. apply wp_bind, wp_returns. eapply wp_mono; [eapply safe_QueryRow; [done|checks]|].
  intros r w1 _ e. destruct (r ≫= scan1 scan_bool) as [[]|]; try done. intros [= <-]. apply expected_ErrRoleNotFound.
Qed.
Lemma pgx_GetToken u p n : safe (PgStore.GetToken q u p n).
Proof.
  intros w. unfold PgStore.GetToken, one. apply wp_bind, wp_returns.
  eapply wp_mono; [eapply safe_QueryRow; [done|checks]|].
  intros [row|e] w1 Hr e' He; cbn in He.
  - destruct (total_scan1 text_col scan_string scans_string row Hr) as [a Ha]. by rewrite Ha in He.
  - destruct Hr as [He'|[-> _]]; [|by rewrite no_rows_ErrNoRows in He].
    destruct (no_rows e); [done|]. injection He as <-. by left.
Qed.
Lemma pgx_FindByID id : safe (PgStore.FindByID q id).
Proof. apply safe_one_user. checks. Qed.
Lemma pgx_FindByLogin p k : safe (PgStore.FindByLogin q p k).
Proof.
  intros w. unfold PgStore.FindByLogin, one. apply wp_bind, wp_returns.
  eapply wp_mono; [eapply safe_QueryRow; [done|checks]|].
  intros [row|e] w1 Hr.
  - cbn [mbind result_bind]. destruct (total_scan1 text_col scan_string scans_string row Hr) as [a ->].
    apply pgx_FindByID.
  - cbn. intros e' [= <-]. by eapply mapNotFound_expected.
Qed.
Lemma pgx_ListUsers f : safe (PgStore.ListUsers q f).
Proof.
  apply safe_bind_ok.
  - unfold one. eapply safe_one; [done|checks|checks|]. apply total_scans, total_scan1, scans_big.
  - intros n. apply safe_returns; [|done]. eapply safe_many; [checks|apply scanUser_ok].
Qed.
Lemma pgx_batch text u (l : list Claim) :
  (∀ a b c, check_call default_schema text [AString a; AString b; AString c] = Some []) →
  safe (SendBatch ((λ c, (text, [AString (ID u); AString (Claim_Type c); AString (Claim_Value c)])) <$> l)).
Proof.
  intros Hc w. eapply wp_mono; [eapply typed_batch; [done|]|].
  - apply Forall_fmap, Forall_forall. intros c _. apply Hc.
  - intros r w1 Hr e He. by apply expected_db, Hr.
Qed.

Ltac exec_safe := try apply safe_only_err; eapply safe_Exec; [done|checks].
Ltac many_safe := eapply safe_many; [checks|].

Lemma pgx_users_safe : users_safe (PgStore.NewUserStore []).
Proof.
  split; intros; cbn [us_Create us_Update us_Delete us_FindByID us_FindByName us_FindByEmail us_AddToRole
    us_RemoveFromRole us_GetRoles us_IsInRole us_GetUsersInRole us_GetClaims us_AddClaims us_RemoveClaims
    us_GetUsersForClaim us_GetToken us_SetToken us_RemoveToken us_AddLogin us_RemoveLogin us_GetLogins
    us_FindByLogin us_ListUsers us_PurgeAnonymousUsers PgStore.NewUserStore].
  - apply pgx_Create.
  - apply pgx_Update.
  - exec_safe.
  - apply pgx_FindByID.
  - apply safe_one_user. checks.
  - unfold PgStore.FindByEmail. destruct (String.eqb e ""); [|apply safe_one_user; checks].
    intros w e' [= <-]. apply expected_ErrNotFound.
  - apply pgx_AddToRole.
  - exec_safe.
  - many_safe. apply total_scans, total_scan1, scans_string.
  - eapply safe_one; [done|checks|checks|]. apply total_scans, total_scan1, scans_bool.
  - many_safe. apply scanUser_ok.
  - many_safe. apply total_scans, total_claim.
  - apply pgx_batch. intros. checks.
  - apply pgx_batch. intros. checks.
  - many_safe. apply scanUser_ok.
  - apply pgx_GetToken.
  - exec_safe.
  - exec_safe.
  - exec_safe.
  - exec_safe.
  - many_safe. apply total_scans, total_login.
  - apply pgx_FindByLogin.
  - apply pgx_ListUsers.
  - exec_safe.
Qed.

Lemma pgx_roles_safe : roles_safe (PgStore.NewRoleStore []).
Proof.
  split; intros; cbn [rs_Create rs_Update rs_Delete rs_FindByID rs_FindByName rs_GetClaims rs_AddClaim
    rs_RemoveClaim PgStore.NewRoleStore].
  - apply safe_pair. exec_safe.
  - apply pgx_Role_Update.
  - exec_safe.
  - apply safe_one_role. checks.
  - apply safe_one_role. checks.
  - many_safe. apply total_scans, total_claim.
  - exec_safe.
  - exec_safe.
Qed.

Lemma safe_created {A} t (k : Time → M S (result A)) : (∀ t, safe (k t)) → safe (t ← created_or_now t; k t).
Proof.
  intros Hk w. unfold created_or_now. apply wp_bind. destruct (t =? zeroTime); wp_steps; apply Hk.
Qed.

Lemma safe_one_row (m : M S (result Z)) : safe m → safe (one_row m).
Proof. intros Hm. by apply safe_returns. Qed.

Ltac found_safe := eapply safe_found_pgx; [checks|].

Lemma pgx_keys_safe : keys_safe (PgOAuth.NewAPIKeyStore []).
Proof.
  split; intros; cbn [ks_CreateAPIKey ks_GetActiveAPIKeyByHash ks_ListAPIKeysByUser ks_RevokeAPIKey
    ks_TouchAPIKeyLastUsed PgOAuth.NewAPIKeyStore].
  - apply safe_created. intros t. exec_safe.
  - found_safe. apply total_key.
  - many_safe. apply mapped_ok, total_key.
  - exec_safe.
  - exec_safe.
Qed.

Lemma pgx_sessions_safe : sessions_safe (PgOAuth.NewRefreshTokenStore []).
Proof.
  split; intros; cbn [ts_CreateRefreshToken ts_GetRefreshTokenBySession ts_UpdateRefreshToken
    ts_DeleteRefreshToken ts_DeleteUserRefreshTokens ts_DeleteExpiredRefreshTokens ts_ListUserRefreshTokens
    PgOAuth.NewRefreshTokenStore].
  - apply safe_created. intros t'. exec_safe.
  - found_safe. apply total_session.
  - apply safe_bind_ok; [exec_safe|]. intros n w e. destruct (n =? 0); [|done]. intros [= <-].
    apply expected_ErrNotFound.
  - exec_safe.
  - exec_safe.
  - exec_safe.
  - many_safe. apply mapped_ok, total_session.
Qed.

Lemma pgx_oauth_safe : oauth_safe (PgOAuth.NewOAuthStore []).
Proof.
  split; intros; cbn [os_CreateClient os_GetClient os_TouchClient os_DeleteStaleClients os_CreateCode os_GetCode
    os_MarkCodeUsed os_DeleteExpiredCodes os_GetConsent os_SaveConsent os_DeleteConsent os_CreateGrant os_GetGrant
    os_RotateGrant os_DeleteGrant os_DeleteUserClientGrants os_ListUserGrants os_DeleteExpiredGrants
    os_UseClientAssertion os_DeleteExpiredClientAssertions PgOAuth.NewOAuthStore].
  1,3-5,8,10-12,15,16,18,20: exec_safe.
  - apply safe_returns; [found_safe; apply total_client|]. intros [c [ru gt]] e.
    unfold decode_client, unmarshal_list. destruct (Unmarshal_list ru) as [l1 []], (Unmarshal_list gt) as [l2 []];
      cbn; try done; intros [= <-]; apply expected_errJSON.
  - found_safe. apply total_code.
  - apply safe_one_row. exec_safe.
  - found_safe. apply total_consent.
  - found_safe. apply total_grant.
  - apply safe_one_row. exec_safe.
  - many_safe. apply mapped_ok, total_grant.
  - apply safe_one_row. exec_safe.
Qed.
End pgx.

(** ** The sqlc store *)

Section sqlc.
Abbreviation q := gen_New (only parsing).

Lemma safe_found_as {A B} text args ts (scan : list value → result A) (f : A → B) :
  check_call default_schema text args = Some ts → total ts scan →
  safe (found_as (returns (QueryRow q text args) scan) f).
Proof. intros Hc Hs. eapply safe_found; [apply pool_typed|done|by apply total_scans]. Qed.

Lemma safe_listed_as {A B} text args ts (scan : list value → result A) (f : A → B) :
  check_call default_schema text args = Some ts → total ts scan →
  safe (listed_as (returns (Query q text args) (collect scan)) f).
Proof.
  intros Hc Hs. apply safe_returns; [|done]. eapply safe_collect; [apply pool_typed|done|by apply total_scans].
Qed.

(** A lookup whose missing row has its own answer. *)
Lemma wp_lookup {A} text args ts (scan : list value → result A) (Q : result A → World S → Prop) w :
  check_call default_schema text args = Some ts → total ts scan →
  (∀ a w', Q (Ok a) w') → (∀ e w', db_err e ∨ e = ErrNoRows → Q (Err e) w') →
  wp (returns (QueryRow q text args) scan) Q w.
Proof.
  intros Hc Hs HO HE. apply wp_returns. eapply wp_mono; [eapply safe_QueryRow; [apply pool_typed|done]|].
  intros [row|e] w1 Hr; cbn.
  - destruct (Hs row Hr) as [a ->]. apply HO.
  - apply HE. destruct Hr as [?|[? _]]; auto.
Qed.

Tactic Notation "total_rows" reference(f) :=
  intros row Hrow; unfold row_ok in Hrow; split_row Hrow; unfold f; repeat scan_step; by eexists.

Lemma total_IdentityUser : total user_cols scan_IdentityUser.
Proof. total_rows scan_IdentityUser. Qed.
Lemma total_IdentityRole : total role_cols scan_IdentityRole.
Proof. total_rows scan_IdentityRole. Qed.
Lemma total_UserClaims : total [text_col; text_col] scan_GetUserClaimsRow.
Proof. total_rows scan_GetUserClaimsRow. Qed.
Lemma total_RoleClaims : total [text_col; text_col] scan_GetRoleClaimsRow.
Proof. total_rows scan_GetRoleClaimsRow. Qed.
Lemma total_UserLogins : total [text_col; text_col; text_col] scan_GetUserLoginsRow.
Proof. total_rows scan_GetUserLoginsRow. Qed.
Lemma total_ApiKey : total key_cols scan_IdentityApiKey.
Proof. total_rows scan_IdentityApiKey. Qed.
Lemma total_RefreshToken : total session_cols scan_IdentityRefreshToken.
Proof. total_rows scan_IdentityRefreshToken. Qed.
Lemma total_OauthClient : total client_cols scan_IdentityOauthClient.
Proof. total_rows scan_IdentityOauthClient. Qed.
Lemma total_OauthCode : total code_cols scan_IdentityOauthCode.
Proof. total_rows scan_IdentityOauthCode. Qed.
Lemma total_OauthConsent : total consent_cols scan_IdentityOauthConsent.
Proof. total_rows scan_IdentityOauthConsent. Qed.
Lemma total_OauthGrant : total grant_cols scan_IdentityOauthGrant.
Proof. total_rows scan_IdentityOauthGrant. Qed.

Ltac exec_safe := try apply safe_only_err; eapply safe_Exec; [apply pool_typed|checks].
Ltac list_safe := eapply safe_listed_as; [checks|].
Ltac one_safe := eapply safe_found_as; [checks|].

Lemma sqlc_Update u : safe' (SqlcStore.Update q u).
Proof.
  intros w. unfold SqlcStore.Update, NewConcurrencyStamp. wp_steps.
  eapply wp_mono; [eapply safe_Exec; [apply pool_typed|checks]|].
  intros [n|e] w1 Hr; [|intros e' [= <-]; by apply Hr].
  destruct (n =? 0); [|by intros e]. apply wp_bind. unfold GetUserByID.
  eapply wp_lookup; [checks|apply total_IdentityUser|..].
  - intros a w2 e [= <-]. apply expected_ErrConcurrencyFailure.
  - intros e w2 _ e' He. cbn in He. destruct (no_rows e); injection He as <-;
      [apply expected_ErrNotFound|apply expected_ErrConcurrencyFailure].
Qed.

Lemma sqlc_Role_Update r : safe' (SqlcStore.Role_Update q r).
Proof.
  intros w. unfold SqlcStore.Role_Update, NewConcurrencyStamp. wp_steps.
  eapply wp_mono; [eapply safe_Exec; [apply pool_typed|checks]|].
  intros [n|e] w1 Hr; [|intros e' [= <-]; by apply Hr].
  destruct (n =? 0); [|by intros e]. apply wp_bind. unfold RoleExists.
  eapply wp_lookup; [checks|apply total_scan1, scans_bool|..].
  - intros [] w2 e [= <-]; first [apply expected_ErrConcurrencyFailure|apply expected_ErrNotFound].
  - intros e w2 _ e' [= <-]. apply expected_ErrConcurrencyFailure.
Qed.

Lemma sqlc_AddToRole u n : safe (SqlcStore.AddToRole q u n).
Proof.
  intros w. unfold SqlcStore.AddToRole, GetRoleIDByName. apply wp_bind.
  eapply wp_lookup; [checks|apply total_scan1, scans_string|..].
  - intros rid w1. apply safe_only_err. eapply safe_Exec; [apply pool_typed|checks].
  - intros e w1 He. apply wp_ret. intros e' [= <-]. destruct (no_rows e) eqn:Hn; [apply expected_ErrRoleNotFound|].
    destruct He as [He| ->]; [by left|by rewrite no_rows_ErrNoRows in Hn].
Qed.

Lemma sqlc_RemoveFromRole u n : safe (SqlcStore.RemoveFromRole q u n).
Proof.
  intros w. unfold SqlcStore.RemoveFromRole, GetRoleIDByName. apply wp_bind.
  eapply wp_lookup; [checks|apply total_scan1, scans_string|..].
  - intros rid w1. apply safe_only_err. eapply safe_Exec; [apply pool_typed|checks].
  - intros e w1 He. apply wp_ret. intros e' He'. destruct (no_rows e) eqn:Hn; [done|]. injection He' as <-.
    destruct He as [He| ->]; [by left|by rewrite no_rows_ErrNoRows in Hn].
Qed.

Lemma sqlc_GetToken u p n : safe (SqlcStore.GetToken q u p n).
Proof.
  intros w. unfold SqlcStore.GetToken, GetUserToken. apply wp_bind.
  eapply wp_lookup; [checks|apply total_scan1, scans_string|..]; [by intros|].
  intros e w1 He. apply wp_ret. intros e' He'. destruct (no_rows e) eqn:Hn; [done|]. injection He' as <-.
  destruct He as [He| ->]; [by left|by rewrite no_rows_ErrNoRows in Hn].
Qed.

Lemma sqlc_FindByID id : safe (SqlcStore.FindByID q id).
Proof. one_safe. apply total_IdentityUser. Qed.

Lemma sqlc_FindByLogin p k : safe (SqlcStore.FindByLogin q p k).
Proof.
  intros w. unfold SqlcStore.FindByLogin, GetUserIDByLogin. apply wp_bind.
  eapply wp_lookup; [checks|apply total_scan1, scans_string|..].
  - intros uid w1. apply sqlc_FindByID.
  - intros e w1 He. apply wp_ret. intros e' [= <-]. apply (mapNotFound_expected _ e false). naive_solver.
Qed.

Lemma sqlc_ListUsers f : safe (SqlcStore.ListUsers q f).
Proof.
  apply safe_bind_ok.
  - eapply safe_one; [apply pool_typed|checks|checks|]. apply total_scans, total_scan1, scans_big.
  - intros n. apply safe_returns; [|done]. eapply safe_collect; [apply pool_typed|checks|].
    apply total_scans, total_IdentityUser.
Qed.

(** Inside a transaction: each claim's statement, then the commit. *)
Lemma sqlc_inTx (f : Queries (S := S) → M S (result unit)) :
  (∀ db, typed default_schema db_err db → safe (f db)) → safe (inTx q f).
Proof.
  intros Hf w. unfold inTx. apply wp_bind_ok. eapply wp_mono; [eapply typed_begin; done|].
  intros [tx|e] w1 Hr; [|intros e' [= <-]; by left]. destruct Hr as (Htx & Hc & Hb).
  apply wp_bind. eapply wp_mono; [by apply Hf|]. intros [[]|e] w2 Hr.
  - apply wp_bind. eapply wp_mono; [apply Hc|]. intros r w3 Hr3. apply wp_bind. eapply wp_mono; [apply Hb|].
    intros _ w4 _ e ->. by apply expected_db, Hr3.
  - apply wp_bind. eapply wp_mono; [apply Hb|]. intros _ w3 _ e' [= <-]. by apply Hr.
Qed.

Lemma sqlc_each_claim (f : Claim → M S (result unit)) l : (∀ c, safe (f c)) → safe (each_claim f l).
Proof.
  intros Hf. induction l as [|c l IH]; [by intros w e|]. by apply safe_bind_ok.
Qed.

Lemma sqlc_users_safe : users_safe SqlcStore.NewUserStore.
Proof.
  split; intros; cbn [us_Create us_Update us_Delete us_FindByID us_FindByName us_FindByEmail us_AddToRole
    us_RemoveFromRole us_GetRoles us_IsInRole us_GetUsersInRole us_GetClaims us_AddClaims us_RemoveClaims
    us_GetUsersForClaim us_GetToken us_SetToken us_RemoveToken us_AddLogin us_RemoveLogin us_GetLogins
    us_FindByLogin us_ListUsers us_PurgeAnonymousUsers SqlcStore.NewUserStore].
  - apply safe_pair. exec_safe.
  - apply sqlc_Update.
  - exec_safe.
  - apply sqlc_FindByID.
  - one_safe. apply total_IdentityUser.
  - unfold SqlcStore.FindByEmail. destruct (String.eqb e ""); [|one_safe; apply total_IdentityUser].
    intros w e' [= <-]. apply expected_ErrNotFound.
  - apply sqlc_AddToRole.
  - apply sqlc_RemoveFromRole.
  - eapply safe_collect; [apply pool_typed|checks|]. apply total_scans, total_scan1, scans_string.
  - eapply safe_one; [apply pool_typed|checks|checks|]. apply total_scans, total_scan1, scans_bool.
  - list_safe. apply total_IdentityUser.
  - list_safe. apply total_UserClaims.
  - apply sqlc_inTx. intros db Hdb. apply sqlc_each_claim. intros c. apply safe_only_err. eapply safe_Exec; [done|checks].
  - apply sqlc_inTx. intros db Hdb. apply sqlc_each_claim. intros c. apply safe_only_err. eapply safe_Exec; [done|checks].
  - list_safe. apply total_IdentityUser.
  - apply sqlc_GetToken.
  - exec_safe.
  - exec_safe.
  - exec_safe.
  - exec_safe.
  - list_safe. apply total_UserLogins.
  - apply sqlc_FindByLogin.
  - apply sqlc_ListUsers.
  - exec_safe.
Qed.

Lemma sqlc_roles_safe : roles_safe SqlcStore.NewRoleStore.
Proof.
  split; intros; cbn [rs_Create rs_Update rs_Delete rs_FindByID rs_FindByName rs_GetClaims rs_AddClaim
    rs_RemoveClaim SqlcStore.NewRoleStore].
  - apply safe_pair. exec_safe.
  - apply sqlc_Role_Update.
  - exec_safe.
  - one_safe. apply total_IdentityRole.
  - one_safe. apply total_IdentityRole.
  - list_safe. apply total_RoleClaims.
  - exec_safe.
  - exec_safe.
Qed.

Lemma sqlc_keys_safe : keys_safe SqlcStore.NewAPIKeyStore.
Proof.
  split; intros; cbn [ks_CreateAPIKey ks_GetActiveAPIKeyByHash ks_ListAPIKeysByUser ks_RevokeAPIKey
    ks_TouchAPIKeyLastUsed SqlcStore.NewAPIKeyStore].
  - apply safe_created. intros t. exec_safe.
  - one_safe. apply total_ApiKey.
  - list_safe. apply total_ApiKey.
  - exec_safe.
  - exec_safe.
Qed.

Lemma sqlc_sessions_safe : sessions_safe SqlcStore.NewRefreshTokenStore.
Proof.
  split; intros; cbn [ts_CreateRefreshToken ts_GetRefreshTokenBySession ts_UpdateRefreshToken
    ts_DeleteRefreshToken ts_DeleteUserRefreshTokens ts_DeleteExpiredRefreshTokens ts_ListUserRefreshTokens
    SqlcStore.NewRefreshTokenStore].
  - apply safe_created. intros t'. exec_safe.
  - one_safe. apply total_RefreshToken.
  - apply safe_bind_ok; [exec_safe|]. intros n w e. destruct (n =? 0); [|done]. intros [= <-].
    apply expected_ErrNotFound.
  - exec_safe.
  - exec_safe.
  - exec_safe.
  - list_safe. apply total_RefreshToken.
Qed.

Lemma sqlc_oauth_safe : oauth_safe SqlcStore.NewOAuthStore.
Proof.
  split; intros; cbn [os_CreateClient os_GetClient os_TouchClient os_DeleteStaleClients os_CreateCode os_GetCode
    os_MarkCodeUsed os_DeleteExpiredCodes os_GetConsent os_SaveConsent os_DeleteConsent os_CreateGrant os_GetGrant
    os_RotateGrant os_DeleteGrant os_DeleteUserClientGrants os_ListUserGrants os_DeleteExpiredGrants
    os_UseClientAssertion os_DeleteExpiredClientAssertions SqlcStore.NewOAuthStore].
  1,3-5,8,10-12,15,16,18,20: exec_safe.
  - apply safe_returns; [one_safe; apply total_OauthClient|]. intros r e.
    unfold toClient, unmarshal_list. destruct (Unmarshal_list _) as [l1 []], (Unmarshal_list _) as [l2 []];
      cbn; try done; intros [= <-]; apply expected_errJSON.
  - one_safe. apply total_OauthCode.
  - apply safe_one_row. exec_safe.
  - one_safe. apply total_OauthConsent.
  - one_safe. apply total_OauthGrant.
  - apply safe_one_row. exec_safe.
  - list_safe. apply total_OauthGrant.
  - apply safe_one_row. exec_safe.
Qed.
End sqlc.
End stores.

(** * The theorem *)

(** C39: every method of the pgx and sqlc stores, whatever its arguments, sends the database only
    statements that check against the schema of [Migrate], each with exactly the arguments its
    placeholders ask for, scans whatever rows of the selected types come back, and ends
    with no other error than the database's own, [ErrNotFound], [ErrRoleNotFound],
    [ErrConcurrencyFailure] or, for a list kept as malformed JSON, that of its decoder. *)
Theorem sql_stores_well_typed `{Oracle} `{UnicodeDB} `{Scanner, !ScannerLaws} {S : Type} (db_err : error → Prop)
    `{Pool S, !TypedPool default_schema db_err} :
  users_safe db_err (PgStore.NewUserStore []) ∧ roles_safe db_err (PgStore.NewRoleStore [])
  ∧ keys_safe db_err (PgOAuth.NewAPIKeyStore []) ∧ sessions_safe db_err (PgOAuth.NewRefreshTokenStore [])
  ∧ oauth_safe db_err (PgOAuth.NewOAuthStore [])
  ∧ users_safe db_err SqlcStore.NewUserStore ∧ roles_safe db_err SqlcStore.NewRoleStore
  ∧ keys_safe db_err SqlcStore.NewAPIKeyStore ∧ sessions_safe db_err SqlcStore.NewRefreshTokenStore
  ∧ oauth_safe db_err SqlcStore.NewOAuthStore.
Proof.
  split_and!; [by apply pgx_users_safe|by apply pgx_roles_safe|by apply pgx_keys_safe|by apply pgx_sessions_safe
    |by apply pgx_oauth_safe|by apply sqlc_users_safe|by apply sqlc_roles_safe|by apply sqlc_keys_safe
    |by apply sqlc_sessions_safe|by apply sqlc_oauth_safe].
Qed.
