(* ===== verification/PgNaming.v ===== *)
(** * Namings cannot change the statements

    The pgx store builds its SQL by interpolating the configured table names.  A statement
    with gaps for the names is read once: the tokens around the gaps, and where the gaps
    are.  Filled with names that [Naming.Validate] accepts, its tokens are those same tokens
    with each gap's name in its place. *)

From S2P Require Import Prelude GoStrings Errors World Naming Sql Pgx PgQueries PgStore.

Local Open Scope Z_scope.

(** ** Gaps *)

Inductive tab :=
  | TUsers | TRoles | TUserRoles | TUserClaims | TRoleClaims | TUserLogins | TUserTokens | TAPIKeys
  | TRefreshTokens | TOAuthClients | TOAuthCodes | TOAuthConsents | TOAuthGrants | TOAuthAssertions.

#[export] Instance tab_eq_dec : EqDecision tab.
Proof. solve_decision. Defined.

Definition all_tabs : list tab :=
  [TUsers; TRoles; TUserRoles; TUserClaims; TRoleClaims; TUserLogins; TUserTokens; TAPIKeys;
   TRefreshTokens; TOAuthClients; TOAuthCodes; TOAuthConsents; TOAuthGrants; TOAuthAssertions].

Definition name_of (t : tab) : TableNames → string :=
  match t with
  | TUsers => Users | TRoles => Roles | TUserRoles => UserRoles | TUserClaims => UserClaims
  | TRoleClaims => RoleClaims | TUserLogins => UserLogins | TUserTokens => UserTokens | TAPIKeys => APIKeys
  | TRefreshTokens => RefreshTokens | TOAuthClients => OAuthClients | TOAuthCodes => OAuthCodes
  | TOAuthConsents => OAuthConsents | TOAuthGrants => OAuthGrants | TOAuthAssertions => OAuthAssertions
  end.

(** A table, an index named after a table, or the schema. *)
Inductive gap :=
  | GTable (t : tab)
  | GIndex (prefix : string) (t : tab) (suffix : string)
  | GSchema.

#[export] Instance gap_eq_dec : EqDecision gap.
Proof. solve_decision. Defined.

Definition gap_text (n : Naming) (g : gap) : string :=
  match g with
  | GTable t => Qualify n (name_of t (Tables n))
  | GIndex p t s => ix p (name_of t (Tables n)) s
  | GSchema => Schema n
  end.

Definition word_token (s : string) : token := TWord (fold_word (str_bytes s)).

(** A table is addressed by its name, in the schema if one is configured. *)
Definition gap_tokens (n : Naming) (g : gap) : list token :=
  match g with
  | GTable t => (if negb (String.eqb (Schema n) "") then [word_token (Schema n); TSym "."] else [])
      ++ [word_token (name_of t (Tables n))]
  | GIndex p t s => [word_token (ix p (name_of t (Tables n)) s)]
  | GSchema => [word_token (Schema n)]
  end.

Inductive piece := Lit (s : string) | Gap (g : gap).

#[export] Instance piece_eq_dec : EqDecision piece.
Proof. solve_decision. Defined.

Definition piece_text (n : Naming) (p : piece) : string :=
  match p with Lit s => s | Gap g => gap_text n g end.
Definition fill (n : Naming) (ps : list piece) : string := foldr (λ p s, piece_text n p +:+ s) "" ps.

(** ** Reading around the gaps *)

Inductive gtoken := Tok (t : token) | Hole (g : gap).
Inductive gmode := Mode (m : lmode) | InGap (g : gap).

Definition is_word (s : string) : bool := forallb is_word_char (str_bytes s).
Definition starts_word (s : string) : bool :=
  match str_bytes s with c :: _ => is_word_char c && negb (is_digit_byte c) | [] => false end.

(** A gap begins where a token may, and only a character that ends a word may follow it. *)
Definition gstep (s : option (gmode * list gtoken)) (c : ascii) : option (gmode * list gtoken) :=
  '(m, toks) ← s;
  match m with
  | Mode m => '(m', t) ← lstep (Some (m, [])) c; Some (Mode m', toks ++ (Tok <$> t))
  | InGap g =>
    if is_word_char c || Ascii.eqb c "$" then None else
    '(m', t) ← lstart c []; Some (Mode m', toks ++ [Hole g] ++ (Tok <$> t))
  end.

Definition gap_ok (g : gap) : bool :=
  match g with GIndex p _ s => starts_word p && is_word p && is_word s | _ => true end.

Definition gpiece (s : option (gmode * list gtoken)) (p : piece) : option (gmode * list gtoken) :=
  match p with
  | Lit l => foldl gstep s (str_bytes l)
  | Gap g =>
    match s with
    | Some (Mode LStart, toks) => if gap_ok g then Some (InGap g, toks) else None
    | _ => None
    end
  end.

Definition gend (s : option (gmode * list gtoken)) : option (list gtoken) :=
  '(m, toks) ← s;
  match m with
  | Mode m => t ← lflush m; Some (toks ++ (Tok <$> t))
  | InGap g => Some (toks ++ [Hole g])
  end.

Definition glex (ps : list piece) : option (list gtoken) := gend (foldl gpiece (Some (Mode LStart, [])) ps).

Definition inst (n : Naming) (x : gtoken) : list token :=
  match x with Tok t => [t] | Hole g => gap_tokens n g end.

(** ** The reading is right for every valid naming *)

Definition valid_naming (n : Naming) : Prop :=
  (Schema n = "" ∨ isValidIdentifier (Schema n) = true)
  ∧ Forall (λ s, isValidIdentifier s = true) (all_names (Tables n)).

Lemma valid_table n t : valid_naming n → isValidIdentifier (name_of t (Tables n)) = true.
Proof. intros [_ Hn]. unfold all_names in Hn. rewrite !Forall_cons in Hn. destruct t; cbn; naive_solver. Qed.

Lemma is_word_spec s : is_word s = true ↔ Forall (λ c, is_word_char c = true) (str_bytes s).
Proof. unfold is_word. by rewrite forallb_forall, Forall_forall; setoid_rewrite list_elem_of_In. Qed.

Lemma lstart_app c toks : lstart c toks = (λ s : lstate, (s.1, toks ++ s.2)) <$> lstart c [].
Proof. unfold lstart. repeat (case_match; [cbn; by rewrite app_nil_r|]). done. Qed.

Lemma lnext_app m toks c : lnext m toks c = (λ s : lstate, (s.1, toks ++ s.2)) <$> lnext m [] c.
Proof.
  unfold lnext. destruct (lflush m) as [t|]; [|done]. cbn [mbind option_bind].
  rewrite lstart_app, (lstart_app c ([] ++ t)). destruct (lstart c []) as [[]|]; [|done]. cbn. by rewrite app_assoc.
Qed.

Lemma lstep_app m toks c : lstep (Some (m, toks)) c = (λ s : lstate, (s.1, toks ++ s.2)) <$> lstep (Some (m, [])) c.
Proof.
  unfold lstep. cbn [mbind option_bind].
  destruct m; repeat case_match; try (rewrite lnext_app; reflexivity); try (cbn; by rewrite app_nil_r); try done.
  apply lstart_app.
Qed.

Lemma word_char_cases c : is_word_char c = true → is_digit_byte c = false → is_letter c = true ∧ is_blank c = false.
Proof.
  unfold is_word_char, is_digit_byte, is_letter, is_blank. intros Hw Hd. rewrite Hd, orb_false_r in Hw. split; [done|].
  apply not_true_is_false. rewrite !orb_true_iff, !in_range_spec, !Z.eqb_eq in *. lia.
Qed.

Lemma lrun_word w c toks : Forall (λ c, is_word_char c = true) w → lrun (Some (LWord c, toks)) w = Some (LWord (c ++ w), toks).
Proof.
  intros Hw. revert c. induction Hw as [|x w Hx Hw IH]; intros c; cbn; [by rewrite app_nil_r|].
  rewrite Hx. cbn. by rewrite IH, <-app_assoc.
Qed.

Lemma lrun_ident s toks : starts_word s = true → is_word s = true →
  lrun (Some (LStart, toks)) (str_bytes s) = Some (LWord (str_bytes s), toks).
Proof.
  rewrite is_word_spec. unfold starts_word. intros Hs Hw. destruct (str_bytes s) as [|c w]; [done|].
  apply andb_prop in Hs as [Hc Hd%negb_true_iff]. destruct (word_char_cases c Hc Hd) as [Hl Hb].
  cbn. unfold lstart. rewrite Hb, Hl. apply (lrun_word w [c]). by inversion Hw.
Qed.

Lemma valid_word s : isValidIdentifier s = true → starts_word s = true ∧ is_word s = true.
Proof.
  intros (_ & Hw & c & Hc & Hd)%isValidIdentifier_spec. rewrite is_word_spec. split; [|done]. unfold starts_word.
  destruct (str_bytes s) as [|c' l]; [done|]. injection Hc as <-. apply Forall_cons in Hw as [-> _]. by rewrite Hd.
Qed.

Lemma lrun_app s l1 l2 : lrun s (l1 ++ l2) = lrun (lrun s l1) l2.
Proof. apply foldl_app. Qed.

(** The name in a gap is read as one word, after its schema. *)
Lemma lrun_gap n g toks : valid_naming n → gap_ok g = true → (g = GSchema → Schema n ≠ "") →
  ∃ w t, lrun (Some (LStart, toks)) (str_bytes (gap_text n g)) = Some (LWord w, toks ++ t)
    ∧ gap_tokens n g = t ++ [TWord (fold_word w)].
Proof.
  intros Hn Hok Hs. destruct g as [t|p t s|]; cbn [gap_text gap_tokens].
  - pose proof (valid_table n t Hn) as Ht. destruct (valid_word _ Ht) as [H1 H2].
    exists (str_bytes (name_of t (Tables n))). unfold Qualify. destruct (String.eqb_spec (Schema n) ""); cbn [negb].
    + exists []. rewrite lrun_ident by done. by rewrite app_nil_r.
    + exists [word_token (Schema n); TSym "."]. split; [|done].
      destruct Hn as [[?|Hsch] _]; [done|]. destruct (valid_word _ Hsch) as [H3 H4].
      rewrite !str_bytes_app, !lrun_app, lrun_ident by done.
      change (lrun (Some (LWord (str_bytes (Schema n)), toks)) (str_bytes ".")) with
        (Some (LSym "."%char, toks ++ [word_token (Schema n)])).
      destruct (str_bytes (name_of t (Tables n))) as [|c l] eqn:Hl; [by unfold starts_word in H1; rewrite Hl in H1|].
      unfold starts_word in H1. rewrite Hl in H1. apply andb_prop in H1 as [Hc Hd%negb_true_iff].
      destruct (word_char_cases c Hc Hd) as [Hlet Hb]. unfold lrun. cbn [foldl].
      assert (lstep (Some (LSym "."%char, toks ++ [word_token (Schema n)])) c
        = Some (LWord [c], toks ++ [word_token (Schema n); TSym "."])) as ->.
      { cbn [lstep mbind option_bind]. assert (double_symbol "." c = None) as ->.
        { unfold double_symbol. by destruct c as [[] [] [] [] [] [] [] []]. }
        unfold lnext. cbn [lflush mbind option_bind]. unfold lstart. rewrite Hb, Hlet. by rewrite <-app_assoc. }
      apply (lrun_word l [c]). rewrite is_word_spec, Hl in H2. by inversion H2.
  - pose proof (valid_table n t Hn) as Ht. destruct (valid_word _ Ht) as [_ H2]. cbn in Hok.
    apply andb_prop in Hok as [[Hp1 Hp2]%andb_prop Hs2].
    exists (str_bytes (ix p (name_of t (Tables n)) s)), []. rewrite app_nil_r. split; [|done]. apply lrun_ident.
    + revert Hp1. unfold starts_word, ix. rewrite str_bytes_app. by destruct (str_bytes p).
    + apply is_word_spec in Hp2, H2, Hs2. apply is_word_spec. unfold ix. rewrite !str_bytes_app.
      repeat (apply Forall_app; split); try done; by repeat constructor.
  - destruct Hn as [[?|Hsch] _]; [naive_solver|]. destruct (valid_word _ Hsch) as [H3 H4].
    exists (str_bytes (Schema n)), []. rewrite app_nil_r. split; [|done]. by apply lrun_ident.
Qed.

Section reading.
Context (n : Naming) (Hn : valid_naming n).

Definition insts (toks : list gtoken) : list token := toks ≫= inst n.

(** What the lexer of the filled text is doing when the reading is at [s]. *)
Definition sim (s : gmode * list gtoken) (l : lstate) : Prop :=
  match s.1 with
  | Mode m => l = (m, insts s.2)
  | InGap g => ∃ w t, l = (LWord w, insts s.2 ++ t) ∧ gap_tokens n g = t ++ [TWord (fold_word w)]
  end.

Lemma insts_app l1 l2 : insts (l1 ++ l2) = insts l1 ++ insts l2.
Proof. apply bind_app. Qed.
Lemma insts_cons x l : insts (x :: l) = inst n x ++ insts l.
Proof. done. Qed.
Lemma insts_toks (t : list token) : insts (Tok <$> t) = t.
Proof. unfold insts. induction t as [|x t IH]; [done|]. cbn. by rewrite IH. Qed.

Lemma sim_step s l c s' : sim s l → gstep (Some s) c = Some s' → ∃ l', lstep (Some l) c = Some l' ∧ sim s' l'.
Proof.
  destruct s as [[m|g] toks]; unfold sim; cbn [fst snd gstep mbind option_bind].
  - intros ->. destruct (lstep (Some (m, [])) c) as [[m' t]|] eqn:Hst; [|done]. intros [= <-].
    rewrite lstep_app, Hst. eexists. split; [done|].
    cbn [sim fst snd]. by rewrite insts_app, insts_toks.
  - intros (w & t & -> & Hg). destruct (is_word_char c || Ascii.eqb c "$") eqn:Hc; [done|].
    destruct (lstart c []) as [[m' t']|] eqn:Hst; [|done]. intros [= <-]. cbn [lstep mbind option_bind].
    rewrite Hc. unfold lnext. cbn [lflush mbind option_bind]. rewrite lstart_app, Hst. eexists. split; [done|].
    cbn [sim fst snd]. rewrite insts_app, insts_cons, insts_toks. cbn [inst]. rewrite Hg, <-!app_assoc. reflexivity.
Qed.

Lemma sim_lit s l t s' : sim s l → foldl gstep (Some s) t = Some s' → ∃ l', lrun (Some l) t = Some l' ∧ sim s' l'.
Proof.
  revert s l. induction t as [|c t IH]; intros s l Hsim; cbn [foldl lrun]; [intros [= <-]; eauto|].
  destruct (gstep (Some s) c) as [s1|] eqn:Hst.
  - destruct (sim_step _ _ _ _ Hsim Hst) as (l1 & -> & H1). by apply IH.
  - intros Hf. exfalso. clear -Hf. induction t; [done|]. by apply IHt.
Qed.

(** No schema is named when there is none. *)
Definition has_gap (p : piece) : Prop := p = Gap GSchema → Schema n ≠ "".

Lemma sim_piece s l p s' : has_gap p → sim s l → gpiece (Some s) p = Some s' →
  ∃ l', lrun (Some l) (str_bytes (piece_text n p)) = Some l' ∧ sim s' l'.
Proof.
  intros Hp Hsim. destruct p as [t|g]; [by apply sim_lit|]. cbn [gpiece piece_text].
  destruct s as [[[]|] toks]; try done. destruct (gap_ok g) eqn:Hok; [|done]. intros [= <-].
  unfold sim in Hsim. cbn in Hsim. subst l.
  destruct (lrun_gap n g (insts toks) Hn Hok) as (w & t & Hrun & Hg); [intros ->; by apply Hp|].
  eexists. split; [exact Hrun|]. exists w, t. split; [done|exact Hg].
Qed.

Lemma gpiece_None ps : foldl gpiece None ps = None.
Proof.
  induction ps as [|p ps IH]; [done|]. destruct p as [t|]; cbn [foldl gpiece]; [|done].
  assert (foldl gstep None (str_bytes t) = None) as -> by by induction (str_bytes t). done.
Qed.

Lemma sim_pieces ps s l s' : Forall has_gap ps → sim s l → foldl gpiece (Some s) ps = Some s' →
  ∃ l', lrun (Some l) (str_bytes (fill n ps)) = Some l' ∧ sim s' l'.
Proof.
  intros Hps. revert s l. induction Hps as [|p ps Hp Hps IH]; intros s l Hsim; [cbn; intros [= <-]; eauto|].
  cbn [foldl]. change (fill n (p :: ps)) with (piece_text n p +:+ fill n ps).
  rewrite str_bytes_app, lrun_app. destruct (gpiece (Some s) p) as [s1|] eqn:Hst; [|by rewrite gpiece_None].
  destruct (sim_piece _ _ _ _ Hp Hsim Hst) as (l1 & -> & H1). by apply IH.
Qed.

(** The tokens of the filled text are those around the gaps and those of the names. *)
Lemma glex_lex ps toks : Forall has_gap ps → glex ps = Some toks → lex (fill n ps) = Some (insts toks).
Proof.
  unfold glex, lex. intros Hps Hg.
  destruct (foldl gpiece (Some (Mode LStart, [])) ps) as [[m ts]|] eqn:Hf; [|done].
  destruct (sim_pieces ps (Mode LStart, []) (LStart, []) _ Hps eq_refl Hf) as (l & Hl & Hsim). unfold sim in Hsim. cbn in Hsim.
  etransitivity; [exact (f_equal lend Hl)|]. clear Hl.
  cbn in Hg. destruct m as [m|g].
  - subst l. cbn. destruct (lflush m) as [t|]; [|done]. injection Hg as <-. by rewrite insts_app, insts_toks.
  - destruct Hsim as (w & t & -> & Ht). injection Hg as <-. rewrite insts_app. unfold insts at 2. cbn.
    by rewrite app_nil_r, Ht, <-app_assoc.
Qed.
End reading.

(** ** Formats *)

(** A format with its verbs replaced by pieces. *)
Fixpoint split_format (lit : string) (format : string) (args : list piece) : list piece :=
  match format with
  | EmptyString => [Lit lit]
  | String c f =>
    match f with
    | String c' f' =>
      if Ascii.eqb c "%" && Ascii.eqb c' "s" then
        match args with
        | a :: args => Lit lit :: a :: split_format "" f' args
        | [] => Lit lit :: Lit "%!s(MISSING)" :: split_format "" f' []
        end
      else split_format (lit +:+ String c "") f args
    | EmptyString => [Lit (lit +:+ String c "")]
    end
  end.

Lemma str_app_assoc s t u : (s +:+ t) +:+ u = s +:+ t +:+ u.
Proof. induction s as [|c s IH]; [done|]. exact (f_equal (String c) IH). Qed.
Lemma str_app_nil_l s : "" +:+ s = s.
Proof. reflexivity. Qed.
Lemma str_app_nil_r s : s +:+ "" = s.
Proof. induction s as [|c s IH]; [done|]. exact (f_equal (String c) IH). Qed.

Lemma fill_split n lit format args :
  fill n (split_format lit format args) = lit +:+ Sprintf format (piece_text n <$> args).
Proof.
  assert (∀ k lit format args, (String.length format < k)%nat →
    fill n (split_format lit format args) = lit +:+ Sprintf format (piece_text n <$> args)) as IH; [|eauto].
  clear. induction k as [|k IH]; [lia|]. intros lit [|c f] args Hl; [done|]. cbn [String.length] in Hl.
  cbn [split_format Sprintf]. destruct f as [|c' f']; [cbn; by rewrite str_app_nil_r|].
  destruct (Ascii.eqb c "%" && Ascii.eqb c' "s").
  - cbn [String.length] in Hl. destruct args as [|a args].
    + change (lit +:+ "%!s(MISSING)" +:+ fill n (split_format "" f' []) =
        lit +:+ "%!s(MISSING)" +:+ Sprintf f' []). by rewrite IH by lia.
    + change (lit +:+ piece_text n a +:+ fill n (split_format "" f' args) =
        lit +:+ piece_text n a +:+ Sprintf f' (piece_text n <$> args)). by rewrite IH by lia.
  - rewrite IH by lia. by rewrite str_app_assoc.
Qed.

(** ** Another layout of the same statement *)

(** The indexes of the DDL. *)
Definition all_indexes : list gap :=
  [GIndex "ux" TUsers "uname"; GIndex "ix" TUsers "email"; GIndex "ix" TUsers "guest"; GIndex "ux" TRoles "name";
   GIndex "ix" TUserClaims "user"; GIndex "ix" TRoleClaims "role"; GIndex "ix" TUserLogins "user";
   GIndex "ux" TAPIKeys "hash"; GIndex "ix" TAPIKeys "user"; GIndex "ux" TRefreshTokens "hash";
   GIndex "ix" TRefreshTokens "user"; GIndex "ix" TRefreshTokens "exp"; GIndex "ix" TOAuthCodes "user";
   GIndex "ix" TOAuthCodes "exp"; GIndex "ix" TOAuthGrants "user"; GIndex "ix" TOAuthGrants "client";
   GIndex "ix" TOAuthGrants "exp"; GIndex "ix" TOAuthAssertions "exp"].
Definition all_gaps : list gap := (GTable <$> all_tabs) ++ all_indexes.

(** A name of the default layout becomes that of [n]; every other token stays. *)
Definition retable (n : Naming) (t : token) : list token :=
  match list_find (λ g, [t] = gap_tokens DefaultNaming g) all_gaps with
  | Some (_, g) => gap_tokens n g
  | None => [t]
  end.

Definition retables (n : Naming) (s0 s : string) : Prop :=
  ∃ toks, lex s0 = Some toks ∧ lex s = Some (toks ≫= retable n).

Definition default_names : list (list token) := Eval vm_compute in gap_tokens DefaultNaming <$> all_gaps.

(** The tokens around the gaps are none of the names, and the gaps are known. *)
Definition plain (x : gtoken) : bool :=
  match x with
  | Tok t => bool_decide ([t] ∉ default_names)
  | Hole g => bool_decide (g ∈ all_gaps)
  end.

(** Every gap is found by its name in the default layout. *)
Definition found_by_name (g : gap) : bool :=
  match gap_tokens DefaultNaming g with
  | [t] => bool_decide (snd <$> list_find (λ g, [t] = gap_tokens DefaultNaming g) all_gaps = Some g)
  | _ => false
  end.

Lemma gap_found g : g ∈ all_gaps → ∃ t, gap_tokens DefaultNaming g = [t]
  ∧ snd <$> list_find (λ g, [t] = gap_tokens DefaultNaming g) all_gaps = Some g.
Proof.
  assert (forallb found_by_name all_gaps = true) as Hall by (vm_compute; reflexivity).
  rewrite forallb_forall in Hall. intros Hg%list_elem_of_In. specialize (Hall g Hg). unfold found_by_name in Hall.
  destruct (gap_tokens DefaultNaming g) as [|t []]; try done. exists t. split; [done|]. by apply bool_decide_eq_true in Hall.
Qed.

Lemma retable_plain n x : plain x = true → inst DefaultNaming x ≫= retable n = inst n x.
Proof.
  destruct x as [t|g]; cbn [plain inst]; intros Hx%bool_decide_eq_true.
  - cbn [mbind list_bind]. rewrite app_nil_r. unfold retable. destruct (list_find _ _) as [[i g]|] eqn:Hf; [|done].
    apply list_find_Some in Hf as (Hi & Heq & _). exfalso. apply Hx. rewrite Heq.
    change default_names with (gap_tokens DefaultNaming <$> all_gaps).
    apply list_elem_of_fmap_2, (list_elem_of_lookup_2 _ _ _ Hi).
  - destruct (gap_found g Hx) as (t & -> & Hf). cbn [mbind list_bind]. rewrite app_nil_r. unfold retable.
    destruct (list_find _ _) as [[i g']|]; [|done]. by injection Hf as ->.
Qed.

(** The pieces read well, and are the same statement in every layout. *)
Definition reads (ps : list piece) : bool :=
  bool_decide (Gap GSchema ∉ ps) && if glex ps is Some toks then forallb plain toks else false.

Lemma insts_retable n toks : forallb plain toks = true → insts DefaultNaming toks ≫= retable n = insts n toks.
Proof.
  unfold insts. induction toks as [|x toks IH]; [done|]. cbn [forallb]. intros [Hx Hok]%andb_prop.
  cbn [mbind list_bind]. rewrite bind_app. f_equal; [by apply retable_plain|by apply IH].
Qed.

Lemma default_valid : valid_naming DefaultNaming.
Proof. split; [by left|repeat constructor]. Qed.

Lemma no_schema ps n : Gap GSchema ∉ ps → Forall (has_gap n) ps.
Proof. intros Hps. apply Forall_forall. by intros p Hp ->. Qed.

Lemma retables_pieces n ps : valid_naming n → reads ps = true → retables n (fill DefaultNaming ps) (fill n ps).
Proof.
  intros Hn [Hps%bool_decide_eq_true Hok]%andb_prop. destruct (glex ps) as [toks|] eqn:Hg; [|done].
  exists (insts DefaultNaming toks). rewrite (insts_retable n toks Hok).
  split; (apply glex_lex; [|by apply no_schema|done]); [apply default_valid|done].
Qed.

Lemma retables_Sprintf n format args l0 l : valid_naming n → l0 = piece_text DefaultNaming <$> args →
  l = piece_text n <$> args → reads (split_format "" format args) = true →
  retables n (Sprintf format l0) (Sprintf format l).
Proof.
  intros Hn -> -> Hok.
  assert (∀ n, Sprintf format (piece_text n <$> args) = fill n (split_format "" format args)) as Hf
    by (intros m; symmetry; exact (fill_split m "" format args)).
  rewrite !Hf. by apply retables_pieces.
Qed.

(** ** All statements *)

Definition statements (n : Naming) : list string :=
  all_queries (buildQueries n) ++ all_oauthQueries (buildOAuthQueries n)
  ++ all_apiKeyQueries (buildAPIKeyQueries n) ++ all_refreshTokenQueries (buildRefreshTokenQueries n).

(** The arguments of a format, as pieces. *)
Ltac reify_table t :=
  lazymatch t with
  | Users => TUsers | Roles => TRoles | UserRoles => TUserRoles | UserClaims => TUserClaims
  | RoleClaims => TRoleClaims | UserLogins => TUserLogins | UserTokens => TUserTokens | APIKeys => TAPIKeys
  | RefreshTokens => TRefreshTokens | OAuthClients => TOAuthClients | OAuthCodes => TOAuthCodes
  | OAuthConsents => TOAuthConsents | OAuthGrants => TOAuthGrants | OAuthAssertions => TOAuthAssertions
  end.
Ltac reify_args n args :=
  lazymatch args with
  | [] => constr:(@nil piece)
  | Qualify n (?f (Tables n)) :: ?l =>
      let t := reify_table f in let r := reify_args n l in constr:(Gap (GTable t) :: r)
  | ix ?p (?f (Tables n)) ?s :: ?l =>
      let t := reify_table f in let r := reify_args n l in constr:(Gap (GIndex p t s) :: r)
  | ?s :: ?l => let r := reify_args n l in constr:(Lit s :: r)
  end.
Ltac retable_statement n Hn :=
  lazymatch goal with
  | |- retables n _ (Sprintf ?f ?args) =>
      let ps := reify_args n args in apply (retables_Sprintf n f ps _ _ Hn eq_refl eq_refl); vm_compute; reflexivity
  end.

Lemma statements_retabled n : valid_naming n → Forall2 (retables n) (statements DefaultNaming) (statements n).
Proof.
  intros Hn. cbv beta iota zeta delta [statements app all_queries all_oauthQueries all_apiKeyQueries
    all_refreshTokenQueries buildQueries buildOAuthQueries buildAPIKeyQueries buildRefreshTokenQueries
    createUser updateUser userExists deleteUser findUserByID findUserByName findUserByEmail
    countUsers listUsers purgeAnonymous addToRole removeFromRole getRoles isInRole roleExistsByName
    usersInRole usersForClaim getUserClaims addUserClaim removeUserClaim getToken setToken
    removeToken addLogin removeLogin getLogins findByLogin createRole updateRole deleteRole
    roleExists findRoleByID findRoleByName getRoleClaims addRoleClaim removeRoleClaim createClient
    getClient touchClient deleteStaleClients createCode getCode markCodeUsed deleteExpiredCodes
    getConsent saveConsent deleteConsent createGrant getGrant rotateGrant deleteGrant
    deleteUserClientGrants listUserGrants deleteExpiredGrants useAssertion deleteExpiredAssertions
    ak_create ak_getActiveByHash ak_listByUser ak_revoke ak_touch rt_create rt_getBySession
    rt_update rt_del rt_delByUser rt_delExpired rt_listByUser].
  repeat (apply Forall2_cons_2; [retable_statement n Hn|]). by apply Forall2_nil_2.
Qed.

(** ** The schema *)

(** A text that ends between tokens. *)
Definition retables_lines (n : Naming) (s0 s : string) : Prop :=
  ∃ toks, lrun (Some (LStart, [])) (str_bytes s0) = Some (LStart, toks)
    ∧ lrun (Some (LStart, [])) (str_bytes s) = Some (LStart, toks ≫= retable n).

Lemma lrun_None l : lrun None l = None.
Proof. by induction l. Qed.

Lemma lrun_shift m toks l : lrun (Some (m, toks)) l = (λ s : lstate, (s.1, toks ++ s.2)) <$> lrun (Some (m, [])) l.
Proof.
  revert m toks. induction l as [|c l IH]; intros m toks; cbn [lrun foldl]; [cbn; by rewrite app_nil_r|].
  rewrite lstep_app. destruct (lstep (Some (m, [])) c) as [[m' t]|]; cbn [fmap option_fmap option_map fst snd].
  - etransitivity; [apply IH|]. etransitivity; [|symmetry; apply (f_equal (fmap _)), IH].
    destruct (lrun _ l) as [[]|]; [|done]. cbn. by rewrite app_assoc.
  - etransitivity; [apply lrun_None|]. symmetry. exact (f_equal (fmap _) (lrun_None l)).
Qed.

Lemma retables_lines_app n s0 s t0 t :
  retables_lines n s0 s → retables_lines n t0 t → retables_lines n (s0 +:+ t0) (s +:+ t).
Proof.
  intros (toks & H1 & H2) (toks' & H3 & H4). exists (toks ++ toks').
  rewrite !str_bytes_app, !lrun_app, H1, H2, (lrun_shift LStart toks), (lrun_shift LStart (toks ≫= _)), H3, H4.
  cbn. by rewrite bind_app.
Qed.

Definition reads_lines (ps : list piece) : bool :=
  bool_decide (Gap GSchema ∉ ps) &&
  if foldl gpiece (Some (Mode LStart, [])) ps is Some (Mode LStart, toks) then forallb plain toks else false.

Lemma lines_pieces n ps toks : valid_naming n → Forall (has_gap n) ps →
  foldl gpiece (Some (Mode LStart, [])) ps = Some (Mode LStart, toks) →
  lrun (Some (LStart, [])) (str_bytes (fill n ps)) = Some (LStart, insts n toks).
Proof.
  intros Hn Hps Hf. destruct (sim_pieces n Hn ps (Mode LStart, []) (LStart, []) _ Hps eq_refl Hf) as (l & Hl & Hsim).
  unfold sim in Hsim. cbn in Hsim. by subst l.
Qed.

Lemma retables_lines_Sprintf n format args l0 l : valid_naming n → l0 = piece_text DefaultNaming <$> args →
  l = piece_text n <$> args → reads_lines (split_format "" format args) = true →
  retables_lines n (Sprintf format l0) (Sprintf format l).
Proof.
  intros Hn -> -> [Hps%bool_decide_eq_true Hok]%andb_prop.
  assert (∀ n, Sprintf format (piece_text n <$> args) = fill n (split_format "" format args)) as Hf
    by (intros m; symmetry; exact (fill_split m "" format args)).
  rewrite !Hf. destruct (foldl gpiece _ _) as [[[[]|] toks]|] eqn:Hg; try done.
  exists (insts DefaultNaming toks). rewrite (insts_retable n toks Hok).
  split; (apply lines_pieces; [|by apply no_schema|done]); [apply default_valid|done].
Qed.

Ltac retable_table n Hn :=
  lazymatch goal with
  | |- retables_lines n _ (Sprintf ?f ?args) =>
      let ps := reify_args n args in
      apply (retables_lines_Sprintf n f ps _ _ Hn eq_refl eq_refl); vm_compute; reflexivity
  end.

Lemma tables_retabled n : valid_naming n → Forall2 (retables_lines n) (ddl_tables DefaultNaming) (ddl_tables n).
Proof.
  intros Hn. cbv beta zeta delta [ddl_tables ddl_users ddl_roles ddl_user_roles ddl_user_claims ddl_role_claims
    ddl_user_logins ddl_user_tokens ddl_api_keys ddl_refresh_tokens ddl_oauth_clients ddl_oauth_codes
    ddl_oauth_consents ddl_oauth_grants ddl_oauth_assertions].
  repeat (apply Forall2_cons_2; [retable_table n Hn|]). by apply Forall2_nil_2.
Qed.

(** The statement that creates the schema, when there is one. *)
Definition schema_tokens (n : Naming) : list token :=
  if negb (String.eqb (Schema n) "") then
    [TWord "create"; TWord "schema"; TWord "if"; TWord "not"; TWord "exists"; word_token (Schema n); TSym ";"]
  else [].

Lemma schema_lines n : valid_naming n →
  lrun (Some (LStart, [])) (str_bytes (ddl_schema n)) = Some (LStart, schema_tokens n).
Proof.
  intros Hn. unfold ddl_schema, schema_tokens. destruct (String.eqb_spec (Schema n) "") as [|Hne]; [done|]. cbn [negb].
  change [Schema n] with (piece_text n <$> [Gap GSchema]).
  rewrite <-(str_app_nil_l (Sprintf _ _)), <-fill_split.
  rewrite (lines_pieces n _ [Tok (TWord "create"); Tok (TWord "schema"); Tok (TWord "if"); Tok (TWord "not");
    Tok (TWord "exists"); Hole GSchema; Tok (TSym ";")] Hn); [done| |vm_compute; reflexivity].
  apply Forall_forall. by intros p _ _.
Qed.

Definition tables_text (n : Naming) : string := foldr (λ t b, t +:+ b) "" (ddl_tables n).

Lemma tables_text_retabled n : valid_naming n → retables_lines n (tables_text DefaultNaming) (tables_text n).
Proof.
  intros Hn. unfold tables_text.
  induction (tables_retabled n Hn) as [|??? ? Ht _ IH]; [by exists []|]. by apply retables_lines_app.
Qed.

Lemma foldr_cons_eq {A B} (f : A → B → B) e a l : foldr f e (a :: l) = f a (foldr f e l).
Proof. reflexivity. Qed.
Lemma buildDDL_text n : buildDDL n = ddl_schema n +:+ tables_text n.
Proof. unfold buildDDL, tables_text. rewrite foldr_cons_eq. reflexivity. Qed.

Lemma ddl_retabled n : valid_naming n →
  ∃ toks, lex (buildDDL DefaultNaming) = Some toks ∧ lex (buildDDL n) = Some (schema_tokens n ++ (toks ≫= retable n)).
Proof.
  intros Hn. destruct (tables_text_retabled n Hn) as (toks & H1 & H2). exists toks. unfold lex.
  rewrite !buildDDL_text, !str_bytes_app, !lrun_app, (schema_lines n Hn), (schema_lines DefaultNaming default_valid).
  rewrite (lrun_shift LStart (schema_tokens DefaultNaming)), H1, (lrun_shift LStart (schema_tokens n)), H2.
  split; exact (f_equal Some (app_nil_r _)).
Qed.

(** ** Properties *)

(** C40: the names a store is configured with cannot change its statements.  When
    [Naming.Validate] accepts them, every statement and the whole DDL have exactly the
    tokens they have in the default layout, but for each table and index name, which is the
    configured one, schema and all; [Migrate] sends that DDL and nothing else, and with any
    other name it sends nothing and returns an error wrapping [ErrInvalidIdentifier]. *)
Theorem names_cannot_inject `{Oracle} `{UnicodeDB} {S} `{Pool S} (opts : list Option) (w : World S) :
  let n := resolve opts in
  (valid_naming n →
    Forall2 (retables n) (statements DefaultNaming) (statements n)
    ∧ (∃ toks, lex (buildDDL DefaultNaming) = Some toks
        ∧ lex (buildDDL n) = Some (schema_tokens n ++ (toks ≫= retable n)))
    ∧ ∀ Q, (∀ w', w_store w' = w_store w → w_out w' = w_out w → wp (only_err (Exec pool (buildDDL n) [])) Q w') →
        wp (Migrate opts) Q w)
  ∧ (¬ valid_naming n → wp (Migrate opts) (λ r w', w_store w' = w_store w ∧ w_out w' = w_out w
      ∧ ∃ e, r = Err e ∧ ErrorsIs e ErrInvalidIdentifier = true) w).
Proof.
  intros n.
  assert (wp (Naming_Validate n) (λ r w', w_store w' = w_store w ∧ w_out w' = w_out w ∧
    ((r = Ok tt ∧ valid_naming n)
     ∨ (∃ e, r = Err e ∧ ErrorsIs e ErrInvalidIdentifier = true ∧ ¬ valid_naming n))) w) as Hv.
  { eapply wp_mono; [apply Naming_Validate_sound|]. cbv beta zeta. intros r w' (Hs & Ho & Hr).
    do 2 (split; [done|]). unfold valid_naming.
    assert (∀ P Q : Prop, P ↔ Q → (r = Ok tt ∧ P ∨ (∃ e, r = Err e ∧ ErrorsIs e ErrInvalidIdentifier = true ∧ ¬ P)) →
      r = Ok tt ∧ Q ∨ (∃ e, r = Err e ∧ ErrorsIs e ErrInvalidIdentifier = true ∧ ¬ Q)) as Hiff by naive_solver.
    revert Hr. apply Hiff. rewrite isValidIdentifier_spec. do 2 f_equiv. intros s. by rewrite isValidIdentifier_spec. }
  split; intros Hn.
  - split_and!; [by apply statements_retabled|by apply ddl_retabled|]. intros Q HQ. apply wp_bind_ok.
    eapply wp_mono; [exact Hv|]. intros r w1 (Hs & Ho & [[-> _]|(e & _ & _ & Hinv)]); [by apply HQ|done].
  - apply wp_bind_ok. eapply wp_mono; [exact Hv|].
    intros r w1 (Hs & Ho & [[_ ?]|(e & -> & He & _)]); [done|]. eauto.
Qed.
