(* ===== verification/SqlSem.v ===== *)
(** * What statements do

    The tables of a database and the effect of the statements of [Sql] on them, as far as
    PostgreSQL's documentation determines it: three-valued conditions, insertions with their
    conflict clauses, updates and deletions with the rows they count, and queries as the bag
    of rows they select.  Tables are read from a schema ([SqlSchema]).  What is left open,
    the clock, casts, cascades and conflict clauses on a table with a second key, is
    [Unspecified]. *)

From S2P Require Import Prelude GoStrings Errors World Sql Pgx SqlSchema.

Local Open Scope Z_scope.

(** ** Effects *)

(** A statement that must be refused [Fails]; about an [Unspecified] one nothing is said. *)
Inductive effect (A : Type) := Unspecified | Fails | Does (a : A).
Arguments Unspecified {A}.
Arguments Fails {A}.
Arguments Does {A} a.

#[export] Instance effect_ret : MRet effect := λ A a, Does a.
#[export] Instance effect_bind : MBind effect := λ A B f x,
  match x with Does a => f a | Fails => Fails | Unspecified => Unspecified end.

Definition given {A} (o : option A) : effect A := match o with Some a => Does a | None => Unspecified end.
Definition is_Does {A} (x : effect A) : bool := match x with Does _ => true | _ => false end.
Definition result_of {A} (a : A) (x : effect A) : A := match x with Does a => a | _ => a end.

(** ** Tables *)

#[export] Instance value_countable : Countable value.
Proof.
  refine (inj_countable'
    (λ v, match v with VNull => inl () | VText s => inr (inl (inl s)) | VBool b => inr (inl (inr b))
      | VInt z => inr (inr (inl z)) | VTime t => inr (inr (inr (inl t))) | VJson s => inr (inr (inr (inr s))) end)
    (λ x, match x with inl _ => VNull | inr (inl (inl s)) => VText s | inr (inl (inr b)) => VBool b
      | inr (inr (inl z)) => VInt z | inr (inr (inr (inl t))) => VTime t | inr (inr (inr (inr s))) => VJson s end) _).
  by intros [].
Defined.

(** A table's rows by their primary key; a row's values in the order of its columns. *)
Abbreviation database := (gmap (string * string) (gmap (list value) row)) (only parsing).

Definition column_index (tb : table) (c : string) : option nat :=
  fst <$> list_find (λ x, col_name x = c) (tbl_cols tb).
Definition row_get (tb : table) (r : row) (c : string) : option value := i ← column_index tb c; r !! i.
Definition key_of (tb : table) (r : row) : option (list value) := mapM (row_get tb r) (tbl_pk tb).

(** A table with its rows. *)
Definition open_table (sch : schema) (d : database) (t : string * string) : effect (table * gmap (list value) row) :=
  tb ← given (lookup_table sch t); m ← given (d !! t); Does (tb, m).

(** ** Expressions *)

(** Comparisons of values, apart from those of the evaluation itself. *)
Definition text_eqb : string → string → bool := String.eqb.
Definition int_ltb : Z → Z → bool := Z.ltb.

Definition eq_values (v1 v2 : value) : effect value :=
  match v1, v2 with
  | VNull, _ | _, VNull => Does VNull
  | VText a, VText b => Does (VBool (text_eqb a b))
  | VBool a, VBool b => Does (VBool (Bool.eqb a b))
  | VInt a, VInt b | VTime a, VTime b => Does (VBool (a =? b))
  | _, _ => Unspecified
  end.
Definition lt_values (v1 v2 : value) : effect value :=
  match v1, v2 with
  | VNull, _ | _, VNull => Does VNull
  | VInt a, VInt b | VTime a, VTime b => Does (VBool (int_ltb a b))
  | _, _ => Unspecified
  end.
Definition and_values (v1 v2 : value) : effect value :=
  match v1, v2 with
  | VBool false, (VBool _ | VNull) | (VBool _ | VNull), VBool false => Does (VBool false)
  | VBool true, VBool true => Does (VBool true)
  | VNull, (VNull | VBool true) | VBool true, VNull => Does VNull
  | _, _ => Unspecified
  end.
Definition or_values (v1 v2 : value) : effect value :=
  match v1, v2 with
  | VBool true, (VBool _ | VNull) | (VBool _ | VNull), VBool true => Does (VBool true)
  | VBool false, VBool false => Does (VBool false)
  | VNull, (VNull | VBool false) | VBool false, VNull => Does VNull
  | _, _ => Unspecified
  end.
Definition not_value (v : value) : effect value :=
  match v with VBool b => Does (VBool (negb b)) | VNull => Does VNull | _ => Unspecified end.
Definition cat_values (v1 v2 : value) : effect value :=
  match v1, v2 with
  | VNull, _ | _, VNull => Does VNull
  | VText a, VText b => Does (VText (a +:+ b))
  | _, _ => Unspecified
  end.
Definition op_values (o : binop) (v1 v2 : value) : effect value :=
  match o with
  | OEq => eq_values v1 v2
  | OLt => lt_values v1 v2
  | OGt => lt_values v2 v1
  | OAnd => and_values v1 v2
  | OOr => or_values v1 v2
  | OCat => cat_values v1 v2
  | OLike => Unspecified
  end.

(** A condition selects a row when it is true, and neither when false nor when NULL. *)
Definition truth (v : value) : effect bool :=
  match v with VBool b => Does b | VNull => Does false | _ => Unspecified end.

Section run.
Context (sch : schema) (args : list value) (d : database).

(** The rows in scope, one level per enclosing query, innermost first. *)
Abbreviation scope := (list (list (string * (table * row)))) (only parsing).

Fixpoint column_value (ctx : scope) (q c : string) : effect value :=
  match ctx with
  | [] => Unspecified
  | lvl :: ctx =>
    match omap (λ ar : string * (table * row),
        if String.eqb q "" || String.eqb q ar.1 then row_get ar.2.1 ar.2.2 c else None) lvl with
    | [] => column_value ctx q c
    | [v] => Does v
    | _ => Unspecified
    end
  end.

Fixpoint eval (ctx : scope) (e : expr) : effect value :=
  match e with
  | ECol q c => column_value ctx q c
  | EParam n => if 0 <? n then given (args !! Z.to_nat (n - 1)) else Unspecified
  | EVal v => Does v
  | EOp o e1 e2 => v1 ← eval ctx e1; v2 ← eval ctx e2; op_values o v1 v2
  | ENot e => v ← eval ctx e; not_value v
  | EIsNull e => v ← eval ctx e; Does (VBool (bool_decide (v = VNull)))
  | EExists (Select _ (Some (t, a)) None wh None None None) =>
    '(tb, m) ← open_table sch d t;
    bs ← mapM (λ r, match wh with
        | Some e => v ← eval ([(a, (tb, r))] :: ctx) e; truth v
        | None => Does true
        end) (map_to_list m).*2;
    Does (VBool (existsb id bs))
  | EInList e es =>
    v ← eval ctx e; foldr (λ e' b, v' ← eval ctx e'; x ← eq_values v v'; y ← b; or_values x y) (Does (VBool false)) es
  | ENow | ECount | ECast _ _ | EExists _ | EIn _ _ | EScalar _ => Unspecified
  end.

Definition holds (ctx : scope) (wh : option expr) : effect bool :=
  match wh with Some e => v ← eval ctx e; truth v | None => Does true end.

(** ** Changes *)

(** [v] can be kept in a column as it is. *)
Definition storable (c : column) (v : value) : bool :=
  match v with VNull => col_null c | _ => value_is (col_type c) v end.

(** [SET c = e, ...]: every [e] is evaluated before any column changes. *)
Fixpoint apply_sets (tb : table) (ctx : scope) (sets : list (string * expr)) (r : row) : effect row :=
  match sets with
  | [] => Does r
  | (c, e) :: sets =>
    v ← eval ctx e; i ← given (column_index tb c); col ← given (tbl_cols tb !! i);
    if storable col v && bool_decide (c ∉ tbl_pk tb) then apply_sets tb ctx sets (<[i := v]> r) else Unspecified
  end.

(** The row an insertion adds. *)
Definition new_row (tb : table) (cols : list string) (vs : list value) : effect row :=
  mapM (λ c,
    v ← match list_find (λ x, x = col_name c) cols with
        | Some (i, _) => given (vs !! i)
        | None => match col_default c with
            | None => Does VNull
            | Some (EVal v) => Does v
            | Some _ => Unspecified
            end
        end;
    if storable c v then Does v else Unspecified) (tbl_cols tb).

(** Whether a table's rows are referred to by others, whose rows go with them. *)
Definition referenced (t : string * string) : bool :=
  existsb (λ kv : _ * table, existsb (λ c, bool_decide (col_ref c = Some t)) (tbl_cols kv.2)) sch.

(** The target of a conflict clause is the primary key; [DO NOTHING] may leave it out. *)
Definition targets (tb : table) (target : list string) (sets : list (string * expr)) : bool :=
  bool_decide (target = tbl_pk tb) || match target, sets with [], [] => true | _, _ => false end.

(** Two rows that agree on a unique key without NULLs, which a table never holds. *)
Definition same_key (x y : option (list value)) : bool :=
  match x, y with Some a, Some b => bool_decide (a = b) && negb (bool_decide (VNull ∈ a)) | _, _ => false end.
Definition clash (tb : table) (r r' : row) : bool :=
  existsb (λ cols, same_key (mapM (row_get tb r) cols) (mapM (row_get tb r') cols)) (tbl_unique tb).
Definition clashes (tb : table) (m : gmap (list value) row) : bool :=
  existsb (λ kr, existsb (λ kr', negb (bool_decide (kr.1 = kr'.1)) && clash tb kr.2 kr'.2) (map_to_list m)) (map_to_list m).

Definition on_all {B} (f : row → effect B) (m : gmap (list value) row) : bool :=
  forallb (λ r, is_Does (f r)) (map_to_list m).*2.

(** The tables after a change, and the number of rows it affected. *)
Definition run_change (st : stmt) : effect (database * Z) :=
  match st with
  | SInsert t cols (FromValues es) conflict =>
    '(tb, m) ← open_table sch d t;
    vs ← mapM (eval []) es; r ← new_row tb cols vs; k ← given (key_of tb r);
    if bool_decide (tbl_unique tb ≠ [] ∧ conflict ≠ None) then Unspecified else
    if existsb (clash tb r) (map_to_list m).*2 then Fails else
    match m !! k, conflict with
    | None, _ => Does (<[t := <[k := r]> m]> d, 1)
    | Some _, None => Fails
    | Some old, Some (target, sets) =>
      if negb (targets tb target sets) then Unspecified else
      match sets with
      | [] => Does (d, 0)
      | _ => r' ← apply_sets tb [[(t.2, (tb, old)); ("excluded", (tb, r))]] sets old;
          Does (<[t := <[k := r']> m]> d, 1)
      end
    end
  | SUpdate t sets wh =>
    '(tb, m) ← open_table sch d t;
    let f r := b ← holds [[(t.2, (tb, r))]] wh;
      if b : bool then r' ← apply_sets tb [[(t.2, (tb, r))]] sets r; Does (Some r') else Does None in
    let m' := (λ r, default r (result_of None (f r))) <$> m in
    if on_all f m then if clashes tb m' then Fails else
      Does (<[t := m']> d,
        Z.of_nat (size (filter (λ kr, is_Some (result_of None (f kr.2))) m)))
    else Unspecified
  | SDelete t a wh =>
    '(tb, m) ← open_table sch d t;
    let f r := holds [[(a, (tb, r))]] wh in
    if on_all f m && negb (referenced t) then
      Does (<[t := filter (λ kr, result_of false (f kr.2) = false) m]> d,
        Z.of_nat (size (filter (λ kr, result_of false (f kr.2) = true) m)))
    else Unspecified
  | _ => Unspecified
  end.

(** The rows a query selects, in no particular order; each with the value it is sorted by. *)
Definition run_query (st : stmt) : effect (list (value * row)) :=
  match st with
  | SSelect (Select items (Some (t, a)) None wh order None None) =>
    '(tb, m) ← open_table sch d t;
    let f r := b ← holds [[(a, (tb, r))]] wh;
      if b : bool then
        vs ← mapM (eval [[(a, (tb, r))]]) items;
        o ← match order with Some c => column_value [[(a, (tb, r))]] "" c | None => Does VNull end;
        Does (Some (o, vs))
      else Does None in
    if on_all f m then Does (omap (λ r, result_of None (f r)) (map_to_list m).*2) else Unspecified
  | _ => Unspecified
  end.
End run.

(** An argument as the server sees it: a [timestamptz] has no finer unit than the microsecond. *)
Definition encode (a : arg) : value :=
  match a with
  | AString s => VText s
  | ABool b => VBool b
  | AInt z | AInt32 z => VInt z
  | ATime t => VTime (t / 1000)
  | ATimePtr t => match t with Some t => VTime (t / 1000) | None => VNull end
  | ARawJSON s => VJson s
  end.

(** The order of [ORDER BY] on timestamps. *)
Definition value_le (v1 v2 : value) : Prop :=
  match v1, v2 with VTime a, VTime b => a <= b | _, _ => True end.

(** ** A server *)

(** The clock may have moved on, and nothing else was sent. *)
Definition calm {S} (w w' : World S) : Prop := (w_step w <= w_step w')%nat ∧ w_out w' = w_out w.
Lemma calm_refl {S} (w : World S) : calm w w.
Proof. by split. Qed.
Lemma calm_trans {S} (w1 w2 w3 : World S) : calm w1 w2 → calm w2 w3 → calm w1 w3.
Proof. intros [] []. split; [lia|congruence]. Qed.

(** The tables behind a store, and the errors of the server that keeps them. *)
Class Server (S : Type) := {
  srv_db : S → database;
  srv_err : error → Prop;
}.

Section behaviour.
Context {S : Type} `{Server S} (sch : schema).

(** [m] sends the change [st] with the arguments [vs]: the server may refuse it, or lose its
    answer, but never does anything else than the statement says. *)
Definition executes (m : M S (result Z)) (st : stmt) (vs : list value) : Prop := ∀ w,
  wp m (λ r w', calm w w' ∧
    match run_change sch vs (srv_db (w_store w)) st with
    | Does (d, n) => r = Ok n ∧ srv_db (w_store w') = d
        ∨ (∃ e, r = Err e ∧ srv_err e)
          ∧ (srv_db (w_store w') = srv_db (w_store w) ∨ srv_db (w_store w') = d)
    | Fails => (∃ e, r = Err e ∧ srv_err e) ∧ srv_db (w_store w') = srv_db (w_store w)
    | Unspecified => True
    end) w.

(** [m] sends the query [st] and reads the rows and the error they end with. *)
Definition selects (m : M S (result (list row * result unit))) (st : stmt) (vs : list value) : Prop := ∀ w rows,
  run_query sch vs (srv_db (w_store w)) st = Does rows →
  wp m (λ r w', calm w w' ∧ srv_db (w_store w') = srv_db (w_store w) ∧
    match r with
    | Ok (l, Ok _) => ∃ l', l' ≡ₚ rows ∧ l = l'.*2 ∧ Sorted value_le l'.*1
    | Ok (l, Err e) => l ⊆+ rows.*2 ∧ srv_err e
    | Err e => srv_err e
    end) w.

(** [m] sends the query [st] and reads one row, or answers [none]. *)
Definition selects_row (none : error) (m : M S (result row)) (st : stmt) (vs : list value) : Prop := ∀ w rows,
  run_query sch vs (srv_db (w_store w)) st = Does rows →
  wp m (λ r w', calm w w' ∧ srv_db (w_store w') = srv_db (w_store w) ∧
    match r with
    | Ok row => row ∈ rows.*2
    | Err e => srv_err e ∨ e = none ∧ rows = []
    end) w.
End behaviour.

(** A server reached through pgx. *)
Class SqlServer `{Scanner} (S : Type) `{Pool S, Server S} (sch : schema) := {
  srv_err_rows e : srv_err e → no_rows e = false;
  srv_Exec text args st : parse text = Some st → executes sch (Exec pool text args) st (encode <$> args);
  srv_Query text args st : parse text = Some st → selects sch (Query pool text args) st (encode <$> args);
  srv_QueryRow text args st : parse text = Some st →
    selects_row sch ErrNoRows (QueryRow pool text args) st (encode <$> args);
}.

(** * Statements on tables that hold records

    A table whose rows encode the entries of a map, each under its key: what insertions,
    updates, deletions and queries do to the map, for any statement whose conditions and
    assignments can be read off the encoding. *)

(** ** Maps with keyed entries *)

Section maps.
Context {K A : Type} `{Countable K}.
Implicit Types (m : gmap K A) (p : A → bool) (g : A → A).

(** An update that reaches at most the entry under [k]. *)
Definition upd_map p g m : gmap K A := (λ x, if p x then g x else x) <$> m.
Definition sel_map p m : gmap K A := filter (λ kx, p kx.2 = true) m.
Definition del_map p m : gmap K A := filter (λ kx, p kx.2 = false) m.

Section at_key.
Context (k : K) (p : A → bool) (m : gmap K A) (Hp : ∀ k' x, m !! k' = Some x → p x = true → k' = k).

Lemma sel_map_at : sel_map p m = match m !! k with Some x => if p x then {[k := x]} else ∅ | None => ∅ end.
Proof.
  apply map_eq. intros i. unfold sel_map. apply option_eq. intros x. rewrite map_lookup_filter_Some. cbn. split.
  - intros [Hi Hx]. pose proof (Hp i x Hi Hx) as ->. rewrite Hi, Hx. apply lookup_singleton_eq.
  - destruct (m !! k) as [y|] eqn:Hk; [|by rewrite lookup_empty]. destruct (p y) eqn:Hy; [|by rewrite lookup_empty].
    intros [<- <-]%lookup_singleton_Some. done.
Qed.

Lemma sel_map_size : size (sel_map p m) = match m !! k with Some x => if p x then 1%nat else 0%nat | None => 0%nat end.
Proof.
  rewrite sel_map_at. destruct (m !! k) as [x|]; [|apply map_size_empty].
  destruct (p x); [apply map_size_singleton|apply map_size_empty].
Qed.

Lemma upd_map_at g :
  upd_map p g m = match m !! k with Some x => if p x then <[k := g x]> m else m | None => m end.
Proof.
  apply map_eq. intros i. unfold upd_map. rewrite lookup_fmap. destruct (m !! i) as [x|] eqn:Hi; cbn.
  - destruct (p x) eqn:Hx.
    + pose proof (Hp i x Hi Hx) as ->. by rewrite Hi, Hx, lookup_insert_eq.
    + destruct (m !! k) as [y|] eqn:Hk; [|done]. destruct (p y) eqn:Hy; [|done].
      destruct (decide (i = k)) as [->|]; [congruence|]. by rewrite lookup_insert_ne.
  - destruct (m !! k) as [y|] eqn:Hk; [|done]. destruct (p y); [|done].
    destruct (decide (i = k)) as [->|]; [congruence|]. by rewrite lookup_insert_ne.
Qed.
End at_key.

Lemma del_map_at k p m : (∀ k' x, m !! k' = Some x → p x = true ↔ k' = k) → del_map p m = delete k m.
Proof.
  intros Hp. apply map_eq. intros i. unfold del_map. apply option_eq. intros x.
  rewrite map_lookup_filter_Some, lookup_delete_Some. cbn. split.
  - intros [Hi Hx]. split; [|done]. intros <-. pose proof (proj2 (Hp _ _ Hi) eq_refl). congruence.
  - intros [Hne Hi]. split; [done|]. apply not_true_is_false. intros ->%(Hp _ _ Hi). done.
Qed.

Lemma upd_map_alter k p g m : (∀ k' x, m !! k' = Some x → p x = true ↔ k' = k) → upd_map p g m = alter g k m.
Proof.
  intros Hp. apply map_eq. intros i. unfold upd_map. rewrite lookup_fmap. destruct (decide (i = k)) as [->|Hne].
  - rewrite lookup_alter_eq. destruct (m !! k) as [x|] eqn:Hx; [|done]. cbn. by rewrite (proj2 (Hp k x Hx) eq_refl).
  - rewrite lookup_alter_ne by done. destruct (m !! i) as [x|] eqn:Hx; [|done]. cbn.
    destruct (p x) eqn:Hpx; [|done]. by apply (Hp i x Hx) in Hpx.
Qed.

Lemma upd_map_Forall (P : K → A → Prop) p g m : map_Forall P m → (∀ k x, P k x → P k (g x)) → map_Forall P (upd_map p g m).
Proof.
  intros Hm Hg k x. unfold upd_map. intros (y & <- & Hy)%lookup_fmap_Some. pose proof (Hm k y Hy).
  destruct (p y); auto.
Qed.

Lemma del_map_Forall (P : K → A → Prop) p m : map_Forall P m → map_Forall P (del_map p m).
Proof. intros Hm k x [Hx _]%map_lookup_filter_Some. by apply Hm. Qed.

Lemma del_map_filter (P : A → Prop) `{!∀ x, Decision (P x)} p m : (∀ k x, m !! k = Some x → p x = false ↔ P x) →
  del_map p m = filter (λ kx, P kx.2) m.
Proof. intros Hp. unfold del_map. apply map_filter_ext. intros k x Hx. cbn. by apply (Hp k). Qed.
End maps.

Lemma text_eqb_eq a b : text_eqb a b = true ↔ a = b.
Proof. apply String.eqb_eq. Qed.

(** ** Tables *)

Section rows.
Context {K A : Type} `{Countable K} (key : K → list value) `{!Inj (=) (=) key} (enc : A → row).
Implicit Types a : gmap K A.

Definition rows_of a : gmap (list value) row := kmap key (enc <$> a).

Lemma rows_of_lookup a k : rows_of a !! key k = enc <$> a !! k.
Proof. unfold rows_of. by rewrite lookup_kmap, lookup_fmap by done. Qed.

Lemma rows_of_insert a k x : <[key k := enc x]> (rows_of a) = rows_of (<[k := x]> a).
Proof. unfold rows_of. by rewrite fmap_insert, kmap_insert. Qed.

Lemma rows_of_inv a i r : rows_of a !! i = Some r → ∃ k x, i = key k ∧ r = enc x ∧ a !! k = Some x.
Proof.
  unfold rows_of. intros (k & -> & Hk)%lookup_kmap_Some; [|done]. apply lookup_fmap_Some in Hk as (x & <- & Hx). eauto.
Qed.

Lemma rows_of_fmap a (f : row → row) (g : A → A) : (∀ k x, a !! k = Some x → f (enc x) = enc (g x)) →
  f <$> rows_of a = rows_of (g <$> a).
Proof.
  intros Hf. unfold rows_of. rewrite <-kmap_fmap by done. f_equal. rewrite <-!map_fmap_compose.
  apply map_fmap_ext. intros i x Hx. by apply (Hf i).
Qed.

Lemma rows_of_filter a (P : row → bool) (p : A → bool) (b : bool) : (∀ k x, a !! k = Some x → P (enc x) = p x) →
  filter (λ kr, P kr.2 = b) (rows_of a) = rows_of (filter (λ kx, p kx.2 = b) a).
Proof.
  intros HP. apply map_eq. intros i. apply option_eq. intros r. rewrite map_lookup_filter_Some. cbn. split.
  - intros [(k & x & -> & -> & Hx)%rows_of_inv Hb]. rewrite rows_of_lookup.
    rewrite (map_lookup_filter_Some_2 _ a k x); [done|done|]. cbn. by rewrite <-(HP k x Hx).
  - intros (k & x & -> & -> & [Hx Hb]%map_lookup_filter_Some)%rows_of_inv. cbn in Hb. rewrite rows_of_lookup, Hx.
    by rewrite (HP k x Hx).
Qed.

Lemma rows_of_size a : size (rows_of a) = size a.
Proof.
  unfold rows_of. rewrite <-!length_map_to_list, map_to_list_kmap, length_fmap, map_to_list_fmap, length_fmap by done. done.
Qed.

Lemma rows_of_values a : (map_to_list (rows_of a)).*2 ≡ₚ enc <$> (map_to_list a).*2.
Proof.
  unfold rows_of. rewrite map_to_list_kmap, map_to_list_fmap by done. rewrite <-!list_fmap_compose. reflexivity.
Qed.

Lemma rows_of_all {B} (f : row → effect B) (h : A → B) a :
  (∀ k x, a !! k = Some x → f (enc x) = Does (h x)) → on_all f (rows_of a) = true.
Proof.
  intros Hf. unfold on_all. apply forallb_forall. intros r Hr%list_elem_of_In.
  apply list_elem_of_fmap in Hr as ([i r'] & -> & Hr%elem_of_map_to_list).
  apply rows_of_inv in Hr as (k & x & _ & -> & Hx). cbn. by rewrite (Hf k x).
Qed.
End rows.

(** ** Changes *)

Section changes.
Context {K A : Type} `{Countable K} (key : K → list value) `{!Inj (=) (=) key} (enc : A → row).
Context (sch : schema) (args : list value) (d : database) (t : string * string) (tb : table) (a : gmap K A).
Context (Htb : lookup_table sch t = Some tb) (Hd : d !! t = Some (rows_of key enc a)).

Lemma open_rows : open_table sch d t = Does (tb, rows_of key enc a).
Proof. unfold open_table. by rewrite Htb, Hd. Qed.

(** A subquery that asks whether some row satisfies [e]. *)
Lemma eval_exists ctx items alias e (b : A → bool) :
  (∀ x, (v ← eval sch args d ([(alias, (tb, enc x))] :: ctx) e; truth v) = Does (b x)) →
  eval sch args d ctx (EExists (Select items (Some (t, alias)) None (Some e) None None None))
  = Does (VBool (existsb b (map_to_list a).*2)).
Proof.
  intros Hb. cbn [eval]. rewrite open_rows. cbn [mbind effect_bind].
  assert (∀ l : list A, mapM (λ r, v ← eval sch args d ([(alias, (tb, r))] :: ctx) e; truth v) (enc <$> l)
    = Does (b <$> l)) as Hall.
  { induction l as [|x l IH]; [done|]. rewrite !fmap_cons. cbn [mapM]. rewrite Hb, IH. done. }
  assert (∃ l, (map_to_list (rows_of key enc a)).*2 = enc <$> l ∧ l ≡ₚ (map_to_list a).*2) as (l & -> & Hl).
  { destruct (Permutation_map_inv enc (map_to_list a).*2 (rows_of_values key enc a)) as (l & Hl1 & Hl2). by exists l. }
  rewrite Hall. cbn [mbind effect_bind]. do 2 f_equal. revert Hl.
  generalize ((map_to_list a).*2) as l'. intros l' Hl. apply eq_bool_prop_intro. rewrite !Is_true_true, !existsb_exists.
  setoid_rewrite <-list_elem_of_In. setoid_rewrite list_elem_of_fmap. setoid_rewrite Hl.
  split.
  - by intros (? & (x & -> & Hx) & ?); exists x.
  - intros (x & Hx & Hbx). exists (b x). by split; [exists x|].
Qed.

(** The effect of an update's condition and assignments on one row. *)
Definition update_row (sets : list (string * expr)) (wh : option expr) (r : row) : effect (option row) :=
  b ← holds sch args d [[(t.2, (tb, r))]] wh;
  if b : bool then r' ← apply_sets sch args d tb [[(t.2, (tb, r))]] sets r; Does (Some r') else Does None.

Lemma run_update_keys sets wh (p : A → bool) (g : A → A) :
  (∀ x, update_row sets wh (enc x) = Does (if p x then Some (enc (g x)) else None)) →
  run_change sch args d (SUpdate t sets wh)
  = if clashes tb (rows_of key enc (upd_map p g a)) then Fails
    else Does (<[t := rows_of key enc (upd_map p g a)]> d, Z.of_nat (size (sel_map p a))).
Proof.
  intros Hf. unfold run_change. rewrite open_rows. cbn [mbind effect_bind].
  change ((let f := update_row sets wh in let m' := (λ r, default r (result_of None (f r))) <$> rows_of key enc a in
      if on_all f (rows_of key enc a) then if clashes tb m' then Fails else
        Does (<[t := m']> d, Z.of_nat (size (filter (λ kr, is_Some (result_of None (f kr.2))) (rows_of key enc a))))
      else Unspecified)
    = if clashes tb (rows_of key enc (upd_map p g a)) then Fails
      else Does (<[t := rows_of key enc (upd_map p g a)]> d, Z.of_nat (size (sel_map p a)))).
  cbv zeta.
  rewrite (rows_of_all key enc (update_row sets wh) (λ x, if p x then Some (enc (g x)) else None)) by done.
  assert ((λ r, default r (result_of None (update_row sets wh r))) <$> rows_of key enc a = rows_of key enc (upd_map p g a)) as ->.
  { unfold upd_map. apply rows_of_fmap; [done|]. intros k x _. rewrite Hf. cbn. by destruct (p x). }
  destruct (clashes tb _); [done|]. do 2 f_equal.
  - f_equal. unfold sel_map. rewrite <-(rows_of_size key enc).
    rewrite <-(rows_of_filter key enc a (λ r, bool_decide (is_Some (result_of None (update_row sets wh r))))).
    + f_equal. apply map_filter_ext. intros. by rewrite bool_decide_eq_true.
    + intros k x _. rewrite Hf. cbn. by destruct (p x).
Qed.

(** A table without a second key has no clashes. *)
Lemma no_clash r l : tbl_unique tb = [] → existsb (clash tb r) l = false.
Proof. intros Hu. unfold clash. rewrite Hu. by induction l. Qed.
Lemma no_clashes m : tbl_unique tb = [] → clashes tb m = false.
Proof.
  intros Hu. apply not_true_iff_false. unfold clashes, clash. rewrite Hu, existsb_exists.
  intros (kr & _ & (kr' & _ & [_ Hc]%andb_prop)%existsb_exists). done.
Qed.

Lemma run_update (Hu : tbl_unique tb = []) sets wh (p : A → bool) (g : A → A) :
  (∀ x, update_row sets wh (enc x) = Does (if p x then Some (enc (g x)) else None)) →
  run_change sch args d (SUpdate t sets wh)
  = Does (<[t := rows_of key enc (upd_map p g a)]> d, Z.of_nat (size (sel_map p a))).
Proof. intros Hf. rewrite (run_update_keys sets wh p g Hf). by rewrite no_clashes. Qed.

Lemma run_delete alias wh (p : A → bool) : referenced sch t = false →
  (∀ k x, a !! k = Some x → holds sch args d [[(alias, (tb, enc x))]] wh = Does (p x)) →
  run_change sch args d (SDelete t alias wh)
  = Does (<[t := rows_of key enc (del_map p a)]> d, removed a (del_map p a)).
Proof.
  intros Href Hf. unfold del_map. rewrite <-(removed_filter (λ kx, p kx.2)). unfold run_change. rewrite open_rows. cbn [mbind effect_bind].
  rewrite (rows_of_all key enc _ p), Href by done. cbn [andb negb].
  rewrite !(rows_of_filter key enc a (λ r, result_of false (holds sch args d [[(alias, (tb, r))]] wh)) p)
    by (intros k x Hx; by rewrite (Hf k x)).
  by rewrite rows_of_size.
Qed.

(** What a query selects from one row. *)
Definition query_row (alias : string) (items : list expr) (wh : option expr) (order : option string) (r : row)
    : effect (option (value * row)) :=
  b ← holds sch args d [[(alias, (tb, r))]] wh;
  if b : bool then
    vs ← mapM (eval sch args d [[(alias, (tb, r))]]) items;
    o ← match order with Some c => column_value [[(alias, (tb, r))]] "" c | None => Does VNull end;
    Does (Some (o, vs))
  else Does None.

Lemma run_select alias items wh order (p : A → bool) (o : A → value) (f : A → row) :
  (∀ x, query_row alias items wh order (enc x) = Does (if p x then Some (o x, f x) else None)) →
  ∃ rows, run_query sch args d (SSelect (Select items (Some (t, alias)) None wh order None None)) = Does rows
    ∧ rows ≡ₚ (λ x, (o x, f x)) <$> (map_to_list (sel_map p a)).*2.
Proof.
  intros Hf. unfold run_query. rewrite open_rows. cbn [mbind effect_bind].
  change (∃ rows, (let f := query_row alias items wh order in if on_all f (rows_of key enc a) then
      Does (omap (λ r, result_of None (f r)) (map_to_list (rows_of key enc a)).*2) else Unspecified) = Does rows
    ∧ rows ≡ₚ (λ x, (o x, f x)) <$> (map_to_list (sel_map p a)).*2).
  cbv zeta.
  rewrite (rows_of_all key enc (query_row alias items wh order) (λ x, if p x then Some (o x, f x) else None)) by done.
  eexists. split; [done|].
  transitivity (omap (λ x, if p x then Some (o x, f x) else None) (map_to_list a).*2).
  - rewrite rows_of_values by done. generalize ((map_to_list a).*2) as l. intros l.
    induction l as [|x l IH]; [done|]. cbn. rewrite Hf. cbn. destruct (p x); [by f_equiv|done].
  - unfold sel_map. transitivity ((λ x, (o x, f x)) <$> filter (λ x, p x = true) (map_to_list a).*2).
    + generalize ((map_to_list a).*2) as l. intros l. induction l as [|x l IH]; [done|].
      rewrite filter_cons. cbn [omap list_omap]. destruct (decide (p x = true)) as [Hx|Hx].
      * rewrite Hx, fmap_cons. by f_equiv.
      * apply not_true_is_false in Hx. by rewrite Hx.
    + unfold sel_map. apply fmap_Permutation. exact (filter_snd_map_to_list (λ x, p x = true) a).
Qed.

(** The row an insertion adds, when it adds [x] under [k]. *)
Definition adds (cols : list string) (es : list expr) (k : K) (x : A) : Prop :=
  (vs ← mapM (eval sch args d []) es; r ← new_row tb cols vs; i ← given (key_of tb r); Does (i, r)) = Does (key k, enc x).
(** The table has no second key. *)
Definition inserts (cols : list string) (es : list expr) (k : K) (x : A) : Prop := adds cols es k x ∧ tbl_unique tb = [].

Lemma run_insert_keys cols es k x : adds cols es k x →
  run_change sch args d (SInsert t cols (FromValues es) None)
  = if existsb (clash tb (enc x)) (map_to_list (rows_of key enc a)).*2 then Fails else
    match a !! k with Some _ => Fails | None => Does (<[t := rows_of key enc (<[k := x]> a)]> d, 1) end.
Proof.
  unfold adds. intros Hi. unfold run_change. rewrite open_rows. cbn [mbind effect_bind].
  destruct (mapM (eval sch args d []) es) as [| |vs]; cbn [mbind effect_bind] in *; try done.
  destruct (new_row tb cols vs) as [| |r]; cbn [mbind effect_bind] in *; try done.
  destruct (given (key_of tb r)) as [| |i]; cbn [mbind effect_bind] in *; try done.
  injection Hi as -> ->. rewrite rows_of_lookup, bool_decide_eq_false_2 by naive_solver.
  destruct (existsb _ _); [done|]. destruct (a !! k) as [old|]; cbn [fmap option_fmap option_map]; [done|]. by rewrite rows_of_insert.
Qed.

Lemma run_insert cols es conflict k x : inserts cols es k x →
  run_change sch args d (SInsert t cols (FromValues es) conflict)
  = match a !! k, conflict with
    | None, _ => Does (<[t := rows_of key enc (<[k := x]> a)]> d, 1)
    | Some _, None => Fails
    | Some old, Some (target, sets) =>
      if negb (targets tb target sets) then Unspecified else
      match sets with
      | [] => Does (d, 0)
      | _ => r' ← apply_sets sch args d tb [[(t.2, (tb, enc old)); ("excluded", (tb, enc x))]] sets (enc old);
          Does (<[t := <[key k := r']> (rows_of key enc a)]> d, 1)
      end
    end.
Proof.
  intros [Hi Hu]. unfold adds in Hi. unfold run_change. rewrite open_rows. cbn [mbind effect_bind].
  destruct (mapM (eval sch args d []) es) as [| |vs]; cbn [mbind effect_bind] in *; try done.
  destruct (new_row tb cols vs) as [| |r]; cbn [mbind effect_bind] in *; try done.
  destruct (given (key_of tb r)) as [| |i]; cbn [mbind effect_bind] in *; try done.
  injection Hi as -> ->. rewrite rows_of_lookup, bool_decide_eq_false_2, no_clash by naive_solver.
  destruct (a !! k) as [old|]; cbn [fmap option_fmap option_map]; [done|]. by rewrite rows_of_insert.
Qed.
End changes.
