(* ===== verification/OAuthStoreModel.v ===== *)
(** * The abstract store of the authorization server

    Five maps, and what each method of [oauth.Store] may answer and leave behind.  Every
    store that keeps the contract of [StoreLaws] refines it. *)

From S2P Require Import Prelude GoStrings Errors World Entities OAuthTypes Stores StoreLaws.

Local Open Scope Z_scope.

(** ** Histories

    Of any abstract store: calls, answers, states, and what a call may answer and leave. *)

(** The answer to a call, from what the method returns. *)
Definition answer {A B} (f : A → B) (r : result A) : result B :=
  match r with Ok a => Ok (f a) | Err e => Err e end.

Section histories.
Context {C A T : Type} (step : C → T → result A → T → Prop).

(** A store whose server may be [lost]: it answers, or fails having done nothing or its work. *)
Definition sstep (lost : error → Prop) (c : C) (O : T) (r : result A) (O' : T) : Prop :=
  step c O r O' ∨ (∃ e, r = Err e ∧ lost e) ∧ (O' = O ∨ ∃ r', step c O r' O').

(** The answers to a sequence of calls. *)
Inductive history (lost : error → Prop) : T → list C → list (result A) → T → Prop :=
  | history_nil O : history lost O [] [] O
  | history_cons c cs r rs O O1 O2 :
      sstep lost c O r O1 → history lost O1 cs rs O2 → history lost O (c :: cs) (r :: rs) O2.

(** A store that runs a call by [run], whose states are related to the abstract ones by [R] and
    that takes a call [c] as [norm c], does for the calls that are [ok] what the abstract one does. *)
Definition implements {S} (lost : error → Prop) (R : S → T → Prop) (norm : C → C) (ok : C → Prop)
    (run : C → M S (result A)) : Prop :=
  ∀ c O w, ok c → R (w_store w) O →
    wp (run c) (λ r w', ∃ O', sstep lost (norm c) O r O' ∧ R (w_store w') O') w.

Lemma implements_history {S} lost (R : S → T → Prop) norm ok (run : C → M S (result A)) :
  implements lost R norm ok run → ∀ cs O w, Forall ok cs → R (w_store w) O →
  wp (mapM run cs) (λ rs w', ∃ O', history lost O (norm <$> cs) rs O' ∧ R (w_store w') O') w.
Proof.
  intros Himp cs. induction cs as [|c cs IH]; intros O w Hok HR.
  - apply wp_ret. exists O. split; [constructor|done].
  - apply Forall_cons in Hok as [Hc Hcs]. apply wp_bind. eapply wp_mono; [by apply Himp|].
    intros r w1 (O1 & Hstep & HR1). apply wp_bind. eapply wp_mono; [by apply IH|].
    intros rs w2 (O2 & Hrs & HR2). apply wp_ret. exists O2. split; [by econstructor|done].
Qed.
End histories.

(** ** The state

    The rows, and the consents by user and client. *)
Record ostate := mkOState {
  os_rows : ORows;
  os_consents : gmap (string * string) Consent;
}.

Definition on_rows (f : ORows → ORows) (O : ostate) : ostate := mkOState (f (os_rows O)) (os_consents O).
Definition set_consents (x : gmap (string * string) Consent) (O : ostate) : ostate := mkOState (os_rows O) x.

(** ** Calls and answers *)

Inductive ocall :=
  | CCreateClient (c : Client)
  | CGetClient (id : string)
  | CTouchClient (id : string) (at_ : Time)
  | CDeleteStaleClients (before : Time)
  | CCreateCode (c : Code)
  | CGetCode (h : string)
  | CMarkCodeUsed (h g : string) (at_ : Time)
  | CDeleteExpiredCodes (before : Time)
  | CGetConsent (u c : string)
  | CSaveConsent (x : Consent)
  | CDeleteConsent (u c : string)
  | CCreateGrant (g : Grant)
  | CGetGrant (id : string)
  | CRotateGrant (id old new : string) (exp at_ : Time)
  | CDeleteGrant (id : string)
  | CDeleteUserClientGrants (u c : string)
  | CListUserGrants (u : string)
  | CDeleteExpiredGrants (before : Time)
  | CUseClientAssertion (c jti : string) (exp : Time)
  | CDeleteExpiredClientAssertions (before : Time).

Inductive oanswer :=
  | RUnit
  | RBool (b : bool)
  | RCount (n : Z)
  | RClient (c : Client)
  | RCode (c : Code)
  | RConsent (x : Consent)
  | RGrant (g : Grant)
  | RGrants (l : list Grant).

(** A call on a store. *)
Definition os_call {S} (st : OAuthStore S) (c : ocall) : M S (result oanswer) :=
  let unit m := r ← m; mret (answer (λ _ : unit, RUnit) r) in
  let count m := r ← m; mret (answer RCount r) in
  let bool m := r ← m; mret (answer RBool r) in
  match c with
  | CCreateClient c => unit (os_CreateClient c)
  | CGetClient id => r ← os_GetClient id; mret (answer RClient r)
  | CTouchClient id t => unit (os_TouchClient id t)
  | CDeleteStaleClients t => count (os_DeleteStaleClients t)
  | CCreateCode c => unit (os_CreateCode c)
  | CGetCode h => r ← os_GetCode h; mret (answer RCode r)
  | CMarkCodeUsed h g t => bool (os_MarkCodeUsed h g t)
  | CDeleteExpiredCodes t => count (os_DeleteExpiredCodes t)
  | CGetConsent u c => r ← os_GetConsent u c; mret (answer RConsent r)
  | CSaveConsent x => unit (os_SaveConsent x)
  | CDeleteConsent u c => unit (os_DeleteConsent u c)
  | CCreateGrant g => unit (os_CreateGrant g)
  | CGetGrant id => r ← os_GetGrant id; mret (answer RGrant r)
  | CRotateGrant id o n e t => bool (os_RotateGrant id o n e t)
  | CDeleteGrant id => unit (os_DeleteGrant id)
  | CDeleteUserClientGrants u c => count (os_DeleteUserClientGrants u c)
  | CListUserGrants u => r ← os_ListUserGrants u; mret (answer RGrants r)
  | CDeleteExpiredGrants t => count (os_DeleteExpiredGrants t)
  | CUseClientAssertion c j e => bool (os_UseClientAssertion c j e)
  | CDeleteExpiredClientAssertions t => count (os_DeleteExpiredClientAssertions t)
  end.

(** ** Steps *)

(** A row is added under a new key; under one already taken a store may refuse or replace. *)
Definition creates `{Countable K} {A} (k : K) (x : A) (m : gmap K A) (r : result oanswer) (m' : gmap K A) : Prop :=
  match m !! k with
  | None => r = Ok RUnit ∧ m' = <[k := x]> m
  | Some _ => (∃ e, r = Err e) ∧ m' = m ∨ r = Ok RUnit ∧ m' = <[k := x]> m
  end.

(** A row is changed if there is one, and it is as the caller takes it to be. *)
Definition swaps `{Countable K} {A} (k : K) (now : A → Prop) `{!∀ a, Decision (now a)} (f : A → A) (m : gmap K A)
    (r : result oanswer) (m' : gmap K A) : Prop :=
  match m !! k with
  | Some a => if bool_decide (now a) then r = Ok (RBool true) ∧ m' = <[k := f a]> m
      else r = Ok (RBool false) ∧ m' = m
  | None => r = Ok (RBool false) ∧ m' = m
  end.

Definition reads_row {A} (f : A → oanswer) (o : option A) (r : result oanswer) : Prop :=
  r = match o with Some a => Ok (f a) | None => Err ErrNotFound end.

(** What [c] may answer on [O], and the state it leaves. *)
Definition ostep (c : ocall) (O : ostate) (r : result oanswer) (O' : ostate) : Prop :=
  let R := os_rows O in
  match c with
  | CCreateClient x => ∃ m, creates (Client_ID x) x (r_clients R) r m ∧ O' = on_rows (set_clients m) O
  | CGetClient id => reads_row RClient (r_clients R !! id) r ∧ O' = O
  | CTouchClient id t => r = Ok RUnit ∧ O' = on_rows (set_clients (alter (touch_Client t) id (r_clients R))) O
  | CDeleteStaleClients t => ∃ m, r = Ok (RCount (removed (r_clients R) m)) ∧ O' = on_rows (set_clients m) O
      ∧ ∀ id c, m !! id = Some c ↔ r_clients R !! id = Some c ∧ ¬ stale_client t R c
  | CCreateCode x => ∃ m, creates (CodeHash x) x (r_codes R) r m ∧ O' = on_rows (set_codes m) O
  | CGetCode h => reads_row RCode (r_codes R !! h) r ∧ O' = O
  | CMarkCodeUsed h g t =>
      ∃ m, swaps h (λ c, UsedAt c = None) (mark_Code t g) (r_codes R) r m ∧ O' = on_rows (set_codes m) O
  | CDeleteExpiredCodes t => let m := filter (λ kv, Before (Code_ExpiresAt kv.2) t = false) (r_codes R) in
      r = Ok (RCount (removed (r_codes R) m)) ∧ O' = on_rows (set_codes m) O
  | CGetConsent u c => reads_row RConsent (os_consents O !! (u, c)) r ∧ O' = O
  | CSaveConsent x => r = Ok RUnit ∧ O' = set_consents (<[(Consent_UserID x, Consent_ClientID x) :=
      match os_consents O !! (Consent_UserID x, Consent_ClientID x) with
      | Some old => set_Consent_CreatedAt (Consent_CreatedAt old) x
      | None => x
      end]> (os_consents O)) O
  | CDeleteConsent u c => r = Ok RUnit ∧ O' = set_consents (delete (u, c) (os_consents O)) O
  | CCreateGrant x => ∃ m, creates (Grant_ID x) x (r_grants R) r m ∧ O' = on_rows (set_grants m) O
  | CGetGrant id => reads_row RGrant (r_grants R !! id) r ∧ O' = O
  | CRotateGrant id old new exp t => ∃ m,
      swaps id (λ g, Grant_TokenHash g = old) (rotate_Grant old new exp t) (r_grants R) r m
      ∧ O' = on_rows (set_grants m) O
  | CDeleteGrant id => r = Ok RUnit ∧ O' = on_rows (set_grants (delete id (r_grants R))) O
  | CDeleteUserClientGrants u c =>
      let m := filter (λ kv, ¬ (Grant_UserID kv.2 = u ∧ Grant_ClientID kv.2 = c)) (r_grants R) in
      r = Ok (RCount (removed (r_grants R) m)) ∧ O' = on_rows (set_grants m) O
  | CListUserGrants u => O' = O ∧ ∃ l, r = Ok (RGrants l)
      ∧ l ≡ₚ (map_to_list (filter (λ kv, Grant_UserID kv.2 = u) (r_grants R))).*2
  | CDeleteExpiredGrants t => let m := filter (λ kv, Before (Grant_ExpiresAt kv.2) t = false) (r_grants R) in
      r = Ok (RCount (removed (r_grants R) m)) ∧ O' = on_rows (set_grants m) O
  | CUseClientAssertion c j exp => match r_jtis R !! (c, j) with
      | Some _ => r = Ok (RBool false) ∧ O' = O
      | None => r = Ok (RBool true) ∧ O' = on_rows (set_jtis (<[(c, j) := exp]> (r_jtis R))) O
      end
  | CDeleteExpiredClientAssertions t => let m := filter (λ kv, Before kv.2 t = false) (r_jtis R) in
      r = Ok (RCount (removed (r_jtis R) m)) ∧ O' = on_rows (set_jtis m) O
  end.

(** Rows are kept under their own keys. *)
Definition okeyed (O : ostate) : Prop :=
  map_Forall (λ k c, Client_ID c = k) (r_clients (os_rows O))
  ∧ map_Forall (λ k c, CodeHash c = k) (r_codes (os_rows O))
  ∧ map_Forall (λ k g, Grant_ID g = k) (r_grants (os_rows O))
  ∧ map_Forall (λ k x, (Consent_UserID x, Consent_ClientID x) = k) (os_consents O).

(** * Claims that are taken once

    An authorization code is exchanged, a refresh token rotated and a client assertion used
    at most once: in any history of the abstract OAuth store, and so of a store that
    implements it, however its calls interleave. *)

(** What can be taken once: an authorization code, a grant's current refresh token, and the
    id of a client assertion. *)
Inductive claim :=
  | TheCode (h : string)
  | TheToken (id hash : string)
  | TheAssertion (client jti : string).

(** The call is an attempt to take the claim. *)
Definition attempts (k : claim) (c : ocall) : Prop :=
  match k, c with
  | TheCode h, CMarkCodeUsed h' _ _ => h' = h
  | TheToken id x, CRotateGrant id' x' _ _ _ => id' = id ∧ x' = x
  | TheAssertion c j, CUseClientAssertion c' j' _ => c' = c ∧ j' = j
  | _, _ => False
  end.
#[export] Instance attempts_dec k c : Decision (attempts k c).
Proof. destruct k, c; cbn; apply _. Defined.

(** The attempt succeeded. *)
Definition takes (k : claim) (cr : ocall * result oanswer) : Prop :=
  attempts k cr.1 ∧ match cr.2 with Ok (RBool b) => b = true | _ => False end.
#[export] Instance takes_dec k cr : Decision (takes k cr).
Proof. unfold takes. destruct cr.2 as [[]|]; apply _. Defined.

(** The call may make the claim available again: the code or the grant is written anew, the
    grant is rotated back to the same token, used assertions are forgotten. *)
Definition renews (k : claim) (c : ocall) : Prop :=
  match k, c with
  | TheCode h, CCreateCode x => CodeHash x = h
  | TheToken id x, CCreateGrant g => Grant_ID g = id ∧ Grant_TokenHash g = x
  | TheToken id x, CRotateGrant id' _ new _ _ => id' = id ∧ new = x
  | TheAssertion _ _, CDeleteExpiredClientAssertions _ => True
  | _, _ => False
  end.

(** The claim has been taken. *)
Definition spent (k : claim) (O : ostate) : Prop :=
  match k with
  | TheCode h => ∀ c, r_codes (os_rows O) !! h = Some c → UsedAt c ≠ None
  | TheToken id x => ∀ g, r_grants (os_rows O) !! id = Some g → Grant_TokenHash g ≠ x
  | TheAssertion c j => is_Some (r_jtis (os_rows O) !! (c, j))
  end.

Lemma creates_lookup `{Countable K} {A} (k i : K) (x : A) m r m' y :
  creates k x m r m' → m' !! i = Some y → m !! i = Some y ∨ i = k ∧ y = x.
Proof.
  unfold creates. intros Hm Hy. assert (m' = m ∨ m' = <[k := x]> m) as [->| ->] by (destruct (m !! k); naive_solver).
  - by left.
  - apply lookup_insert_Some in Hy as [[<- <-]|[? ?]]; [by right|by left].
Qed.

Lemma swaps_lookup `{Countable K} {A} (k i : K) (now : A → Prop) `{!∀ a, Decision (now a)} f m r m' y :
  swaps k now f m r m' → m' !! i = Some y → m !! i = Some y ∨ i = k ∧ ∃ x, m !! k = Some x ∧ now x ∧ y = f x.
Proof.
  unfold swaps. intros Hm Hy. destruct (m !! k) as [x|] eqn:Hx; [case_bool_decide|]; destruct Hm as [_ ->]; [|by left..].
  apply lookup_insert_Some in Hy as [[<- <-]|[? ?]]; [right; eauto|by left].
Qed.

Ltac cases_of_step Hstep :=
  cbn in Hstep; try (lazymatch type of Hstep with match ?o with _ => _ end => destruct o eqn:? end);
  decompose [ex and] Hstep; clear Hstep; subst; cbn [os_rows on_rows set_consents set_clients set_codes
    set_grants set_jtis r_clients r_codes r_grants r_jtis] in *.

(** Where a row that is there afterwards comes from. *)
Ltac origin Hy :=
  lazymatch goal with
  | Hm : creates _ _ _ _ _ |- _ => apply (creates_lookup _ _ _ _ _ _ _ Hm) in Hy
  | Hm : swaps _ _ _ _ _ _ |- _ => apply (swaps_lookup _ _ _ _ _ _ _ _ Hm) in Hy
  end.

Lemma code_stays h c O r O' : ¬ renews (TheCode h) c → ostep c O r O' → spent (TheCode h) O → spent (TheCode h) O'.
Proof.
  intros Hn Hstep Hs y Hy. unfold spent in Hs. destruct c; cases_of_step Hstep; try (exact (Hs y Hy)).
  - origin Hy. destruct Hy as [Hy|[Hh _]]; [by apply Hs|by destruct Hn].
  - origin Hy. destruct Hy as [Hy|(_ & x' & _ & _ & ->)]; [by apply Hs|done].
  - apply map_lookup_filter_Some in Hy as [Hy _]. by apply Hs.
Qed.

Lemma token_stays id x c O r O' :
  ¬ renews (TheToken id x) c → ostep c O r O' → spent (TheToken id x) O → spent (TheToken id x) O'.
Proof.
  intros Hn Hstep Hs y Hy. unfold spent in Hs. destruct c; cases_of_step Hstep; try (exact (Hs y Hy)).
  - origin Hy. destruct Hy as [Hy|[Hh ->]]; [by apply Hs|]. intros <-. by destruct Hn.
  - origin Hy. destruct Hy as [Hy|(-> & x' & _ & _ & ->)]; [by apply Hs|].
    intros Hx. by destruct Hn.
  - apply lookup_delete_Some in Hy as [_ Hy]. by apply Hs.
  - apply map_lookup_filter_Some in Hy as [Hy _]. by apply Hs.
  - apply map_lookup_filter_Some in Hy as [Hy _]. by apply Hs.
Qed.

Lemma assertion_stays cl j c O r O' :
  ¬ renews (TheAssertion cl j) c → ostep c O r O' → spent (TheAssertion cl j) O → spent (TheAssertion cl j) O'.
Proof.
  intros Hn Hstep Hs. unfold spent in *. destruct c; cases_of_step Hstep; try done.
  by apply lookup_insert_is_Some'; right.
Qed.

Lemma spent_stays k c O r O' : ¬ renews k c → ostep c O r O' → spent k O → spent k O'.
Proof. destruct k; [apply code_stays|apply token_stays|apply assertion_stays]. Qed.

(** A successful attempt spends the claim, and a spent claim is not taken. *)
Lemma takes_spends k c O r O' : ¬ renews k c → ostep c O r O' → takes k (c, r) → ¬ spent k O ∧ spent k O'.
Proof.
  intros Hn Hstep [Ha Hr]. cbn in Ha, Hr. destruct k as [h|id x|cl j], c; cbn in Ha, Hn; try done.
  - subst. destruct Hstep as (m & Hm & ->). unfold swaps in Hm. cbn.
    destruct (r_codes (os_rows O) !! h) as [y|] eqn:Hy; [|by destruct Hm as [-> _]].
    case_bool_decide as Hu; [|by destruct Hm as [-> _]]. destruct Hm as [_ ->]. split.
    + intros Hs. by apply (Hs y).
    + rewrite lookup_insert_eq. by intros ? [= <-].
  - destruct Ha as [-> ->]. destruct Hstep as (m & Hm & ->). unfold swaps in Hm. cbn.
    destruct (r_grants (os_rows O) !! id) as [y|] eqn:Hy; [|by destruct Hm as [-> _]].
    case_bool_decide as Hu; [|by destruct Hm as [-> _]]. destruct Hm as [_ ->]. split.
    + intros Hs. by apply (Hs y).
    + rewrite lookup_insert_eq. intros ? [= <-]. cbn. intros Hx. by apply Hn.
  - destruct Ha as [-> ->]. cbn in Hstep. destruct (r_jtis (os_rows O) !! (cl, j)) eqn:Hj.
    + by destruct Hstep as [-> _].
    + destruct Hstep as [_ ->]. cbn. rewrite Hj, lookup_insert_eq. split; [by intros []|by eexists].
Qed.

(** ** Histories *)

Lemma sstep_spent lost k c O r O' : ¬ renews k c → sstep ostep lost c O r O' → spent k O → spent k O' ∧ ¬ takes k (c, r).
Proof.
  intros Hn [Hstep|[(e & -> & _) Hd]] Hs.
  - split; [by eapply spent_stays|]. intros Ht. by destruct (takes_spends k c O r O' Hn Hstep Ht).
  - split; [|by intros []]. destruct Hd as [->|[r' Hstep]]; [done|by eapply spent_stays].
Qed.

Lemma spent_history lost k cs O rs O' : Forall (λ c, ¬ renews k c) cs → history ostep lost O cs rs O' → spent k O →
  filter (takes k) (zip cs rs) = [].
Proof.
  intros Hn Hh. revert Hn. induction Hh as [|c cs r rs O O1 O2 Hstep Hh IH]; intros Hn Hs; [done|].
  apply Forall_cons in Hn as [Hc Hcs]. destruct (sstep_spent lost k c O r O1 Hc Hstep Hs).
  cbn [zip zip_with]. rewrite filter_cons_False by done. by apply IH.
Qed.

Lemma taken_once lost k cs O rs O' : Forall (λ c, ¬ renews k c) cs → history ostep lost O cs rs O' →
  (length (filter (takes k) (zip cs rs)) <= 1)%nat.
Proof.
  intros Hn Hh. revert Hn. induction Hh as [|c cs r rs O O1 O2 Hstep Hh IH]; intros Hn; [cbn; lia|].
  apply Forall_cons in Hn as [Hc Hcs]. cbn [zip zip_with]. rewrite filter_cons. case_decide as Ht; [|by apply IH].
  destruct Hstep as [Hstep|[(e & -> & _) _]]; [|by destruct Ht].
  destruct (takes_spends k c O r O1 Hc Hstep Ht) as [_ Hs]. cbn [length].
  rewrite (spent_history lost k cs O1 rs O2 Hcs Hh Hs). cbn. lia.
Qed.
