(* ===== verification/PgOAuthSpec.v ===== *)
(** * The SQL stores refine the abstract OAuth store

    On a server that keeps its tables as [SqlSem] says, every method of the pgx and sqlc
    OAuth stores either fails with the server's own error, having done nothing or all of its
    work, or answers and changes the tables as the abstract store of [OAuthStoreModel] does,
    up to the resolution of a timestamp, which is a microsecond. *)

From S2P Require Import Prelude GoStrings Errors World Entities OAuthTypes Stores StoreLaws Naming Sql GoJson Pgx.
From S2P Require Import PgQueries PgStore PgOAuth SqlcGen SqlcStore SqlSchema SqlTyped SqlSem OAuthStoreModel.

Local Open Scope Z_scope.

(** ** What a database keeps of a row *)

Definition trunc (t : Time) : Time := t / 1000 * 1000.

Definition norm_client (c : Client) : Client :=
  mkClient (Client_ID c) (SecretHash c) (Client_Name c) (ToValidUTF8 <$> RedirectURIs c)
    (TokenEndpointAuthMethod c) (ToValidUTF8 <$> GrantTypes c) (trunc (Client_CreatedAt c))
    (trunc <$> Client_LastUsedAt c).
Definition norm_code (c : Code) : Code :=
  mkCode (CodeHash c) (Code_ClientID c) (Code_UserID c) (Code_RedirectURI c) (Code_Scopes c)
    (Code_Resource c) (CodeChallenge c) (trunc (Code_ExpiresAt c)) (trunc <$> UsedAt c) (Code_GrantID c).
Definition norm_consent (x : Consent) : Consent :=
  mkConsent (Consent_UserID x) (Consent_ClientID x) (Consent_Scopes x) (trunc (Consent_CreatedAt x))
    (trunc (Consent_UpdatedAt x)).
Definition norm_grant (g : Grant) : Grant :=
  mkGrant (Grant_ID g) (Grant_UserID g) (Grant_ClientID g) (Grant_Scopes g) (Grant_Resource g)
    (Grant_TokenHash g) (PrevTokenHash g) (Grant_SecurityStamp g) (trunc (Grant_ExpiresAt g))
    (trunc (Grant_CreatedAt g)) (trunc <$> Grant_LastUsedAt g).

(** The call as the database takes it. *)
Definition norm_call (c : ocall) : ocall :=
  match c with
  | CCreateClient x => CCreateClient (norm_client x)
  | CTouchClient id t => CTouchClient id (trunc t)
  | CDeleteStaleClients t => CDeleteStaleClients (trunc t)
  | CCreateCode x => CCreateCode (norm_code x)
  | CMarkCodeUsed h g t => CMarkCodeUsed h g (trunc t)
  | CDeleteExpiredCodes t => CDeleteExpiredCodes (trunc t)
  | CSaveConsent x => CSaveConsent (norm_consent x)
  | CCreateGrant x => CCreateGrant (norm_grant x)
  | CRotateGrant id o n e t => CRotateGrant id o n (trunc e) (trunc t)
  | CDeleteExpiredGrants t => CDeleteExpiredGrants (trunc t)
  | CUseClientAssertion c j e => CUseClientAssertion c j (trunc e)
  | CDeleteExpiredClientAssertions t => CDeleteExpiredClientAssertions (trunc t)
  | _ => c
  end.

(** The lists of a client are texts, not arbitrary bytes. *)
Definition clean (c : Client) : Prop :=
  ToValidUTF8 <$> RedirectURIs c = RedirectURIs c ∧ ToValidUTF8 <$> GrantTypes c = GrantTypes c.
Definition clean_call (c : ocall) : Prop := match c with CCreateClient x => clean x | _ => True end.

(** ** Tables *)

Definition text_value : string → value := VText.
Definition time_value (t : Time) : value := encode (ATime t).
Definition timeptr_value (t : option Time) : value := encode (ATimePtr t).

Definition client_row (c : Client) : row :=
  [VText (Client_ID c); VText (SecretHash c); VText (Client_Name c); VText (Marshal_list (RedirectURIs c));
   VText (TokenEndpointAuthMethod c); VText (Marshal_list (GrantTypes c)); time_value (Client_CreatedAt c);
   timeptr_value (Client_LastUsedAt c)].
Definition code_row (c : Code) : row :=
  [VText (CodeHash c); VText (Code_ClientID c); VText (Code_UserID c); VText (Code_RedirectURI c);
   VText (Code_Scopes c); VText (Code_Resource c); VText (CodeChallenge c); time_value (Code_ExpiresAt c);
   timeptr_value (UsedAt c); VText (Code_GrantID c)].
Definition consent_row (x : Consent) : row :=
  [VText (Consent_UserID x); VText (Consent_ClientID x); VText (Consent_Scopes x);
   time_value (Consent_CreatedAt x); time_value (Consent_UpdatedAt x)].
Definition grant_row (g : Grant) : row :=
  [VText (Grant_ID g); VText (Grant_UserID g); VText (Grant_ClientID g); VText (Grant_Scopes g);
   VText (Grant_Resource g); VText (Grant_TokenHash g); VText (PrevTokenHash g); VText (Grant_SecurityStamp g);
   time_value (Grant_ExpiresAt g); time_value (Grant_CreatedAt g); timeptr_value (Grant_LastUsedAt g)].
(** An assertion's entry carries its key. *)
Definition jti_row (x : (string * string) * Time) : row := [VText x.1.1; VText x.1.2; time_value x.2].

Definition key1 (k : string) : list value := [VText k].
Definition key2 (k : string * string) : list value := [VText k.1; VText k.2].
#[export] Instance key1_inj : Inj (=) (=) key1.
Proof. by intros ?? [= ->]. Qed.
#[export] Instance key2_inj : Inj (=) (=) key2.
Proof. by intros [] [] [= -> ->]. Qed.

Abbreviation clients_t := ("", "identity_oauth_clients") (only parsing).
Abbreviation codes_t := ("", "identity_oauth_codes") (only parsing).
Abbreviation consents_t := ("", "identity_oauth_consents") (only parsing).
Abbreviation grants_t := ("", "identity_oauth_grants") (only parsing).
Abbreviation jtis_t := ("", "identity_oauth_assertions") (only parsing).

(** The assertions as entries with their keys. *)
Definition jti_entries (m : gmap (string * string) Time) : gmap (string * string) ((string * string) * Time) :=
  map_imap (λ k t, Some (k, t)) m.

(** The tables hold the abstract state, and the state is one a database can hold. *)
Record holds_state (d : database) (O : ostate) : Prop := {
  hs_clients : d !! clients_t = Some (rows_of key1 client_row (r_clients (os_rows O)));
  hs_codes : d !! codes_t = Some (rows_of key1 code_row (r_codes (os_rows O)));
  hs_consents : d !! consents_t = Some (rows_of key2 consent_row (os_consents O));
  hs_grants : d !! grants_t = Some (rows_of key1 grant_row (r_grants (os_rows O)));
  hs_jtis : d !! jtis_t = Some (rows_of key2 jti_row (jti_entries (r_jtis (os_rows O))));
  hs_keyed : okeyed O;
  hs_norm_clients : map_Forall (λ _ c, norm_client c = c) (r_clients (os_rows O));
  hs_norm_codes : map_Forall (λ _ c, norm_code c = c) (r_codes (os_rows O));
  hs_norm_consents : map_Forall (λ _ x, norm_consent x = x) (os_consents O);
  hs_norm_grants : map_Forall (λ _ g, norm_grant g = g) (r_grants (os_rows O));
  hs_norm_jtis : map_Forall (λ _ t, trunc t = t) (r_jtis (os_rows O));
}.

Lemma trunc_idem t : trunc (trunc t) = trunc t.
Proof. unfold trunc. by rewrite Z.div_mul. Qed.
Lemma time_value_trunc t : time_value (trunc t) = time_value t.
Proof. unfold time_value, trunc. cbn. by rewrite Z.div_mul. Qed.
Lemma timeptr_value_trunc t : timeptr_value (trunc <$> t) = timeptr_value t.
Proof. destruct t as [t|]; [apply (time_value_trunc t)|done]. Qed.
Lemma trunc_ptr_idem (t : option Time) : trunc <$> (trunc <$> t) = trunc <$> t.
Proof. destruct t; cbn; [by rewrite trunc_idem|done]. Qed.

(** On times of that resolution the order is the one the database sees. *)
Lemma trunc_lt t b : trunc t = t → (t / 1000 <? b / 1000) = (t <? trunc b).
Proof.
  unfold trunc. intros Ht. apply eq_bool_prop_intro. rewrite !Is_true_true, !Z.ltb_lt. lia.
Qed.

Lemma client_row_norm c : clean c → client_row (norm_client c) = client_row c.
Proof.
  intros [H1 H2]. unfold client_row, norm_client. cbn [Client_ID SecretHash Client_Name RedirectURIs
    TokenEndpointAuthMethod GrantTypes Client_CreatedAt Client_LastUsedAt].
  by rewrite H1, H2, time_value_trunc, timeptr_value_trunc.
Qed.
Lemma code_row_norm c : code_row (norm_code c) = code_row c.
Proof. unfold code_row, norm_code. cbn -[trunc time_value timeptr_value]. by rewrite time_value_trunc, timeptr_value_trunc. Qed.
Lemma consent_row_norm c : consent_row (norm_consent c) = consent_row c.
Proof. unfold consent_row, norm_consent. cbn -[trunc time_value]. by rewrite !time_value_trunc. Qed.
Lemma grant_row_norm c : grant_row (norm_grant c) = grant_row c.
Proof. unfold grant_row, norm_grant. cbn -[trunc time_value timeptr_value]. by rewrite !time_value_trunc, timeptr_value_trunc. Qed.

Lemma norm_client_idem c : clean c → norm_client (norm_client c) = norm_client c.
Proof.
  intros [H1 H2]. unfold norm_client. cbn [Client_ID SecretHash Client_Name RedirectURIs
    TokenEndpointAuthMethod GrantTypes Client_CreatedAt Client_LastUsedAt].
  by rewrite H1, H2, H1, H2, trunc_idem, trunc_ptr_idem.
Qed.
Lemma norm_code_idem c : norm_code (norm_code c) = norm_code c.
Proof. unfold norm_code. cbn -[trunc fmap]. by rewrite trunc_idem, trunc_ptr_idem. Qed.
Lemma norm_consent_idem c : norm_consent (norm_consent c) = norm_consent c.
Proof. unfold norm_consent. cbn -[trunc]. by rewrite !trunc_idem. Qed.
Lemma norm_grant_idem c : norm_grant (norm_grant c) = norm_grant c.
Proof. unfold norm_grant. cbn -[trunc fmap]. by rewrite !trunc_idem, trunc_ptr_idem. Qed.

(** ** Writing one of the tables *)

Ltac other_tables := cbn [os_rows os_consents on_rows set_consents set_clients set_codes set_grants set_jtis
  r_clients r_codes r_grants r_jtis].

Ltac write_table Hd :=
  destruct Hd as [? ? ? ? ? (?&?&?&?)]; split; other_tables; try done; try (by split_and!);
    first [apply lookup_insert_eq|by rewrite lookup_insert_ne].

Section tables.
Context (d : database) (O : ostate) (Hd : holds_state d O).

Lemma holds_clients m : map_Forall (λ k c, Client_ID c = k) m → map_Forall (λ _ c, norm_client c = c) m →
  holds_state (<[clients_t := rows_of key1 client_row m]> d) (on_rows (set_clients m) O).
Proof.
  intros Hk Hn. write_table Hd.
Qed.
Lemma holds_codes m : map_Forall (λ k c, CodeHash c = k) m → map_Forall (λ _ c, norm_code c = c) m →
  holds_state (<[codes_t := rows_of key1 code_row m]> d) (on_rows (set_codes m) O).
Proof.
  intros Hk Hn. write_table Hd.
Qed.
Lemma holds_grants m : map_Forall (λ k c, Grant_ID c = k) m → map_Forall (λ _ c, norm_grant c = c) m →
  holds_state (<[grants_t := rows_of key1 grant_row m]> d) (on_rows (set_grants m) O).
Proof.
  intros Hk Hn. write_table Hd.
Qed.
Lemma holds_consents m : map_Forall (λ k x, (Consent_UserID x, Consent_ClientID x) = k) m →
  map_Forall (λ _ c, norm_consent c = c) m →
  holds_state (<[consents_t := rows_of key2 consent_row m]> d) (set_consents m O).
Proof.
  intros Hk Hn. write_table Hd.
Qed.
Lemma holds_jtis m : map_Forall (λ _ t, trunc t = t) m →
  holds_state (<[jtis_t := rows_of key2 jti_row (jti_entries m)]> d) (on_rows (set_jtis m) O).
Proof.
  intros Hn. write_table Hd.
Qed.
End tables.

Lemma jti_entries_lookup m k : jti_entries m !! k = (λ t, (k, t)) <$> m !! k.
Proof. unfold jti_entries. by rewrite map_lookup_imap. Qed.
Lemma jti_entries_insert m k t : <[k := (k, t)]> (jti_entries m) = jti_entries (<[k := t]> m).
Proof.
  apply map_eq. intros i. rewrite jti_entries_lookup. destruct (decide (i = k)) as [->|].
  - by rewrite !lookup_insert_eq.
  - by rewrite !lookup_insert_ne, jti_entries_lookup by done.
Qed.
Lemma jti_entries_size m : size (jti_entries m) = size m.
Proof.
  rewrite <-!size_dom. f_equal. apply set_eq. intros k. rewrite !elem_of_dom, jti_entries_lookup. by rewrite fmap_is_Some.
Qed.
Lemma jti_entries_removed m m' : removed (jti_entries m) (jti_entries m') = removed m m'.
Proof. unfold removed. by rewrite !jti_entries_size. Qed.
Lemma jti_entries_filter p m :
  del_map (λ x : (string * string) * Time, p x.2) (jti_entries m) = jti_entries (filter (λ kv, p kv.2 = false) m).
Proof.
  apply map_eq. intros i. apply option_eq. intros [k t]. unfold del_map.
  rewrite map_lookup_filter_Some, !jti_entries_lookup. cbn.
  rewrite !fmap_Some. setoid_rewrite map_lookup_filter_Some. cbn. naive_solver.
Qed.

(** ** One statement

    For any abstract store, with the tables that hold its state. *)

Section statement.
Context {C B T : Type} (step : C → T → result B → T → Prop).
Context {S : Type} `{Server S} (tables : gmap (string * string) (gmap (list value) row) → T → Prop).
Implicit Types w : World S.

Abbreviation db w := (srv_db (w_store w)) (only parsing).

(** What is promised of a call that should answer as [c] does on [O]. *)
Definition does (c : C) (O : T) (r : result B) (d' : gmap (string * string) (gmap (list value) row)) : Prop :=
  ∃ O', sstep step srv_err c O r O' ∧ tables d' O'.

Lemma refines_step c O r O' d' : step c O r O' → tables d' O' → does c O r d'.
Proof. intros. exists O'. split; [by left|done]. Qed.
Lemma refines_lost c O e d' : srv_err e → tables d' O → does c O (Err e) d'.
Proof. intros. exists O. split; [right; split; [by exists e|by left]|done]. Qed.

(** [Exec], with what the method makes of the count. *)
Lemma exec_does (f : Z → result B) c O m vs st d1 n O1 w :
  tables (db w) O → executes default_schema m st vs →
  run_change default_schema vs (db w) st = Does (d1, n) →
  step c O (f n) O1 → tables d1 O1 →
  wp m (λ r w', calm w w' ∧ does c O (r ≫= f) (db w')) w.
Proof.
  intros Hs Hp Hrun Hstep Hs1. eapply wp_mono; [by apply Hp|]. intros r w' [Hc Hr]. split; [done|].
  rewrite Hrun in Hr. destruct Hr as [[-> ->]|[(e & -> & He) [-> | ->]]].
  - by eapply refines_step.
  - by apply refines_lost.
  - exists O1. split; [|done]. right. split; [by exists e|]. right. eauto.
Qed.

(** A change the server must refuse. *)
Lemma exec_fails (f : Z → result B) c O m vs st w :
  tables (db w) O → executes default_schema m st vs →
  run_change default_schema vs (db w) st = Fails →
  wp m (λ r w', calm w w' ∧ does c O (r ≫= f) (db w')) w.
Proof.
  intros Hs Hp Hrun. eapply wp_mono; [by apply Hp|]. intros r w' [Hc Hr]. split; [done|].
  rewrite Hrun in Hr. destruct Hr as [(e & -> & He) ->]. by apply refines_lost.
Qed.

Lemma answer_bind (f : Z → B) r : answer f r = r ≫= (Ok ∘ f).
Proof. by destruct r. Qed.

Lemma exec_refines (f : Z → B) c O m vs st d1 n O1 w :
  tables (db w) O → executes default_schema m st vs →
  run_change default_schema vs (db w) st = Does (d1, n) →
  step c O (Ok (f n)) O1 → tables d1 O1 →
  wp m (λ r w', calm w w' ∧ does c O (answer f r) (db w')) w.
Proof.
  intros. eapply wp_mono; [by eapply (exec_does (Ok ∘ f))|]. intros r w'. by rewrite answer_bind.
Qed.
Lemma exec_refused (f : Z → B) c O m vs st w :
  tables (db w) O → executes default_schema m st vs →
  run_change default_schema vs (db w) st = Fails →
  wp m (λ r w', calm w w' ∧ does c O (answer f r) (db w')) w.
Proof.
  intros. eapply wp_mono; [by eapply (exec_fails (Ok ∘ f))|]. intros r w'. by rewrite answer_bind.
Qed.

Lemma wp_unit_call (u : B) (m : M S (result Z)) Q w :
  wp m (λ r w', Q (answer (λ _, u) r) w') w → wp (r ← only_err m; mret (answer (λ _ : unit, u) r)) Q w.
Proof. intros Hm. apply wp_bind, wp_only_err. eapply wp_mono; [exact Hm|]. by intros []. Qed.
Lemma wp_count_call (f : Z → B) (m : M S (result Z)) Q w :
  wp m (λ r w', Q (answer f r) w') w → wp (r ← m; mret (answer f r)) Q w.
Proof. intros Hm. by apply wp_bind. Qed.

(** *** Rows added *)

Lemma insert_refines `{Countable K} {A} (u : B) t tb (key : K → list value) `{!Inj (=) (=) key} (enc : A → row)
    (a : gmap K A) k x c O m vs cols es (mk : gmap K A → T) w :
  tables (db w) O → lookup_table default_schema t = Some tb → db w !! t = Some (rows_of key enc a) →
  executes default_schema m (SInsert t cols (FromValues es) None) vs →
  inserts key enc default_schema vs (db w) tb cols es k x →
  (a !! k = None → step c O (Ok u) (mk (<[k := x]> a))
    ∧ tables (<[t := rows_of key enc (<[k := x]> a)]> (db w)) (mk (<[k := x]> a))) →
  wp m (λ r w', calm w w' ∧ does c O (answer (λ _, u) r) (db w')) w.
Proof.
  intros Hs Htb Hd Hp Hi Hnew.
  pose proof (run_insert key enc default_schema _ (db w) t tb a Htb Hd cols es None k x Hi) as Hrun.
  destruct (a !! k) as [old|] eqn:Hk; [by eapply exec_refused|].
  destruct (Hnew eq_refl). by eapply (exec_refines (λ _, u)).
Qed.

(** *** Rows found *)

(** What a lookup of [o] returns. *)
Definition found_row {A} (o : option A) w (r : result A) w' : Prop :=
  calm w w' ∧ db w' = db w ∧ match r with Ok x => o = Some x | Err e => srv_err e ∨ e = ErrNotFound ∧ o = None end.

Lemma found_refines {A} (m : M S (result A)) (f : A → B) c O (o : option A) w :
  tables (db w) O → wp m (found_row o w) w →
  step c O (match o with Some x => Ok (f x) | None => Err ErrNotFound end) O →
  wp (r ← m; mret (answer f r)) (λ r w', calm w w' ∧ does c O r (db w')) w.
Proof.
  intros Hs Hm Hstep. apply wp_bind. eapply wp_mono; [exact Hm|]. intros r w' (Hc & Hdb & Hr). apply wp_ret.
  split; [done|]. rewrite Hdb. destruct r as [x|e]; cbn [answer].
  - rewrite Hr in Hstep. by eapply refines_step.
  - destruct Hr as [He|[-> Ho]]; [by apply refines_lost|]. rewrite Ho in Hstep. by eapply refines_step.
Qed.
End statement.

(** ** The OAuth store *)

Abbreviation refines := (does ostep holds_state).

Section server.
Context {S : Type} `{Server S}.
Implicit Types w : World S.

Abbreviation db w := (srv_db (w_store w)) (only parsing).

Lemma wp_bool_call (m : M S (result Z)) Q w :
  wp m (λ r w', Q (answer (λ n, RBool (n =? 1)) r) w') w → wp (r ← one_row m; mret (answer RBool r)) Q w.
Proof. intros Hm. apply wp_bind, wp_returns. eapply wp_mono; [exact Hm|]. by intros []. Qed.

(** ** The clients *)

Definition tb_of (t : string * string) : table :=
  match lookup_table default_schema t with Some tb => tb | None => mkTable [] [] [] end.
Definition clients_tb : table := Eval vm_compute in tb_of clients_t.
Definition codes_tb : table := Eval vm_compute in tb_of codes_t.
Definition consents_tb : table := Eval vm_compute in tb_of consents_t.
Definition grants_tb : table := Eval vm_compute in tb_of grants_t.
Definition jtis_tb : table := Eval vm_compute in tb_of jtis_t.

Section calls.
Context (O : ostate) (w : World S) (Hs : holds_state (db w) O) (m : M S (result Z)) (vs : list value).
Abbreviation run := (wp m) (only parsing).

Lemma create_client_refines x cols es : clean x → executes default_schema m (SInsert clients_t cols (FromValues es) None) vs →
  inserts key1 client_row default_schema vs (db w) clients_tb cols es (Client_ID x) x →
  wp m (λ r w', calm w w'
    ∧ refines (CCreateClient (norm_client x)) O (answer (λ _, RUnit) r) (db w')) w.
Proof.
  intros Hc Hp [Hi Hu]. assert (norm_client (norm_client x) = norm_client x) as Hn by by apply norm_client_idem.
  eapply (insert_refines ostep holds_state RUnit clients_t clients_tb key1 client_row (r_clients (os_rows O)) (Client_ID x) (norm_client x)
    _ _ _ _ _ _ (λ m, on_rows (set_clients m) O)); [done|reflexivity|apply Hs|done| |].
  - split; [unfold adds; by rewrite client_row_norm|done].
  - intros Hk. split.
    + eexists. split; [|done]. unfold creates. cbn [Client_ID norm_client]. by rewrite Hk.
    + destruct Hs. destruct hs_keyed0 as (?&_). apply holds_clients; [done| |]; by apply map_Forall_insert_2.
Qed.

Lemma create_code_refines x cols es : executes default_schema m (SInsert codes_t cols (FromValues es) None) vs →
  inserts key1 code_row default_schema vs (db w) codes_tb cols es (CodeHash x) x →
  wp m (λ r w', calm w w'
    ∧ refines (CCreateCode (norm_code x)) O (answer (λ _, RUnit) r) (db w')) w.
Proof.
  intros Hp [Hi Hu].
  eapply (insert_refines ostep holds_state RUnit codes_t codes_tb key1 code_row (r_codes (os_rows O)) (CodeHash x) (norm_code x)
    _ _ _ _ _ _ (λ m, on_rows (set_codes m) O)); [done|reflexivity|apply Hs|done| |].
  - split; [unfold adds; by rewrite code_row_norm|done].
  - intros Hk. split.
    + eexists. split; [|done]. unfold creates. cbn [CodeHash norm_code]. by rewrite Hk.
    + destruct Hs. destruct hs_keyed0 as (_&?&_). apply holds_codes; [done| |]; apply map_Forall_insert_2; try done.
      apply norm_code_idem.
Qed.

Lemma create_grant_refines x cols es : executes default_schema m (SInsert grants_t cols (FromValues es) None) vs →
  inserts key1 grant_row default_schema vs (db w) grants_tb cols es (Grant_ID x) x →
  wp m (λ r w', calm w w'
    ∧ refines (CCreateGrant (norm_grant x)) O (answer (λ _, RUnit) r) (db w')) w.
Proof.
  intros Hp [Hi Hu].
  eapply (insert_refines ostep holds_state RUnit grants_t grants_tb key1 grant_row (r_grants (os_rows O)) (Grant_ID x) (norm_grant x)
    _ _ _ _ _ _ (λ m, on_rows (set_grants m) O)); [done|reflexivity|apply Hs|done| |].
  - split; [unfold adds; by rewrite grant_row_norm|done].
  - intros Hk. split.
    + eexists. split; [|done]. unfold creates. cbn [Grant_ID norm_grant]. by rewrite Hk.
    + destruct Hs. destruct hs_keyed0 as (_&_&?&_). apply holds_grants; [done| |]; apply map_Forall_insert_2; try done.
      apply norm_grant_idem.
Qed.

(** *** Rows changed *)

Lemma touch_client_refines id t sets wh : executes default_schema m (SUpdate clients_t sets wh) vs →
  (∀ x, update_row default_schema vs (db w) clients_t clients_tb sets wh (client_row x)
    = Does (if text_eqb (Client_ID x) id then Some (client_row (touch_Client (trunc t) x)) else None)) →
  wp m (λ r w', calm w w' ∧ refines (CTouchClient id (trunc t)) O (answer (λ _, RUnit) r) (db w')) w.
Proof.
  intros Hp Hf. pose proof (run_update key1 client_row default_schema vs (db w) clients_t clients_tb
    (r_clients (os_rows O)) eq_refl (hs_clients _ _ Hs) eq_refl sets wh _ _ Hf) as Hrun.
  pose proof Hs as [??????? _ _ _ _]. destruct hs_keyed0 as (Hk&_).
  eapply (exec_refines ostep holds_state (λ _, RUnit)); [done|done|exact Hrun| |].
  - split; [done|]. rewrite <-(upd_map_alter _ (λ x, text_eqb (Client_ID x) id)); [done|].
    intros k x Hx. rewrite text_eqb_eq, (Hk k x Hx). done.
  - apply holds_clients; [done|by apply upd_map_Forall|]. apply upd_map_Forall; [done|]. intros _ x Hx.
    transitivity (touch_Client (trunc t) (norm_client x)); [|by rewrite Hx]. unfold norm_client, touch_Client.
    cbn -[trunc]. by rewrite trunc_idem.
Qed.

Lemma mark_code_refines h g t sets wh : executes default_schema m (SUpdate codes_t sets wh) vs →
  (∀ x, update_row default_schema vs (db w) codes_t codes_tb sets wh (code_row x)
    = Does (if text_eqb (CodeHash x) h && bool_decide (UsedAt x = None)
        then Some (code_row (mark_Code (trunc t) g x)) else None)) →
  wp m (λ r w', calm w w'
    ∧ refines (CMarkCodeUsed h g (trunc t)) O (answer (λ n, RBool (n =? 1)) r) (db w')) w.
Proof.
  intros Hp Hf. set (p x := text_eqb (CodeHash x) h && bool_decide (UsedAt x = None)).
  pose proof (run_update key1 code_row default_schema vs (db w) codes_t codes_tb
    (r_codes (os_rows O)) eq_refl (hs_codes _ _ Hs) eq_refl sets wh p _ Hf) as Hrun.
  pose proof Hs as [???????? _ _ _]. destruct hs_keyed0 as (_&Hk&_).
  assert (∀ k x, r_codes (os_rows O) !! k = Some x → p x = true → k = h) as Hat.
  { intros k x Hx [Hh _]%andb_prop. apply text_eqb_eq in Hh. by rewrite <-(Hk k x Hx). }
  eapply (exec_refines ostep holds_state (λ n, RBool (n =? 1))); [done|done|exact Hrun| |].
  2: { apply holds_codes; [done|by apply upd_map_Forall|]. apply upd_map_Forall; [done|]. intros _ x Hx.
    transitivity (mark_Code (trunc t) g (norm_code x)); [|by rewrite Hx]. unfold norm_code, mark_Code.
    cbn -[trunc]. by rewrite trunc_idem. }
  eexists. split; [|done]. unfold swaps. rewrite (sel_map_size h _ _ Hat), (upd_map_at h _ _ Hat).
  destruct (r_codes (os_rows O) !! h) as [x|] eqn:Hx; [|done]. unfold p. rewrite (proj2 (text_eqb_eq _ _) (Hk h x Hx)).
  by case_bool_decide.
Qed.

Lemma rotate_grant_refines id old new exp t sets wh : executes default_schema m (SUpdate grants_t sets wh) vs →
  (∀ x, update_row default_schema vs (db w) grants_t grants_tb sets wh (grant_row x)
    = Does (if text_eqb (Grant_ID x) id && text_eqb (Grant_TokenHash x) old
        then Some (grant_row (rotate_Grant (Grant_TokenHash x) new (trunc exp) (trunc t) x)) else None)) →
  wp m (λ r w', calm w w'
    ∧ refines (CRotateGrant id old new (trunc exp) (trunc t)) O (answer (λ n, RBool (n =? 1)) r) (db w')) w.
Proof.
  intros Hp Hf. set (p x := text_eqb (Grant_ID x) id && text_eqb (Grant_TokenHash x) old).
  pose proof (run_update key1 grant_row default_schema vs (db w) grants_t grants_tb
    (r_grants (os_rows O)) eq_refl (hs_grants _ _ Hs) eq_refl sets wh p
    (λ x, rotate_Grant (Grant_TokenHash x) new (trunc exp) (trunc t) x) Hf) as Hrun.
  pose proof Hs as [????????? Hn _]. destruct hs_keyed0 as (_&_&Hk&_).
  assert (∀ k x, r_grants (os_rows O) !! k = Some x → p x = true → k = id) as Hat.
  { intros k x Hx [Hh _]%andb_prop. apply text_eqb_eq in Hh. by rewrite <-(Hk k x Hx). }
  eapply (exec_refines ostep holds_state (λ n, RBool (n =? 1))); [done|done|exact Hrun| |].
  2: { apply holds_grants; [done|by apply upd_map_Forall|]. apply upd_map_Forall; [done|]. intros _ x Hx.
    transitivity (rotate_Grant (Grant_TokenHash x) new (trunc exp) (trunc t) (norm_grant x)); [|by rewrite Hx].
    unfold norm_grant, rotate_Grant. cbn -[trunc]. by rewrite !trunc_idem. }
  eexists. split; [|done]. unfold swaps. rewrite (sel_map_size id _ _ Hat), (upd_map_at id _ _ Hat).
  destruct (r_grants (os_rows O) !! id) as [x|] eqn:Hx; [|done]. unfold p. rewrite (proj2 (text_eqb_eq _ _) (Hk id x Hx)).
  cbn [andb]. case_bool_decide as Ho.
  + rewrite (proj2 (text_eqb_eq _ _) Ho). by rewrite Ho.
  + destruct (text_eqb _ _) eqn:He; [|done]. by apply text_eqb_eq in He.
Qed.

(** *** Rows deleted *)

(** A condition on a table's rows that selects what [p] says. *)
Definition deletes {K A} `{Countable K} (alias : string) (tb : table) (wh : option expr) (enc : A → row)
    (m : gmap K A) (p : A → bool) : Prop :=
  ∀ k x, m !! k = Some x → holds default_schema vs (db w) [[(alias, (tb, enc x))]] wh = Does (p x).

Lemma delete_codes_refines t alias wh : executes default_schema m (SDelete codes_t alias wh) vs →
  deletes alias codes_tb wh code_row (r_codes (os_rows O)) (λ x, Code_ExpiresAt x / 1000 <? t / 1000) →
  wp m (λ r w', calm w w' ∧ refines (CDeleteExpiredCodes (trunc t)) O (answer RCount r) (db w')) w.
Proof.
  intros Hp Hf. pose proof (run_delete key1 code_row default_schema vs (db w) codes_t codes_tb
    (r_codes (os_rows O)) eq_refl (hs_codes _ _ Hs) alias wh _ eq_refl Hf) as Hrun.
  pose proof Hs as [??????? Hn _ _ _]. destruct hs_keyed0 as (_&Hk&_).
  eapply exec_refines; [done|done|exact Hrun| |].
  2: { apply holds_codes; [done|by apply del_map_Forall..]. }
  rewrite (del_map_filter (λ x, Before (Code_ExpiresAt x) (trunc t) = false)); [done|]. intros k x Hx. unfold Before.
  by rewrite (trunc_lt (Code_ExpiresAt x)) by exact (f_equal Code_ExpiresAt (Hn k x Hx)).
Qed.

Lemma delete_expired_grants_refines t alias wh : executes default_schema m (SDelete grants_t alias wh) vs →
  deletes alias grants_tb wh grant_row (r_grants (os_rows O)) (λ x, Grant_ExpiresAt x / 1000 <? t / 1000) →
  wp m (λ r w', calm w w' ∧ refines (CDeleteExpiredGrants (trunc t)) O (answer RCount r) (db w')) w.
Proof.
  intros Hp Hf. pose proof (run_delete key1 grant_row default_schema vs (db w) grants_t grants_tb
    (r_grants (os_rows O)) eq_refl (hs_grants _ _ Hs) alias wh _ eq_refl Hf) as Hrun.
  pose proof Hs as [????????? Hn _]. destruct hs_keyed0 as (_&_&Hk&_).
  eapply exec_refines; [done|done|exact Hrun| |].
  2: { apply holds_grants; [done|by apply del_map_Forall..]. }
  rewrite (del_map_filter (λ x, Before (Grant_ExpiresAt x) (trunc t) = false)); [done|]. intros k x Hx. unfold Before.
  by rewrite (trunc_lt (Grant_ExpiresAt x)) by exact (f_equal Grant_ExpiresAt (Hn k x Hx)).
Qed.

Lemma delete_grant_refines id alias wh : executes default_schema m (SDelete grants_t alias wh) vs →
  deletes alias grants_tb wh grant_row (r_grants (os_rows O)) (λ x, text_eqb (Grant_ID x) id) →
  wp m (λ r w', calm w w' ∧ refines (CDeleteGrant id) O (answer (λ _, RUnit) r) (db w')) w.
Proof.
  intros Hp Hf. pose proof (run_delete key1 grant_row default_schema vs (db w) grants_t grants_tb
    (r_grants (os_rows O)) eq_refl (hs_grants _ _ Hs) alias wh _ eq_refl Hf) as Hrun.
  pose proof Hs as [????????? Hn _]. destruct hs_keyed0 as (_&_&Hk&_).
  eapply (exec_refines ostep holds_state (λ _, RUnit)); [done|done|exact Hrun| |].
  2: { apply holds_grants; [done|by apply del_map_Forall..]. }
  split; [done|]. do 2 f_equal. apply del_map_at. intros k x Hx. by rewrite text_eqb_eq, (Hk k x Hx).
Qed.

Lemma delete_user_client_refines u c alias wh : executes default_schema m (SDelete grants_t alias wh) vs →
  deletes alias grants_tb wh grant_row (r_grants (os_rows O))
    (λ x, text_eqb (Grant_UserID x) u && text_eqb (Grant_ClientID x) c) →
  wp m (λ r w', calm w w' ∧ refines (CDeleteUserClientGrants u c) O (answer RCount r) (db w')) w.
Proof.
  intros Hp Hf. pose proof (run_delete key1 grant_row default_schema vs (db w) grants_t grants_tb
    (r_grants (os_rows O)) eq_refl (hs_grants _ _ Hs) alias wh _ eq_refl Hf) as Hrun.
  pose proof Hs as [????????? Hn _]. destruct hs_keyed0 as (_&_&Hk&_).
  eapply exec_refines; [done|done|exact Hrun| |].
  2: { apply holds_grants; [done|by apply del_map_Forall..]. }
  rewrite (del_map_filter (λ x, ¬ (Grant_UserID x = u ∧ Grant_ClientID x = c))); [done|]. intros k x Hx.
  rewrite <-not_true_iff_false, andb_true_iff, !text_eqb_eq. done.
Qed.

Lemma delete_consent_refines u c alias wh : executes default_schema m (SDelete consents_t alias wh) vs →
  deletes alias consents_tb wh consent_row (os_consents O)
    (λ x, text_eqb (Consent_UserID x) u && text_eqb (Consent_ClientID x) c) →
  wp m (λ r w', calm w w' ∧ refines (CDeleteConsent u c) O (answer (λ _, RUnit) r) (db w')) w.
Proof.
  intros Hp Hf. pose proof (run_delete key2 consent_row default_schema vs (db w) consents_t consents_tb
    (os_consents O) eq_refl (hs_consents _ _ Hs) alias wh _ eq_refl Hf) as Hrun.
  pose proof Hs as [???????? Hn _ _]. destruct hs_keyed0 as (_&_&_&Hk).
  eapply (exec_refines ostep holds_state (λ _, RUnit)); [done|done|exact Hrun| |].
  2: { apply holds_consents; [done|by apply del_map_Forall..]. }
  split; [done|]. f_equal. apply del_map_at. intros k x Hx. pose proof (Hk k x Hx) as <-.
  rewrite andb_true_iff, !text_eqb_eq. naive_solver.
Qed.

Lemma delete_jtis_refines t alias wh : executes default_schema m (SDelete jtis_t alias wh) vs →
  deletes alias jtis_tb wh jti_row (jti_entries (r_jtis (os_rows O))) (λ x, x.2 / 1000 <? t / 1000) →
  wp m (λ r w', calm w w'
    ∧ refines (CDeleteExpiredClientAssertions (trunc t)) O (answer RCount r) (db w')) w.
Proof.
  intros Hp Hf. pose proof (run_delete key2 jti_row default_schema vs (db w) jtis_t jtis_tb
    (jti_entries (r_jtis (os_rows O))) eq_refl (hs_jtis _ _ Hs) alias wh _ eq_refl Hf) as Hrun.
  pose proof Hs as [?????? _ _ _ _ Hn].
  rewrite (jti_entries_filter (λ e, e / 1000 <? t / 1000)), jti_entries_removed in Hrun.
  eapply exec_refines; [done|done|exact Hrun| |].
  2: { apply holds_jtis; [done|]. by apply map_Forall_lookup; intros k x [Hx _]%map_lookup_filter_Some; apply (Hn k). }
  assert (filter (λ kv : (string * string) * Time, (kv.2 / 1000 <? t / 1000) = false) (r_jtis (os_rows O))
    = filter (λ kv, Before kv.2 (trunc t) = false) (r_jtis (os_rows O))) as ->; [|by split].
  apply map_filter_ext. intros k x Hx. cbn. unfold Before. by rewrite (trunc_lt x) by by apply (Hn k).
Qed.

(** A client without a recent use and without a grant. *)
Definition stale_row (t : Time) (x : Client) : bool :=
  (Client_CreatedAt x / 1000 <? t / 1000)
  && match Client_LastUsedAt x with Some u => u / 1000 <? t / 1000 | None => true end
  && negb (existsb (λ g, text_eqb (Grant_ClientID g) (Client_ID x)) (map_to_list (r_grants (os_rows O))).*2).

Lemma stale_row_spec t x : norm_client x = x → stale_row t x = true ↔ stale_client (trunc t) (os_rows O) x.
Proof.
  intros Hx. unfold stale_row, stale_client.
  rewrite !andb_true_iff, negb_true_iff, <-not_true_iff_false, existsb_exists.
  rewrite (trunc_lt (Client_CreatedAt x)), Z.ltb_lt by exact (f_equal Client_CreatedAt Hx).
  assert (match Client_LastUsedAt x with Some u => u / 1000 <? t / 1000 | None => true end = true
    ↔ ∀ u, Client_LastUsedAt x = Some u → u < trunc t) as Hused.
  { pose proof (f_equal Client_LastUsedAt Hx) as Ht. cbn [norm_client Client_LastUsedAt] in Ht.
    destruct (Client_LastUsedAt x) as [u|]; [|naive_solver]. injection Ht as Ht. rewrite trunc_lt, Z.ltb_lt by done.
    naive_solver. }
  assert (¬ (∃ g, In g (map_to_list (r_grants (os_rows O))).*2 ∧ text_eqb (Grant_ClientID g) (Client_ID x) = true)
    ↔ map_Forall (λ _ g, Grant_ClientID g ≠ Client_ID x) (r_grants (os_rows O))) as Hgrants; [|tauto].
  setoid_rewrite text_eqb_eq. setoid_rewrite <-list_elem_of_In. split.
  - intros Hno k g Hg Heq. apply Hno. exists g. split; [|done]. apply list_elem_of_fmap. exists (k, g).
    split; [done|]. by apply elem_of_map_to_list.
  - intros Hno (g & ([k g'] & -> & Hg%elem_of_map_to_list)%list_elem_of_fmap & Heq). by apply (Hno k g').
Qed.

Lemma delete_stale_refines t alias wh : executes default_schema m (SDelete clients_t alias wh) vs →
  deletes alias clients_tb wh client_row (r_clients (os_rows O)) (stale_row t) →
  wp m (λ r w', calm w w' ∧ refines (CDeleteStaleClients (trunc t)) O (answer RCount r) (db w')) w.
Proof.
  intros Hp Hf. pose proof (run_delete key1 client_row default_schema vs (db w) clients_t clients_tb
    (r_clients (os_rows O)) eq_refl (hs_clients _ _ Hs) alias wh _ eq_refl Hf) as Hrun.
  pose proof Hs as [?????? Hn _ _ _ _]. destruct hs_keyed0 as (Hk&_).
  eapply exec_refines; [done|done|exact Hrun| |].
  2: { apply holds_clients; [done|by apply del_map_Forall..]. }
  eexists. split; [done|]. split; [done|]. intros id c. unfold del_map. rewrite map_lookup_filter_Some. cbn.
  split; (intros [Hc Hst]; split; [done|]); pose proof (stale_row_spec t c (Hn id c Hc)) as Hspec.
  - intros Hst'%Hspec. congruence.
  - apply not_true_is_false. by intros Hst'%Hspec.
Qed.

(** *** Rows added or changed *)

Lemma save_consent_refines x cols es set sets :
  executes default_schema m (SInsert consents_t cols (FromValues es) (Some (["user_id"; "client_id"], set :: sets))) vs →
  inserts key2 consent_row default_schema vs (db w) consents_tb cols es
    (Consent_UserID x, Consent_ClientID x) x →
  (∀ old, apply_sets default_schema vs (db w) consents_tb
      [[(consents_t.2, (consents_tb, consent_row old)); ("excluded", (consents_tb, consent_row x))]] (set :: sets)
      (consent_row old)
    = Does (consent_row (mkConsent (Consent_UserID old) (Consent_ClientID old) (Consent_Scopes x)
        (Consent_CreatedAt old) (Consent_UpdatedAt x)))) →
  wp m (λ r w', calm w w' ∧ refines (CSaveConsent (norm_consent x)) O (answer (λ _, RUnit) r) (db w')) w.
Proof.
  intros Hp [Hi Hu] Hf. set (k := (Consent_UserID x, Consent_ClientID x)).
  assert (inserts key2 consent_row default_schema vs (db w) consents_tb cols es k (norm_consent x)) as Hi'
    by (split; [unfold adds; by rewrite consent_row_norm|done]).
  pose proof (run_insert key2 consent_row default_schema vs (db w) consents_t consents_tb
    (os_consents O) eq_refl (hs_consents _ _ Hs) cols es (Some (["user_id"; "client_id"], set :: sets)) k _ Hi') as Hrun.
  pose proof Hs as [???????? Hn _ _]. destruct hs_keyed0 as (_&_&_&Hk).
  destruct (os_consents O !! k) as [old|] eqn:Hold.
  - change (targets _ _ _) with true in Hrun. cbn [negb] in Hrun.
    rewrite consent_row_norm, Hf in Hrun. cbn [mbind effect_bind] in Hrun.
    pose proof (Hk k old Hold) as Hkey. injection Hkey as Hu1 Hc1. rewrite Hu1, Hc1 in Hrun.
    set (x' := set_Consent_CreatedAt (Consent_CreatedAt old) (norm_consent x)).
    assert (consent_row (mkConsent (Consent_UserID x) (Consent_ClientID x) (Consent_Scopes x)
        (Consent_CreatedAt old) (Consent_UpdatedAt x)) = consent_row x') as Hrow.
    { unfold x', consent_row, set_Consent_CreatedAt, norm_consent. cbn -[time_value trunc]. by rewrite time_value_trunc. }
    rewrite Hrow, rows_of_insert in Hrun by apply _.
    eapply (exec_refines ostep holds_state (λ _, RUnit)); [done|done|exact Hrun| |].
    2: { apply holds_consents; [done|by apply map_Forall_insert_2|]. apply map_Forall_insert_2; [|done].
      pose proof (f_equal Consent_CreatedAt (Hn k old Hold)) as Hcr. cbn [norm_consent Consent_CreatedAt] in Hcr.
      unfold x', norm_consent, set_Consent_CreatedAt. cbn -[trunc]. by rewrite trunc_idem, Hcr. }
    split; [done|]. cbn [Consent_UserID Consent_ClientID norm_consent]. fold k. by rewrite Hold.
  - eapply (exec_refines ostep holds_state (λ _, RUnit)); [done|done|exact Hrun| |].
    2: { apply holds_consents; [done|by apply map_Forall_insert_2|]. apply map_Forall_insert_2; [|done].
      apply norm_consent_idem. }
    split; [done|]. cbn [Consent_UserID Consent_ClientID norm_consent]. fold k. by rewrite Hold.
Qed.

Lemma use_assertion_refines c j e cols es target : targets jtis_tb target [] = true →
  executes default_schema m (SInsert jtis_t cols (FromValues es) (Some (target, []))) vs →
  inserts key2 jti_row default_schema vs (db w) jtis_tb cols es (c, j) ((c, j), e) →
  wp m (λ r w', calm w w'
    ∧ refines (CUseClientAssertion c j (trunc e)) O (answer (λ n, RBool (n =? 1)) r) (db w')) w.
Proof.
  intros Htg Hp [Hi Hu].
  assert (inserts key2 jti_row default_schema vs (db w) jtis_tb cols es (c, j) ((c, j), trunc e)) as Hi'.
  { split; [|done]. unfold adds in *. rewrite Hi. unfold jti_row. cbn [fst snd]. by rewrite time_value_trunc. }
  pose proof (run_insert key2 jti_row default_schema vs (db w) jtis_t jtis_tb
    (jti_entries (r_jtis (os_rows O))) eq_refl (hs_jtis _ _ Hs) cols es (Some (target, [])) (c, j) _ Hi') as Hrun.
  pose proof Hs as [?????? _ _ _ _ Hn]. rewrite jti_entries_lookup, jti_entries_insert in Hrun.
  destruct (r_jtis (os_rows O) !! (c, j)) as [old|] eqn:Hold; cbn [fmap option_fmap option_map] in Hrun.
  - rewrite Htg in Hrun. cbn [negb] in Hrun.
    eapply (exec_refines ostep holds_state (λ n, RBool (n =? 1))); [done|done|exact Hrun| |exact Hs]. cbn [ostep]. by rewrite Hold.
  - eapply (exec_refines ostep holds_state (λ n, RBool (n =? 1))); [done|done|exact Hrun| |].
    2: { apply holds_jtis; [done|]. apply map_Forall_insert_2; [apply trunc_idem|done]. }
    cbn [ostep]. by rewrite Hold.
Qed.

(** *** Rows read *)

Lemma read_row `{Countable K} {A} t tb (key : K → list value) `{!Inj (=) (=) key} (enc : A → row) (a : gmap K A)
    (none : error) (mr : M S (result row)) k alias items wh (p : A → bool) :
  lookup_table default_schema t = Some tb → db w !! t = Some (rows_of key enc a) →
  selects_row default_schema none mr (SSelect (Select items (Some (t, alias)) None wh None None None)) vs →
  (∀ x, query_row default_schema vs (db w) tb alias items wh None (enc x)
    = Does (if p x then Some (VNull, enc x) else None)) →
  (∀ k' x, a !! k' = Some x → p x = true ↔ k' = k) →
  wp mr (λ r w', calm w w' ∧ db w' = db w ∧
    match r with
    | Ok row => ∃ x, a !! k = Some x ∧ row = enc x
    | Err e => srv_err e ∨ e = none ∧ a !! k = None
    end) w.
Proof.
  intros Htb Hd Hp Hf Hat.
  destruct (run_select key enc default_schema vs (db w) t tb a Htb Hd alias items wh None p
    (λ _, VNull) enc Hf) as (rows & Hrun & Hrows).
  eapply wp_mono; [by eapply Hp|]. intros r w' (Hc & Hdb & Hr). split_and!; [done|done|].
  rewrite (sel_map_at k) in Hrows by (intros; by apply (Hat k' x)).
  assert (∀ x, a !! k = Some x → p x = true) as Hpx by (intros x Hx; by apply (Hat k x Hx)).
  destruct r as [row|e].
  - rewrite Hrows in Hr. destruct (a !! k) as [x|]; [|by rewrite map_to_list_empty in Hr; apply elem_of_nil in Hr].
    rewrite (Hpx x eq_refl), map_to_list_singleton in Hr. exists x. split; [done|]. by apply list_elem_of_singleton in Hr.
  - destruct Hr as [?|[-> ->]]; [by left|]. right. split; [done|]. destruct (a !! k) as [x|]; [|done].
    rewrite (Hpx x eq_refl), map_to_list_singleton in Hrows. by apply Permutation_nil_cons in Hrows.
Qed.

Lemma read_rows `{Countable K} {A} t tb (key : K → list value) `{!Inj (=) (=) key} (enc : A → row) (a : gmap K A)
    (mq : M S (result (list row * result unit))) alias items wh order (p : A → bool) (o : A → value) (f : A → row) :
  lookup_table default_schema t = Some tb → db w !! t = Some (rows_of key enc a) →
  selects default_schema mq (SSelect (Select items (Some (t, alias)) None wh order None None)) vs →
  (∀ x, query_row default_schema vs (db w) tb alias items wh order (enc x)
    = Does (if p x then Some (o x, f x) else None)) →
  wp mq (λ r w', calm w w' ∧ db w' = db w ∧
    match r with
    | Ok (l, fin) => ∃ xs, l = f <$> xs ∧ (∀ x, x ∈ xs → ∃ k, a !! k = Some x)
        ∧ match fin with Ok _ => xs ≡ₚ (map_to_list (sel_map p a)).*2 | Err e => srv_err e end
    | Err e => srv_err e
    end) w.
Proof.
  intros Htb Hd Hp Hf.
  destruct (run_select key enc default_schema vs (db w) t tb a Htb Hd alias items wh order p
    o f Hf) as (rows & Hrun & Hrows).
  assert (rows.*2 ≡ₚ f <$> (map_to_list (sel_map p a)).*2) as Hrows2.
  { rewrite Hrows, <-list_fmap_compose. reflexivity. }
  assert (∀ x, x ∈ (map_to_list (sel_map p a)).*2 → ∃ k, a !! k = Some x) as Hin.
  { intros x ([k x'] & -> & Hx%elem_of_map_to_list)%list_elem_of_fmap. exists k.
    by apply map_lookup_filter_Some in Hx as [? _]. }
  eapply wp_mono; [by eapply Hp|]. intros r w' (Hc & Hdb & Hr). split_and!; [done|done|].
  destruct r as [[l fin]|e]; [|done]. destruct fin as [|e].
  - destruct Hr as (l' & Hl' & -> & _).
    assert (l'.*2 ≡ₚ f <$> (map_to_list (sel_map p a)).*2) as Hp2 by by rewrite <-Hrows2, Hl'.
    destruct (Permutation_map_inv f _ Hp2) as (xs & Hxs & Hperm). exists xs. split_and!; [done| |done].
    intros x Hx. apply Hin. by rewrite Hperm.
  - destruct Hr as [Hsub He]. apply submseteq_Permutation in Hsub as [l' Hl'].
    assert (l ++ l' ≡ₚ f <$> (map_to_list (sel_map p a)).*2) as Hp2 by by rewrite <-Hrows2, Hl'.
    destruct (Permutation_map_inv f _ Hp2) as (xs & Hxs & Hperm). symmetry in Hxs.
    apply map_eq_app in Hxs as (xs1 & xs2 & -> & <- & _). exists xs1. split_and!; [done| |done].
    intros x Hx. apply Hin. rewrite Hperm. apply elem_of_app. by left.
Qed.
End calls.

(** *** Methods that read *)

Context `{Oracle} `{UnicodeDB}.

Lemma collect_rows {A B} (scan : row → result B) (g : B → A) (enc : A → row) (xs : list A) (fin : result unit) :
  (∀ x, x ∈ xs → ∃ y, scan (enc x) = Ok y ∧ g y = x) →
  (l ← collect scan (enc <$> xs, fin); (Ok (g <$> l) : result (list A))) = match fin with Ok _ => Ok xs | Err e => Err e end.
Proof.
  intros Hscan. unfold collect. cbn [fst snd].
  assert (∃ ys, scan_rows scan (enc <$> xs) = Ok ys ∧ g <$> ys = xs) as (ys & -> & Hys).
  { clear fin. induction xs as [|x xs IH]; [by exists []|]. destruct (Hscan x) as (y & Hy & Hg); [set_solver|].
    destruct IH as (ys & Hys & Hgs); [set_solver|]. exists (y :: ys). cbn. rewrite Hy. cbn. rewrite Hys. cbn.
    by rewrite Hg, Hgs. }
  destruct fin; cbn; [by rewrite Hys|done].
Qed.

(** The rows [p] selects, in any order. *)
Lemma list_refines `{Countable K} {C B T A X} (step : C → T → result B → T → Prop) (tabs : _ → T → Prop) (f : list A → B) c O w
    (m : M S (result (list A))) mq vs t tb (key : K → list value) `{!Inj (=) (=) key} (enc : A → row) (a : gmap K A)
    (scan : row → result X) (g : X → A) (p : A → bool) (o : A → value) alias items wh order :
  (∀ Q w, wp mq (λ r w', Q (q ← r; l ← collect scan q; (Ok (g <$> l) : result (list A))) w') w → wp m Q w) →
  tabs (db w) O → lookup_table default_schema t = Some tb → db w !! t = Some (rows_of key enc a) →
  selects default_schema mq (SSelect (Select items (Some (t, alias)) None wh order None None)) vs →
  (∀ x, query_row default_schema vs (db w) tb alias items wh order (enc x) = Does (if p x then Some (o x, enc x) else None)) →
  (∀ k x, a !! k = Some x → ∃ y, scan (enc x) = Ok y ∧ g y = x) →
  (∀ l, l ≡ₚ (map_to_list (sel_map p a)).*2 → step c O (Ok (f l)) O) →
  wp (r ← m; mret (answer f r)) (λ r w', calm w w' ∧ does step tabs c O r (db w')) w.
Proof.
  intros Hm Hs Htb Hd Hp Hf Hscan Hstep. apply wp_bind, Hm.
  eapply wp_mono; [eapply (read_rows w vs t tb key enc a _ _ _ _ _ _ _ enc); [exact Htb|exact Hd|exact Hp|exact Hf]|].
  intros r w' (Hc & Hdb & Hr). apply wp_ret. split; [done|]. rewrite Hdb. destruct r as [[l fin]|e]; [|by apply refines_lost].
  destruct Hr as (xs & -> & Hin & Hfin). cbn [mbind result_bind]. rewrite (collect_rows scan g enc).
  2: { intros x Hx. destruct (Hin x Hx) as [k Hk]. by apply (Hscan k). }
  destruct fin as [|e]; cbn [answer]; [|by apply refines_lost]. eapply refines_step; [by apply Hstep|done].
Qed.

(** A list of rows, as [ListUserGrants] reads it. *)
Lemma list_grants_refines {X} u O w (m : M S (result (list Grant))) mq vs (scan : row → result X) (g : X → Grant) order (o : Grant → value)
    alias items wh :
  (∀ Q w, wp mq (λ r w', Q (q ← r; l ← collect scan q; (Ok (g <$> l) : result (list Grant))) w') w → wp m Q w) →
  holds_state (db w) O → selects default_schema mq (SSelect (Select items (Some (grants_t, alias)) None wh order None None)) vs →
  (∀ x, query_row default_schema vs (db w) grants_tb alias items wh order (grant_row x)
    = Does (if text_eqb (Grant_UserID x) u then Some (o x, grant_row x) else None)) →
  (∀ x, ∃ y, scan (grant_row x) = Ok y ∧ g y = norm_grant x) →
  wp (r ← m; mret (answer RGrants r)) (λ r w', calm w w' ∧ refines (CListUserGrants u) O r (db w')) w.
Proof.
  intros Hm Hs Hp Hf Hscan. eapply (list_refines _ _ _ _ _ _ _ _ _ grants_t grants_tb key1 grant_row);
    [exact Hm|exact Hs|reflexivity|apply Hs|exact Hp|exact Hf| |].
  - intros k x Hx. destruct (Hscan x) as (y & Hy & Hg). exists y. split; [done|]. rewrite Hg. by apply (hs_norm_grants _ _ Hs k).
  - intros l Hl. split; [done|]. exists l. split; [done|]. rewrite Hl. unfold sel_map. f_equiv. apply reflexive_eq. f_equal.
    apply map_filter_ext. intros k x _. cbn. by rewrite text_eqb_eq.
Qed.

Context `{Scanner, !ScannerLaws} `{Pool S, !SqlServer S default_schema}.

Lemma no_rows_srv e : srv_err e → mapNotFound e = e.
Proof. intros He. unfold mapNotFound. by rewrite (srv_err_rows e He). Qed.
Lemma mapNotFound_ErrNoRows : mapNotFound ErrNoRows = ErrNotFound.
Proof. unfold mapNotFound. by rewrite no_rows_ErrNoRows. Qed.

Lemma pgx_found {A} (scan : row → result A) (enc : A → row) (o : option A) text args w :
  wp (QueryRow pool text args) (λ r w', calm w w' ∧ db w' = db w ∧ match r with
    | Ok row => ∃ x, o = Some x ∧ row = enc x | Err e => srv_err e ∨ e = ErrNoRows ∧ o = None end) w →
  (∀ x, o = Some x → scan (enc x) = Ok x) →
  wp (PgOAuth.found scan text args) (found_row o w) w.
Proof.
  intros Hq Hscan. unfold PgOAuth.found. apply wp_bind. eapply wp_mono; [exact Hq|].
  intros r w' (Hc & Hdb & Hr). apply wp_ret. split_and!; [done|done|]. destruct r as [row|e].
  - destruct Hr as (x & Ho & ->). cbn. by rewrite (Hscan x Ho).
  - cbn. destruct Hr as [He|[-> Ho]]; [left; by rewrite no_rows_srv|right]. by rewrite mapNotFound_ErrNoRows.
Qed.

(** Listings, as [list_refines] reads them. *)
Lemma wp_many {A} (scan : row → result A) text args Q w :
  wp (Query pool text args) (λ r w', Q (q ← r; l ← collect scan q; (Ok (id <$> l) : result (list A))) w') w →
  wp (many scan text args) Q w.
Proof.
  intros Hq. unfold many. apply wp_returns. eapply wp_mono; [exact Hq|]. intros r w2 HQ. destruct r as [[l f]|e]; [|exact HQ].
  cbn [mbind result_bind] in HQ |- *. destruct (collect _ _); [|exact HQ]. cbn [mbind result_bind] in HQ.
  by rewrite list_fmap_id in HQ.
Qed.
Lemma wp_listed_as {A B} (scan : row → result B) (g : B → A) text args Q w :
  wp (Query pool text args) (λ r w', Q (q ← r; l ← collect scan q; (Ok (g <$> l) : result (list A))) w') w →
  wp (listed_as (returns (Query pool text args) (collect scan)) g) Q w.
Proof.
  intros Hq. unfold listed_as. apply wp_returns, wp_returns. eapply wp_mono; [exact Hq|]. intros r w2 HQ. by destruct r.
Qed.

Lemma sqlc_found {A B} (scan : row → result B) (g : B → A) (enc : A → row) (o : option A) text args w :
  wp (QueryRow pool text args) (λ r w', calm w w' ∧ db w' = db w ∧ match r with
    | Ok row => ∃ x, o = Some x ∧ row = enc x | Err e => srv_err e ∨ e = ErrNoRows ∧ o = None end) w →
  (∀ x, o = Some x → ∃ y, scan (enc x) = Ok y ∧ g y = x) →
  wp (found_as (returns (QueryRow pool text args) scan) g) (found_row o w) w.
Proof.
  intros Hq Hscan. unfold found_as. apply wp_bind, wp_returns. eapply wp_mono; [exact Hq|].
  intros r w' (Hc & Hdb & Hr). apply wp_ret. split_and!; [done|done|]. destruct r as [row|e].
  - destruct Hr as (x & Ho & ->). destruct (Hscan x Ho) as (y & Hy & Hg). cbn. rewrite Hy. by rewrite Hg.
  - cbn. destruct Hr as [He|[-> Ho]]; [left; by rewrite no_rows_srv|right]. by rewrite mapNotFound_ErrNoRows.
Qed.

(** The same, with the lists of a client still to be decoded. *)
Lemma pgx_found_then {A B} (scan : row → result B) (dec : B → result A) (enc : A → row) (o : option A) text args w :
  wp (QueryRow pool text args) (λ r w', calm w w' ∧ db w' = db w ∧ match r with
    | Ok row => ∃ x, o = Some x ∧ row = enc x | Err e => srv_err e ∨ e = ErrNoRows ∧ o = None end) w →
  (∀ x, o = Some x → (y ← scan (enc x); dec y) = Ok x) →
  wp (returns (PgOAuth.found scan text args) dec) (found_row o w) w.
Proof.
  intros Hq Hscan. unfold PgOAuth.found. apply wp_returns, wp_bind. eapply wp_mono; [exact Hq|].
  intros r w' (Hc & Hdb & Hr). apply wp_ret. split_and!; [done|done|]. destruct r as [row|e].
  - destruct Hr as (x & Ho & ->). specialize (Hscan x Ho). cbn. destruct (scan (enc x)) as [y|]; [|done].
    cbn in *. by rewrite Hscan.
  - cbn. destruct Hr as [He|[-> Ho]]; [left; by rewrite no_rows_srv|right]. by rewrite mapNotFound_ErrNoRows.
Qed.
Lemma sqlc_found_then {A B} (scan : row → result B) (dec : B → result A) (enc : A → row) (o : option A) text args w :
  wp (QueryRow pool text args) (λ r w', calm w w' ∧ db w' = db w ∧ match r with
    | Ok row => ∃ x, o = Some x ∧ row = enc x | Err e => srv_err e ∨ e = ErrNoRows ∧ o = None end) w →
  (∀ x, o = Some x → (y ← scan (enc x); dec y) = Ok x) →
  wp (returns (found_as (returns (QueryRow pool text args) scan) id) dec) (found_row o w) w.
Proof.
  intros Hq Hscan. unfold found_as. apply wp_returns, wp_bind, wp_returns. eapply wp_mono; [exact Hq|].
  intros r w' (Hc & Hdb & Hr). apply wp_ret. split_and!; [done|done|]. destruct r as [row|e].
  - destruct Hr as (x & Ho & ->). specialize (Hscan x Ho). cbn. destruct (scan (enc x)) as [y|]; [|done].
    cbn in *. by rewrite Hscan.
  - cbn. destruct Hr as [He|[-> Ho]]; [left; by rewrite no_rows_srv|right]. by rewrite mapNotFound_ErrNoRows.
Qed.

End server.

(** ** Scanning what was stored *)

Section scan_values.
Context `{Scanner, !ScannerLaws}.

Lemma scan_time_value t : scan_time (time_value t) = Ok (trunc t).
Proof. apply law_scan_time. Qed.
Lemma scan_timeptr_value t : scan_timeptr (timeptr_value t) = Ok (trunc <$> t).
Proof. destruct t; [apply law_scan_timeptr|apply law_scan_null]. Qed.

End scan_values.

Ltac scan_row := rewrite ?law_scan_string, ?scan_time_value, ?scan_timeptr_value; cbn [mbind result_bind].
Tactic Notation "scan_stored" reference(scan) reference(enc) := intros; unfold scan, enc; repeat (progress scan_row); reflexivity.

Section scanned.
Context `{Oracle} `{UnicodeDB} `{Scanner, !ScannerLaws} {S : Type} `{Pool S}.

Lemma scan_code_row c : PgOAuth.scan_code (code_row c) = Ok (norm_code c).
Proof. scan_stored PgOAuth.scan_code code_row. Qed.
Lemma scan_consent_row c : PgOAuth.scan_consent (consent_row c) = Ok (norm_consent c).
Proof. scan_stored PgOAuth.scan_consent consent_row. Qed.
Lemma scan_grant_row c : PgOAuth.scan_grant (grant_row c) = Ok (norm_grant c).
Proof. scan_stored PgOAuth.scan_grant grant_row. Qed.
Lemma unmarshal_list_Marshal l : PgOAuth.unmarshal_list (Marshal_list l) = Ok (ToValidUTF8 <$> l).
Proof. unfold PgOAuth.unmarshal_list. by rewrite Unmarshal_Marshal_list. Qed.

Lemma scan_client_row c : (x ← PgOAuth.scan_client (client_row c); decode_client x) = Ok (norm_client c).
Proof.
  unfold PgOAuth.scan_client, client_row. repeat (progress scan_row). unfold decode_client.
  by rewrite !unmarshal_list_Marshal.
Qed.
Lemma sqlc_client_row c :
  (x ← scan_IdentityOauthClient (client_row c); toClient x) = Ok (norm_client c).
Proof.
  unfold scan_IdentityOauthClient, client_row. repeat (progress scan_row). unfold toClient.
  cbn [IdentityOauthClient_RedirectUris IdentityOauthClient_GrantTypes]. by rewrite !unmarshal_list_Marshal.
Qed.
Lemma sqlc_code_row c : ∃ y, scan_IdentityOauthCode (code_row c) = Ok y ∧ toCode y = norm_code c.
Proof. unfold scan_IdentityOauthCode, code_row. repeat (progress scan_row). by eexists. Qed.
Lemma sqlc_consent_row c : ∃ y, scan_IdentityOauthConsent (consent_row c) = Ok y ∧ toConsent y = norm_consent c.
Proof. unfold scan_IdentityOauthConsent, consent_row. repeat (progress scan_row). by eexists. Qed.
Lemma sqlc_grant_row c : ∃ y, scan_IdentityOauthGrant (grant_row c) = Ok y ∧ toGrant y = norm_grant c.
Proof. unfold scan_IdentityOauthGrant, grant_row. repeat (progress scan_row). by eexists. Qed.
End scanned.

(** ** Statements evaluated on rows *)

(** A statement's text, read. *)
Ltac parses := vm_compute; reflexivity.

Lemma trunc_div t : trunc t / 1000 = t / 1000.
Proof. unfold trunc. by rewrite Z.div_mul. Qed.

Ltac split_record :=
  repeat match goal with
  | x : Client |- _ => destruct x
  | x : Code |- _ => destruct x
  | x : Consent |- _ => destruct x
  | x : Grant |- _ => destruct x
  | x : (_ * _)%type |- _ => destruct x
  | x : option _ |- _ => destruct x
  end.
Ltac split_tests :=
  repeat match goal with
  | |- context [text_eqb ?a ?b] => destruct (text_eqb a b)
  | |- context [int_ltb ?a ?b] => destruct (int_ltb a b)
  end.

(** What a statement does with a row, evaluated. *)
Ltac row_fact :=
  intros; split_record; lazy -[text_eqb int_ltb Z.div Marshal_list trunc srv_db w_store];
  rewrite ?trunc_div; first [reflexivity|split_tests; reflexivity].

Section rows.
Context {S : Type} `{Server S}.
Context (O : ostate) (w : World S) (Hs : holds_state (srv_db (w_store w)) O).

(** The condition on stale clients: two on the row itself and an [EXISTS] of a grant. *)
Lemma stale_condition vs alias t wh items ga ge :
  (∀ x, (v ← eval default_schema vs (srv_db (w_store w)) [[(alias, (clients_tb, client_row x))]] wh; truth v)
    = Does (int_ltb (Client_CreatedAt x / 1000) (t / 1000)
        && match Client_LastUsedAt x with Some u => int_ltb (u / 1000) (t / 1000) | None => true end)) →
  (∀ x g, (v ← eval default_schema vs (srv_db (w_store w))
        ([(ga, (grants_tb, grant_row g))] :: [[(alias, (clients_tb, client_row x))]]) ge; truth v)
    = Does (text_eqb (Grant_ClientID g) (Client_ID x))) →
  ∀ x, holds default_schema vs (srv_db (w_store w)) [[(alias, (clients_tb, client_row x))]]
    (Some (EOp OAnd wh (ENot (EExists (Select items (Some (grants_t, ga)) None (Some ge) None None None)))))
    = Does (stale_row O t x).
Proof.
  intros Hf Hg x. unfold int_ltb in Hf. unfold holds.
  pose proof (eval_exists key1 grant_row default_schema vs (srv_db (w_store w)) grants_t grants_tb
    (r_grants (os_rows O)) eq_refl (hs_grants _ _ Hs) [[(alias, (clients_tb, client_row x))]] items ga ge
    (λ g, text_eqb (Grant_ClientID g) (Client_ID x)) (Hg x)) as He.
  cbn [eval] in He |- *. rewrite He. clear He.
  specialize (Hf x). destruct (eval _ _ _ _ wh) as [| |v]; try done. cbn [mbind effect_bind] in *.
  cbn [not_value op_values]. unfold stale_row. destruct v as [| |b| | |]; try done; injection Hf as <-;
    destruct (existsb _ _); try done; by destruct b.
Qed.

(** The rows a lookup may find. *)
Abbreviation looked_up none m o enc := (wp m (λ r w', calm w w' ∧ srv_db (w_store w') = srv_db (w_store w) ∧
  match r with Ok row => ∃ x, o = Some x ∧ row = enc x | Err e => srv_err e ∨ e = none ∧ o = None end) w) (only parsing).

Lemma look_client none (m : M S (result row)) vs alias items wh id :
  selects_row default_schema none m (SSelect (Select items (Some (clients_t, alias)) None wh None None None)) vs →
  (∀ x, query_row default_schema vs (srv_db (w_store w)) clients_tb alias items wh None (client_row x)
    = Does (if text_eqb (Client_ID x) id then Some (VNull, client_row x) else None)) →
  looked_up none m (r_clients (os_rows O) !! id) client_row.
Proof.
  intros Hp Hf. pose proof (hs_keyed _ _ Hs) as (Hk&_). eapply (read_row _ _ clients_t clients_tb key1 client_row);
    [reflexivity|apply Hs|exact Hp|exact Hf|]. intros k x Hx. cbn beta. by rewrite text_eqb_eq, (Hk k x Hx).
Qed.
Lemma look_code none (m : M S (result row)) vs alias items wh h :
  selects_row default_schema none m (SSelect (Select items (Some (codes_t, alias)) None wh None None None)) vs →
  (∀ x, query_row default_schema vs (srv_db (w_store w)) codes_tb alias items wh None (code_row x)
    = Does (if text_eqb (CodeHash x) h then Some (VNull, code_row x) else None)) →
  looked_up none m (r_codes (os_rows O) !! h) code_row.
Proof.
  intros Hp Hf. pose proof (hs_keyed _ _ Hs) as (_&Hk&_). eapply (read_row _ _ codes_t codes_tb key1 code_row);
    [reflexivity|apply Hs|exact Hp|exact Hf|]. intros k x Hx. cbn beta. by rewrite text_eqb_eq, (Hk k x Hx).
Qed.
Lemma look_grant none (m : M S (result row)) vs alias items wh id :
  selects_row default_schema none m (SSelect (Select items (Some (grants_t, alias)) None wh None None None)) vs →
  (∀ x, query_row default_schema vs (srv_db (w_store w)) grants_tb alias items wh None (grant_row x)
    = Does (if text_eqb (Grant_ID x) id then Some (VNull, grant_row x) else None)) →
  looked_up none m (r_grants (os_rows O) !! id) grant_row.
Proof.
  intros Hp Hf. pose proof (hs_keyed _ _ Hs) as (_&_&Hk&_). eapply (read_row _ _ grants_t grants_tb key1 grant_row);
    [reflexivity|apply Hs|exact Hp|exact Hf|]. intros k x Hx. cbn beta. by rewrite text_eqb_eq, (Hk k x Hx).
Qed.
Lemma look_consent none (m : M S (result row)) vs alias items wh u c :
  selects_row default_schema none m (SSelect (Select items (Some (consents_t, alias)) None wh None None None)) vs →
  (∀ x, query_row default_schema vs (srv_db (w_store w)) consents_tb alias items wh None (consent_row x)
    = Does (if text_eqb (Consent_UserID x) u && text_eqb (Consent_ClientID x) c then Some (VNull, consent_row x) else None)) →
  looked_up none m (os_consents O !! (u, c)) consent_row.
Proof.
  intros Hp Hf. pose proof (hs_keyed _ _ Hs) as (_&_&_&Hk). eapply (read_row _ _ consents_t consents_tb key2 consent_row);
    [reflexivity|apply Hs|exact Hp|exact Hf|]. intros k x Hx. cbn beta.
  rewrite andb_true_iff, !text_eqb_eq, <-(Hk k x Hx). naive_solver.
Qed.
End rows.
