(* ===== verification/GormSpec.v ===== *)
(** * What GORM sends

    The statements GORM documents for the chains the stores use, a server reached through
    them, and the GORM OAuth store on such a server: it implements the abstract store of
    [OAuthStoreModel] like the stores that write their SQL themselves. *)

From S2P Require Import Prelude GoStrings Errors World Entities OAuthTypes Stores StoreLaws Naming Sql GoJson Pgx.
From S2P Require Import PgQueries PgStore PgOAuth SqlSchema SqlTyped SqlSem OAuthStoreModel PgOAuthSpec.
From S2P Require Import Gorm GormStore GormOAuth.

Local Open Scope Z_scope.

(** ** Statements *)

(** The [n]-th [?] of a condition becomes [$n]; one that a list is bound to, [($n)]. *)
Fixpoint number (n : Z) (q : string) (args : list garg) : option string :=
  match q with
  | EmptyString => match args with [] => Some "" | _ => None end
  | String c q =>
    if Ascii.eqb c "?" then
      match args with
      | GArg _ :: args => s ← number (n + 1) q args; Some ("$" +:+ FormatInt n +:+ s)
      | GList _ :: args => s ← number (n + 1) q args; Some ("($" +:+ FormatInt n +:+ ")" +:+ s)
      | [] => None
      end
    else s ← number n q args; Some (String c s)
  end.

(** The elements of a list where it is bound; the arguments of a condition in their places.
    No condition of the stores has a subquery. *)
Definition splice (args : list garg) (e : expr) : list expr :=
  match e with
  | EParam n =>
    match args !! Z.to_nat (n - 1) with
    | Some (GArg a) => [EVal (encode a)]
    | Some (GList l) => EVal ∘ VText <$> l
    | None => []
    end
  | _ => [e]
  end.
Fixpoint bind (args : list garg) (e : expr) : option expr :=
  match e with
  | ECol _ _ | EVal _ | ENow | ECount => Some e
  | EParam n => match splice args e with [e] => Some e | _ => None end
  | ECast e ty => e ← bind args e; Some (ECast e ty)
  | EOp o e1 e2 => e1 ← bind args e1; e2 ← bind args e2; Some (EOp o e1 e2)
  | ENot e => e ← bind args e; Some (ENot e)
  | EIsNull e => e ← bind args e; Some (EIsNull e)
  | EInList e es => e ← bind args e; Some (EInList e (es ≫= splice args))
  | EExists _ | EIn _ _ | EScalar _ => None
  end.

Definition condition (q : string) (args : list garg) : option expr :=
  s ← number 1 q args; l ← lex s; '(e, l') ← p_or (12 * length l + 12)%nat l;
  match l' with [] => bind args e | _ => None end.

Definition table_ref (name : string) : option (string * string) :=
  l ← lex name; '(t, l) ← p_table l; match l with [] => Some t | _ => None end.

(** [Table] and [Where], and the clauses after them. *)
Definition target (cs : list clause) : option ((string * string) * expr * list clause) :=
  match cs with
  | Table n :: Where q args :: cs => t ← table_ref n; e ← condition q args; Some (t, e, cs)
  | _ => None
  end.

Definition delete_stmt (cs : list clause) : option stmt :=
  '(t, e, cs) ← target cs; match cs with [] => Some (SDelete t t.2 (Some e)) | _ => None end.

Definition update_stmt (cs : list clause) (sets : list (string * arg)) : option stmt :=
  '(t, e, cs) ← target cs;
  match cs with [] => Some (SUpdate t ((λ ca, (ca.1, EVal (encode ca.2))) <$> sets) (Some e)) | _ => None end.

Definition on_conflict (cs : list clause) : option (option (list string * list (string * expr))) :=
  match cs with
  | [] => Some None
  | [Clauses c] => Some (Some (oc_Columns c, if oc_DoNothing c then []
      else (λ x, (x, ECol "excluded" x)) <$> oc_DoUpdates c))
  | _ => None
  end.
Definition field_value (o : option arg) : value := match o with Some a => encode a | None => VNull end.

Section statements.
Context {T : Type} `{GormModel T}.

Definition insert_stmt (cs : list clause) (x : T) : option stmt :=
  match cs with
  | Table n :: cs => t ← table_ref n; c ← on_conflict cs;
      Some (SInsert t (gm_columns T) (FromValues (EVal ∘ field_value <$> gm_values x)) c)
  | _ => None
  end.

(** [Updates] with a [Select]: the named columns, zero values too, of the row with the
    struct's key, when it has one, that satisfies the condition. *)
Definition updates_stmt (cs : list clause) (x : T) : option stmt :=
  '(t, e, cs) ← target cs;
  match cs with
  | [SelectC names] =>
    let fields := zip (gm_columns T) (gm_values x) in
    let sets := filter (λ cv : string * option arg, cv.1 ∈ names ∧ cv.1 ∉ gm_keys T) fields in
    let keys := filter (λ cv : string * option arg, cv.1 ∈ gm_keys T ∧ cv.2 ≠ Some (AString "")) fields in
    Some (SUpdate t ((λ cv, (cv.1, EVal (field_value cv.2))) <$> sets)
      (Some (foldl (λ e cv, EOp OAnd e (EOp OEq (ECol "" cv.1) (EVal (field_value cv.2)))) e keys)))
  | _ => None
  end.

(** What GORM does not fill in by itself: times of creation and update, and numbered ids. *)
Definition complete (x : T) : Prop :=
  Forall (λ cv : string * option arg, cv.2 = Some (ATime zeroTime) → cv.1 ∉ ["created_at"; "updated_at"])
      (zip (gm_columns T) (gm_values x))
  ∧ ("id", Some (AInt 0)) ∉ zip (gm_columns T) (gm_values x).

Definition select_stmt (cs : list clause) : option stmt :=
  '(t, e, cs) ← target cs;
  let q o := SSelect (Select (ECol "" <$> gm_columns T) (Some (t, t.2)) None (Some e) o None None) in
  match cs with [] => Some (q None) | [Order c] => Some (q (Some c)) | _ => None end.
End statements.
Arguments select_stmt T {_}.

(** [Raw] with plain arguments. *)
Definition raw_stmt (text : string) (args : list arg) : option stmt :=
  s ← number 1 text (GArg <$> args); parse s.

(** A column of texts. *)
Definition one_text (r : row) : result string := match r with [v] => into_string v | _ => Err errScan end.

(** ** A server reached through GORM *)

(** [m] queries [q] and goes on with [f]. *)
Definition goes_on {S A B} (m : M S (result B)) (q : M S (result A)) (f : A → result B) : Prop :=
  ∀ Q w, wp (returns q f) Q w → wp m Q w.

Class GormServer (S : Type) `{GormDB S, Server S} (sch : schema) := {
  gs_found e : srv_err e → ErrorsIs e ErrRecordNotFound = false;
  gs_record : ErrorsIs ErrRecordNotFound ErrRecordNotFound = true;
  gs_Create {T} `{GormModel T} cs (x : T) st : insert_stmt cs x = Some st → complete x →
    executes sch (created (g_Create db cs x)) st [];
  gs_Updates {T} `{GormModel T} cs (x : T) st : updates_stmt cs x = Some st → "updated_at" ∉ gm_columns T →
    executes sch (created (g_Updates db cs x)) st [];
  gs_Delete T `{GormModel T} cs st : delete_stmt cs = Some st → executes sch (g_Delete db T cs) st [];
  gs_UpdateColumns cs sets st : update_stmt cs sets = Some st → executes sch (g_UpdateColumns db cs sets) st [];
  gs_Take {T} `{GormModel T} cs st : select_stmt T cs = Some st →
    ∃ m, selects_row sch ErrRecordNotFound m st [] ∧ goes_on (g_Take db cs) m (gm_scan (T := T));
  gs_Find {T} `{GormModel T} cs st : select_stmt T cs = Some st →
    ∃ m, selects sch m st [] ∧ goes_on (g_Find db cs) m (collect (gm_scan (T := T)));
  gs_RawStrings text args st : raw_stmt text args = Some st →
    ∃ m, selects sch m st (encode <$> args) ∧ goes_on (g_RawStrings db text args) m (collect one_text);
}.

(** ** The OAuth store *)

(** Two lists are kept as they are only when they have elements, and a time of zero is
    replaced by the current one. *)
Definition gorm_call (c : ocall) : Prop :=
  clean_call c ∧ match c with
  | CCreateClient x => RedirectURIs x ≠ [] ∧ GrantTypes x ≠ [] ∧ Client_CreatedAt x ≠ zeroTime
  | CSaveConsent x => Consent_CreatedAt x ≠ zeroTime ∧ Consent_UpdatedAt x ≠ zeroTime
  | CCreateGrant g => Grant_CreatedAt g ≠ zeroTime
  | _ => True
  end.

Lemma into_json_list l : into_json Unmarshal_list (VText (Marshal_list l)) = Ok (Some (ToValidUTF8 <$> l)).
Proof.
  unfold into_json. cbn [into_string mbind result_bind].
  assert (String.eqb (Marshal_list l) "" = false) as -> by done. by rewrite Unmarshal_Marshal_list.
Qed.

Lemma gorm_client_row c : gm_scan (client_row c) = Ok (norm_client c).
Proof.
  unfold client_row. cbn [gm_scan Client_model]. rewrite !into_json_list. by destruct c as [??????? []].
Qed.
Lemma gorm_code_row c : gm_scan (code_row c) = Ok (norm_code c).
Proof. by destruct c as [???????? [] ?]. Qed.
Lemma gorm_consent_row c : gm_scan (consent_row c) = Ok (norm_consent c).
Proof. by destruct c. Qed.
Lemma gorm_grant_row c : gm_scan (grant_row c) = Ok (norm_grant c).
Proof. by destruct c as [?????????? []]. Qed.

Section gorm.
Context `{Oracle} `{UnicodeDB} {S : Type} `{GormDB S, Server S, !GormServer S default_schema}.

Lemma gorm_found {T} `{GormModel T} (enc : T → row) (o : option T) cs st w :
  select_stmt T cs = Some st →
  (∀ m, selects_row default_schema ErrRecordNotFound m st [] → wp m (λ r w', calm w w' ∧ srv_db (w_store w') = srv_db (w_store w) ∧
    match r with Ok row => ∃ x, o = Some x ∧ row = enc x | Err e => srv_err e ∨ e = ErrRecordNotFound ∧ o = None end) w) →
  (∀ x, o = Some x → gm_scan (enc x) = Ok x) →
  wp (take cs) (found_row o w) w.
Proof.
  intros Hst Hm Hscan. unfold take. apply wp_bind. destruct (gs_Take cs st Hst) as (m & Hsel & Hgo). apply Hgo, wp_returns.
  eapply wp_mono; [by apply Hm|]. intros r w' (Hc & Hdb & Hr). apply wp_ret. split_and!; [done|done|]. destruct r as [row|e].
  - destruct Hr as (x & Ho & ->). cbn. by rewrite (Hscan x Ho).
  - cbn. destruct Hr as [He|[-> Ho]]; [left; by rewrite gs_found|right]. by rewrite gs_record.
Qed.

Lemma gorm_raw text args st (Q : result (list string) → World S → Prop) w : raw_stmt text args = Some st →
  (∀ m, selects default_schema m st (encode <$> args) → wp m (λ r w', Q (r ≫= collect one_text) w') w) →
  wp (g_RawStrings db text args) Q w.
Proof. intros Hst Hm. destruct (gs_RawStrings text args st Hst) as (m & Hsel & Hgo). apply Hgo, wp_returns. by apply Hm. Qed.
Lemma gorm_listed T `{GormModel T} cs st (P : Prop) : select_stmt T cs = Some st →
  (∀ m, selects default_schema m st [] → goes_on (g_Find db cs) m (collect (gm_scan (T := T))) → P) → P.
Proof. intros Hst HP. destruct (gs_Find cs st Hst) as (m & Hsel & Hgo). by eapply HP. Qed.

Lemma eval_ids sch vs d ctx ids v :
  foldr (λ e' b, v' ← eval sch vs d ctx e'; x ← eq_values (VText v) v'; y ← b; or_values x y) (Does (VBool false))
    (EVal ∘ VText <$> ids) = Does (VBool (existsb (text_eqb v) ids)).
Proof. induction ids as [|i ids IH]; [done|]. rewrite fmap_cons. cbn [foldr]. rewrite IH. cbn. by destruct (text_eqb v i), (existsb _ _). Qed.

Lemma collect_map {A B} (scan : row → result B) (enc : A → row) (h : A → B) xs fin : (∀ x, scan (enc x) = Ok (h x)) →
  collect scan (enc <$> xs, fin) = match fin with Ok _ => Ok (h <$> xs) | Err e => Err e end.
Proof.
  intros Hscan. unfold collect. cbn [fst snd].
  assert (scan_rows scan (enc <$> xs) = Ok (h <$> xs)) as ->; [|by destruct fin].
  induction xs as [|x xs IH]; [done|]. rewrite !fmap_cons. cbn. by rewrite Hscan, IH.
Qed.

End gorm.

(** *** The clients that are stale are read, and then deleted by their ids *)

Section stale.
Context `{Oracle} `{UnicodeDB} {S : Type} `{GormDB S, Server S, !GormServer S default_schema}.
Context (O : ostate) (w : World S) (Hs : holds_state (srv_db (w_store w)) O).

(** The ids of the stale clients, as they were read. *)
Definition stale_ids t (ids : list string) : Prop :=
  ∃ xs, ids = Client_ID <$> xs ∧ xs ≡ₚ (map_to_list (sel_map (stale_row O t) (r_clients (os_rows O)))).*2.

Lemma read_stale t : wp (g_RawStrings db (Sprintf "SELECT c.client_id FROM %s c WHERE c.created_at < ? AND (c.last_used_at IS NULL OR c.last_used_at < ?)
		AND NOT EXISTS (SELECT 1 FROM %s g WHERE g.client_id = c.client_id)"
      [oauthClients (resolveTables (resolve [])); oauthGrants (resolveTables (resolve []))]) [ATime t; ATime t])
  (λ r w', calm w w' ∧ srv_db (w_store w') = srv_db (w_store w)
    ∧ match r with Ok ids => stale_ids t ids | Err e => srv_err e end) w.
Proof.
  eapply gorm_raw; [parses|]. intros m Hm. eapply wp_mono.
  { eapply (read_rows w _ clients_t clients_tb key1 client_row _ m _ _ _ _ (stale_row O t) (λ _, VNull) (λ x, [VText (Client_ID x)]));
      [reflexivity|apply Hs|exact Hm|]. intros x. unfold query_row.
    match goal with |- context [holds ?sch ?vs ?d ?ctx ?wh] =>
      assert (holds sch vs d ctx wh = Does (stale_row O t x)) as -> by (eapply stale_condition; [exact Hs|row_fact..]) end.
    destruct (stale_row O t x); reflexivity. }
  intros r w' (Hc & Hdb & Hr). split_and!; [done|done|]. destruct r as [[l fin]|e]; [|done].
  destruct Hr as (xs & -> & _ & Hfin). cbn [mbind result_bind]. rewrite (collect_map _ _ Client_ID) by done.
  destruct fin; [by exists xs|done].
Qed.

Lemma in_ids t ids k x : stale_ids t ids → r_clients (os_rows O) !! k = Some x →
  existsb (text_eqb (Client_ID x)) ids = stale_row O t x.
Proof.
  intros (xs & -> & Hxs) Hx. pose proof (hs_keyed _ _ Hs) as (Hk&_).
  apply eq_bool_prop_intro. rewrite !Is_true_true, existsb_exists. setoid_rewrite <-list_elem_of_In. split.
  - intros (i & (y & -> & Hy)%list_elem_of_fmap & Hi%text_eqb_eq). rewrite Hxs in Hy.
    apply list_elem_of_fmap in Hy as ([k' y'] & -> & Hy%elem_of_map_to_list). cbn in *.
    apply map_lookup_filter_Some in Hy as [Hy Hst]. pose proof (Hk _ _ Hx). pose proof (Hk _ _ Hy). cbn in *.
    assert (k = k') as <- by congruence. rewrite Hy in Hx. by injection Hx as ->.
  - intros Hst. exists (Client_ID x). split; [|by apply text_eqb_eq]. apply list_elem_of_fmap. exists x. split; [done|].
    rewrite Hxs. apply list_elem_of_fmap. exists (k, x). split; [done|]. apply elem_of_map_to_list, map_lookup_filter_Some. done.
Qed.
Abbreviation post c := (λ r w', calm w w' ∧ refines c O r (srv_db (w_store w'))) (only parsing).

Lemma delete_ids t ids : stale_ids t ids →
  wp (g_Delete db Client [Table (oauthClients (resolveTables (resolve []))); Where "client_id IN ?" [GList ids]])
    (λ r w', post (CDeleteStaleClients (trunc t)) (answer RCount r) w') w.
Proof.
  intros Hids. eapply delete_stale_refines; [done| |].
  - apply (gs_Delete Client _ (SDelete clients_t clients_t.2
      (Some (EInList (ECol "" "client_id") ((EVal ∘ VText <$> ids) ++ []))))). reflexivity.
  - intros k x Hx. rewrite app_nil_r, <-(in_ids t ids k x Hids Hx). unfold holds. cbn [eval].
    change (column_value _ _ _) with (Does (VText (Client_ID x))). cbn [mbind effect_bind].
    rewrite eval_ids. done.
Qed.

Lemma none_stale t : stale_ids t [] → ostep (CDeleteStaleClients (trunc t)) O (Ok (RCount 0)) O.
Proof.
  intros Hids. exists (r_clients (os_rows O)). split; [unfold removed; by rewrite Z.sub_diag|]. split; [by destruct O as [[]]|].
  intros id c. split; [|tauto]. intros Hc. split; [done|].
  rewrite <-(stale_row_spec O t c (hs_norm_clients _ _ Hs id c Hc)), <-(in_ids t [] id c Hids Hc). done.
Qed.
End stale.

(** *** Every method *)

(** A chain, made into its statement. *)
Ltac built := lazy -[encode Marshal_list]; reflexivity.

(** Every column is filled in. *)
Ltac completes := split; cbn [gm_columns gm_values Client_model Code_model Consent_model Grant_model ClientAssertion_model RefreshToken_model zip zip_with];
  [repeat first [apply Forall_nil; exact I|apply Forall_cons; split; [cbn [fst snd]; intros Hz; first [set_solver|injection Hz; congruence]|]]
  |rewrite ?not_elem_of_cons; split_and!; [congruence..|apply not_elem_of_nil]].

Lemma collect_id {A} (scan : row → result A) (r : result (list row * result unit)) :
  (q ← r; l ← collect scan q; (Ok (id <$> l) : result (list A))) = r ≫= collect scan.
Proof. destruct r as [q|e]; [|done]. cbn. destruct (collect scan q) as [l|e]; [|done]. cbn. by rewrite list_fmap_id. Qed.

Section gorm_store.
Context `{Oracle} `{UnicodeDB} {S : Type} `{GormDB S, Server S, !GormServer S default_schema}.
Context (O : ostate) (w : World S) (Hs : holds_state (srv_db (w_store w)) O).

Abbreviation post c := (λ r w', calm w w' ∧ refines c O r (srv_db (w_store w'))) (only parsing).

Lemma gorm_stale t : wp (GormOAuth.DeleteStaleClients (resolveTables (resolve [])) t)
  (λ r, post (CDeleteStaleClients (trunc t)) (answer RCount r)) w.
Proof.
  unfold GormOAuth.DeleteStaleClients. apply wp_bind_ok. eapply wp_mono; [by apply read_stale|].
  intros r w' (Hc & Hdb & Hr). destruct r as [ids|e].
  - rewrite <-Hdb in Hs. destruct ids as [|i ids].
    + apply wp_ret. split; [done|]. eapply refines_step; [by eapply none_stale|done].
    + eapply wp_mono; [by apply delete_ids|]. intros r w2 [Hc2 Hr2]. split; [by eapply calm_trans|done].
  - split; [done|]. apply refines_lost; [done|by rewrite Hdb].
Qed.

Ltac adds law := eapply law; [done|eapply gs_Create; [built|completes]|split; [row_fact|done]].
Ltac updates law := eapply law; [done|eapply gs_UpdateColumns; built|row_fact].
Ltac removes law := eapply law; [done|eapply gs_Delete; built|unfold deletes; intros ? x _; row_fact].
Ltac looks law := intros m Hm; eapply law; [done|exact Hm|row_fact].

Lemma gorm_refines c : gorm_call c → wp (os_call (GormOAuth.NewOAuthStore []) c) (post (norm_call c)) w.
Proof.
  intros [Hc Hg]. pose proof Hs as [????? _ Hncl Hnco Hncs Hng _].
  destruct c; cbn [norm_call clean_call] in *.
  - destruct Hg as (Hru & Hgt & Hca). apply wp_unit_call.
    destruct c as [id sh n [|ru rus] am [|gt gts] ca lu]; [done..|].
    eapply create_client_refines; [done|done|eapply gs_Create; [built|completes]|split; [row_fact|done]].
  - eapply (found_refines _ _ _ _ _ _ (r_clients (os_rows O) !! id)); [done| |by split].
    cbn [os_call os_GetClient GormOAuth.NewOAuthStore]. unfold GormOAuth.GetClient.
    eapply (gorm_found client_row); [built|looks look_client|].
    intros x Hx. rewrite gorm_client_row. f_equal. by eapply (Hncl id).
  - apply wp_unit_call. updates touch_client_refines.
  - apply wp_count_call, gorm_stale.
  - apply wp_unit_call. adds create_code_refines.
  - eapply (found_refines _ _ _ _ _ _ (r_codes (os_rows O) !! h)); [done| |by split].
    cbn [os_call os_GetCode GormOAuth.NewOAuthStore]. unfold GormOAuth.GetCode.
    eapply (gorm_found code_row); [built|looks look_code|].
    intros x Hx. rewrite gorm_code_row. f_equal. by eapply (Hnco h).
  - apply wp_bool_call. updates mark_code_refines.
  - apply wp_count_call. removes delete_codes_refines.
  - eapply (found_refines _ _ _ _ _ _ (os_consents O !! (u, c))); [done| |by split].
    cbn [os_call os_GetConsent GormOAuth.NewOAuthStore]. unfold GormOAuth.GetConsent, consent_where.
    eapply (gorm_found consent_row); [built|looks look_consent|].
    intros x Hx. rewrite gorm_consent_row. f_equal. by eapply (Hncs (u, c)).
  - destruct Hg. apply wp_unit_call.
    eapply save_consent_refines; [done|eapply gs_Create; [built|completes]|split; [row_fact|done]|row_fact].
  - apply wp_unit_call. removes delete_consent_refines.
  - apply wp_unit_call. adds create_grant_refines.
  - eapply (found_refines _ _ _ _ _ _ (r_grants (os_rows O) !! id)); [done| |by split].
    cbn [os_call os_GetGrant GormOAuth.NewOAuthStore]. unfold GormOAuth.GetGrant.
    eapply (gorm_found grant_row); [built|looks look_grant|].
    intros x Hx. rewrite gorm_grant_row. f_equal. by eapply (Hng id).
  - apply wp_bool_call. eapply rotate_grant_refines; [done|eapply gs_UpdateColumns; built|]. intros x.
    (* the old token is written where the other stores copy the column *)
    destruct (text_eqb (Grant_TokenHash x) old) eqn:Hold; [pose proof (proj1 (text_eqb_eq _ _) Hold); subst old|];
      split_record; cbn in Hold; lazy -[text_eqb Z.div trunc srv_db w_store];
      rewrite Hold, ?trunc_div; split_tests; reflexivity.
  - apply wp_unit_call. removes delete_grant_refines.
  - apply wp_count_call. removes delete_user_client_refines.
  - apply (gorm_listed Grant [Table (oauthGrants (resolveTables (resolve []))); WhereA "user_id = ?" [AString u];
      Order "created_at"] (SSelect (Select (ECol "" <$> gm_columns Grant) (Some (grants_t, grants_t.2)) None
        (Some (EOp OEq (ECol "" "user_id") (EVal (VText u)))) (Some "created_at") None None))); [built|].
    intros mq Hsel Hgo.
    eapply (list_grants_refines _ _ _ _ mq _ gm_scan id _ (λ x, time_value (Grant_CreatedAt x))).
    + intros Q w1 Hq. cbn [os_call os_ListUserGrants GormOAuth.NewOAuthStore]. unfold GormOAuth.ListUserGrants.
      apply Hgo, wp_returns. eapply wp_mono; [exact Hq|]. intros r w2. cbn beta. by rewrite collect_id.
    + done.
    + exact Hsel.
    + row_fact.
    + intros x. exists (norm_grant x). by rewrite gorm_grant_row.
  - apply wp_count_call. removes delete_expired_grants_refines.
  - apply wp_bool_call.
    eapply use_assertion_refines; [done| |eapply gs_Create; [built|completes]|split; [row_fact|done]]; reflexivity.
  - apply wp_count_call. removes delete_jtis_refines.
Qed.
End gorm_store.
