(* ===== verification/OAuthStores.v ===== *)
(** * Four implementations of the OAuth store

    The in-memory store, the pgx store, the sqlc store and the GORM store implement the
    abstract store of [OAuthStoreModel], so that what holds of its histories holds of theirs. *)

From S2P Require Import Prelude GoStrings Errors World Entities OAuthTypes Stores StoreLaws MemStore MemOAuth.
From S2P Require Import Gorm GormStore GormOAuth.
From S2P Require Import MemSpec Naming Sql GoJson Pgx PgQueries PgStore PgOAuth SqlcGen SqlcStore.
From S2P Require Import SqlSchema SqlTyped SqlSem OAuthStoreModel PgOAuthSpec GormSpec.

Local Open Scope Z_scope.

(** ** The in-memory store *)

Section mem.
Context `{Oracle} `{UnicodeDB}.

(** It forms the key of a consent from the user's id and the client's, so the former has
    no separator in it. *)
Definition plain_call (c : ocall) : Prop :=
  match c with
  | CSaveConsent x => plain (Consent_UserID x)
  | CGetConsent u _ | CDeleteConsent u _ => plain u
  | _ => True
  end.

(** The store shows the abstract state. *)
Record shows (s : Store) (O : ostate) : Prop := {
  sh_inv : v_inv s;
  sh_rows : v_rows s = os_rows O;
  sh_consents u c : plain u → v_consent s u c = os_consents O !! (u, c);
}.

Lemma shows_same (w w' : World Store) O : shows (w_store w) O → same w w' → shows (w_store w') O.
Proof.
  intros [] []. split; [done|congruence|]. intros. rewrite mv_consent by done. by apply sh_consents0.
Qed.
Lemma shows_rows (w w' : World Store) O R : shows (w_store w) O → rows_set w w' R → shows (w_store w') (mkOState R (os_consents O)).
Proof. intros [] []. split; [done|done|]. intros. rewrite om_consent by done. by apply sh_consents0. Qed.
Lemma shows_consents (w w' : World Store) O u c x : plain u → shows (w_store w) O →
  omoves w w' (v_rows (w_store w)) (set_consent (v_consent (w_store w)) u c x) →
  shows (w_store w') (set_consents (partial_alter (λ _, x) (u, c) (os_consents O)) O).
Proof.
  intros Hu [] []. split; [done|by rewrite om_rows|]. intros u' c' Hu'. rewrite om_consent by done. cbn.
  unfold set_consent. case_bool_decide as Hb.
  - destruct Hb as [-> ->]. by rewrite lookup_partial_alter_eq.
  - rewrite lookup_partial_alter_ne; [by apply sh_consents0|]. intros [= <- <-]. by destruct Hb.
Qed.

Lemma mem_call {A} (m : M Store (result A)) (f : A → oanswer) c O w P : wp m P w →
  (∀ r w', P r w' → ∃ O', ostep c O (answer f r) O' ∧ shows (w_store w') O') →
  wp (r ← m; mret (answer f r)) (λ r w', ∃ O', sstep ostep (λ _, False) c O r O' ∧ shows (w_store w') O') w.
Proof.
  intros Hm HP. apply wp_bind. eapply wp_mono; [exact Hm|]. intros r w' (O' & Hstep & Hs)%HP. apply wp_ret.
  exists O'. split; [by left|done].
Qed.

Lemma creates_insert `{Countable K} {A} (k : K) (x : A) m : creates k x m (Ok RUnit) (<[k := x]> m).
Proof. unfold creates. destruct (m !! k); auto. Qed.

(** A call that reads, and one that writes rows. *)
Ltac reads law Hr := eapply mem_call; [by apply law|]; intros r w' [Hw ->]; rewrite ?Hr in *;
  eexists; split; [split; [|done]|by eapply shows_same].
Ltac writes law Hr := eapply mem_call; [by apply law|]; intros r w' [-> Hw]; rewrite ?Hr in *;
  eexists; split; [|by eapply shows_rows].
Ltac counts law Hr := eapply mem_call; [by apply law|]; intros r w' [-> Hw]; rewrite ?Hr in *;
  eexists; split; [by split|by eapply shows_rows].

Lemma mem_swaps `{Countable K} {A} (k : K) (now : A → Prop) `{!∀ a, Decision (now a)} f (m : gmap K A)
    (set : gmap K A → ORows → ORows) (r : result bool) (w w' : World Store) O :
  set m (os_rows O) = os_rows O → shows (w_store w) O →
  match m !! k with
  | Some c => if bool_decide (now c) then r = Ok true ∧ rows_set w w' (set (<[k := f c]> m) (os_rows O)) else r = Ok false ∧ same w w'
  | None => r = Ok false ∧ same w w'
  end →
  ∃ O', (∃ m', swaps k now f m (answer RBool r) m' ∧ O' = on_rows (set m') O) ∧ shows (w_store w') O'.
Proof.
  intros Hset Hs Hr. assert (on_rows (set m) O = O) as HO by (destruct O; unfold on_rows; cbn in *; by rewrite Hset).
  assert (m !! k = None ∨ (∃ c, m !! k = Some c ∧ ¬ now c) → r = Ok false ∧ same w w' →
    ∃ O', (∃ m', swaps k now f m (answer RBool r) m' ∧ O' = on_rows (set m') O) ∧ shows (w_store w') O') as Hno.
  { intros Hk [-> Hw]. exists O. split; [|by eapply shows_same]. exists m. split; [|done]. unfold swaps.
    destruct Hk as [->|(c & -> & Hc)]; [done|]. by rewrite bool_decide_eq_false_2. }
  destruct (m !! k) as [c|] eqn:Hc; [|by apply Hno; [left|]].
  case_bool_decide as Hn; [|by apply Hno; [right; by exists c|]].
  destruct Hr as [-> Hw]. eexists. split; [|by eapply shows_rows]. exists (<[k := f c]> m). split; [|done].
  unfold swaps. by rewrite Hc, bool_decide_eq_true_2.
Qed.

Lemma mem_implements : implements ostep (λ _, False) shows id plain_call (os_call MemOAuth.OAuth).
Proof.
  intros c O w Hok Hs. pose proof Hs as [Hi Hr Hco]. unfold id. destruct c; cbn [plain_call] in Hok.
  - writes mem_CreateClient Hr. eexists. split; [apply creates_insert|done].
  - reads (spec_GetClient (S := Store)) Hr. by destruct (r_clients (os_rows O) !! id).
  - by writes (spec_TouchClient (S := Store)) Hr.
  - eapply mem_call; [by apply (spec_DeleteStaleClients (S := Store))|]. intros r w' (m & -> & Hw & Hm).
    rewrite Hr in *. eexists. split; [|by eapply shows_rows]. by exists m.
  - writes mem_CreateCode Hr. eexists. split; [apply creates_insert|done].
  - reads (spec_GetCode (S := Store)) Hr. by destruct (r_codes (os_rows O) !! h).
  - eapply mem_call; [by apply (spec_MarkCodeUsed (S := Store))|]. intros r w'. rewrite Hr.
    apply mem_swaps; [by destruct (os_rows O)|done].
  - counts (spec_DeleteExpiredCodes (S := Store)) Hr.
  - reads (spec_GetConsent (S := Store)) Hr. rewrite Hco by done. by destruct (os_consents O !! _).
  - eapply mem_call; [by apply (spec_SaveConsent (S := Store))|]. intros r w' [-> Hw]. cbv zeta in Hw.
    rewrite Hco in Hw by done.
    eexists. split; [|by eapply shows_consents]. split; [done|]. by destruct (os_consents O !! _).
  - eapply mem_call; [by apply (spec_DeleteConsent (S := Store))|]. intros r w' [-> Hw].
    eexists. split; [|by eapply shows_consents]. done.
  - writes mem_CreateGrant Hr. eexists. split; [apply creates_insert|done].
  - reads (spec_GetGrant (S := Store)) Hr. by destruct (r_grants (os_rows O) !! id).
  - eapply mem_call; [by apply (spec_RotateGrant (S := Store))|]. intros r w'. rewrite Hr.
    apply mem_swaps; [by destruct (os_rows O)|done].
  - by writes (spec_DeleteGrant (S := Store)) Hr.
  - counts (spec_DeleteUserClientGrants (S := Store)) Hr.
  - eapply mem_call; [by apply (spec_ListUserGrants (S := Store))|]. intros r w' [Hw (l & -> & Hl)].
    rewrite Hr in Hl. exists O. split; [|by eapply shows_same]. split; [done|]. by exists l.
  - counts (spec_DeleteExpiredGrants (S := Store)) Hr.
  - eapply mem_call; [by apply (spec_UseClientAssertion (S := Store))|]. intros r w'. cbn [ostep]. rewrite Hr.
    destruct (r_jtis (os_rows O) !! (c, jti)).
    + intros [-> Hw]. exists O. split; [done|by eapply shows_same].
    + intros [-> Hw]. eexists. split; [done|by eapply shows_rows].
  - counts (spec_DeleteExpiredClientAssertions (S := Store)) Hr.
Qed.
End mem.

(** ** Every method of the SQL OAuth stores

    Each statement of the pgx and sqlc OAuth stores is read and its conditions and
    assignments are evaluated on an arbitrary row; [PgOAuthSpec] does the rest. *)

Section refine.
Context `{Oracle} `{UnicodeDB} `{Scanner, !ScannerLaws} {S : Type} `{Pool S, Server S, !SqlServer S default_schema}.
Context (O : ostate) (w : World S) (Hs : holds_state (srv_db (w_store w)) O).

Abbreviation q := (buildOAuthQueries (resolve [])) (only parsing).
Abbreviation post c := (λ r w', calm w w' ∧ refines c O r (srv_db (w_store w'))) (only parsing).

(** A statement's text, read and sent. *)
Ltac sends := eapply srv_Exec; parses.
Ltac asks := eapply srv_Query; parses.
Ltac asks_row := eapply srv_QueryRow; parses.

(** The methods, by what they do to the tables. *)
Ltac adds law := eapply law; [done|done|sends|split; [row_fact|done]].
Ltac adds_row law := eapply law; [done|sends|split; [row_fact|done]].
Ltac updates law := eapply law; [done|sends|row_fact].
Ltac removes law := eapply law; [done|sends|unfold deletes; intros ? x _; row_fact].
Ltac looks law := eapply law; [done|asks_row|row_fact].

Lemma pgx_refines c : clean_call c → wp (os_call (PgOAuth.NewOAuthStore []) c) (post (norm_call c)) w.
Proof.
  intros Hc. pose proof Hs as [????? _ Hncl Hnco Hncs Hng _].
  destruct c; cbn [norm_call clean_call] in *.
  - apply wp_unit_call. adds create_client_refines.
  - eapply (found_refines _ _ _ _ _ _ (r_clients (os_rows O) !! id)); [done| |by split].
    eapply (pgx_found_then _ _ client_row).
    + looks look_client.
    + intros x Hx. rewrite scan_client_row. f_equal. by eapply (Hncl id).
  - apply wp_unit_call. updates touch_client_refines.
  - apply wp_count_call. eapply delete_stale_refines; [done|sends|]. intros ? x _.
    eapply stale_condition; [done|row_fact..].
  - apply wp_unit_call. adds_row create_code_refines.
  - eapply (found_refines _ _ _ _ _ _ (r_codes (os_rows O) !! h)); [done| |by split]. eapply (pgx_found _ code_row).
    + looks look_code.
    + intros x Hx. rewrite scan_code_row. f_equal. by eapply (Hnco h).
  - apply wp_bool_call. updates mark_code_refines.
  - apply wp_count_call. removes delete_codes_refines.
  - eapply (found_refines _ _ _ _ _ _ (os_consents O !! (u, c))); [done| |by split]. eapply (pgx_found _ consent_row).
    + looks look_consent.
    + intros y Hy. rewrite scan_consent_row. f_equal. by eapply (Hncs (u, c)).
  - apply wp_unit_call. eapply save_consent_refines; [done|sends|split; [row_fact|done]|row_fact].
  - apply wp_unit_call. removes delete_consent_refines.
  - apply wp_unit_call. adds_row create_grant_refines.
  - eapply (found_refines _ _ _ _ _ _ (r_grants (os_rows O) !! id)); [done| |by split]. eapply (pgx_found _ grant_row).
    + looks look_grant.
    + intros x Hx. rewrite scan_grant_row. f_equal. by eapply (Hng id).
  - apply wp_bool_call. updates rotate_grant_refines.
  - apply wp_unit_call. removes delete_grant_refines.
  - apply wp_count_call. removes delete_user_client_refines.
  - eapply (list_grants_refines _ _ _ _ _ _ (map_err mapNotFound ∘ PgOAuth.scan_grant) id _
      (λ x, time_value (Grant_CreatedAt x))).
    + intros Q w1. apply wp_many.
    + done.
    + asks.
    + row_fact.
    + intros x. exists (norm_grant x). split; [|done]. unfold compose. by rewrite scan_grant_row.
  - apply wp_count_call. removes delete_expired_grants_refines.
  - apply wp_bool_call. eapply use_assertion_refines; [done| |sends|split; [row_fact|done]]; reflexivity.
  - apply wp_count_call. removes delete_jtis_refines.
Qed.

Lemma sqlc_refines c : clean_call c → wp (os_call SqlcStore.NewOAuthStore c) (post (norm_call c)) w.
Proof.
  intros Hc. pose proof Hs as [????? _ Hncl Hnco Hncs Hng _].
  destruct c; cbn [norm_call clean_call] in *.
  - apply wp_unit_call. adds create_client_refines.
  - eapply (found_refines _ _ _ _ _ _ (r_clients (os_rows O) !! id)); [done| |by split].
    eapply (sqlc_found_then _ _ client_row).
    + looks look_client.
    + intros x Hx. rewrite sqlc_client_row. f_equal. by eapply (Hncl id).
  - apply wp_unit_call. updates touch_client_refines.
  - apply wp_count_call. eapply delete_stale_refines; [done|sends|]. intros ? x _.
    eapply stale_condition; [done|row_fact..].
  - apply wp_unit_call. adds_row create_code_refines.
  - eapply (found_refines _ _ _ _ _ _ (r_codes (os_rows O) !! h)); [done| |by split]. eapply (sqlc_found _ _ code_row).
    + looks look_code.
    + intros x Hx. destruct (sqlc_code_row x) as (y & Hy & Hn). exists y. rewrite Hn. split; [exact Hy|exact (Hnco h x Hx)].
  - apply wp_bool_call. updates mark_code_refines.
  - apply wp_count_call. removes delete_codes_refines.
  - eapply (found_refines _ _ _ _ _ _ (os_consents O !! (u, c))); [done| |by split]. eapply (sqlc_found _ _ consent_row).
    + looks look_consent.
    + intros x Hx. destruct (sqlc_consent_row x) as (y & Hy & Hn). exists y. rewrite Hn. split; [exact Hy|exact (Hncs (u, c) x Hx)].
  - apply wp_unit_call. eapply save_consent_refines; [done|sends|split; [row_fact|done]|row_fact].
  - apply wp_unit_call. removes delete_consent_refines.
  - apply wp_unit_call. adds_row create_grant_refines.
  - eapply (found_refines _ _ _ _ _ _ (r_grants (os_rows O) !! id)); [done| |by split]. eapply (sqlc_found _ _ grant_row).
    + looks look_grant.
    + intros x Hx. destruct (sqlc_grant_row x) as (y & Hy & Hn). exists y. rewrite Hn. split; [exact Hy|exact (Hng id x Hx)].
  - apply wp_bool_call. updates rotate_grant_refines.
  - apply wp_unit_call. removes delete_grant_refines.
  - apply wp_count_call. removes delete_user_client_refines.
  - eapply (list_grants_refines _ _ _ _ _ _ scan_IdentityOauthGrant toGrant _ (λ x, time_value (Grant_CreatedAt x))).
    + intros Q w1. apply wp_listed_as.
    + done.
    + asks.
    + row_fact.
    + intros x. apply sqlc_grant_row.
  - apply wp_count_call. removes delete_expired_grants_refines.
  - apply wp_bool_call. eapply use_assertion_refines; [done| |sends|split; [row_fact|done]]; reflexivity.
  - apply wp_count_call. removes delete_jtis_refines.
Qed.
End refine.

(** ** The SQL stores *)

(** The tables of the server hold the abstract state. *)
Definition tables_hold `{Server X} (s : X) (O : ostate) : Prop := holds_state (srv_db s) O.

Section sql.
Context `{Oracle} `{UnicodeDB} `{Scanner, !ScannerLaws} {S : Type} `{Pool S, Server S, !SqlServer S default_schema}.

Definition sql_stores : list (OAuthStore S) := [PgOAuth.NewOAuthStore []; SqlcStore.NewOAuthStore].

Lemma sql_implements st : st ∈ sql_stores → implements ostep (srv_err (S := S)) tables_hold norm_call clean_call (os_call st).
Proof.
  intros Hst c O w Hc Hs. unfold sql_stores in Hst.
  apply elem_of_cons in Hst as [->|Hst]; [|apply list_elem_of_singleton in Hst as ->]; eapply wp_mono.
  - by apply pgx_refines.
  - by intros r w' [_ ?].
  - by apply sqlc_refines.
  - by intros r w' [_ ?].
Qed.

(** The GORM store, on a server of its own. *)
Context {G : Type} `{GormDB G, Server G, !GormServer G default_schema}.

Lemma gorm_implements : implements ostep (srv_err (S := G)) (tables_hold (X := G)) norm_call gorm_call
  (os_call (GormOAuth.NewOAuthStore (S := G) [])).
Proof. intros c O w Hc Hs. eapply wp_mono; [by apply gorm_refines|]. by intros r w' [_ ?]. Qed.

(** C4: the in-memory store and, on a PostgreSQL server that may refuse any statement or lose
    its answer, the pgx, the sqlc and the GORM store implement one abstract OAuth store of
    five maps: for every sequence of calls there is a history of the abstract store with the
    same answers, and the maps or tables hold the state it ends in.  A call the server fails
    has done nothing or all of its work; times are kept to the microsecond.  GORM is given
    times of creation and lists that are not empty. *)
Theorem oauth_stores_refine cs :
  (∀ O (w : World Store), Forall plain_call cs → shows (w_store w) O →
    wp (mapM (os_call MemOAuth.OAuth) cs) (λ rs w', ∃ O',
      history ostep (λ _, False) O cs rs O' ∧ shows (w_store w') O') w)
  ∧ (∀ st O (w : World S), st ∈ sql_stores → Forall clean_call cs → tables_hold (w_store w) O →
    wp (mapM (os_call st) cs) (λ rs w', ∃ O',
      history ostep (srv_err (S := S)) O (norm_call <$> cs) rs O' ∧ tables_hold (w_store w') O') w)
  ∧ (∀ O (w : World G), Forall gorm_call cs → tables_hold (w_store w) O →
    wp (mapM (os_call (GormOAuth.NewOAuthStore [])) cs) (λ rs w', ∃ O',
      history ostep (srv_err (S := G)) O (norm_call <$> cs) rs O' ∧ tables_hold (w_store w') O') w).
Proof.
  split_and!.
  - intros O w Hok Hs. eapply wp_mono; [by eapply (implements_history ostep _ shows id plain_call), Hs; [apply mem_implements|]|].
    intros rs w'. by rewrite list_fmap_id.
  - intros st O w Hst Hok Hs. eapply implements_history; [by apply sql_implements|done|done].
  - intros O w Hok Hs. eapply (implements_history ostep _ (tables_hold (X := G))); [apply gorm_implements|done|done].
Qed.

Lemma norm_attempts k c : attempts k (norm_call c) ↔ attempts k c.
Proof. by destruct k, c. Qed.
Lemma norm_renews k c : renews k (norm_call c) ↔ renews k c.
Proof. by destruct k, c. Qed.
Lemma norm_takes k cs rs :
  length (filter (takes k) (zip (norm_call <$> cs) rs)) = length (filter (takes k) (zip cs rs)).
Proof.
  revert rs. induction cs as [|c cs IH]; intros [|r rs]; [done..|]. rewrite fmap_cons. cbn [zip zip_with].
  assert (takes k (norm_call c, r) ↔ takes k (c, r)) as Ht by (unfold takes; cbn; by rewrite norm_attempts).
  destruct (decide (takes k (c, r))) as [Hc|Hc].
  - rewrite !filter_cons_True by (try done; by apply Ht). cbn. f_equal. apply IH.
  - rewrite !filter_cons_False by (try done; by rewrite Ht). apply IH.
Qed.

Lemma norm_taken_once {X} (err : error → Prop) (m : M X (list (result oanswer))) k cs O (Q : X → ostate → Prop) w :
  Forall (λ c, ¬ renews k c) cs →
  wp m (λ rs w', ∃ O', history ostep err O (norm_call <$> cs) rs O' ∧ Q (w_store w') O') w →
  wp m (λ rs _, (length (filter (takes k) (zip cs rs)) <= 1)%nat) w.
Proof.
  intros Hn Hm. eapply wp_mono; [exact Hm|]. intros rs w' (O' & Hh & _). rewrite <-norm_takes.
  eapply taken_once; [|exact Hh]. apply Forall_fmap. eapply Forall_impl; [exact Hn|]. intros c Hc. cbn.
  by rewrite norm_renews.
Qed.

(** C5: on every one of the four stores an authorization code is marked used, a grant's
    refresh token rotated and a client assertion accepted by at most one of any sequence of
    calls, whatever else the sequence does, unless one of them writes the code or the token
    anew or forgets the used assertions; and a call whose answer the server lost counts as
    refused. *)
Theorem claims_taken_once k cs : Forall (λ c, ¬ renews k c) cs →
  (∀ O (w : World Store), Forall plain_call cs → shows (w_store w) O →
    wp (mapM (os_call MemOAuth.OAuth) cs) (λ rs _, (length (filter (takes k) (zip cs rs)) <= 1)%nat) w)
  ∧ (∀ st O (w : World S), st ∈ sql_stores → Forall clean_call cs → tables_hold (w_store w) O →
    wp (mapM (os_call st) cs) (λ rs _, (length (filter (takes k) (zip cs rs)) <= 1)%nat) w)
  ∧ (∀ O (w : World G), Forall gorm_call cs → tables_hold (w_store w) O →
    wp (mapM (os_call (GormOAuth.NewOAuthStore [])) cs)
      (λ rs _, (length (filter (takes k) (zip cs rs)) <= 1)%nat) w).
Proof.
  intros Hn. split_and!.
  - intros O w Hok Hs. eapply wp_mono; [by eapply (implements_history ostep _ shows id plain_call), Hs; [apply mem_implements|]|].
    intros rs w' (O' & Hh & _). rewrite list_fmap_id in Hh. by eapply taken_once.
  - intros st O w Hst Hok Hs. eapply norm_taken_once; [done|].
    by eapply (implements_history ostep _ (tables_hold (X := S))); [apply sql_implements| |].
  - intros O w Hok Hs. eapply norm_taken_once; [done|].
    by eapply (implements_history ostep _ (tables_hold (X := G))); [apply gorm_implements| |].
Qed.
End sql.
