(* ===== verification/SessionStores.v ===== *)
(** * Four stores of refresh sessions

    The stores of [identity.RefreshTokenStore], in memory, on pgx, on sqlc and on GORM,
    implement one abstract store: a map from session ids to sessions. *)

From S2P Require Import Prelude GoStrings Errors World Entities OAuthTypes Stores StoreLaws MemStore MemOAuth.
From S2P Require Import Gorm GormStore GormOAuth.
From S2P Require Import MemSpec Naming Sql GoJson Pgx PgQueries PgStore PgOAuth SqlcGen SqlcStore.
From S2P Require Import SqlSchema SqlTyped SqlSem OAuthStoreModel PgOAuthSpec GormSpec.

Local Open Scope Z_scope.

(** ** The abstract store *)

Abbreviation sessions := (gmap string RefreshToken) (only parsing).

Inductive scall :=
  | TCreate (x : RefreshToken)
  | TGet (id : string)
  | TUpdate (x : RefreshToken)
  | TDelete (id : string)
  | TDeleteUser (u : string)
  | TDeleteExpired (before : Time)
  | TListUser (u : string).

Inductive sanswer :=
  | GotUnit
  | GotCount (n : Z)
  | GotSession (x : RefreshToken)
  | GotSessions (l : list RefreshToken).

(** A call on a store. *)
Definition ts_call {S} (st : RefreshTokenStore S) (c : scall) : M S (result sanswer) :=
  match c with
  | TCreate x => r ← ts_CreateRefreshToken x; mret (answer (λ _, GotUnit) r)
  | TGet id => r ← ts_GetRefreshTokenBySession id; mret (answer GotSession r)
  | TUpdate x => r ← ts_UpdateRefreshToken x; mret (answer (λ _, GotUnit) r)
  | TDelete id => r ← ts_DeleteRefreshToken id; mret (answer (λ _, GotUnit) r)
  | TDeleteUser u => r ← ts_DeleteUserRefreshTokens u; mret (answer GotCount r)
  | TDeleteExpired t => r ← ts_DeleteExpiredRefreshTokens t; mret (answer GotCount r)
  | TListUser u => r ← ts_ListUserRefreshTokens u; mret (answer GotSessions r)
  end.

(** What an update writes over a session: its user and its creation stay. *)
Definition restamp (x y : RefreshToken) : RefreshToken :=
  mkRefreshToken (SessionID y) (Session_UserID y) (TokenHash x) (Session_Name x) (ExpiresAt x) (Session_CreatedAt y)
    (LastUsedAt x).

(** What [c] may answer on [m], and what it leaves.  The in-memory store replaces a session by
    the one it is given, the others write the columns that [restamp] names; the two are the
    same when user and creation are those of the session. *)
Definition sess_step (c : scall) (m : sessions) (r : result sanswer) (m' : sessions) : Prop :=
  match c with
  | TCreate x => r = Ok GotUnit ∧ m' = <[SessionID x := x]> m
  | TGet id => r = match m !! id with Some x => Ok (GotSession x) | None => Err ErrNotFound end ∧ m' = m
  | TUpdate x => match m !! SessionID x with
      | Some y => r = Ok GotUnit ∧ ∃ z, (z = x ∨ z = restamp x y) ∧ m' = <[SessionID x := z]> m
      | None => r = Err ErrNotFound ∧ m' = m
      end
  | TDelete id => r = Ok GotUnit ∧ m' = delete id m
  | TDeleteUser u => m' = filter (λ kv, Session_UserID kv.2 ≠ u) m ∧ r = Ok (GotCount (removed m m'))
  | TDeleteExpired t => m' = filter (λ kv, Before (ExpiresAt kv.2) t = false) m ∧ r = Ok (GotCount (removed m m'))
  | TListUser u => m' = m ∧ ∃ l, r = Ok (GotSessions l) ∧ l ≡ₚ (map_to_list (filter (λ kv, Session_UserID kv.2 = u) m)).*2
  end.

(** ** The in-memory store *)

Section mem.
Context `{Oracle} `{UnicodeDB}.

Definition mem_sessions (s : Store) (m : sessions) : Prop := v_inv s ∧ v_sess s = m.

Lemma mem_session_call {A} (m : M Store (result A)) (f : A → sanswer) c O w P : wp m P w →
  (∀ r w', P r w' → ∃ O', sess_step c O (answer f r) O' ∧ mem_sessions (w_store w') O') →
  wp (r ← m; mret (answer f r)) (λ r w', ∃ O', sstep sess_step (λ _, False) c O r O' ∧ mem_sessions (w_store w') O') w.
Proof.
  intros Hm HP. apply wp_bind. eapply wp_mono; [exact Hm|]. intros r w' (O' & Hstep & Hs)%HP. apply wp_ret.
  exists O'. split; [by left|done].
Qed.

Lemma mem_sessions_implement : implements sess_step (λ _, False) mem_sessions id (λ _, True) (ts_call MemOAuth.RefreshTokens).
Proof.
  assert (∀ w w' U T R K, moves w w' U T R K → mem_sessions (w_store w') R) as Hmoves by by intros ?????? [].
  intros c O w _ [Hi <-]. unfold id. destruct c; (eapply mem_session_call;
    [first [by apply (spec_CreateRefreshToken (S := Store))|by apply (spec_GetRefreshTokenBySession (S := Store))
      |by apply (spec_UpdateRefreshToken (S := Store))|by apply (spec_DeleteRefreshToken (S := Store))
      |by apply (spec_DeleteUserRefreshTokens (S := Store))|by apply (spec_DeleteExpiredRefreshTokens (S := Store))
      |by apply (spec_ListUserRefreshTokens (S := Store))]|]; intros r w' Hr; cbn [sess_step]).
  - destruct Hr as [-> Hw]. eexists. split; [done|by eapply Hmoves].
  - destruct Hr as [Hw ->]. eexists. split; [split; [|done]|by eapply Hmoves]. by destruct (v_sess _ !! _).
  - destruct (v_sess (w_store w) !! SessionID x) as [y|]; destruct Hr as [-> Hw]; eexists; (split; [|by eapply Hmoves]); [|done].
    split; [done|]. eauto.
  - destruct Hr as [-> Hw]. eexists. split; [done|by eapply Hmoves].
  - destruct Hr as [-> Hw]. eexists. split; [done|by eapply Hmoves].
  - destruct Hr as [-> Hw]. eexists. split; [done|by eapply Hmoves].
  - destruct Hr as [Hw (l & -> & Hl)]. eexists. split; [|by eapply Hmoves]. split; [done|]. by exists l.
Qed.
End mem.

(** ** The table of sessions *)

Definition norm_session (x : RefreshToken) : RefreshToken :=
  mkRefreshToken (SessionID x) (Session_UserID x) (TokenHash x) (Session_Name x) (trunc (ExpiresAt x))
    (trunc (Session_CreatedAt x)) (trunc <$> LastUsedAt x).

(** The call as the database takes it. *)
Definition norm_scall (c : scall) : scall :=
  match c with
  | TCreate x => TCreate (norm_session x)
  | TUpdate x => TUpdate (norm_session x)
  | TDeleteExpired t => TDeleteExpired (trunc t)
  | _ => c
  end.

(** A time of creation of zero is replaced by the current one. *)
Definition dated (c : scall) : Prop := match c with TCreate x => Session_CreatedAt x ≠ zeroTime | _ => True end.

Definition session_row (x : RefreshToken) : row :=
  [VText (SessionID x); VText (Session_UserID x); VText (TokenHash x); VText (Session_Name x);
   time_value (ExpiresAt x); time_value (Session_CreatedAt x); timeptr_value (LastUsedAt x)].

Abbreviation sessions_t := ("", "identity_refresh_tokens") (only parsing).
Definition sessions_tb : table := Eval vm_compute in tb_of sessions_t.

Record holds_sessions (d : database) (m : sessions) : Prop := {
  hss_rows : d !! sessions_t = Some (rows_of key1 session_row m);
  hss_keyed : map_Forall (λ k x, SessionID x = k) m;
  hss_norm : map_Forall (λ _ x, norm_session x = x) m;
}.

Lemma session_row_norm x : session_row (norm_session x) = session_row x.
Proof. unfold session_row, norm_session. cbn -[trunc time_value timeptr_value]. by rewrite !time_value_trunc, timeptr_value_trunc. Qed.
Lemma norm_session_idem x : norm_session (norm_session x) = norm_session x.
Proof. unfold norm_session. cbn -[trunc fmap]. by rewrite !trunc_idem, trunc_ptr_idem. Qed.
Lemma restamp_norm x y : norm_session y = y → norm_session (restamp (norm_session x) y) = restamp (norm_session x) y.
Proof.
  intros Hy. pose proof (f_equal Session_CreatedAt Hy) as Hc. unfold norm_session, restamp in *. cbn -[trunc fmap] in *.
  by rewrite trunc_idem, trunc_ptr_idem, Hc.
Qed.

Lemma holds_sessions_put d m m' : holds_sessions d m → map_Forall (λ k x, SessionID x = k) m' →
  map_Forall (λ _ x, norm_session x = x) m' → holds_sessions (<[sessions_t := rows_of key1 session_row m']> d) m'.
Proof. intros _ Hk Hn. split; [apply lookup_insert_eq|done..]. Qed.

(** ** Statements *)

Section calls.
Context {S : Type} `{Server S} (O : sessions) (w : World S).
Abbreviation db w := (srv_db (w_store w)) (only parsing).
Context (Hs : holds_sessions (db w) O) (m : M S (result Z)) (vs : list value).
Abbreviation srefines := (does sess_step holds_sessions) (only parsing).

(** The hash of a session's secret is a second key: the server refuses one that is taken. *)
Lemma create_session_refines x cols es : executes default_schema m (SInsert sessions_t cols (FromValues es) None) vs →
  adds key1 session_row default_schema vs (db w) sessions_tb cols es (SessionID x) x →
  wp m (λ r w', calm w w' ∧ srefines (TCreate (norm_session x)) O (answer (λ _, GotUnit) r) (db w')) w.
Proof.
  intros Hp Hi. assert (adds key1 session_row default_schema vs (db w) sessions_tb cols es (SessionID x) (norm_session x)) as Hi'
    by (unfold adds; by rewrite session_row_norm).
  pose proof (run_insert_keys key1 session_row default_schema vs (db w) sessions_t sessions_tb O eq_refl (hss_rows _ _ Hs)
    cols es _ _ Hi') as Hrun.
  destruct (existsb _ _); [by eapply (exec_refused sess_step holds_sessions)|].
  destruct (O !! SessionID x); [by eapply (exec_refused sess_step holds_sessions)|].
  eapply (exec_refines sess_step holds_sessions (λ _, GotUnit)); [done|done|exact Hrun|by split|].
  destruct Hs. eapply holds_sessions_put; [done|by apply (map_Forall_insert_2 _ _ (SessionID x))|].
  apply map_Forall_insert_2; [apply norm_session_idem|done].
Qed.

(** What [UpdateRefreshToken] makes of the count. *)
Definition updated (n : Z) : result sanswer := if n =? 0 then Err ErrNotFound else Ok GotUnit.

Lemma update_session_refines x sets wh : executes default_schema m (SUpdate sessions_t sets wh) vs →
  (∀ y, update_row default_schema vs (db w) sessions_t sessions_tb sets wh (session_row y)
    = Does (if text_eqb (SessionID y) (SessionID x) then Some (session_row (restamp (norm_session x) y)) else None)) →
  wp m (λ r w', calm w w' ∧ srefines (TUpdate (norm_session x)) O (r ≫= updated) (db w')) w.
Proof.
  intros Hp Hf. set (p y := text_eqb (SessionID y) (SessionID x)).
  pose proof (run_update_keys key1 session_row default_schema vs (db w) sessions_t sessions_tb O eq_refl (hss_rows _ _ Hs)
    sets wh p _ Hf) as Hrun.
  destruct (clashes _ _); [by eapply (exec_fails sess_step holds_sessions)|].
  destruct Hs as [Hrows Hk Hn].
  assert (∀ k y, O !! k = Some y → p y = true → k = SessionID x) as Hat.
  { intros k y Hy Hh%text_eqb_eq. by rewrite <-(Hk k y Hy). }
  eapply (exec_does sess_step holds_sessions updated); [done|done|exact Hrun| |].
  2: { eapply holds_sessions_put; [done|by apply upd_map_Forall|]. apply upd_map_Forall; [done|]. intros _ y. apply restamp_norm. }
  rewrite (sel_map_size (SessionID x) _ _ Hat), (upd_map_at (SessionID x) _ _ Hat). cbn [sess_step].
  change (SessionID (norm_session x)) with (SessionID x).
  destruct (O !! SessionID x) as [y|] eqn:Hy; [|done].
  assert (p y = true) as -> by (apply text_eqb_eq; exact (Hk _ _ Hy)). split; [done|]. eauto.
Qed.

Lemma delete_sessions_refines (f : Z → sanswer) c (p : RefreshToken → bool) alias wh :
  executes default_schema m (SDelete sessions_t alias wh) vs →
  deletes w vs alias sessions_tb wh session_row O p →
  sess_step c O (Ok (f (removed O (del_map p O)))) (del_map p O) →
  wp m (λ r w', calm w w' ∧ srefines c O (answer f r) (db w')) w.
Proof.
  intros Hp Hf Hstep. pose proof (run_delete key1 session_row default_schema vs (db w) sessions_t sessions_tb O eq_refl
    (hss_rows _ _ Hs) alias wh _ eq_refl Hf) as Hrun.
  destruct Hs as [Hrows Hk Hn]. eapply (exec_refines sess_step holds_sessions f); [done|done|exact Hrun|exact Hstep|].
  eapply holds_sessions_put; [done|by apply del_map_Forall..].
Qed.
End calls.

(** ** Every method of the SQL stores *)

Ltac split_session := repeat match goal with x : RefreshToken |- _ => destruct x | x : option Time |- _ => destruct x end.
(** What a statement does with a session's row, evaluated. *)
Ltac session_fact :=
  intros; split_session; lazy -[text_eqb int_ltb Z.div trunc srv_db w_store];
  rewrite ?trunc_div; first [reflexivity|split_tests; reflexivity].

Section refine.
Context {S : Type} `{Server S} (O : sessions) (w : World S) (Hs : holds_sessions (srv_db (w_store w)) O).

Lemma session_expired t k x : O !! k = Some x → (ExpiresAt x / 1000 <? t / 1000) = false ↔ Before (ExpiresAt x) (trunc t) = false.
Proof. intros Hx. unfold Before. by rewrite (trunc_lt (ExpiresAt x)) by exact (f_equal ExpiresAt (hss_norm _ _ Hs k x Hx)). Qed.

Lemma look_session none (m : M S (result row)) vs alias items wh id :
  selects_row default_schema none m (SSelect (Select items (Some (sessions_t, alias)) None wh None None None)) vs →
  (∀ x, query_row default_schema vs (srv_db (w_store w)) sessions_tb alias items wh None (session_row x)
    = Does (if text_eqb (SessionID x) id then Some (VNull, session_row x) else None)) →
  wp m (λ r w', calm w w' ∧ srv_db (w_store w') = srv_db (w_store w) ∧
    match r with Ok row => ∃ x, O !! id = Some x ∧ row = session_row x | Err e => srv_err e ∨ e = none ∧ O !! id = None end) w.
Proof.
  intros Hp Hf. eapply (read_row _ _ sessions_t sessions_tb key1 session_row); [reflexivity|apply Hs|exact Hp|exact Hf|].
  intros k x Hx. cbn beta. by rewrite text_eqb_eq, (hss_keyed _ _ Hs k x Hx).
Qed.

Lemma list_sessions_refines {X} u (m : M S (result (list RefreshToken))) mq vs (scan : row → result X) (g : X → RefreshToken)
    (o : RefreshToken → value) alias items wh order :
  (∀ Q w, wp mq (λ r w', Q (q ← r; l ← collect scan q; (Ok (g <$> l) : result (list RefreshToken))) w') w → wp m Q w) →
  selects default_schema mq (SSelect (Select items (Some (sessions_t, alias)) None wh order None None)) vs →
  (∀ x, query_row default_schema vs (srv_db (w_store w)) sessions_tb alias items wh order (session_row x)
    = Does (if text_eqb (Session_UserID x) u then Some (o x, session_row x) else None)) →
  (∀ x, ∃ y, scan (session_row x) = Ok y ∧ g y = norm_session x) →
  wp (r ← m; mret (answer GotSessions r)) (λ r w', calm w w' ∧ does sess_step holds_sessions (TListUser u) O r (srv_db (w_store w'))) w.
Proof.
  intros Hm Hp Hf Hscan. eapply (list_refines _ _ _ _ _ _ _ _ _ sessions_t sessions_tb key1 session_row);
    [exact Hm|exact Hs|reflexivity|apply Hs|exact Hp|exact Hf| |].
  - intros k x Hx. destruct (Hscan x) as (y & Hy & Hg). exists y. split; [done|]. rewrite Hg. by apply (hss_norm _ _ Hs k).
  - intros l Hl. split; [done|]. exists l. split; [done|]. rewrite Hl. unfold sel_map. f_equiv. apply reflexive_eq. f_equal.
    apply map_filter_ext. intros k x _. cbn. by rewrite text_eqb_eq.
Qed.

(** The rows the three deletions select. *)
Lemma at_session id : del_map (λ x, text_eqb (SessionID x) id) O = delete id O.
Proof. apply del_map_at. intros k x Hx. by rewrite text_eqb_eq, (hss_keyed _ _ Hs k x Hx). Qed.
Lemma of_user u : del_map (λ x, text_eqb (Session_UserID x) u) O = filter (λ kv, Session_UserID kv.2 ≠ u) O.
Proof. apply map_filter_ext. intros k x _. cbn. by rewrite <-not_true_iff_false, text_eqb_eq. Qed.
Lemma past_expiry t :
  del_map (λ x, ExpiresAt x / 1000 <? t / 1000) O = filter (λ kv, Before (ExpiresAt kv.2) (trunc t) = false) O.
Proof. apply map_filter_ext. intros k x. apply session_expired. Qed.
End refine.

(** Dispatch of a call, with what its statement does to the table. *)
Lemma wp_update_call {S} (m : M S (result Z)) Q w : wp m (λ r w', Q (r ≫= updated) w') w →
  wp (r ← (n ←? m; mret (if n =? 0 then Err ErrNotFound else Ok tt)); mret (answer (λ _ : unit, GotUnit) r)) Q w.
Proof.
  intros Hm. apply wp_bind, wp_bind_ok. eapply wp_mono; [exact Hm|]. intros [n|e] w' HQ; [|exact HQ].
  apply wp_ret, wp_ret. unfold updated in HQ. cbn in HQ. by destruct (n =? 0).
Qed.
Lemma wp_create_call {S} `{Oracle} t (m : Time → M S (result Z)) Q w : t ≠ zeroTime →
  wp (m t) (λ r w', Q (answer (λ _, GotUnit) r) w') w →
  wp (r ← (created ← created_or_now t; only_err (m created)); mret (answer (λ _ : unit, GotUnit) r)) Q w.
Proof.
  intros Ht Hm. apply wp_bind, wp_bind. unfold created_or_now. rewrite (proj2 (Z.eqb_neq _ _) Ht). apply wp_ret, wp_only_err.
  eapply wp_mono; [exact Hm|]. by intros [].
Qed.

Section pgx.
Context `{Oracle} `{UnicodeDB} `{Scanner, !ScannerLaws} {S : Type} `{Pool S, Server S, !SqlServer S default_schema}.
Context (O : sessions) (w : World S) (Hs : holds_sessions (srv_db (w_store w)) O).
Abbreviation post c := (λ r w', calm w w' ∧ does sess_step holds_sessions c O r (srv_db (w_store w'))) (only parsing).

Lemma scan_session_row x : scan_session (session_row x) = Ok (norm_session x).
Proof. scan_stored scan_session session_row. Qed.
Lemma sqlc_session_row x : ∃ y, scan_IdentityRefreshToken (session_row x) = Ok y ∧ toRefreshToken y = norm_session x.
Proof. unfold scan_IdentityRefreshToken, session_row. repeat (progress scan_row). by eexists. Qed.

Ltac sends := eapply srv_Exec; parses.
Ltac deletes_session p := eapply (delete_sessions_refines O w Hs _ _ _ _ p); [sends|unfold deletes; intros ? x _; session_fact|].

Lemma pgx_sessions c : dated c → wp (ts_call (PgOAuth.NewRefreshTokenStore []) c) (post (norm_scall c)) w.
Proof.
  intros Hd. destruct c; cbn [norm_scall].
  - apply (wp_create_call (Session_CreatedAt x) _ _ _ Hd). eapply create_session_refines; [done|sends|session_fact].
  - eapply (found_refines _ _ _ _ _ _ (O !! id)); [done| |by split; [destruct (O !! id)|]].
    eapply (pgx_found _ session_row); [eapply look_session; [done|eapply srv_QueryRow; parses|session_fact]|].
    intros x Hx. rewrite scan_session_row. f_equal. by eapply (hss_norm _ _ Hs id).
  - apply wp_update_call. eapply update_session_refines; [done|sends|session_fact].
  - apply (wp_unit_call GotUnit). deletes_session (λ x, text_eqb (SessionID x) id). by rewrite (at_session O w Hs).
  - apply wp_count_call. deletes_session (λ x, text_eqb (Session_UserID x) u). by rewrite of_user.
  - apply wp_count_call. deletes_session (λ x, ExpiresAt x / 1000 <? before / 1000). by rewrite (past_expiry O w Hs).
  - eapply (list_sessions_refines O w Hs u _ _ _ (map_err mapNotFound ∘ scan_session) id (λ x, time_value (Session_CreatedAt x))).
    + intros Q w1. apply wp_many.
    + eapply srv_Query; parses.
    + session_fact.
    + intros x. exists (norm_session x). split; [|done]. unfold compose. by rewrite scan_session_row.
Qed.

Lemma sqlc_sessions c : dated c → wp (ts_call SqlcStore.NewRefreshTokenStore c) (post (norm_scall c)) w.
Proof.
  intros Hd. destruct c; cbn [norm_scall].
  - apply (wp_create_call (Session_CreatedAt x) _ _ _ Hd). eapply create_session_refines; [done|sends|session_fact].
  - eapply (found_refines _ _ _ _ _ _ (O !! id)); [done| |by split; [destruct (O !! id)|]].
    eapply (sqlc_found _ _ session_row); [eapply look_session; [done|eapply srv_QueryRow; parses|session_fact]|].
    intros x Hx. destruct (sqlc_session_row x) as (y & Hy & Hg). exists y. rewrite Hg. split; [exact Hy|exact (hss_norm _ _ Hs id x Hx)].
  - apply wp_update_call. eapply update_session_refines; [done|sends|session_fact].
  - apply (wp_unit_call GotUnit). deletes_session (λ x, text_eqb (SessionID x) id). by rewrite (at_session O w Hs).
  - apply wp_count_call. deletes_session (λ x, text_eqb (Session_UserID x) u). by rewrite of_user.
  - apply wp_count_call. deletes_session (λ x, ExpiresAt x / 1000 <? before / 1000). by rewrite (past_expiry O w Hs).
  - eapply (list_sessions_refines O w Hs u _ _ _ scan_IdentityRefreshToken toRefreshToken (λ x, time_value (Session_CreatedAt x))).
    + intros Q w1. apply wp_listed_as.
    + eapply srv_Query; parses.
    + session_fact.
    + intros x. apply sqlc_session_row.
Qed.
End pgx.

Section gorm.
Context `{Oracle} `{UnicodeDB} {S : Type} `{GormDB S, Server S, !GormServer S default_schema}.
Context (O : sessions) (w : World S) (Hs : holds_sessions (srv_db (w_store w)) O).
Abbreviation post c := (λ r w', calm w w' ∧ does sess_step holds_sessions c O r (srv_db (w_store w'))) (only parsing).

Lemma gorm_session_row x : gm_scan (session_row x) = Ok (norm_session x).
Proof. by destruct x as [?????? []]. Qed.

Ltac deletes_session p := eapply (delete_sessions_refines O w Hs _ _ _ _ p);
  [eapply gs_Delete; built|unfold deletes; intros ? x _; session_fact|].

Lemma gorm_sessions c : dated c → wp (ts_call (GormOAuth.NewRefreshTokenStore []) c) (post (norm_scall c)) w.
Proof.
  intros Hd. destruct c; cbn [norm_scall].
  - apply (wp_unit_call GotUnit). cbn in Hd. eapply create_session_refines; [done|eapply gs_Create; [built|completes]|session_fact].
  - eapply (found_refines _ _ _ _ _ _ (O !! id)); [done| |by split; [destruct (O !! id)|]].
    eapply (gorm_found session_row); [built|intros m Hm; eapply look_session; [done|exact Hm|session_fact]|].
    intros x Hx. rewrite gorm_session_row. f_equal. by eapply (hss_norm _ _ Hs id).
  - apply wp_update_call. destruct x as [[|a id] u h n e ca lu];
      (eapply update_session_refines; [done|eapply gs_Updates; [built|set_solver]|session_fact]).
  - apply (wp_unit_call GotUnit). deletes_session (λ x, text_eqb (SessionID x) id). by rewrite (at_session O w Hs).
  - apply wp_count_call. deletes_session (λ x, text_eqb (Session_UserID x) u). by rewrite of_user.
  - apply wp_count_call. deletes_session (λ x, ExpiresAt x / 1000 <? before / 1000). by rewrite (past_expiry O w Hs).
  - apply (gorm_listed RefreshToken [Table (refreshTokens (resolveTables (resolve []))); WhereA "user_id = ?" [AString u];
      Order "created_at"] (SSelect (Select (ECol "" <$> gm_columns RefreshToken) (Some (sessions_t, sessions_t.2)) None
        (Some (EOp OEq (ECol "" "user_id") (EVal (VText u)))) (Some "created_at") None None))); [built|].
    intros mq Hsel Hgo.
    eapply (list_sessions_refines O w Hs u _ mq _ gm_scan id (λ x, time_value (Session_CreatedAt x))).
    + intros Q w1 Hq. apply Hgo, wp_returns. eapply wp_mono; [exact Hq|]. intros r w2. cbn beta. by rewrite collect_id.
    + exact Hsel.
    + session_fact.
    + intros x. exists (norm_session x). by rewrite gorm_session_row.
Qed.
End gorm.

(** ** A deleted session is gone

    In any history of the abstract store, whatever its server loses. *)

Lemma gone_stays lost id c O r O' : (∀ x, c = TCreate x → SessionID x ≠ id) →
  sstep sess_step lost c O r O' → O !! id = None → O' !! id = None.
Proof.
  intros Hc Hstep Hid. assert (∀ r0, sess_step c O r0 O' → O' !! id = None) as Hs.
  { intros r0 H. destruct c; cbn in H.
    - destruct H as [_ ->]. rewrite lookup_insert_ne; [done|by apply Hc].
    - by destruct H as [_ ->].
    - destruct (O !! SessionID x) as [y|] eqn:Hy; [|by destruct H as [_ ->]].
      destruct H as [_ (z & _ & ->)]. rewrite lookup_insert_ne by congruence. done.
    - destruct H as [_ ->]. by apply lookup_delete_None; right.
    - destruct H as [-> _]. by apply map_lookup_filter_None; left.
    - destruct H as [-> _]. by apply map_lookup_filter_None; left.
    - by destruct H as [-> _]. }
  destruct Hstep as [Hstep|[_ [->|[r' Hstep]]]]; [by eapply Hs|done|by eapply Hs].
Qed.

Lemma gone_history lost id cs O rs O' : Forall (λ c, ∀ x, c = TCreate x → SessionID x ≠ id) cs →
  history sess_step lost O cs rs O' → O !! id = None →
  ∀ x, (TGet id, Ok (GotSession x)) ∉ zip cs rs.
Proof.
  intros Hcs Hh. induction Hh as [O|c cs r rs O O1 O2 Hstep Hh IH]; intros Hid x; [by apply not_elem_of_nil|].
  apply Forall_cons in Hcs as [Hc Hcs]. cbn. intros [Heq|Hin]%elem_of_cons.
  - injection Heq as <- <-. destruct Hstep as [[Hr _]|[(e & He & _) _]]; [by rewrite Hid in Hr|done].
  - by apply (IH Hcs (gone_stays _ _ _ _ _ _ Hc Hstep Hid) x).
Qed.

(** Once a session was deleted, by its id or with its user's, it is not read again until one
    is created under its id. *)
Lemma deleted_session_gone lost id c cs O r rs O' : history sess_step lost O (c :: cs) (r :: rs) O' →
  Forall (λ c, ∀ x, c = TCreate x → SessionID x ≠ id) cs → is_ok r = true →
  c = TDelete id ∨ (∃ u, c = TDeleteUser u ∧ ∀ x, O !! id = Some x → Session_UserID x = u) →
  ∀ x, (TGet id, Ok (GotSession x)) ∉ zip cs rs.
Proof.
  intros Hh Hcs Hr Hc. inversion Hh as [|? ? ? ? ? O1 ? Hstep Hh']; subst.
  eapply gone_history; [exact Hcs|exact Hh'|]. destruct Hstep as [Hstep|[(e & -> & _) _]]; [|done].
  destruct Hc as [->|(u & -> & Hu)]; cbn in Hstep.
  - destruct Hstep as [_ ->]. by apply lookup_delete_eq.
  - destruct Hstep as [-> _]. apply map_lookup_filter_None. right. intros x Hx Hne. by apply Hne, Hu.
Qed.

(** ** The stores *)

(** The table of the server holds the abstract sessions. *)
Definition table_holds `{Server X} (s : X) (m : sessions) : Prop := holds_sessions (srv_db s) m.

Section stores.
Context `{Oracle} `{UnicodeDB} `{Scanner, !ScannerLaws} {S : Type} `{Pool S, Server S, !SqlServer S default_schema}.
Context {G : Type} `{GormDB G, Server G, !GormServer G default_schema}.

Definition sql_session_stores : list (RefreshTokenStore S) := [PgOAuth.NewRefreshTokenStore []; SqlcStore.NewRefreshTokenStore].

Lemma sql_sessions_implement st : st ∈ sql_session_stores →
  implements sess_step (srv_err (S := S)) table_holds norm_scall dated (ts_call st).
Proof.
  intros Hst c O w Hc Hs. unfold sql_session_stores in Hst.
  apply elem_of_cons in Hst as [->|Hst]; [|apply list_elem_of_singleton in Hst as ->]; eapply wp_mono.
  - by apply pgx_sessions.
  - by intros r w' [_ ?].
  - by apply sqlc_sessions.
  - by intros r w' [_ ?].
Qed.

Lemma gorm_sessions_implement :
  implements sess_step (srv_err (S := G)) (table_holds (X := G)) norm_scall dated (ts_call (GormOAuth.NewRefreshTokenStore (S := G) [])).
Proof. intros c O w Hc Hs. eapply wp_mono; [by apply gorm_sessions|]. by intros r w' [_ ?]. Qed.

(** C6: the in-memory store and, on a PostgreSQL server that may refuse any statement or lose
    its answer, the pgx, the sqlc and the GORM store implement one abstract store of refresh
    sessions: for every sequence of calls there is a history of the abstract store with the
    same answers, and the map or the table holds the state it ends in.  A call the server
    fails, as it must when a hash is taken, has done nothing or all of its work; times are
    kept to the microsecond, and a session is created with a time of creation. *)
Theorem session_stores_refine cs :
  (∀ O (w : World Store), mem_sessions (w_store w) O →
    wp (mapM (ts_call MemOAuth.RefreshTokens) cs) (λ rs w', ∃ O',
      history sess_step (λ _, False) O cs rs O' ∧ mem_sessions (w_store w') O') w)
  ∧ (∀ st O (w : World S), st ∈ sql_session_stores → Forall dated cs → table_holds (w_store w) O →
    wp (mapM (ts_call st) cs) (λ rs w', ∃ O',
      history sess_step (srv_err (S := S)) O (norm_scall <$> cs) rs O' ∧ table_holds (w_store w') O') w)
  ∧ (∀ O (w : World G), Forall dated cs → table_holds (w_store w) O →
    wp (mapM (ts_call (GormOAuth.NewRefreshTokenStore [])) cs) (λ rs w', ∃ O',
      history sess_step (srv_err (S := G)) O (norm_scall <$> cs) rs O' ∧ table_holds (w_store w') O') w).
Proof.
  split_and!.
  - intros O w Hs. eapply wp_mono; [by eapply (implements_history sess_step _ mem_sessions id (λ _, True)), Hs;
      [apply mem_sessions_implement|by apply Forall_true]|].
    intros rs w'. by rewrite list_fmap_id.
  - intros st O w Hst Hok Hs. eapply implements_history; [by apply sql_sessions_implement|done|done].
  - intros O w Hok Hs. eapply (implements_history sess_step _ (table_holds (X := G))); [apply gorm_sessions_implement|done|done].
Qed.
End stores.
