(* ===== verification/GoHttp.v ===== *)
(** * Package net/http as the handlers see it

    A request is what the accessors of [http.Request] answer (method, media type of the
    content type, form values once parsed, cookies, headers); a response is the status,
    headers and body a handler has written when it returns. *)

From S2P Require Import Prelude GoStrings GoBytes GoNet GoUrl Jwt.

Local Open Scope Z_scope.

Abbreviation Headers := (gmap string string).

Record Request := mkRequest {
  req_Method : string;
  req_Header : Headers;
  (** the media type of [mime.ParseMediaType] on the content type *)
  req_MediaType : string;
  req_Query : Values;
  (** [r.PostForm] after [r.ParseForm()] on the size-limited body, or its failure *)
  req_PostForm : option Values;
  req_Body : bytes;
  req_RemoteAddr : string;
  req_Cookies : gmap string string;
}.

Definition Header_Get (r : Request) (k : string) : string := default "" (req_Header r !! k).

Definition StatusOK : Z := 200.
Definition StatusCreated : Z := 201.
Definition StatusNoContent : Z := 204.
Definition StatusFound : Z := 302.
Definition StatusSeeOther : Z := 303.
Definition StatusBadRequest : Z := 400.
Definition StatusUnauthorized : Z := 401.
Definition StatusForbidden : Z := 403.
Definition StatusMethodNotAllowed : Z := 405.
Definition StatusTooManyRequests : Z := 429.
Definition StatusInternalServerError : Z := 500.

(** The parts of a consent page the default template shows. *)
Record ConsentPage := mkConsentPage {
  cp_App : string;
  cp_Name : string;
  cp_RedirectHost : string;
  cp_LoopbackOnly : bool;
  cp_Scopes : list string;
  cp_Resource : string;
  cp_Action : string;
  cp_Fields : Values;
}.

Inductive Body :=
  | NoBody
  | Text (s : string)
  | JSON (v : json)
  | Page (p : ConsentPage).

Record Response := mkResponse {
  resp_Status : Z;
  resp_Headers : Headers;
  resp_Body : Body;
}.

(** [http.Error(w, msg, code)], over the headers set before. *)
Definition http_Error (h : Headers) (msg : string) (code : Z) : Response :=
  mkResponse code (<["Content-Type" := "text/plain; charset=utf-8"]> h) (Text (msg +:+ bytes_str [to_byte 10])).

(** [http.Redirect(w, r, url, code)] to an absolute URL. *)
Definition Redirect (h : Headers) (url : string) (code : Z) : Response :=
  mkResponse code (<["Location" := url]> h) NoBody.

(** [r.BasicAuth()]. *)
Definition BasicAuth `{UnicodeDB} (r : Request) : option (string * string) :=
  let a := Header_Get r "Authorization" in
  if (len a <? 6) || negb (EqualFold (slice_to a 6) "Basic ") then None else
  c ← StdDecode (slice_from a 6);
  let '(user, pw, ok) := Cut ":" (bytes_str c) in
  if ok : bool then Some (user, pw) else None.
