(* ===== verification/OAuthUtil.v ===== *)
(** * OAuth utilities

    [oauth/util.go]: OAuth errors, responses, random secrets and their hashes, PKCE,
    scopes and URLs. *)

From S2P Require Import Prelude GoStrings GoBytes GoCrypto GoNet GoUrl Errors World Jwt GoHttp.

Local Open Scope Z_scope.

(** ** Errors (RFC 6749) *)

(** [oauth.Error]. *)
Record OError := mkOError { oe_Code : string; oe_Description : string; oe_Status : Z }.

#[export] Instance OError_eq_dec : EqDecision OError.
Proof. solve_decision. Defined.

Definition OError_Error (e : OError) : string :=
  if String.eqb (oe_Description e) "" then oe_Code e else oe_Code e +:+ ": " +:+ oe_Description e.

Definition oerr (status : Z) (code desc : string) : OError := mkOError code desc status.

Definition errInvalidRequest (d : string) : OError := oerr StatusBadRequest "invalid_request" d.
Definition errInvalidClient (d : string) : OError := oerr StatusUnauthorized "invalid_client" d.
Definition errInvalidGrant (d : string) : OError := oerr StatusBadRequest "invalid_grant" d.
Definition errInvalidScope (d : string) : OError := oerr StatusBadRequest "invalid_scope" d.
Definition errInvalidTarget (d : string) : OError := oerr StatusBadRequest "invalid_target" d.
Definition errUnsupportedGrant (d : string) : OError := oerr StatusBadRequest "unsupported_grant_type" d.
Definition errServer (d : string) : OError := oerr StatusInternalServerError "server_error" d.
Definition errInvalidRedirect (d : string) : OError := oerr StatusBadRequest "invalid_redirect_uri" d.

(** A Go function returning [(A, *Error)]. *)
Definition oresult (A : Type) : Type := A + OError.

(** ** Responses *)

Definition writeJSON (h : Headers) (status : Z) (v : json) : Response :=
  mkResponse status (<["Content-Type" := "application/json"]> h) (JSON v).

Definition OError_json (e : OError) : json :=
  JObj ([("error", JStr (oe_Code e))] ++
    if String.eqb (oe_Description e) "" then [] else [("error_description", JStr (oe_Description e))]).

Definition writeError (h : Headers) (e : OError) : Response :=
  let status := if oe_Status e =? 0 then StatusBadRequest else oe_Status e in
  writeJSON h status (OError_json e).

Definition noStore (h : Headers) : Headers :=
  <["Pragma" := "no-cache"]> (<["Cache-Control" := "no-store"]> h).

(** The headers so far, and the answer to a preflight request. *)
Definition cors (h : Headers) (r : Request) : Headers * option Response :=
  let h := <["Access-Control-Expose-Headers" := "WWW-Authenticate"]>
    (<["Access-Control-Allow-Origin" := "*"]> h) in
  if String.eqb (req_Method r) "OPTIONS" then
    let h := <["Access-Control-Max-Age" := "86400"]>
      (<["Access-Control-Allow-Headers" := "Authorization, Content-Type, MCP-Protocol-Version"]>
      (<["Access-Control-Allow-Methods" := "GET, POST, OPTIONS"]> h)) in
    (h, Some (mkResponse StatusNoContent h NoBody))
  else (h, None).

(** ** Secrets *)

Definition randomSecret {S} `{Oracle} (n : nat) : M S string := b ← rand_read n; mret (RawURLEncode b).

Definition hashSecret (s : string) : string := hex_encode (sha256 (str_bytes s)).

Definition constEq (a b : string) : bool := const_eq (str_bytes a) (str_bytes b).

(** ** PKCE (RFC 7636), S256 only *)

Definition isUnreserved (r : Z) : bool :=
  in_range r 0x41 0x5A || in_range r 0x61 0x7A || in_range r 0x30 0x39
  || (r =? 0x2D) || (r =? 0x2E) || (r =? 0x5F) || (r =? 0x7E).

Definition validChallenge (c : string) : bool :=
  if negb (len c =? 43) then false else
  forallb (λ r, negb (negb (isUnreserved r) || (r =? 0x2E) || (r =? 0x7E))) (runes c).

Definition validVerifier (v : string) : bool :=
  if (len v <? 43) || (128 <? len v) then false else forallb isUnreserved (runes v).

Definition verifyS256 (verifier challenge : string) : bool :=
  if negb (validVerifier verifier) then false else
  constEq (RawURLEncode (sha256 (str_bytes verifier))) challenge.

(** ** Scopes *)

(** [for ... { if !seen[sc] { seen[sc] = true; out = append(out, sc) } }]. *)
Fixpoint dedup_scopes (seen : gset string) (l : list string) : list string :=
  match l with
  | [] => []
  | sc :: l => if bool_decide (sc ∈ seen) then dedup_scopes seen l
               else sc :: dedup_scopes ({[sc]} ∪ seen) l
  end.
Definition parseScopes (s : string) : list string := dedup_scopes ∅ (Fields s).

Definition joinScopes (s : list string) : string := Join " " s.

Definition containsAll (have want : list string) : bool :=
  let set : gset string := list_to_set have in forallb (λ w, bool_decide (w ∈ set)) want.

Definition unionScopes (a b : list string) : list string :=
  parseScopes (joinScopes a +:+ " " +:+ joinScopes b).

Definition hasScope (l : list string) (s : string) : bool := existsb (λ x, String.eqb x s) l.

(** ** URLs *)

Section urls.
Context `{UnicodeDB}.

Definition set_Scheme_Host_Path (scheme host path : string) (u : URL) : URL :=
  mkURL scheme (u_Opaque u) (u_User u) host path (u_RawPath u)
    (u_OmitHost u) (u_ForceQuery u) (u_RawQuery u) (u_Fragment u) (u_RawFragment u).

(** [Some c] when [ok]. *)
Definition canonicalResource (s : string) : option string :=
  match url_Parse (TrimSpace s) with
  | None => None
  | Some u =>
    if String.eqb (u_Scheme u) "" || String.eqb (u_Host u) "" || negb (String.eqb (u_Fragment u) "")
       || bool_decide (u_User u ≠ None)
    then None else
    let path := if String.eqb (u_Path u) "/" then "" else u_Path u in
    Some (URL_String (set_Scheme_Host_Path (ToLower (u_Scheme u)) (ToLower (u_Host u)) path u))
  end.

Definition isLoopbackHost (host : string) : bool := EqualFold host "localhost" || parses_loopback host.

(** [None] when the URI is valid. *)
Definition validateRedirectURI (s : string) : option OError :=
  match url_Parse s with
  | None => Some (errInvalidRedirect ("redirect_uri must be an absolute URI: " +:+ s))
  | Some u =>
    if String.eqb (u_Scheme u) "" || String.eqb (u_Host u) "" then
      Some (errInvalidRedirect ("redirect_uri must be an absolute URI: " +:+ s))
    else if negb (String.eqb (u_Fragment u) "") || Contains s "#" then
      Some (errInvalidRedirect ("redirect_uri must not contain a fragment: " +:+ s))
    else if bool_decide (u_User u ≠ None) then
      Some (errInvalidRedirect "redirect_uri must not contain credentials")
    else
      let scheme := ToLower (u_Scheme u) in
      if String.eqb scheme "https" then None
      else if String.eqb scheme "http" then
        if isLoopbackHost (Hostname u) then None
        else Some (errInvalidRedirect ("http redirect_uri is only allowed on a loopback host: " +:+ s))
      else Some (errInvalidRedirect ("redirect_uri must use https (or http on loopback): " +:+ s))
  end.

(** One registered URI against a loopback request, the port ignored. *)
Definition loopback_match (ru : URL) (reg : string) : bool :=
  match url_Parse reg with
  | None => false
  | Some gu =>
    EqualFold (u_Scheme gu) "http" && isLoopbackHost (Hostname gu)
    && EqualFold (Hostname gu) (Hostname ru) && String.eqb (EscapedPath gu) (EscapedPath ru)
    && String.eqb (u_RawQuery gu) (u_RawQuery ru)
  end.

Definition matchRedirectURI (registered : list string) (requested : string) : bool :=
  if String.eqb requested "" then false else
  if hasScope registered requested then true else
  match url_Parse requested with
  | None => false
  | Some ru =>
    if negb (EqualFold (u_Scheme ru) "http") || negb (isLoopbackHost (Hostname ru))
       || negb (String.eqb (u_Fragment ru) "") then false else
    existsb (loopback_match ru) registered
  end.

Definition allLoopback (uris : list string) : bool :=
  match uris with
  | [] => false
  | _ => forallb (λ s, match url_Parse s with Some u => isLoopbackHost (Hostname u) | None => false end) uris
  end.

Definition hostOf (s : string) : string :=
  match url_Parse s with Some u => u_Host u | None => "" end.
End urls.

(** ** Facts *)

Lemma length_b64_enc a pad l : length (b64_enc a pad l) =
  if pad : bool then ((length l + 2) / 3 * 4)%nat else ((length l * 4 + 2) / 3)%nat.
Proof.
  induction l as [|c0|c0 c1|c0 c1 c2 l IH] using list_ind3; destruct pad; try done; cbn [b64_enc length] in *;
    rewrite ?length_app in *; cbn [length] in *; rewrite IH.
  - replace (S (S (S (length l))) + 2)%nat with (length l + 2 + 1 * 3)%nat by lia. rewrite Nat.div_add; lia.
  - replace (S (S (S (length l))) * 4 + 2)%nat with (length l * 4 + 2 + 4 * 3)%nat by lia. rewrite Nat.div_add; lia.
Qed.

Lemma url64_symbols l : Forall (λ c, is_ascii c ∧ isUnreserved (byte_val c) = true
  ∧ (byte_val c =? 0x2E) = false ∧ (byte_val c =? 0x7E) = false) (b64_enc url64 false l).
Proof.
  apply b64_enc_chars; [|done]. intros v Hv.
  pose (f v := let c := alpha_char url64 v in (byte_val c <? 0x80) && isUnreserved (byte_val c)
    && negb (byte_val c =? 0x2E) && negb (byte_val c =? 0x7E)).
  pose proof (range_check f 0 64 ltac:(by vm_compute) v Hv) as Hc. unfold f in Hc.
  apply andb_true_iff in Hc as [[[?%Z.ltb_lt ?]%andb_true_iff ?%negb_true_iff]%andb_true_iff ?%negb_true_iff]. done.
Qed.

(** The challenge of a verifier has the form the authorization endpoint asks for. *)
Lemma validChallenge_S256 v : validChallenge (RawURLEncode (sha256 (str_bytes v))) = true.
Proof.
  pose proof (url64_symbols (sha256 (str_bytes v))) as Hu. unfold validChallenge, len, RawURLEncode.
  rewrite <-length_str_bytes, str_bytes_str, length_b64_enc, length_sha256. cbn [negb].
  rewrite runes_ascii by (rewrite str_bytes_str; eapply Forall_impl; [exact Hu|by intros ? []]).
  rewrite str_bytes_str. apply forallb_forall. intros r Hr.
  apply list_elem_of_In, list_elem_of_fmap in Hr as (c & -> & Hc).
  rewrite Forall_forall in Hu. destruct (Hu _ Hc) as (_ & -> & -> & ->). done.
Qed.

Lemma constEq_spec a b : constEq a b = true ↔ a = b.
Proof. unfold constEq. rewrite const_eq_spec. split; [apply str_bytes_inj|by intros ->]. Qed.
Lemma constEq_refl a : constEq a a = true.
Proof. by apply constEq_spec. Qed.
Lemma constEq_false a b : constEq a b = false ↔ a ≠ b.
Proof. rewrite <-not_true_iff_false, constEq_spec. done. Qed.

Lemma verifyS256_true v c : verifyS256 v c = true ↔
  validVerifier v = true ∧ c = RawURLEncode (sha256 (str_bytes v)).
Proof.
  unfold verifyS256. destruct (validVerifier v); cbn [negb]; [|naive_solver].
  rewrite constEq_spec. naive_solver.
Qed.

Lemma hasScope_spec l x : hasScope l x = true ↔ x ∈ l.
Proof.
  unfold hasScope. rewrite existsb_exists. split.
  - intros (y & Hy & ->%String.eqb_eq). by apply list_elem_of_In.
  - intros Hx. exists x. split; [by apply list_elem_of_In|apply String.eqb_refl].
Qed.

Lemma containsAll_spec have want : containsAll have want = true ↔ want ⊆ have.
Proof.
  unfold containsAll. rewrite forallb_forall. split.
  - intros Hall x Hx. specialize (Hall x). rewrite bool_decide_eq_true, elem_of_list_to_set in Hall.
    apply Hall. by apply list_elem_of_In.
  - intros Hs x Hx%list_elem_of_In. apply bool_decide_eq_true, elem_of_list_to_set. by apply Hs.
Qed.

Lemma elem_of_dedup seen l x : x ∈ dedup_scopes seen l ↔ x ∈ l ∧ x ∉ seen.
Proof.
  revert seen. induction l as [|y l IH]; intros seen; cbn [dedup_scopes]; [set_solver|].
  case_bool_decide; rewrite ?elem_of_cons, IH; [set_solver|]. destruct (decide (x = y)); set_solver.
Qed.
Lemma NoDup_dedup seen l : NoDup (dedup_scopes seen l).
Proof.
  revert seen. induction l as [|y l IH]; intros seen; cbn [dedup_scopes]; [constructor|].
  case_bool_decide; [done|]. constructor; [|done]. rewrite elem_of_dedup. set_solver.
Qed.
Lemma dedup_id seen l : NoDup l → (∀ x, x ∈ l → x ∉ seen) → dedup_scopes seen l = l.
Proof.
  revert seen. induction l as [|y l IH]; intros seen Hn Hs; cbn [dedup_scopes]; [done|].
  apply NoDup_cons in Hn as [Hy Hl].
  rewrite bool_decide_eq_false_2 by (apply Hs; left). f_equal. apply IH; [done|]. intros x Hx.
  assert (x ≠ y) by (by intros ->). specialize (Hs x). set_solver.
Qed.

Lemma parseScopes_words s : Forall (λ f, word (str_bytes f)) (parseScopes s).
Proof.
  apply Forall_forall. intros x [Hx _]%elem_of_dedup. pose proof (Fields_words s) as Hw.
  rewrite Forall_forall in Hw. by apply Hw.
Qed.
Lemma NoDup_parseScopes s : NoDup (parseScopes s).
Proof. apply NoDup_dedup. Qed.

Lemma parse_join l : NoDup l → Forall (λ f, word (str_bytes f)) l → parseScopes (joinScopes l) = l.
Proof. intros Hn Hl. unfold parseScopes, joinScopes. rewrite Fields_Join by done. apply dedup_id; [done|set_solver]. Qed.

Lemma Join_app (l1 l2 : list string) : l1 ≠ [] → l2 ≠ [] → Join " " (l1 ++ l2) = Join " " l1 +:+ " " +:+ Join " " l2.
Proof.
  intros Hl1 Hl2. apply str_bytes_inj. induction l1 as [|a [|b l1] IH]; [done| |].
  - destruct l2 as [|c l2]; [done|]. cbn [app]. rewrite str_bytes_Join_cons, !str_bytes_app. done.
  - cbn [app] in *. rewrite str_bytes_Join_cons, IH, !str_bytes_app, str_bytes_Join_cons, <-!app_assoc by done. done.
Qed.

Lemma fields_go_trailing r c l cur : IsSpace r = true → fields_go cur (l ++ [(r, c)]) = fields_go cur l.
Proof.
  intros Hr. revert cur. induction l as [|[r' c'] l IH]; intros cur; cbn [app fields_go].
  - by rewrite Hr.
  - destruct (IsSpace r'); by rewrite ?IH.
Qed.
Lemma Fields_trailing_space s l : Fields s = l → Fields (s +:+ " " +:+ "") = l.
Proof.
  intros <-. unfold Fields. rewrite str_bytes_app. change (str_bytes (" " +:+ "")) with [" "%char].
  rewrite chunks_app_ascii by done. by rewrite fields_go_trailing.
Qed.

Lemma elem_of_unionScopes a b x : Forall (λ f, word (str_bytes f)) a → Forall (λ f, word (str_bytes f)) b →
  x ∈ unionScopes a b ↔ x ∈ a ∨ x ∈ b.
Proof.
  intros Ha Hb. unfold unionScopes, parseScopes, joinScopes. rewrite elem_of_dedup.
  assert (Fields (Join " " a +:+ " " +:+ Join " " b) = a ++ b) as ->; [|set_solver].
  destruct a as [|a0 a]; [|destruct b as [|b0 b]].
  - cbn [app]. transitivity (Fields (Join " " b)); [|by apply Fields_Join]. reflexivity.
  - rewrite app_nil_r. apply Fields_trailing_space. by apply Fields_Join.
  - rewrite <-Join_app by done. apply Fields_Join. by apply Forall_app.
Qed.

(** ** Properties *)

(** Proof keys. The S256 challenge of every valid verifier is one the authorization
    endpoint accepts; at the token endpoint that verifier redeems it, and any other
    verifier redeems it only with the same SHA-256 hash. *)
Theorem pkce_roundtrip v v' :
  validVerifier v = true →
  let challenge := RawURLEncode (sha256 (str_bytes v)) in
  validChallenge challenge = true ∧ verifyS256 v challenge = true
  ∧ (verifyS256 v' challenge = true → sha256 (str_bytes v') = sha256 (str_bytes v)).
Proof.
  intros Hv c. split_and!; [apply validChallenge_S256|by apply verifyS256_true|].
  intros [_ Hc]%verifyS256_true. by apply RawURLEncode_inj in Hc.
Qed.

(** Scope strings. Parsing a scope string gives words without repetition, the words of
    the string; printing and parsing them again gives the same list; and the union of two
    parsed lists holds exactly their scopes. *)
Theorem scopes_roundtrip s t :
  NoDup (parseScopes s) ∧ (∀ x, x ∈ parseScopes s ↔ x ∈ Fields s)
  ∧ parseScopes (joinScopes (parseScopes s)) = parseScopes s
  ∧ ∀ x, x ∈ unionScopes (parseScopes s) (parseScopes t) ↔ x ∈ parseScopes s ∨ x ∈ parseScopes t.
Proof.
  split_and!; [apply NoDup_parseScopes| | |].
  - intros x. unfold parseScopes. rewrite elem_of_dedup. set_solver.
  - apply parse_join; [apply NoDup_parseScopes|apply parseScopes_words].
  - intros x. apply elem_of_unionScopes; apply parseScopes_words.
Qed.
