(* ===== verification/Signer.v ===== *)
(** * Signers and key rings

    [identity/signer.go] and [identity/ecdsa_signer.go]: the [Signer] interface, the
    HMAC signer and the RSA and ECDSA key rings, whose methods run under their lock
    and are functions of the ring. *)

From S2P Require Import Prelude GoStrings Errors World Jwt.

(** [identity.Signer]. *)
Record Signer `{JWT} := mkSigner {
  sg_Alg : string;
  sg_SignKey : string * SignKey;
  sg_Keyfunc : Token → result VerifyKey;
}.

Definition hmac_algs : list string := ["HS256"; "HS384"; "HS512"].
Definition rsa_algs : list string := ["RS256"; "RS384"; "RS512"].
Definition ecdsa_algs : list string := ["ES256"; "ES384"; "ES512"].

Section signers.
Context `{JWT}.

Definition hmac_Keyfunc (k : bytes) (t : Token) : result VerifyKey :=
  if bool_decide (tok_Alg t ∈ hmac_algs) then Ok (inl k) else Err ErrInvalidToken.

Definition NewHMACSigner (k : bytes) : Signer :=
  mkSigner _ "HS256" ("", HMACKey k) (hmac_Keyfunc k).

Record RSAKeyring := mkRSAKeyring { rsa_active : string; rsa_keys : gmap string RSAPrivateKey }.

Definition NewRSAKeyring (activeKID : string) (k : RSAPrivateKey) : RSAKeyring :=
  mkRSAKeyring activeKID {[activeKID := k]}.
Definition RSAKeyring_Add (r : RSAKeyring) (kid : string) (k : RSAPrivateKey) (makeActive : bool) : RSAKeyring :=
  mkRSAKeyring (if makeActive then kid else rsa_active r) (<[kid := k]> (rsa_keys r)).
Definition RSAKeyring_Remove (r : RSAKeyring) (kid : string) : RSAKeyring :=
  mkRSAKeyring (rsa_active r) (delete kid (rsa_keys r)).
Definition RSAKeyring_SignKey (r : RSAKeyring) : string * SignKey :=
  (rsa_active r, RSAKey (rsa_keys r !! rsa_active r)).
Definition RSAKeyring_Keyfunc (r : RSAKeyring) (t : Token) : result VerifyKey :=
  if negb (bool_decide (tok_Alg t ∈ rsa_algs)) then Err ErrInvalidToken else
  let kid := as_string (tok_Header t !! "kid") in
  match rsa_keys r !! kid with
  | None => Err ErrInvalidToken
  | Some k => Ok (inr (inl (RSA_Public k)))
  end.
Definition RSA_Signer (r : RSAKeyring) : Signer :=
  mkSigner _ "RS256" (RSAKeyring_SignKey r) (RSAKeyring_Keyfunc r).

Record ECDSAKeyring := mkECDSAKeyring { ec_active : string; ec_keys : gmap string ECPrivateKey }.

Definition NewECDSAKeyring (activeKID : string) (k : ECPrivateKey) : ECDSAKeyring :=
  mkECDSAKeyring activeKID {[activeKID := k]}.
Definition ECDSAKeyring_Add (r : ECDSAKeyring) (kid : string) (k : ECPrivateKey) (makeActive : bool) : ECDSAKeyring :=
  mkECDSAKeyring (if makeActive then kid else ec_active r) (<[kid := k]> (ec_keys r)).
Definition ECDSAKeyring_Remove (r : ECDSAKeyring) (kid : string) : ECDSAKeyring :=
  mkECDSAKeyring (ec_active r) (delete kid (ec_keys r)).
Definition ECDSAKeyring_SignKey (r : ECDSAKeyring) : string * SignKey :=
  (ec_active r, ECKey (ec_keys r !! ec_active r)).
Definition ECDSAKeyring_Keyfunc (r : ECDSAKeyring) (t : Token) : result VerifyKey :=
  if negb (bool_decide (tok_Alg t ∈ ecdsa_algs)) then Err ErrInvalidToken else
  let kid := as_string (tok_Header t !! "kid") in
  match ec_keys r !! kid with
  | None => Err ErrInvalidToken
  | Some k => Ok (inr (inr (EC_Public k)))
  end.
Definition ECDSA_Signer (r : ECDSAKeyring) : Signer :=
  mkSigner _ "ES256" (ECDSAKeyring_SignKey r) (ECDSAKeyring_Keyfunc r).

(** ** Facts *)

(** A signer verifies what it signs: its key function resolves the key of a token
    with its algorithm and key id. *)
Definition signer_ok (s : Signer) : Prop := ∀ t pk,
  tok_Alg t = sg_Alg s → as_string (tok_Header t !! "kid") = (sg_SignKey s).1 →
  public_of (sg_SignKey s).2 = Some pk → sg_Keyfunc s t = Ok pk.

Lemma NewHMACSigner_ok k : signer_ok (NewHMACSigner k).
Proof.
  intros t pk Ha _ [= <-]. cbn in *. unfold hmac_Keyfunc. rewrite Ha.
  by rewrite bool_decide_eq_true_2 by (unfold hmac_algs; set_solver).
Qed.

Lemma RSA_Signer_ok r : signer_ok (RSA_Signer r).
Proof.
  intros t pk Ha Hk Hp. cbn in *. unfold RSAKeyring_Keyfunc. rewrite Ha, Hk.
  rewrite bool_decide_eq_true_2 by (unfold rsa_algs; set_solver).
  destruct (rsa_keys r !! rsa_active r); [|done]. by injection Hp as <-.
Qed.

Lemma ECDSA_Signer_ok r : signer_ok (ECDSA_Signer r).
Proof.
  intros t pk Ha Hk Hp. cbn in *. unfold ECDSAKeyring_Keyfunc. rewrite Ha, Hk.
  rewrite bool_decide_eq_true_2 by (unfold ecdsa_algs; set_solver).
  destruct (ec_keys r !! ec_active r); [|done]. by injection Hp as <-.
Qed.
End signers.

(** ** Properties *)

(** Key rotation. A token signed under a ring's active key keeps its
    verification key through every later addition of other keys, active or not, and
    through the removal of other keys; once its own key is removed it is rejected. *)
Theorem RSAKeyring_rotation `{JWT} (r : RSAKeyring) (t : Token) (k : RSAPrivateKey)
    (kids : list (string * RSAPrivateKey * bool)) (gone : list string) :
  let kid := as_string (tok_Header t !! "kid") in
  tok_Alg t ∈ rsa_algs → rsa_keys r !! kid = Some k →
  kid ∉ kids.*1.*1 → kid ∉ gone →
  let r' := foldl (λ r kid, RSAKeyring_Remove r kid)
    (foldl (λ r kv, RSAKeyring_Add r kv.1.1 kv.1.2 kv.2) r kids) gone in
  RSAKeyring_Keyfunc r' t = Ok (inr (inl (RSA_Public k)))
  ∧ RSAKeyring_Keyfunc (RSAKeyring_Remove r' kid) t = Err ErrInvalidToken.
Proof.
  intros kid Ha Hk Hkids Hgone r'.
  assert (rsa_keys r' !! kid = Some k) as Hk'.
  { unfold r'. clear r'.
    assert (rsa_keys (foldl (λ r kv, RSAKeyring_Add r kv.1.1 kv.1.2 kv.2) r kids) !! kid = Some k) as H1.
    { revert r Hk Hkids. clear Hgone. induction kids as [|[[kid1 k1] b] kids IH]; intros r Hk Hkids; [done|].
      rewrite !fmap_cons, not_elem_of_cons in Hkids. destruct Hkids as [Hne Hkids]. cbn [foldl fst snd] in *.
      apply IH; [|done]. cbn. by rewrite lookup_insert_ne. }
    revert H1. generalize (foldl (λ r kv, RSAKeyring_Add r kv.1.1 kv.1.2 kv.2) r kids). clear -Hgone.
    induction gone as [|kid1 gone IH]; intros r H1; [done|].
    rewrite not_elem_of_cons in Hgone. destruct Hgone as [Hne Hgone]. cbn [foldl].
    apply IH; [done|]. cbn. by rewrite lookup_delete_ne. }
  unfold RSAKeyring_Keyfunc. rewrite bool_decide_eq_true_2 by done. fold kid. cbn [negb].
  rewrite Hk'. cbn. by rewrite lookup_delete_eq.
Qed.
