(* ===== verification/Jwks.v ===== *)
(** * Publishing and reading public keys

    [identity/jwks.go]: the JWK set of a key ring; and the reading side in
    [oauth/client_assertion.go]: the usable signing keys of a client's JWK set.  The
    struct of an RSA public key and the point encodings of an ECDSA key are the key
    types of the JWT library's parameters ([PublicKeys]); decoding a document into
    structs is [encoding/json]'s ([JSONDocs]). *)

From S2P Require Import Prelude GoStrings GoBytes Errors World Jwt Signer.

Local Open Scope Z_scope.

(** [rsa.PublicKey]'s fields, and the uncompressed point of an ECDSA key. *)
Class PublicKeys `{JWT} := {
  RSA_N : RSAPublicKey → Z;
  RSA_E : RSAPublicKey → Z;
  rsa_PublicKey : Z → Z → RSAPublicKey;
  EC_Uncompressed : ECPublicKey → option bytes;
  ParseUncompressedP256 : bytes → option ECPublicKey;
}.

Class PublicKeyLaws `{PublicKeys} : Prop := {
  rsa_PublicKey_eta k : rsa_PublicKey (RSA_N k) (RSA_E k) = k;
  (** a 65-byte uncompressed encoding is that of a P-256 key and parses back *)
  Parse_Uncompressed k raw : EC_Uncompressed k = Some raw → length raw = 65%nat →
    ParseUncompressedP256 raw = Some k;
}.

(** ** big.Int *)

Definition BitLen (z : Z) : Z := if z =? 0 then 0 else Z.log2 z + 1.
(** [z.Bytes()] for [0 <= z]: big-endian without leading zeros; [SetBytes] is [get_be]. *)
Definition big_Bytes (z : Z) : bytes := put_be (Z.to_nat ((BitLen z + 7) / 8)) z.

(** ** The published side *)

Record JWK := mkJWK {
  jwk_Kty : string;
  jwk_Use : string;
  jwk_Kid : string;
  jwk_Alg : string;
  jwk_N : string;
  jwk_E : string;
  jwk_Crv : string;
  jwk_X : string;
  jwk_Y : string;
}.

Record JWKSet := mkJWKSet { Keys : list JWK }.

Fixpoint trimLeadingZeros (b : bytes) : bytes :=
  match b with
  | c :: (_ :: _) as t => if Ascii.eqb c zero then trimLeadingZeros t else b
  | _ => b
  end.

Section publish.
Context `{PublicKeys}.

Definition rsaJWK (kid : string) (k : RSAPrivateKey) : JWK :=
  let pub := RSA_Public k in
  let eBuf := trimLeadingZeros (put_be 4 (RSA_E pub mod 2 ^ 32)) in
  mkJWK "RSA" "sig" kid "RS256" (RawURLEncode (big_Bytes (RSA_N pub))) (RawURLEncode eBuf) "" "" "".

Definition RSAKeyring_JWKS {S} `{Oracle} (r : RSAKeyring) : M S JWKSet :=
  l ← range_map (rsa_keys r); mret (mkJWKSet (map (λ kv, rsaJWK kv.1 kv.2) l)).

Definition ecJWK (kid : string) (pub : ECPublicKey) : option JWK :=
  match EC_Uncompressed pub with
  | None => None
  | Some raw =>
    if (Z.of_nat (length raw) <? 3) || negb (byte_val (hd zero raw) =? 4) then None else
    let size := ((length raw - 1) / 2)%nat in
    let x := take size (drop 1 raw) in
    let y := drop (1 + size) raw in
    Some (mkJWK "EC" "sig" kid "ES256" "" "" "P-256" (RawURLEncode x) (RawURLEncode y))
  end.

Definition ECDSAKeyring_JWKS {S} `{Oracle} (r : ECDSAKeyring) : M S JWKSet :=
  l ← range_map (ec_keys r); mret (mkJWKSet (omap (λ kv, ecJWK kv.1 (EC_Public kv.2)) l)).
End publish.

(** ** The reading side *)

(** The RFC 7517 members the server decodes. *)
Record rawJWK := mkRawJWK {
  raw_Kty : string; raw_Kid : string; raw_Use : string; raw_Alg : string;
  raw_N : string; raw_E : string; raw_Crv : string; raw_X : string; raw_Y : string;
  raw_D : string; raw_P : string;
}.

(** A published key as [encoding/json] gives it back: omitted members are empty. *)
Definition raw_of_JWK (k : JWK) : rawJWK :=
  mkRawJWK (jwk_Kty k) (jwk_Kid k) (jwk_Use k) (jwk_Alg k) (jwk_N k) (jwk_E k) (jwk_Crv k)
    (jwk_X k) (jwk_Y k) "" "".

(** [json.Unmarshal] into the key-set struct; [None] is an error. *)
Class JSONDocs := { unmarshal_JWKS : bytes → option (list rawJWK) }.

Section read.
Context `{PublicKeys}.

(** [oauth.clientKey]: a verification key of a client. *)
Record clientKey := mkClientKey { ck_kid : string; ck_alg : string; ck_key : RSAPublicKey + ECPublicKey }.

Definition b64 (s : string) : bytes := default [] (RawURLDecode (TrimRight s "=")).

Definition rsaFromJWK (k : rawJWK) : option RSAPublicKey :=
  let n := b64 (raw_N k) in
  let e := b64 (raw_E k) in
  if bool_decide (n = []) || bool_decide (e = []) || (4 <? Z.of_nat (length e)) then None else
  let N := get_be n in
  let E := get_be e in
  if (BitLen N <? 2048) || (E <? 3) || (E mod 2 =? 0) then None else Some (rsa_PublicKey N E).

(** Left padding to 32 bytes. *)
Definition pad32 (b : bytes) : bytes := replicate (32 - length b) zero ++ b.

Definition ecFromJWK (k : rawJWK) : option ECPublicKey :=
  if negb (String.eqb (raw_Crv k) "P-256") then None else
  let x := b64 (raw_X k) in
  let y := b64 (raw_Y k) in
  if bool_decide (x = []) || (32 <? Z.of_nat (length x)) || bool_decide (y = []) || (32 <? Z.of_nat (length y))
  then None else
  ParseUncompressedP256 (to_byte 4 :: pad32 x ++ pad32 y).

(** The body of the loop over the set: [None] refuses the whole set. *)
Fixpoint usable_keys (l : list rawJWK) : option (list clientKey) :=
  match l with
  | [] => Some []
  | k :: l =>
    if negb (String.eqb (raw_D k) "") || negb (String.eqb (raw_P k) "") then None else
    r ← usable_keys l;
    if negb (String.eqb (raw_Use k) "") && negb (String.eqb (raw_Use k) "sig") then Some r else
    let pub :=
      if String.eqb (raw_Kty k) "RSA" then inl <$> rsaFromJWK k
      else if String.eqb (raw_Kty k) "EC" then inr <$> ecFromJWK k
      else None in
    Some match pub with Some p => mkClientKey (raw_Kid k) (raw_Alg k) p :: r | None => r end
  end.

Definition parseJWKS `{JSONDocs} (data : bytes) : result (list clientKey) :=
  match unmarshal_JWKS data with
  | None => Err (OtherError "jwks is not a valid JWK Set")
  | Some l =>
    match usable_keys l with
    | None => Err (OtherError "jwks must contain only public keys")
    | Some [] => Err (OtherError "jwks has no usable RS256/ES256 signing key")
    | Some out => Ok out
    end
  end.

Definition fits (k : clientKey) (alg : string) : bool :=
  if negb (String.eqb (ck_alg k) "") && negb (String.eqb (ck_alg k) alg) then false else
  match ck_key k with inl _ => String.eqb alg "RS256" | inr _ => String.eqb alg "ES256" end.
End read.

(** * Published keys parse back

    The JWK set of a key ring, read by the side that verifies client assertions, gives the
    ring's public keys with their ids. *)

(** ** Encodings *)

Lemma TrimRight_id s c : c ∉ str_bytes s → TrimRight s c = s.
Proof.
  intros Hc. unfold TrimRight. assert (drop_byte c (reverse (str_bytes s)) = reverse (str_bytes s)) as ->.
  { destruct (reverse (str_bytes s)) as [|b t] eqn:Hr; [done|]. cbn [drop_byte].
    rewrite (proj2 (Ascii.eqb_neq b c)); [done|]. intros ->. apply Hc, elem_of_reverse. rewrite Hr. left. }
  by rewrite reverse_involutive, bytes_str_bytes.
Qed.

Lemma b64_encode l : b64 (RawURLEncode l) = l.
Proof. unfold b64. rewrite TrimRight_id by (by apply RawURLEncode_outside). by rewrite RawURLDecode_Encode. Qed.

Lemma BitLen_spec z : 0 < z → 2 ^ (BitLen z - 1) <= z < 2 ^ BitLen z.
Proof.
  intros Hz. unfold BitLen. rewrite (proj2 (Z.eqb_neq _ _)) by lia.
  replace (Z.log2 z + 1 - 1) with (Z.log2 z) by lia. by apply Z.log2_spec.
Qed.

Lemma get_be_big_Bytes z : 0 < z → get_be (big_Bytes z) = z.
Proof.
  intros Hz. pose proof (BitLen_spec z Hz) as [Hl Hb]. unfold big_Bytes. apply get_be_put_be. split; [lia|].
  assert (0 <= BitLen z) by (unfold BitLen; case_match; [lia|pose proof (Z.log2_nonneg z); lia]).
  eapply Z.lt_le_trans; [exact Hb|]. change 256 with (2 ^ 8). rewrite <-Z.pow_mul_r by lia.
  apply Z.pow_le_mono_r; [lia|]. rewrite Z2Nat.id by (apply Z.div_pos; lia).
  pose proof (Z.div_mod (BitLen z + 7) 8 ltac:(lia)). pose proof (Z.mod_pos_bound (BitLen z + 7) 8 ltac:(lia)). lia.
Qed.

Lemma big_Bytes_nonempty z : 0 < z → big_Bytes z ≠ [].
Proof. intros Hz Hn. pose proof (get_be_big_Bytes z Hz) as Hg. rewrite Hn in Hg. cbn in Hg. lia. Qed.

Lemma get_be_trim l : get_be (trimLeadingZeros l) = get_be l.
Proof.
  induction l as [|c [|d t] IH]; [done..|]. cbn [trimLeadingZeros] in *.
  destruct (Ascii.eqb_spec c zero) as [->|]; [|done]. rewrite IH. reflexivity.
Qed.
Lemma length_trim l : l ≠ [] → (0 < length (trimLeadingZeros l) <= length l)%nat.
Proof.
  induction l as [|c l IH]; intros Hl; [done|]. cbn [trimLeadingZeros]. destruct l as [|d t]; [cbn; lia|].
  destruct (Ascii.eqb c zero); [|cbn [length]; lia].
  specialize (IH ltac:(discriminate)). cbn [length] in IH |- *. lia.
Qed.

Section keys.
Context `{PublicKeys} `{!PublicKeyLaws}.

(** RSA keys the reading side accepts. *)
Definition rsa_usable (k : RSAPublicKey) : Prop :=
  2 ^ 2047 <= RSA_N k ∧ 3 <= RSA_E k < 2 ^ 31 ∧ RSA_E k mod 2 = 1.
(** P-256 keys: 65 bytes, uncompressed. *)
Definition ec_usable (k : ECPublicKey) : Prop :=
  ∃ raw, EC_Uncompressed k = Some (to_byte 4 :: raw) ∧ length raw = 64%nat.

Lemma rsaFromJWK_rsaJWK kid k : rsa_usable (RSA_Public k) →
  rsaFromJWK (raw_of_JWK (rsaJWK kid k)) = Some (RSA_Public k).
Proof.
  intros (HN & HE & Hodd). unfold rsaFromJWK, rsaJWK, raw_of_JWK. cbn [raw_N raw_E jwk_N jwk_E].
  rewrite !b64_encode. set (pub := RSA_Public k) in *.
  assert (0 < RSA_N pub) as HN0 by (eapply Z.lt_le_trans; [|exact HN]; reflexivity).
  rewrite get_be_trim, get_be_big_Bytes by done. rewrite Z.mod_small by lia.
  assert (get_be (put_be 4 (RSA_E pub)) = RSA_E pub) as -> by (apply get_be_put_be; change (256 ^ Z.of_nat 4) with (2 ^ 32); lia).
  pose proof (length_trim (put_be 4 (RSA_E pub)) ltac:(done)) as [Hl1 Hl2]. rewrite length_put_be in Hl2.
  rewrite bool_decide_eq_false_2 by (by apply big_Bytes_nonempty).
  rewrite bool_decide_eq_false_2 by (intros Hn; rewrite Hn in Hl1; cbn in Hl1; lia).
  rewrite (proj2 (Z.ltb_ge _ _)) by lia. cbn [orb].
  assert (2048 <= BitLen (RSA_N pub)) as Hbits.
  { pose proof (BitLen_spec _ HN0) as [_ Hb]. destruct (Z.le_gt_cases 2048 (BitLen (RSA_N pub))) as [|Hlt]; [done|].
    assert (2 ^ BitLen (RSA_N pub) <= 2 ^ 2047) by (apply Z.pow_le_mono_r; lia). lia. }
  rewrite (proj2 (Z.ltb_ge _ 2048)), (proj2 (Z.ltb_ge _ 3)) by lia.
  rewrite (proj2 (Z.eqb_neq _ 0)) by lia. cbn [orb]. by rewrite rsa_PublicKey_eta.
Qed.

Lemma ecFromJWK_ecJWK kid k : ec_usable k →
  ∃ j, ecJWK kid k = Some j ∧ ecFromJWK (raw_of_JWK j) = Some k
    ∧ jwk_Kty j = "EC" ∧ jwk_Use j = "sig" ∧ jwk_Kid j = kid ∧ jwk_Alg j = "ES256".
Proof.
  intros (raw & Hraw & Hl). unfold ecJWK. rewrite Hraw. cbn [length hd]. rewrite Hl.
  rewrite byte_val_to_byte. change (4 mod 256) with 4. cbn [Z.eqb negb orb].
  eexists. split; [reflexivity|]. split; [|done].
  change ((65 - 1) / 2)%nat with 32%nat.
  unfold ecFromJWK, raw_of_JWK. cbn [raw_Crv raw_X raw_Y jwk_Crv jwk_X jwk_Y]. rewrite !b64_encode.
  change (drop 1 (to_byte 4 :: raw)) with raw. change (drop (1 + 32) (to_byte 4 :: raw)) with (drop 32 raw).
  assert (length (take 32 raw) = 32%nat) as Hx by (rewrite length_take; lia).
  assert (length (drop 32 raw) = 32%nat) as Hy by (rewrite length_drop; lia).
  rewrite (bool_decide_eq_false_2 (take 32 raw = [])) by (intros Hn; by rewrite Hn in Hx).
  rewrite (bool_decide_eq_false_2 (drop 32 raw = [])) by (intros Hn; by rewrite Hn in Hy).
  rewrite Hx, Hy. cbn [orb negb String.eqb]. unfold pad32. rewrite Hx, Hy. change (replicate (32 - 32) zero) with (@nil ascii). rewrite !app_nil_l.
  rewrite take_drop. apply Parse_Uncompressed with (raw := to_byte 4 :: raw); [done|cbn; lia].
Qed.
End keys.

(** ** Properties *)

Lemma usable_keys_list `{PublicKeys} (l : list JWK) (ks : list clientKey) :
  Forall2 (λ j k, usable_keys [raw_of_JWK j] = Some [k]) l ks → usable_keys (raw_of_JWK <$> l) = Some ks.
Proof.
  induction 1 as [|j k l ks Hj Hl IH]; [done|]. cbn [fmap list_fmap usable_keys] in *.
  change (list_fmap JWK rawJWK raw_of_JWK l) with (raw_of_JWK <$> l). rewrite IH. clear IH Hl. cbn [mbind option_bind] in *.
  destruct (_ || _); [discriminate|]. destruct (_ && _); [discriminate|].
  destruct (if String.eqb _ "RSA" then _ else _); [|discriminate]. by injection Hj as <-.
Qed.

Lemma usable_key `{PublicKeys} (k : rawJWK) p :
  raw_D k = "" → raw_P k = "" → raw_Use k = "sig" →
  (raw_Kty k = "RSA" ∧ (∃ q, rsaFromJWK k = Some q ∧ p = inl q)) ∨ (raw_Kty k = "EC" ∧ (∃ q, ecFromJWK k = Some q ∧ p = inr q)) →
  usable_keys [k] = Some [mkClientKey (raw_Kid k) (raw_Alg k) p].
Proof.
  intros HD HP HU Hk. cbn [usable_keys]. rewrite HD, HP, HU. cbn [String.eqb negb orb andb mbind option_bind].
  destruct Hk as [[-> (q & Hq & ->)]|[-> (q & Hq & ->)]]; by rewrite Hq.
Qed.

Lemma Forall2_map_list {A B C} (P : B → C → Prop) (f : A → B) (g : A → C) l :
  Forall (λ a, P (f a) (g a)) l → Forall2 P (f <$> l) (g <$> l).
Proof. induction 1; constructor; done. Qed.

(** C35: publishing keys. The key set an RSA ring publishes, read by the assertion verifier,
    gives one RS256 key per key of the ring, with its id and exactly its public part, for
    moduli of at least 2048 bits and odd exponents from 3 below 2^31; and that of an ECDSA
    ring one ES256 key per P-256 key. *)
Theorem published_keys_parse `{Oracle} `{PublicKeys, !PublicKeyLaws} {S} (r : RSAKeyring) (e : ECDSAKeyring) (w : World S) :
  map_Forall (λ _ k, rsa_usable (RSA_Public k)) (rsa_keys r) →
  map_Forall (λ _ k, ec_usable (EC_Public k)) (ec_keys e) →
  wp (RSAKeyring_JWKS r) (λ set w', w_store w' = w_store w ∧ ∃ ks, usable_keys (raw_of_JWK <$> Keys set) = Some ks
    ∧ ks ≡ₚ (λ kv, mkClientKey kv.1 "RS256" (inl (RSA_Public kv.2))) <$> map_to_list (rsa_keys r)) w
  ∧ wp (ECDSAKeyring_JWKS e) (λ set w', w_store w' = w_store w ∧ ∃ ks, usable_keys (raw_of_JWK <$> Keys set) = Some ks
    ∧ ks ≡ₚ (λ kv, mkClientKey kv.1 "ES256" (inr (EC_Public kv.2))) <$> map_to_list (ec_keys e)) w.
Proof.
  intros Hr He. split.
  - unfold RSAKeyring_JWKS, range_map. wp_steps. split; [done|].
    set (l := o_order _ _). assert (l ≡ₚ map_to_list (rsa_keys r)) as Hl by apply o_order_perm.
    exists ((λ kv, mkClientKey kv.1 "RS256" (inl (RSA_Public kv.2))) <$> l). split; [|by rewrite Hl].
    apply usable_keys_list, Forall2_map_list, Forall_forall. intros [kid k] Hin. rewrite Hl in Hin.
    apply elem_of_map_to_list in Hin. specialize (Hr kid k Hin).
    apply (usable_key (raw_of_JWK (rsaJWK kid k)) (inl (RSA_Public k))); try reflexivity.
    left. split; [reflexivity|]. eexists. split; [|reflexivity]. by apply rsaFromJWK_rsaJWK.
  - unfold ECDSAKeyring_JWKS, range_map. wp_steps. split; [done|].
    set (l := o_order _ _). assert (l ≡ₚ map_to_list (ec_keys e)) as Hl by apply o_order_perm.
    exists ((λ kv, mkClientKey kv.1 "ES256" (inr (EC_Public kv.2))) <$> l). split; [|by rewrite Hl].
    apply usable_keys_list. cbn [Keys].
    assert (Forall (λ kv, ec_usable (EC_Public kv.2)) l) as Hall.
    { apply Forall_forall. intros [kid k] Hin. rewrite Hl in Hin. apply elem_of_map_to_list in Hin. by apply (He kid). }
    clear Hl He. induction Hall as [|[kid k] l Hk _ IH]; [constructor|]. cbn [omap list_omap fmap list_fmap fst snd] in *.
    destruct (ecFromJWK_ecJWK kid _ Hk) as (j & Hj & Hparse & Hkty & Huse & Hkid & Halg). rewrite Hj.
    constructor; [|exact IH]. rewrite <-Hkid, <-Halg.
    apply (usable_key (raw_of_JWK j) (inr (EC_Public k))); try done. right. split; [done|]. by eexists.
Qed.
