(* ===== verification/TokenService.v ===== *)
(** * Sessions: access and refresh tokens

    [identity/token_service.go]: signed access tokens that embed the security stamp,
    and opaque refresh tokens kept either in a single slot of the user-token store
    (legacy) or as one row per session. *)

From S2P Require Import Prelude GoStrings GoBytes GoCrypto Errors World Entities Stores Hasher TokenProvider.
From S2P Require Import UserManager TwoFactor Jwt Signer.

Local Open Scope Z_scope.

Definition ClaimNameIdentifier : string := "uid".
Definition ClaimName : string := "name".
Definition ClaimEmail : string := "email".
Definition ClaimRole : string := "roles".
Definition ClaimSecurityStamp : string := "idn_sstamp".
Definition TokenTypeAccessJWT : string := "at+jwt".
Definition refreshTokenProvider : string := "GoIdentity".
Definition refreshTokenName : string := "RefreshToken".

Record TokenOptions `{JWT} := mkTokenOptions {
  SigningKey : bytes;
  TO_Signer : option Signer;
  Issuer : string;
  Audience : string;
  AccessTokenTTL : Duration;
  RefreshTokenTTL : Duration;
  MaxSessions : Z;
}.

Record TokenPair := mkTokenPair {
  AccessToken : string;
  Pair_RefreshToken : string;
  Pair_ExpiresAt : Time;
  TokenType : string;
}.

(** [identity.TokenServiceOf]; [Sessions] is nil or a refresh-session store. *)
Record TokenService `{JWT} (S : Type) := mkTokenService {
  TS_Users : UserManager S;
  TS_Options : TokenOptions;
  TS_Sessions : option (RefreshTokenStore S);
}.
Arguments mkTokenService {_ S} _ _ _.
Arguments TS_Users {_ S} _.
Arguments TS_Options {_ S} _.
Arguments TS_Sessions {_ S} _.

Section service.
Context `{Oracle} `{UnicodeDB} `{PBKDF2} `{JWT} {S : Type} `{UserStore S}.

Definition signer (o : TokenOptions) : Signer :=
  match TO_Signer o with Some s => s | None => NewHMACSigner (SigningKey o) end.

Definition DefaultTokenOptions (signingKey : bytes) (issuer audience : string) : TokenOptions :=
  mkTokenOptions _ signingKey None issuer audience (15 * Minute) (7 * 24 * Hour) 0.

Definition NewTokenService (users : UserManager S) (opts : TokenOptions) : TokenService S :=
  mkTokenService users opts None.
Definition WithSessionStore (t : TokenService S) (s : option (RefreshTokenStore S)) : TokenService S :=
  mkTokenService (TS_Users t) (TS_Options t) s.

Definition randomToken : M S string := b ← rand_read 32; mret (RawURLEncode b).

Section ops.
Context (t : TokenService S).

Definition refreshTTL : Duration :=
  if 0 <? RefreshTokenTTL (TS_Options t) then RefreshTokenTTL (TS_Options t) else 7 * 24 * Hour.

(** The claims of an access token, before the user's own are merged in. *)
Definition base_claims (u : User) (roles : list string) (issued : Time) : MapClaims :=
  let exp := Add issued (AccessTokenTTL (TS_Options t)) in
  let claims : MapClaims := list_to_map [
    ("sub", JStr (ID u)); (ClaimNameIdentifier, JStr (ID u)); (ClaimName, JStr (UserName u));
    (ClaimEmail, JStr (Email u)); (ClaimSecurityStamp, JStr (SecurityStamp u));
    ("iss", JStr (Issuer (TS_Options t))); ("aud", JStr (Audience (TS_Options t)));
    ("iat", JNum (Unix issued)); ("nbf", JNum (Unix issued)); ("exp", JNum (Unix exp))] in
  if bool_decide (roles = []) then claims
  else <[ClaimRole := JArr (JStr <$> roles)]> claims.

(** [if _, taken := claims[c.Type]; !taken { claims[c.Type] = c.Value }]. *)
Definition merge_claim (claims : MapClaims) (c : Claim) : MapClaims :=
  match claims !! Claim_Type c with
  | Some _ => claims
  | None => <[Claim_Type c := JStr (Claim_Value c)]> claims
  end.

Definition signAccessToken (u : User) : M S (result (string * Time)) :=
  roles ←? GetRoles u;
  issued ← now;
  let exp := Add issued (AccessTokenTTL (TS_Options t)) in
  let claims := base_claims u roles issued in
  cs ← GetClaims u;
  claims ← match cs with
           | Err _ =>
             _ ← log_Warn (TS_Users t) "identity: failed to load user claims for token";
             mret claims
           | Ok userClaims => mret (foldl merge_claim claims userClaims)
           end;
  let s := signer (TS_Options t) in
  let tok := NewWithClaims (sg_Alg s) claims in
  let '(kid, key) := sg_SignKey s in
  let tok := if negb (String.eqb kid "") then set_Header "kid" (JStr kid) tok else tok in
  mret match SignedString tok key with
       | Err e => Err e
       | Ok signed => Ok (signed, exp)
       end.

(** The loop of [enforceMaxSessions] over the sorted sessions. *)
Fixpoint evict (st : RefreshTokenStore S) (keepID : string) (excess : Z) (l : list RefreshToken) : M S unit :=
  match l with
  | [] => mret tt
  | rt :: l =>
    if excess =? 0 then mret tt else
    if String.eqb (SessionID rt) keepID then evict st keepID excess l else
    r ← ts_DeleteRefreshToken (SessionID rt);
    match r with
    | Err _ => _ ← log_Warn (TS_Users t) "identity: session eviction failed"; evict st keepID excess l
    | Ok _ => evict st keepID (excess - 1) l
    end
  end.

Definition enforceMaxSessions (st : RefreshTokenStore S) (userID keepID : string) : M S unit :=
  let max := MaxSessions (TS_Options t) in
  if max <=? 0 then mret tt else
  r ← ts_ListUserRefreshTokens userID;
  match r with
  | Err _ => mret tt
  | Ok sessions =>
    if Z.of_nat (length sessions) <=? max then mret tt else
    sessions ← sort_Slice (key_le_Z ExpiresAt) sessions;
    evict st keepID (Z.of_nat (length sessions) - max) sessions
  end.

Definition newSessionRefresh (st : RefreshTokenStore S) (u : User) : M S (result string) :=
  issued ← now;
  secret ← randomToken;
  sid ← uuid_NewString;
  let rt := mkRefreshToken sid (ID u) (hashRefresh secret) "" (Add issued refreshTTL) issued None in
  _ ←? ts_CreateRefreshToken rt;
  r ← ts_DeleteExpiredRefreshTokens issued;
  _ ← match r with
      | Ok _ => mret tt
      | Err _ => log_Warn (TS_Users t) "identity: refresh-session GC failed"
      end;
  _ ← enforceMaxSessions st (ID u) sid;
  mret (Ok (sid +:+ "." +:+ secret)).

Definition IssuePair (u : User) : M S (result TokenPair) :=
  '(signed, exp) ←? signAccessToken u;
  match TS_Sessions t with
  | Some st =>
    refresh ←? newSessionRefresh st u;
    mret (Ok (mkTokenPair signed refresh exp "Bearer"))
  | None =>
    refresh ← randomToken;
    issued ← now;
    let refreshExp := Unix (Add issued refreshTTL) in
    let stored := hashRefresh refresh +:+ ":" +:+ FormatInt refreshExp in
    _ ←? us_SetToken u refreshTokenProvider refreshTokenName stored;
    mret (Ok (mkTokenPair signed refresh exp "Bearer"))
  end.

Definition ValidateAccessToken (tokenStr : string) : M S (result (User * MapClaims)) :=
  let s := signer (TS_Options t) in
  at_ ← now;
  match Parse (sg_Keyfunc s)
      (mkParserOptions [sg_Alg s] (Issuer (TS_Options t)) (Some (Audience (TS_Options t))) false)
      at_ tokenStr with
  | Err _ => mret (Err ErrInvalidToken)
  | Ok parsed =>
    if EqualFold (as_string (tok_Header parsed !! "typ")) TokenTypeAccessJWT
    then mret (Err ErrInvalidToken) else
    let claims := tok_Claims parsed in
    r ← FindByID (as_string (claims !! "sub"));
    match r with
    | Ok (Some u) =>
      if negb (String.eqb (as_string (claims !! ClaimSecurityStamp)) (SecurityStamp u))
      then mret (Err ErrInvalidToken)
      else mret (Ok (u, claims))
    | _ => mret (Err ErrInvalidToken)
    end
  end.

Definition validateLegacySlot (u : User) (refreshToken : string) : M S (result unit) :=
  r ← us_GetToken u refreshTokenProvider refreshTokenName;
  match r with
  | Err _ => mret (Err ErrInvalidToken)
  | Ok stored =>
    if String.eqb stored "" then mret (Err ErrInvalidToken) else
    let '(hashPart, expPart, ok) := Cut ":" stored in
    if negb ok then mret (Err ErrInvalidToken) else
    let '(exp, ok) := ParseInt expPart in
    expired ← (if negb ok then mret true else at_ ← now; mret (After at_ (FromUnix exp)));
    if expired : bool then mret (Err ErrInvalidToken) else
    if negb (const_eq (str_bytes hashPart) (str_bytes (hashRefresh refreshToken)))
    then mret (Err ErrInvalidToken)
    else mret (Ok tt)
  end.

Definition refreshSession (st : RefreshTokenStore S) (u : User) (sessionID secret : string)
    : M S (result TokenPair) :=
  if String.eqb sessionID "" || (64 <? len sessionID) then mret (Err ErrInvalidToken) else
  r ← ts_GetRefreshTokenBySession sessionID;
  match r with
  | Err e => mret (Err (if ErrorsIs e ErrNotFound then ErrInvalidToken else e))
  | Ok rt =>
    at_ ← now;
    if negb (String.eqb (Session_UserID rt) (ID u)) || After at_ (ExpiresAt rt)
    then mret (Err ErrInvalidToken) else
    if negb (const_eq (str_bytes (TokenHash rt)) (str_bytes (hashRefresh secret)))
    then mret (Err ErrInvalidToken) else
    '(signed, exp) ←? signAccessToken u;
    newSecret ← randomToken;
    let rt := set_LastUsedAt (Some at_) (set_ExpiresAt (Add at_ refreshTTL)
      (set_TokenHash (hashRefresh newSecret) rt)) in
    _ ←? ts_UpdateRefreshToken rt;
    mret (Ok (mkTokenPair signed (SessionID rt +:+ "." +:+ newSecret) exp "Bearer"))
  end.

Definition Refresh (u : User) (refreshToken : string) : M S (result TokenPair) :=
  match TS_Sessions t with
  | Some st =>
    let '(sid, secret, ok) := Cut "." refreshToken in
    if ok : bool then refreshSession st u sid secret else
    _ ←? validateLegacySlot u refreshToken;
    pair ←? IssuePair u;
    _ ← us_RemoveToken u refreshTokenProvider refreshTokenName;
    mret (Ok pair)
  | None =>
    _ ←? validateLegacySlot u refreshToken;
    IssuePair u
  end.

Definition Revoke (u : User) : M S (result unit) :=
  _ ←? us_RemoveToken u refreshTokenProvider refreshTokenName;
  match TS_Sessions t with
  | None => mret (Ok tt)
  | Some st => _ ←? ts_DeleteUserRefreshTokens (ID u); mret (Ok tt)
  end.

Definition RevokeSession (u : User) (refreshToken : string) : M S (result unit) :=
  let legacy := us_RemoveToken u refreshTokenProvider refreshTokenName in
  match TS_Sessions t with
  | None => legacy
  | Some st =>
    let '(sid, _, ok) := Cut "." refreshToken in
    if negb ok then legacy else
    r ← ts_GetRefreshTokenBySession sid;
    match r with
    | Err e => mret (if ErrorsIs e ErrNotFound then Ok tt else Err e)
    | Ok rt =>
      if negb (String.eqb (Session_UserID rt) (ID u)) then mret (Err ErrInvalidToken)
      else ts_DeleteRefreshToken sid
    end
  end.

Definition ListSessions (u : User) : M S (result (list RefreshToken)) :=
  match TS_Sessions t with
  | None => mret (Err ErrListNotSupported)
  | Some st => ts_ListUserRefreshTokens (ID u)
  end.
End ops.
End service.
