(* ===== verification/TokenServiceFacts.v ===== *)
(** * Correctness of the token service

    Access tokens round-trip while they are valid and die with the security stamp;
    refresh tokens rotate; sessions are capped and revoked. *)

From S2P Require Import Prelude GoStrings GoBytes GoCrypto Errors World Entities Stores StoreLaws.
From S2P Require Import Hasher TokenProvider UserManager UserManagerFacts TwoFactor TwoFactorFacts.
From S2P Require Import Jwt Signer TokenService.

Local Open Scope Z_scope.

Lemma refreshTokenProvider_plain : plain refreshTokenProvider.
Proof. by apply (bool_decide_unpack _). Qed.

Lemma hashRefresh_no_colon x : ":"%char ∉ str_bytes (hashRefresh x).
Proof. apply hashRefresh_good. Qed.

(** Merging user claims never replaces a claim. *)
Lemma merge_claims_lookup cs (claims : MapClaims) k v :
  claims !! k = Some v → foldl merge_claim claims cs !! k = Some v.
Proof.
  revert claims. induction cs as [|c cs IH]; intros claims Hk; [done|]. cbn [foldl]. apply IH.
  unfold merge_claim. destruct (claims !! Claim_Type c) as [v'|] eqn:Hc; [done|].
  rewrite lookup_insert_ne; [done|]. intros Heq. rewrite Heq in Hc. congruence.
Qed.

Lemma merge_claims_exact cs (claims : MapClaims) :
  map_Forall (λ _ v, json_exact v = true) claims →
  map_Forall (λ _ v, json_exact v = true) (foldl merge_claim claims cs).
Proof.
  revert claims. induction cs as [|c cs IH]; intros claims Hk; [done|]. cbn [foldl]. apply IH.
  unfold merge_claim. destruct (claims !! Claim_Type c); [done|]. by apply map_Forall_insert_2.
Qed.

Section facts.
Context `{Oracle} `{UnicodeDB} `{PBKDF2} `{JWT} {S : Type} `{UserStore S, StoreView S, !UserStoreSpec S}.
Context (t : TokenService S).
Implicit Types w : World S.

(** The token signed for a user, from the roles and claims read. *)
Definition access_token (u : User) (roles : list string) (cs : list Claim) (issued : Time) : Token :=
  let tok := NewWithClaims (sg_Alg (signer (TS_Options t))) (foldl merge_claim (base_claims t u roles issued) cs) in
  let kid := (sg_SignKey (signer (TS_Options t))).1 in
  if negb (String.eqb kid "") then set_Header "kid" (JStr kid) tok else tok.

Lemma wp_signAccessToken u w (Q : result (string * Time) → World S → Prop) :
  v_inv (w_store w) →
  (∀ e w', same w w' → Q (Err e) w') →
  (∀ i roles cs s w', (w_step w <= i)%nat → same w w' →
    SignedString (access_token u roles cs (o_now i)) (sg_SignKey (signer (TS_Options t))).2 = Ok s →
    Q (Ok (s, o_now i + AccessTokenTTL (TS_Options t))) w') →
  wp (signAccessToken t u) Q w.
Proof.
  intros Hi HE HQ. unfold signAccessToken. rewrite wp_bind_ok. unfold GetRoles.
  wp_call spec_GetRoles; [done|]. intros r w1 [Hs1 [roles ->]]. wp_steps. unfold GetClaims.
  assert (same w (tick w1)) as Hs1' by (eapply same_trans; [done|]; apply same_tick; by eapply same_inv).
  wp_call spec_GetClaims; [by eapply same_inv|]. intros cr w2 [Hs2 [cs ->]]. wp_steps.
  pose proof (same_trans _ _ _ Hs1' Hs2) as Hs.
  destruct (sg_SignKey (signer (TS_Options t))) as [kid key] eqn:Hkey. wp_steps.
  specialize (HQ (w_step w1) roles cs). unfold access_token in HQ. rewrite Hkey in HQ. cbn [fst snd] in HQ.
  destruct (SignedString _ key) as [s|e]; [|by apply HE].
  apply HQ; [by apply same_step|done|done].
Qed.

Lemma access_token_header u roles cs issued :
  tok_Alg (access_token u roles cs issued) = sg_Alg (signer (TS_Options t))
  ∧ tok_Header (access_token u roles cs issued) !! "alg" = Some (JStr (sg_Alg (signer (TS_Options t))))
  ∧ tok_Header (access_token u roles cs issued) !! "typ" = Some (JStr "JWT")
  ∧ as_string (tok_Header (access_token u roles cs issued) !! "kid") = (sg_SignKey (signer (TS_Options t))).1
  ∧ map_Forall (λ _ v, json_exact v = true) (tok_Header (access_token u roles cs issued)).
Proof.
  unfold access_token. set (kid := (sg_SignKey _).1).
  destruct (String.eqb_spec kid "") as [->|Hk]; cbn [negb];
    (split_and!; [done|done|done| |]).
  - done.
  - intros k v. cbn. rewrite ?lookup_insert_Some, lookup_singleton_Some. naive_solver.
  - cbn. by rewrite lookup_insert_eq.
  - intros k v. cbn. rewrite ?lookup_insert_Some, lookup_singleton_Some. naive_solver.
Qed.

Lemma access_token_claims u roles cs issued k v :
  base_claims t u roles issued !! k = Some v → tok_Claims (access_token u roles cs issued) !! k = Some v.
Proof.
  intros Hk. unfold access_token.
  destruct (negb _); by apply merge_claims_lookup.
Qed.

Lemma base_claims_lookup u roles issued k v :
  k ≠ ClaimRole →
  (list_to_map [
    ("sub", JStr (ID u)); (ClaimNameIdentifier, JStr (ID u)); (ClaimName, JStr (UserName u));
    (ClaimEmail, JStr (Email u)); (ClaimSecurityStamp, JStr (SecurityStamp u));
    ("iss", JStr (Issuer (TS_Options t))); ("aud", JStr (Audience (TS_Options t)));
    ("iat", JNum (Unix issued)); ("nbf", JNum (Unix issued));
    ("exp", JNum (Unix (issued + AccessTokenTTL (TS_Options t))))] : MapClaims) !! k = Some v →
  base_claims t u roles issued !! k = Some v.
Proof.
  intros Hk Hv. unfold base_claims. case_bool_decide; [done|]. by rewrite lookup_insert_ne.
Qed.

Lemma access_token_exact u roles cs issued :
  Z.abs (Unix issued) <= 2 ^ 53 → Z.abs (Unix (issued + AccessTokenTTL (TS_Options t))) <= 2 ^ 53 →
  token_exact (access_token u roles cs issued).
Proof.
  intros Hi He. split; [apply access_token_header|].
  assert (map_Forall (λ _ v, json_exact v = true) (base_claims t u roles issued)) as Hb.
  { unfold base_claims. set (m := list_to_map _).
    assert (map_Forall (λ _ v, json_exact v = true) m) as Hm.
    { intros k v Hv. apply elem_of_list_to_map_2 in Hv.
      rewrite !elem_of_cons, elem_of_nil in Hv. unfold Add in Hv.
      destruct_or! Hv; simplify_eq; try done; by apply Z.leb_le. }
    case_bool_decide; [done|]. apply map_Forall_insert_2; [|done].
    cbn. apply forallb_forall. intros x Hx. apply in_map_iff in Hx as (y & <- & _). done. }
  unfold access_token. destruct (negb _); by apply merge_claims_exact.
Qed.

Lemma access_token_valid u roles cs issued now :
  Audience (TS_Options t) ≠ "" →
  Unix issued * Second <= now < Unix (issued + AccessTokenTTL (TS_Options t)) * Second →
  claims_valid (mkParserOptions [sg_Alg (signer (TS_Options t))] (Issuer (TS_Options t))
    (Some (Audience (TS_Options t))) false) now (tok_Claims (access_token u roles cs issued)).
Proof.
  intros Ha [Hn He]. unfold claims_valid. cbn [po_Issuer po_Audience po_ExpirationRequired].
  rewrite (access_token_claims u roles cs issued "iss" (JStr (Issuer (TS_Options t))))
    by (by apply base_claims_lookup).
  rewrite (access_token_claims u roles cs issued "aud" (JStr (Audience (TS_Options t))))
    by (by apply base_claims_lookup).
  rewrite (access_token_claims u roles cs issued "exp" (JNum (Unix (issued + AccessTokenTTL (TS_Options t)))))
    by (by apply base_claims_lookup).
  rewrite (access_token_claims u roles cs issued "nbf" (JNum (Unix issued)))
    by (by apply base_claims_lookup).
  split_and!; try done. by right.
Qed.

(** The verdict on a parsed token is a lookup of its subject and stamp. *)
Lemma wp_ValidateAccessToken str w (Q : result (User * MapClaims) → World S → Prop) :
  v_inv (w_store w) →
  (∀ w', same w w' → Q (Err ErrInvalidToken) w') →
  (∀ tok u w',
    Parse (sg_Keyfunc (signer (TS_Options t))) (mkParserOptions [sg_Alg (signer (TS_Options t))]
      (Issuer (TS_Options t)) (Some (Audience (TS_Options t))) false) (o_now (w_step w)) str = Ok tok →
    EqualFold (as_string (tok_Header tok !! "typ")) TokenTypeAccessJWT = false →
    v_users (w_store w) !! as_string (tok_Claims tok !! "sub") = Some u →
    as_string (tok_Claims tok !! ClaimSecurityStamp) = SecurityStamp u →
    same w w' → Q (Ok (u, tok_Claims tok)) w') →
  wp (ValidateAccessToken t str) Q w.
Proof.
  intros Hi HE HQ. unfold ValidateAccessToken. wp_steps. pose proof (same_tick w Hi) as Ht.
  destruct (Parse _ _ _ _) as [tok|e] eqn:Hp; [|wp_steps; by apply HE].
  case_if Htyp; [wp_steps; by apply HE|]. wp_steps. unfold FindByID.
  wp_call spec_FindByID; [done|]. intros r w' [Hs ->].
  rewrite (same_users _ _ Ht). pose proof (same_trans _ _ _ Ht Hs) as Hs'.
  destruct (v_users (w_store w) !! _) as [u|] eqn:Hu; [|wp_steps; by apply HE].
  destruct (String.eqb_spec (as_string (tok_Claims tok !! ClaimSecurityStamp)) (SecurityStamp u));
    cbn [negb]; wp_steps; [by apply HQ|by apply HE].
Qed.
End facts.

(** A map without some keys. *)
Definition without {A} (l : list string) (R : gmap string A) : gmap string A :=
  foldl (λ R k, delete k R) R l.

Section without.
Context {A : Type}.
Implicit Types R : gmap string A.

Lemma without_lookup l R k : without l R !! k = if bool_decide (k ∈ l) then None else R !! k.
Proof.
  revert R. induction l as [|x l IH]; intros R; cbn [without foldl].
  { rewrite bool_decide_eq_false_2; [done|]. apply not_elem_of_nil. }
  change (foldl _ ?R l) with (without l R). rewrite IH.
  destruct (decide (k = x)) as [->|Hne].
  - rewrite (bool_decide_eq_true_2 (x ∈ x :: l)) by left.
    rewrite lookup_delete_eq. by destruct (bool_decide _).
  - rewrite lookup_delete_ne by done. apply if_ext_dec. rewrite elem_of_cons. naive_solver.
Qed.

Lemma without_lookup_Some l R k v : without l R !! k = Some v ↔ (k ∉ l) ∧ R !! k = Some v.
Proof. rewrite without_lookup. case_bool_decide; naive_solver. Qed.

Lemma filter_without (P : string * A → Prop) `{!∀ x, Decision (P x)} l R :
  filter P (without l R) = without l (filter P R).
Proof.
  revert R. induction l as [|x l IH]; intros R; [done|]. cbn [without foldl].
  change (foldl _ ?R l) with (without l R). by rewrite IH, map_filter_delete.
Qed.

Lemma size_without l R :
  NoDup l → Forall (λ k, is_Some (R !! k)) l → size (without l R) = (size R - length l)%nat.
Proof.
  revert R. induction l as [|x l IH]; intros R Hnd Hl; cbn [without foldl length]; [lia|].
  change (foldl _ ?R l) with (without l R). apply NoDup_cons in Hnd as [Hx Hnd].
  apply Forall_cons in Hl as [HR Hl]. rewrite IH; [rewrite map_size_delete_Some by done; lia|done|].
  apply Forall_forall. intros k Hk. rewrite Forall_forall in Hl.
  rewrite lookup_delete_ne by (intros <-; done). by apply Hl.
Qed.
End without.

(** The keys of a keyed map, listed through its values. *)
Lemma keyed_keys {A} (key : A → string) (m : gmap string A) :
  keyed key m → key <$> (map_to_list m).*2 = (map_to_list m).*1.
Proof.
  intros Hm. rewrite <-list_fmap_compose. apply list_fmap_ext. intros i [k a] Hi. cbn.
  apply Hm. by apply elem_of_map_to_list, list_elem_of_lookup_2 with i.
Qed.

Lemma StronglySorted_filter {A} (R : relation A) (P : A → Prop) `{!∀ x, Decision (P x)} (l : list A) :
  StronglySorted R l → StronglySorted R (filter P l).
Proof.
  induction 1 as [|x l Hl IH Hx]; [constructor|]. rewrite filter_cons. case_decide; [|done].
  constructor; [done|]. rewrite Forall_forall in Hx |- *. intros y [_ Hy]%list_elem_of_filter. by apply Hx.
Qed.

(** At most one element of a list without duplicate keys has a given key. *)
Lemma filter_ne_length {A} (key : A → string) k (l : list A) :
  NoDup (key <$> l) → (length l <= Datatypes.S (length (filter (λ a, key a ≠ k) l)))%nat.
Proof.
  induction l as [|a l IH]; cbn [fmap list_fmap length]; [lia|]. intros [Ha Hl]%NoDup_cons.
  rewrite filter_cons. case_decide as Hk; cbn [length]; [specialize (IH Hl); lia|].
  rewrite filter_all; [done|]. apply Forall_forall. intros b Hb Hbk. apply Ha, list_elem_of_fmap.
  exists b. split; [|done]. rewrite Hbk. by destruct (decide (key a = k)).
Qed.

(** ** Sessions *)

(** [w'] is [w] with the refresh sessions replaced. *)
Definition sess_set {S} `{StoreView S} (w w' : World S) (R : gmap string RefreshToken) : Prop :=
  moves w w' (v_users (w_store w)) (v_tok (w_store w)) R (v_keys (w_store w)).

(** The rotated row: same session, new secret, new expiry. *)
Definition rotated (ttl : Duration) (secret : string) (at_ : Time) (rt : RefreshToken) : RefreshToken :=
  set_LastUsedAt (Some at_) (set_ExpiresAt (at_ + ttl) (set_TokenHash (hashRefresh secret) rt)).

Section sessions.
Context `{Oracle} `{UnicodeDB} `{PBKDF2} `{JWT} {S : Type} `{UserStore S, StoreView S, !UserStoreSpec S}.
Context (t : TokenService S) (st : RefreshTokenStore S) `{!RefreshTokenStoreSpec S}.
Implicit Types w : World S.

Lemma sess_set_same w1 w2 w3 R : same w1 w2 → sess_set w2 w3 R → sess_set w1 w3 R.
Proof.
  intros Hs Hm. unfold sess_set in *. moves_after Hs Hm.
Qed.

Lemma sess_set_trans w1 w2 w3 R1 R2 : sess_set w1 w2 R1 → sess_set w2 w3 R2 → sess_set w1 w3 R2.
Proof.
  intros Hm1 Hm2. unfold sess_set in *. moves_after Hm1 Hm2.
Qed.

Lemma sess_set_refl w : v_inv (w_store w) → sess_set w w (v_sess (w_store w)).
Proof. apply same_refl. Qed.

Lemma sess_set_lookup w w' R : sess_set w w' R → v_sess (w_store w') = R.
Proof. by intros []. Qed.

(** The branches of a session refresh. *)
Lemma wp_refreshSession u sid secret w (Q : result TokenPair → World S → Prop) :
  v_inv (w_store w) →
  (∀ w', same w w' → Q (Err ErrInvalidToken) w') →
  (∀ e rt w', v_sess (w_store w) !! sid = Some rt → TokenHash rt = hashRefresh secret →
    Session_UserID rt = ID u → same w w' → Q (Err e) w') →
  (∀ rt pair i j w', (w_step w <= i)%nat → (i <= j)%nat →
    v_sess (w_store w) !! sid = Some rt → TokenHash rt = hashRefresh secret →
    Session_UserID rt = ID u → o_now i <= ExpiresAt rt →
    let new := RawURLEncode (o_read j 32) in
    Pair_RefreshToken pair = sid +:+ "." +:+ new →
    sess_set w w' (<[sid := rotated (refreshTTL t) new (o_now i) rt]> (v_sess (w_store w))) →
    Q (Ok pair) w') →
  wp (refreshSession t st u sid secret) Q w.
Proof.
  intros Hi HE HS HQ. unfold refreshSession. case_if Hsid; [wp_steps; apply HE, same_refl, Hi|].
  wp_steps. wp_call spec_GetRefreshTokenBySession; [done|]. intros r w1 [Hs1 ->].
  destruct (v_sess (w_store w) !! sid) as [rt|] eqn:Hrt; [|wp_steps; by apply HE].
  assert (v_inv (w_store w1)) as Hi1 by by eapply same_inv.
  assert (SessionID rt = sid) as Hk by (eapply (spec_sess_keyed _ Hi); done).
  pose proof (same_trans _ _ _ Hs1 (same_tick w1 Hi1)) as Hs2. wp_steps.
  case_if Hu; wp_steps; [by apply HE|]. apply orb_false_iff in Hu as [Hu Hexp].
  apply negb_false_iff, String.eqb_eq in Hu. apply Z.ltb_ge in Hexp.
  case_if Hh; wp_steps; [by apply HE|].
  apply negb_false_iff, const_eq_spec, str_bytes_inj in Hh.
  apply wp_signAccessToken; [by eapply same_inv|..].
  { intros e w' Hs. eapply HS; try done. by eapply same_trans. }
  intros i roles cs s w' Hi' Hs _. pose proof (same_trans _ _ _ Hs2 Hs) as Hs3.
  unfold randomToken. wp_steps. wp_call spec_UpdateRefreshToken; [exact (same_inv _ _ Hs3)|].
  intros r w'' Hr. change (SessionID (set_LastUsedAt _ _)) with (SessionID rt) in Hr.
  rewrite Hk in Hr. change (w_store (tick w')) with (w_store w') in Hr.
  rewrite (same_sess _ _ Hs3), Hrt in Hr. destruct Hr as [-> Hm]. wp_steps.
  pose proof (same_step _ _ Hs1) as Hst1. pose proof (same_step _ _ Hs) as Hst. cbn in Hst, Hi'.
  apply (HQ rt _ (w_step w1) (w_step w')); try done; [lia..|by rewrite <-Hk|].
  eapply sess_set_same; [exact Hs3|].
  eapply (sess_set_same w' (tick w')); [apply same_tick; exact (same_inv _ _ Hs3)|].
  unfold sess_set. cbn. rewrite <-(same_sess _ _ Hs3) in Hm |- *. exact Hm.
Qed.

Lemma wp_evict keep n l w (Q : unit → World S → Prop) :
  v_inv (w_store w) →
  (∀ w', sess_set w w' (without (SessionID <$> take n (filter (λ rt, SessionID rt ≠ keep) l)) (v_sess (w_store w))) →
    Q tt w') →
  wp (evict t st keep (Z.of_nat n) l) Q w.
Proof.
  revert n w. induction l as [|rt l IH]; intros n w Hi HQ; cbn [evict].
  { wp_steps. apply HQ. rewrite filter_nil, take_nil. by apply sess_set_refl. }
  rewrite filter_cons in HQ.
  destruct n as [|n]; [wp_steps; apply HQ; by apply sess_set_refl|].
  rewrite (proj2 (Z.eqb_neq _ _)) by lia.
  destruct (String.eqb_spec (SessionID rt) keep) as [He|He]; [rewrite decide_False in HQ by tauto; by apply IH|].
  rewrite decide_True in HQ by done. wp_steps. wp_call spec_DeleteRefreshToken; [done|].
  intros r w1 [-> Hm]. wp_steps. replace (Z.of_nat (Datatypes.S n) - 1) with (Z.of_nat n) by lia.
  apply IH; [by destruct Hm|]. intros w' Hw'. apply HQ. cbn [firstn fmap list_fmap without foldl].
  rewrite (sess_set_lookup _ _ _ Hm) in Hw'. by eapply sess_set_trans.
Qed.

(** The sessions of one user. *)
Definition sessions_of (uid : string) (R : gmap string RefreshToken) : gmap string RefreshToken :=
  filter (λ kv, Session_UserID kv.2 = uid) R.

(** What a cap of [max] sessions evicts: other sessions of the user, soonest to
    expire first, and only as many as the cap requires. *)
Record evicted (max : Z) (uid keep : string) (R : gmap string RefreshToken) (gone : list string) : Prop := {
  ev_theirs k : k ∈ gone → k ≠ keep ∧ is_Some (sessions_of uid R !! k);
  ev_cap : 0 < max → Z.of_nat (size (sessions_of uid (without gone R))) <= max;
  ev_none : (max <= 0 ∨ Z.of_nat (size (sessions_of uid R)) <= max) → gone = [];
  ev_oldest k rt k' rt' : k ∈ gone → R !! k = Some rt → sessions_of uid (without gone R) !! k' = Some rt' →
    k' ≠ keep → ExpiresAt rt <= ExpiresAt rt';
}.

Lemma sorted_prefix_evicted max uid keep R l n :
  keyed SessionID R → 0 < max →
  l ≡ₚ (map_to_list (sessions_of uid R)).*2 → StronglySorted (key_le_Z ExpiresAt) l →
  Z.of_nat n = Z.of_nat (length l) - max → (0 < n)%nat →
  evicted max uid keep R (SessionID <$> take n (filter (λ rt, SessionID rt ≠ keep) l)).
Proof.
  intros HR Hmax Hl Hsort Hn Hpos. set (L := filter (λ rt, SessionID rt ≠ keep) l).
  assert (keyed SessionID (sessions_of uid R)) as HR' by by apply keyed_filter.
  assert (∀ rt, rt ∈ l ↔ sessions_of uid R !! SessionID rt = Some rt) as Hin.
  { intros rt. rewrite Hl, list_elem_of_fmap. split.
    - intros ([k rt'] & -> & Hm%elem_of_map_to_list). cbn. by rewrite (HR' _ _ Hm).
    - intros Hs. exists (SessionID rt, rt). by rewrite elem_of_map_to_list. }
  assert (NoDup (SessionID <$> l)) as Hnd
    by (rewrite Hl, keyed_keys by done; apply NoDup_fst_map_to_list).
  assert (length l = size (sessions_of uid R)) as Hlen
    by (by rewrite Hl, length_fmap, length_map_to_list).
  assert (∀ rt, rt ∈ L ↔ SessionID rt ≠ keep ∧ rt ∈ l) as HinL by (intros; unfold L; by rewrite list_elem_of_filter).
  assert (∀ k, k ∈ SessionID <$> take n L → k ≠ keep ∧ is_Some (sessions_of uid R !! k)) as Htheirs.
  { intros k (rt & -> & Hrt%elem_of_take)%list_elem_of_fmap. destruct Hrt as (i & Hi & _).
    apply list_elem_of_lookup_2, HinL in Hi as [Hne Hi%Hin]. eauto. }
  split; [done|..].
  - intros _. unfold sessions_of. rewrite filter_without. fold (sessions_of uid R).
    rewrite size_without.
    + rewrite length_fmap, length_take. assert (length l <= Datatypes.S (length L))%nat by (by apply filter_ne_length).
      lia.
    + apply (sublist_NoDup _ (SessionID <$> l)); [done|]. apply fmap_sublist.
      etrans; [apply sublist_take|apply sublist_filter].
    + apply Forall_forall. intros k Hk. by apply Htheirs.
  - intros [?|?]; lia.
  - intros k rt k' rt' (rt1 & -> & Hrt)%list_elem_of_fmap Hk Hk' Hne.
    unfold sessions_of in Hk'. rewrite filter_without in Hk'. fold (sessions_of uid R) in Hk'.
    apply without_lookup_Some in Hk' as [Hk'n Hk']. pose proof (HR' _ _ Hk') as <-.
    assert (rt' ∈ drop n L) as Hrt'.
    { assert (rt' ∈ L) as HrtL by (apply HinL; split; [done|by apply Hin]).
      rewrite <-(take_drop n L) in HrtL. apply elem_of_app in HrtL as [Ht|?]; [|done].
      destruct Hk'n. apply list_elem_of_fmap. eauto. }
    assert (rt = rt1) as ->.
    { destruct (Htheirs (SessionID rt1)) as [_ [rt2 Hrt2]]; [apply list_elem_of_fmap; eauto|].
      apply elem_of_take in Hrt as (i & Hi & _). apply list_elem_of_lookup_2, HinL in Hi as [_ Hi%Hin].
      apply map_lookup_filter_Some in Hi as [Hi _]. congruence. }
    apply (StronglySorted_app_1_elem_of (key_le_Z ExpiresAt) (take n L) (drop n L)); [|done..].
    rewrite take_drop. by apply StronglySorted_filter.
Qed.

Lemma evicted_nil max uid keep R :
  max <= 0 ∨ Z.of_nat (size (sessions_of uid R)) <= max → evicted max uid keep R [].
Proof.
  intros Hm. assert (∀ k : string, k ∉ []) as Hn by (intros; apply not_elem_of_nil).
  split; try done; cbn [without foldl].
  - intros k Hk. by destruct (Hn k).
  - intros ?. destruct Hm; [lia|done].
  - intros k ???? Hk. by destruct (Hn k).
Qed.

Lemma wp_enforceMaxSessions uid keep w (Q : unit → World S → Prop) :
  v_inv (w_store w) →
  (∀ gone w', evicted (MaxSessions (TS_Options t)) uid keep (v_sess (w_store w)) gone →
    sess_set w w' (without gone (v_sess (w_store w))) → Q tt w') →
  wp (enforceMaxSessions t st uid keep) Q w.
Proof.
  intros Hi HQ. unfold enforceMaxSessions. set (max := MaxSessions (TS_Options t)) in *.
  destruct (Z.leb_spec max 0) as [Hm|Hm].
  { wp_steps. apply (HQ []); [apply evicted_nil; by left|by apply sess_set_refl]. }
  wp_steps. wp_call spec_ListUserRefreshTokens; [done|]. intros r w1 (Hs & l & -> & Hl).
  assert (length l = size (sessions_of uid (v_sess (w_store w)))) as Hlen
    by (by rewrite Hl, length_fmap, length_map_to_list).
  assert (v_inv (w_store w1)) as Hi1 by exact (same_inv _ _ Hs).
  destruct (Z.leb_spec (Z.of_nat (length l)) max) as [Hc|Hc]; wp_steps.
  { apply (HQ []); [apply evicted_nil; right; lia|done]. }
  apply wp_sort_Slice; [apply _..|]. intros l' Hl' Hsort.
  replace (Z.of_nat (length l') - max) with (Z.of_nat (Z.to_nat (Z.of_nat (length l') - max)))
    by (rewrite Hl'; lia).
  assert (same w (tick w1)) as Hs' by (eapply same_trans; [done|by apply same_tick]).
  apply wp_evict; [done|]. intros w2 Hw2. change (w_store (tick w1)) with (w_store w1) in Hw2.
  rewrite (same_sess _ _ Hs) in Hw2. eapply HQ; [|by eapply sess_set_same].
  apply sorted_prefix_evicted; [by apply spec_sess_keyed|done|by rewrite Hl'|done|rewrite Hl'; lia..].
Qed.

(** The sessions left after creating a session at [issued]: the unexpired ones and
    the new one, less the evicted. *)
Definition new_sess (rt : RefreshToken) (issued : Time) (R : gmap string RefreshToken) :
    gmap string RefreshToken :=
  filter (λ kv, Before (ExpiresAt kv.2) issued = false) (<[SessionID rt := rt]> R).

Lemma wp_newSessionRefresh u w (Q : result string → World S → Prop) :
  v_inv (w_store w) →
  (∀ i sid secret gone w', (w_step w <= i)%nat →
    let rt := mkRefreshToken sid (ID u) (hashRefresh secret) "" (o_now i + refreshTTL t) (o_now i) None in
    evicted (MaxSessions (TS_Options t)) (ID u) sid (new_sess rt (o_now i) (v_sess (w_store w))) gone →
    sess_set w w' (without gone (new_sess rt (o_now i) (v_sess (w_store w)))) →
    Q (Ok (sid +:+ "." +:+ secret)) w') →
  wp (newSessionRefresh t st u) Q w.
Proof.
  intros Hi HQ. unfold newSessionRefresh, randomToken. wp_steps.
  set (rt := mkRefreshToken _ _ _ _ _ _ _). set (w3 := tick (tick (tick w))).
  assert (same w w3) as Hs by
    (eapply same_trans; [|apply same_tick]; [eapply same_trans; apply same_tick|]; done).
  wp_call spec_CreateRefreshToken; [done|]. intros r w4 [-> Hw4]. wp_steps.
  pose proof (sess_set_same _ _ _ _ Hs Hw4) as Hc4. clear Hw4.
  wp_call spec_DeleteExpiredRefreshTokens; [by destruct Hc4|]. intros r w5 [-> Hw5]. wp_steps.
  rewrite (sess_set_lookup _ _ _ Hc4) in Hw5.
  assert (sess_set w w5 (new_sess rt (o_now (w_step w)) (v_sess (w_store w)))) as Hc5
    by by eapply sess_set_trans.
  apply wp_enforceMaxSessions; [by destruct Hc5|]. intros gone w6 He Hc6. wp_steps.
  rewrite (sess_set_lookup _ _ _ Hc5) in He, Hc6.
  eapply HQ; [done|exact He|]. by eapply sess_set_trans.
Qed.

Lemma refreshTTL_pos : 0 < refreshTTL t.
Proof. unfold refreshTTL. destruct (Z.ltb_spec 0 (RefreshTokenTTL (TS_Options t))); [done|reflexivity]. Qed.
End sessions.

(** The verdict on a token of a given stamp, from the stored row of its user. *)
Definition token_verdict (row : option User) (stamp : string) (r : result (User * MapClaims)) : Prop :=
  match row with
  | Some u => if bool_decide (SecurityStamp u = stamp) then ∃ claims, r = Ok (u, claims)
              else r = Err ErrInvalidToken
  | None => r = Err ErrInvalidToken
  end.

(** What accepted claims show at time [now]: the stored user they name, by id and by
    current stamp, and the registered claims the service requires. *)
Record claims_shown `{JWT} (o : TokenOptions) (U : gmap string User) (now : Time) (u : User) (claims : MapClaims) : Prop := {
  shown_user : U !! as_string (claims !! "sub") = Some u;
  shown_stamp : SecurityStamp u = as_string (claims !! ClaimSecurityStamp);
  shown_issuer : Issuer o = "" ∨ as_string (claims !! "iss") = Issuer o;
  shown_audience : audience_ok (Audience o) (claims !! "aud");
  shown_exp e : claims !! "exp" = Some (JNum e) → now < e * Second;
  shown_nbf n : claims !! "nbf" = Some (JNum n) → n * Second <= now;
}.

(** [w'] is [w] with the refresh credentials of [u] gone: the slot and the sessions. *)
Definition signed_out {S} `{StoreView S} (w w' : World S) (u : User) : Prop :=
  moves w w' (v_users (w_store w)) (set_tok (v_tok (w_store w)) (ID u) refreshTokenProvider refreshTokenName "")
    (filter (λ kv, Session_UserID kv.2 ≠ ID u) (v_sess (w_store w))) (v_keys (w_store w)).

(** ** Properties *)

(** C7: the life of an access token. A token issued by [IssuePair] is accepted by
    [ValidateAccessToken], in any later state of the store and while its validity
    window lasts, exactly if its user is still stored with the security stamp it was
    issued under; then the stored user is returned.  Changing the stamp or deleting the
    user revokes it at once. *)
Theorem access_token_lifecycle `{Oracle} `{UnicodeDB} `{PBKDF2} `{JWT, !JWTLaws} {S}
    `{UserStore S, StoreView S, !UserStoreSpec S}
    (t : TokenService S) (st : RefreshTokenStore S) `{!RefreshTokenStoreSpec S} pk u (w : World S) :
  v_inv (w_store w) → TS_Sessions t = Some st →
  signer_ok (signer (TS_Options t)) → public_of (sg_SignKey (signer (TS_Options t))).2 = Some pk →
  Audience (TS_Options t) ≠ "" →
  wp (IssuePair t u) (λ r _, ∀ pair, r = Ok pair → ∃ issued,
    Pair_ExpiresAt pair = issued + AccessTokenTTL (TS_Options t) ∧
    (Z.abs (Unix issued) <= 2 ^ 53 → Z.abs (Unix (Pair_ExpiresAt pair)) <= 2 ^ 53 →
     ∀ w2, v_inv (w_store w2) →
      Unix issued * Second <= o_now (w_step w2) < Unix (Pair_ExpiresAt pair) * Second →
      wp (ValidateAccessToken t (AccessToken pair)) (λ r2 w3, same w2 w3 ∧
        token_verdict (v_users (w_store w2) !! ID u) (SecurityStamp u) r2) w2)) w.
Proof.
  intros Hi Hst Hok Hpk Haud. unfold IssuePair. rewrite wp_bind_ok.
  apply wp_signAccessToken; [done|done|]. intros i roles cs str w1 _ Hs1 Hsign. rewrite Hst, wp_bind_ok.
  apply wp_newSessionRefresh; [apply _|exact (same_inv _ _ Hs1)|]. intros j sid secret gone w2 _ rt _ _. wp_steps.
  intros _ [= <-]. exists (o_now i). split; [done|]. cbn [Pair_ExpiresAt AccessToken].
  intros Hx1 Hx2 w3 Hi3 Hwin. set (tok := access_token t u roles cs (o_now i)) in *.
  destruct (access_token_header t u roles cs (o_now i)) as (Halg & Hhalg & Htyp & Hkid & _).
  fold tok in Halg, Hhalg, Htyp, Hkid.
  assert (Parse (sg_Keyfunc (signer (TS_Options t))) (mkParserOptions [sg_Alg (signer (TS_Options t))]
      (Issuer (TS_Options t)) (Some (Audience (TS_Options t))) false) (o_now (w_step w3)) str = Ok tok) as Hparse.
  { eapply Parse_signed; [exact Hsign|exact Hpk|by apply Hok|rewrite Halg; by left|
      by apply access_token_exact|by rewrite Halg|by apply access_token_valid]. }
  assert (as_string (tok_Claims tok !! "sub") = ID u) as Hsub
    by (unfold tok; by rewrite (access_token_claims t u roles cs _ "sub" (JStr (ID u)))
      by (by apply base_claims_lookup)).
  assert (as_string (tok_Claims tok !! ClaimSecurityStamp) = SecurityStamp u) as Hstamp
    by (unfold tok; by rewrite (access_token_claims t u roles cs _ ClaimSecurityStamp (JStr (SecurityStamp u)))
      by (by apply base_claims_lookup)).
  unfold ValidateAccessToken. wp_steps. pose proof (same_tick w3 Hi3) as Ht. rewrite Hparse, Htyp.
  assert (EqualFold (as_string (Some (JStr "JWT"))) TokenTypeAccessJWT = false) as -> by reflexivity.
  rewrite Hsub, Hstamp. wp_steps. unfold FindByID. wp_call spec_FindByID; [done|]. intros r2 w4 [Hs4 ->].
  rewrite (same_users _ _ Ht). pose proof (same_trans _ _ _ Ht Hs4) as Hs4'.
  destruct (v_users (w_store w3) !! ID u) as [u'|]; [|by wp_steps].
  unfold token_verdict. rewrite String.eqb_sym. destruct (String.eqb_spec (SecurityStamp u') (SecurityStamp u)) as [Heq|Hne];
    cbn [negb]; wp_steps; (split; [done|]).
  - rewrite bool_decide_eq_true_2 by done. by eexists.
  - by rewrite bool_decide_eq_false_2.
Qed.

(** What an accepted access token has shown: it was signed with the service's
    algorithm, for this issuer and audience, is within its validity window, is not an
    OAuth access token, and names a stored user by id and by current security stamp.
    Checking a token changes nothing and never panics. *)
Theorem ValidateAccessToken_sound `{Oracle} `{UnicodeDB} `{PBKDF2} `{JWT, !JWTLaws} {S}
    `{UserStore S, StoreView S, !UserStoreSpec S} (t : TokenService S) str (w : World S) :
  v_inv (w_store w) →
  wp (ValidateAccessToken t str) (λ r w', same w w' ∧
    match r with
    | Err e => e = ErrInvalidToken
    | Ok (u, claims) =>
      claims_shown (TS_Options t) (v_users (w_store w')) (o_now (w_step w)) u claims
      ∧ ∃ tok, tok_Claims tok = claims ∧ tok_Alg tok = sg_Alg (signer (TS_Options t))
          ∧ is_ok (sg_Keyfunc (signer (TS_Options t)) tok) = true
          ∧ EqualFold (as_string (tok_Header tok !! "typ")) TokenTypeAccessJWT = false
    end) w.
Proof.
  intros Hi. apply wp_ValidateAccessToken; [done|done|]. intros tok u w' Hp Htyp Hu Hstamp Hs.
  split; [done|]. apply Parse_sound in Hp as (Halg & Hkey & Hiss & [Haud Haud'] & Hexp & Hnbf).
  cbn [po_ValidMethods po_Issuer po_Audience po_ExpirationRequired] in *.
  rewrite (same_users _ _ Hs). split.
  - split; try done; [intros e He; by rewrite He in Hexp|intros n Hn; by rewrite Hn in Hnbf].
  - exists tok. split_and!; try done. by apply list_elem_of_singleton in Halg.
Qed.

(** C8: refresh-session rotation. A session token is exchanged only while its session
    is stored, belongs to the user, is unexpired and carries the hash of the presented
    secret; the exchange replaces exactly that row (new secret, new expiry, use
    recorded) and returns the new token.  From then on every secret whose hash is not
    the new one is refused, the exchanged one included; a refused or failed exchange
    changes nothing. *)
Theorem refresh_rotates `{Oracle} `{UnicodeDB} `{PBKDF2} `{JWT} {S}
    `{UserStore S, StoreView S, !UserStoreSpec S}
    (t : TokenService S) (st : RefreshTokenStore S) `{!RefreshTokenStoreSpec S} u sid secret (w : World S) :
  v_inv (w_store w) → TS_Sessions t = Some st → "."%char ∉ str_bytes sid →
  wp (Refresh t u (sid +:+ "." +:+ secret)) (λ r w',
    match r with
    | Err _ => same w w'
    | Ok tp => ∃ rt i j, (w_step w <= i)%nat ∧ v_sess (w_store w) !! sid = Some rt
        ∧ TokenHash rt = hashRefresh secret ∧ Session_UserID rt = ID u ∧ o_now i <= ExpiresAt rt
        ∧ let new := RawURLEncode (o_read j 32) in
          let rt' := rotated (refreshTTL t) new (o_now i) rt in
          Pair_RefreshToken tp = sid +:+ "." +:+ new
          ∧ sess_set w w' (<[sid := rt']> (v_sess (w_store w)))
          ∧ ∀ u2 secret2 w2, v_inv (w_store w2) → v_sess (w_store w2) !! sid = Some rt' →
              hashRefresh secret2 ≠ hashRefresh new →
              wp (Refresh t u2 (sid +:+ "." +:+ secret2)) (λ r2 w3, r2 = Err ErrInvalidToken ∧ same w2 w3) w2
    end) w.
Proof.
  intros Hi Hst Hdot. assert (∀ s, Cut "." (sid +:+ "." +:+ s) = (sid, s, true)) as Hcut
    by (intros s; change (sid +:+ "." +:+ s) with (sid +:+ String "."%char s); by apply Cut_app).
  unfold Refresh. rewrite Hst, Hcut. apply wp_refreshSession; [apply _|done|done|done|].
  intros rt pair i j w' Hij _ Hrt Hh Hu Hexp new Hpair Hset.
  exists rt, i, j. split_and!; try done. intros u2 secret2 w2 Hi2 Hrt2 Hne.
  rewrite Hcut. apply wp_refreshSession; [apply _|done|done|..].
  - intros e rt2 w3 Hrt3 Hh2 _ _. rewrite Hrt2 in Hrt3. injection Hrt3 as <-. by destruct Hne.
  - intros rt2 p2 i2 j2 w3 _ _ Hrt3 Hh2. rewrite Hrt2 in Hrt3. injection Hrt3 as <-. by destruct Hne.
Qed.

(** C29: the session cap. Issuing a pair stores one new session that expires after the
    configured lifetime, drops expired sessions, and evicts exactly as many of the
    user's other sessions as [MaxSessions] requires, the soonest to expire first:
    afterwards the user has at most [MaxSessions] sessions, the new one among them. *)
Theorem sessions_capped `{Oracle} `{UnicodeDB} `{PBKDF2} `{JWT} {S}
    `{UserStore S, StoreView S, !UserStoreSpec S}
    (t : TokenService S) (st : RefreshTokenStore S) `{!RefreshTokenStoreSpec S} u (w : World S) :
  v_inv (w_store w) → TS_Sessions t = Some st →
  wp (IssuePair t u) (λ r w',
    match r with
    | Err _ => same w w'
    | Ok tp => ∃ i sid secret gone, (w_step w <= i)%nat ∧
        let rt := mkRefreshToken sid (ID u) (hashRefresh secret) "" (o_now i + refreshTTL t) (o_now i) None in
        let R := new_sess rt (o_now i) (v_sess (w_store w)) in
        Pair_RefreshToken tp = sid +:+ "." +:+ secret
        ∧ evicted (MaxSessions (TS_Options t)) (ID u) sid R gone
        ∧ sess_set w w' (without gone R)
        ∧ v_sess (w_store w') !! sid = Some rt
        ∧ (0 < MaxSessions (TS_Options t) →
           Z.of_nat (size (sessions_of (ID u) (v_sess (w_store w')))) <= MaxSessions (TS_Options t))
    end) w.
Proof.
  intros Hi Hst. unfold IssuePair. rewrite wp_bind_ok.
  apply wp_signAccessToken; [done|done|]. intros i roles cs str w1 _ Hs1 _. rewrite Hst, wp_bind_ok.
  apply wp_newSessionRefresh; [apply _|exact (same_inv _ _ Hs1)|].
  intros j sid secret gone w2 Hj rt Hev Hw2. wp_steps. rewrite (same_sess _ _ Hs1) in Hev, Hw2.
  pose proof (same_step _ _ Hs1). exists j, sid, secret, gone. split; [lia|]. cbn zeta. split_and!; try done.
  - by eapply sess_set_same.
  - rewrite (sess_set_lookup _ _ _ Hw2). apply without_lookup_Some. split.
    + intros Hg. by apply (ev_theirs _ _ _ _ _ Hev) in Hg as [? _].
    + apply map_lookup_filter_Some. rewrite lookup_insert_eq. split; [done|].
      pose proof (refreshTTL_pos t). apply Z.ltb_ge. cbn. lia.
  - intros Hm. rewrite (sess_set_lookup _ _ _ Hw2). by apply (ev_cap _ _ _ _ _ Hev).
Qed.

(** C30: [Revoke] ends everything the user can refresh with: it clears the single-token
    slot and deletes exactly the user's sessions, and from then on every refresh token,
    of either form, is refused for the user. *)
Theorem Revoke_all `{Oracle} `{UnicodeDB} `{PBKDF2} `{JWT} {S}
    `{UserStore S, StoreView S, !UserStoreSpec S}
    (t : TokenService S) (st : RefreshTokenStore S) `{!RefreshTokenStoreSpec S} u (w : World S) :
  v_inv (w_store w) → TS_Sessions t = Some st → plain (ID u) →
  wp (Revoke t u) (λ r w', r = Ok tt ∧ signed_out w w' u
    ∧ ∀ token, wp (Refresh t u token) (λ r2 w2, r2 = Err ErrInvalidToken ∧ same w' w2) w') w.
Proof.
  intros Hi Hst Hid. unfold Revoke. rewrite wp_bind_ok.
  wp_call spec_RemoveToken; [done|done|apply refreshTokenProvider_plain|]. intros r w1 [-> Hw1].
  rewrite Hst, wp_bind_ok. wp_call spec_DeleteUserRefreshTokens; [by destruct Hw1|].
  intros r w2 [-> Hw2]. wp_steps.
  assert (signed_out w w2 u) as Hm.
  { unfold signed_out in *. moves_after Hw1 Hw2. }
  split; [done|]. split; [done|]. intros token.
  assert (v_inv (w_store w2)) as Hi2 by by destruct Hm.
  unfold Refresh. rewrite Hst. destruct (Cut "." token) as [[sid secret] ok]. destruct ok.
  - apply wp_refreshSession; [apply _|done|done|..].
    + intros e rt w3 Hrt _ Hu. destruct Hm. rewrite mv_sess in Hrt.
      by apply map_lookup_filter_Some in Hrt as [_ ?].
    + intros rt p i j w3 _ _ Hrt _ Hu. destruct Hm. rewrite mv_sess in Hrt.
      by apply map_lookup_filter_Some in Hrt as [_ ?].
  - rewrite wp_bind_ok. unfold validateLegacySlot. wp_steps.
    wp_call spec_GetToken; [done|done|apply refreshTokenProvider_plain|]. intros r w3 [Hs3 ->].
    rewrite (mv_tok _ _ _ _ _ _ Hm) by (done || apply refreshTokenProvider_plain).
    unfold set_tok. rewrite bool_decide_eq_true_2 by done. by wp_steps.
Qed.
