(* ===== verification/Roles.v ===== *)
(** * Roles

    [identity/role_manager.go]: the role manager on the [RoleStore] interface, the
    contract it relies on ([RoleStoreSpec], which the in-memory store keeps), and the
    uniqueness of normalized role names. *)

From S2P Require Import Prelude GoStrings Errors World Entities OAuthTypes Stores StoreLaws Hasher.
From S2P Require Import TokenProvider UserManager MemStore MemOAuth MemSpec.

Local Open Scope Z_scope.

(** [identity.RoleManager]; its [Store] is the [RoleStore] instance. *)
Record RoleManager := mkRoleManager { RM_Normalizer : string → string }.

Section manager.
Context `{Oracle} `{UnicodeDB} {S : Type} `{RoleStore S}.

Definition NewRoleManager : RoleManager := mkRoleManager Normalize.

Section ops.
Context (m : RoleManager).

Definition RM_Create (r : Role) : M S (Role * result unit) :=
  id ← (if String.eqb (Role_ID r) "" then uuid_NewString else mret (Role_ID r));
  let r := set_Role_ID id r in
  let r := set_Role_NormalizedName (RM_Normalizer m (Role_Name r)) r in
  stamp ← uuid_NewString;
  let r := set_Role_ConcurrencyStamp stamp r in
  found ← rs_FindByName (Role_NormalizedName r);
  match lookup_clash found (λ _, true) ErrDuplicateRoleName with
  | Some e => mret (r, Err e)
  | None => rs_Create r
  end.

Definition RM_Update (r : Role) : M S (Role * result unit) :=
  let r := set_Role_NormalizedName (RM_Normalizer m (Role_Name r)) r in
  found ← rs_FindByName (Role_NormalizedName r);
  match lookup_clash found (λ ex, negb (String.eqb (Role_ID ex) (Role_ID r))) ErrDuplicateRoleName with
  | Some e => mret (r, Err e)
  | None => rs_Update r
  end.

Definition RM_Delete (r : Role) : M S (result unit) := rs_Delete r.
Definition RM_FindByName (name : string) : M S (result (option Role)) :=
  rs_FindByName (RM_Normalizer m name).
Definition RM_FindByID (id : string) : M S (result (option Role)) := rs_FindByID id.

Definition RoleExists (name : string) : M S bool :=
  r ← rs_FindByName (RM_Normalizer m name);
  mret match r with Ok (Some _) => true | _ => false end.

Definition RM_GetClaims (r : Role) : M S (result (list Claim)) := rs_GetClaims r.
Definition RM_AddClaim (r : Role) (c : Claim) : M S (result unit) := rs_AddClaim r c.
Definition RM_RemoveClaim (r : Role) (c : Claim) : M S (result unit) := rs_RemoveClaim r c.
Definition RM_ReplaceClaim (r : Role) (old replacement : Claim) : M S (result unit) :=
  _ ←? rs_RemoveClaim r old; rs_AddClaim r replacement.
End ops.
End manager.

(** ** The contract *)

Class RoleStoreSpec `{Oracle} (S : Type) `{RoleStore S} := {
  v_roles : S → gmap string Role;
  spec_Role_FindByName (w : World S) n : keyed Role_ID (v_roles (w_store w)) →
    wp (rs_FindByName n) (λ r w', v_roles (w_store w') = v_roles (w_store w) ∧
      ((∃ x, r = Ok (Some x) ∧ v_roles (w_store w) !! Role_ID x = Some x ∧ Role_NormalizedName x = n)
       ∨ (r = Err ErrNotFound ∧ map_Forall (λ _ x, Role_NormalizedName x ≠ n) (v_roles (w_store w))))) w;
  spec_Role_Create (w : World S) x :
    wp (rs_Create x) (λ xr w', xr = (x, Ok tt) ∧ v_roles (w_store w') = <[Role_ID x := x]> (v_roles (w_store w))) w;
  spec_Role_Update (w : World S) x :
    wp (rs_Update x) (λ xr w',
      match v_roles (w_store w) !! Role_ID x with
      | None => xr = (x, Err ErrNotFound) ∧ v_roles (w_store w') = v_roles (w_store w)
      | Some cur =>
        if bool_decide (Role_ConcurrencyStamp cur = Role_ConcurrencyStamp x) then
          ∃ i, let x' := set_Role_ConcurrencyStamp (o_uuid i) x in
            xr = (x', Ok tt) ∧ v_roles (w_store w') = <[Role_ID x := x']> (v_roles (w_store w))
        else xr = (x, Err ErrConcurrencyFailure) ∧ v_roles (w_store w') = v_roles (w_store w)
      end) w;
  spec_Role_Delete (w : World S) x :
    wp (rs_Delete x) (λ r w', r = Ok tt ∧ v_roles (w_store w') = delete (Role_ID x) (v_roles (w_store w))) w;
}.

Section mem.
Context `{Oracle} `{UnicodeDB}.

#[export, refine] Instance mem_RoleStoreSpec : RoleStoreSpec Store := { v_roles := roles }.
Proof.
  - intros w n Hk. cbn. unfold Role_FindByName, range_map. wp_steps. split; [done|].
    pose proof (range_find (roles (w_store w)) (λ kv, String.eqb (Role_NormalizedName kv.2) n)
      (o_order (w_step w) (map_to_list (roles (w_store w)))) (o_order_perm _ _ _)) as Hr.
    destruct (list_find _ _) as [[i [k x]]|]; cbn in Hr; [left|right].
    + destruct Hr as [Hx Hn%String.eqb_eq]. exists x. by rewrite (Hk _ _ Hx).
    + split; [done|]. intros k x Hx. apply String.eqb_neq. exact (Hr k x Hx).
  - intros w x. cbn. unfold Role_Create. by wp_steps.
  - intros w x. cbn. unfold Role_Update. wp_steps.
    destruct (roles (w_store w) !! Role_ID x) as [cur|]; wp_steps; [|done].
    destruct (decide (Role_ConcurrencyStamp cur = Role_ConcurrencyStamp x)) as [Hc|Hc].
    + rewrite bool_decide_eq_false_2, bool_decide_eq_true_2 by auto. wp_steps. by exists (w_step w).
    + rewrite bool_decide_eq_true_2, bool_decide_eq_false_2 by done. by wp_steps.
  - intros w x. cbn. unfold Role_Delete. by wp_steps.
Defined.
End mem.

(** ** Unique names *)

(** Rows under their ids, no two with one normalized name. *)
Definition roles_ok (R : gmap string Role) : Prop :=
  keyed Role_ID R ∧ ∀ i j x y, R !! i = Some x → R !! j = Some y →
    Role_NormalizedName x = Role_NormalizedName y → i = j.

Lemma roles_ok_insert R x :
  roles_ok R → map_Forall (λ k y, k = Role_ID x ∨ Role_NormalizedName y ≠ Role_NormalizedName x) R →
  roles_ok (<[Role_ID x := x]> R).
Proof.
  intros [Hk Hu] Hx. split; [by apply keyed_insert|].
  intros i j a b [[<- <-]|[Hi Ha]]%lookup_insert_Some [[<- <-]|[Hj Hb]]%lookup_insert_Some Heq; [done|..].
  - by destruct (Hx j b Hb).
  - by destruct (Hx i a Ha).
  - by eapply Hu.
Qed.

Lemma roles_ok_delete R k : roles_ok R → roles_ok (delete k R).
Proof.
  intros [Hk Hu]. split; [by apply keyed_delete|].
  intros i j x y [_ Hx]%lookup_delete_Some [_ Hy]%lookup_delete_Some. by eapply Hu.
Qed.

Inductive role_op := role_Create (r : Role) | role_Update (r : Role) | role_Delete (r : Role).

Section ops.
Context `{Oracle} {S : Type} `{RoleStore S, !RoleStoreSpec S} (m : RoleManager).

Definition run_role_op (op : role_op) : M S (result unit) :=
  match op with
  | role_Create r => x ← RM_Create m r; mret x.2
  | role_Update r => x ← RM_Update m r; mret x.2
  | role_Delete r => RM_Delete r
  end.

(** Each operation keeps the invariant; a refused one leaves the roles as they were. *)
Lemma wp_run_role_op op (w : World S) :
  roles_ok (v_roles (w_store w)) →
  wp (run_role_op op) (λ r w', roles_ok (v_roles (w_store w')) ∧
    (is_ok r = false → v_roles (w_store w') = v_roles (w_store w))) w.
Proof.
  intros Hok. destruct op as [x|x|x]; cbn [run_role_op].
  - unfold RM_Create. rewrite 2!wp_bind.
    assert (∀ (id : string) (w1 : World S), v_roles (w_store w1) = v_roles (w_store w) →
      let x' := set_Role_NormalizedName (RM_Normalizer m (Role_Name x)) (set_Role_ID id x) in
      wp (stamp ← uuid_NewString;
        let r := set_Role_ConcurrencyStamp stamp x' in
        found ← rs_FindByName (Role_NormalizedName r);
        match lookup_clash found (λ _, true) ErrDuplicateRoleName with
        | Some e => mret (r, Err e)
        | None => rs_Create r
        end) (λ xr, wp (mret xr.2) (λ r w', roles_ok (v_roles (w_store w')) ∧
          (is_ok r = false → v_roles (w_store w') = v_roles (w_store w)))) w1) as Hrest.
    { intros id w1 Hw1 x'. wp_steps. set (y := set_Role_ConcurrencyStamp _ x').
      eapply wp_mono; [apply spec_Role_FindByName; cbn; rewrite Hw1; apply Hok|]. cbn beta.
      intros r w2 [Hw2 Hr]. cbn in Hw2, Hr. rewrite Hw1 in Hw2, Hr.
      destruct Hr as [(z & -> & _)|[-> Hr]]; cbn [lookup_clash ErrorsIs]; [cbv beta iota; wp_steps; by rewrite Hw2|].
      eapply wp_mono; [apply spec_Role_Create|]. intros xr w3 [-> Hw3]. wp_steps. split; [|done].
      rewrite Hw3, Hw2. apply roles_ok_insert; [done|]. intros k z Hz. right. exact (Hr k z Hz). }
    destruct (String.eqb (Role_ID x) ""); [rewrite wp_uuid|rewrite wp_ret]; by apply Hrest.
  - unfold RM_Update. wp_steps. set (y := set_Role_NormalizedName _ x).
    eapply wp_mono; [apply spec_Role_FindByName; apply Hok|]. cbn beta. intros r w1 [Hw1 Hr].
    assert (map_Forall (λ k z, k = Role_ID y ∨ Role_NormalizedName z ≠ Role_NormalizedName y) (v_roles (w_store w)) →
      wp (rs_Update y) (λ xr, wp (mret xr.2) (λ r w', roles_ok (v_roles (w_store w')) ∧
          (is_ok r = false → v_roles (w_store w') = v_roles (w_store w)))) w1) as Hrest.
    { intros Hf. eapply wp_mono; [apply spec_Role_Update|]. rewrite Hw1. intros xr w2 Hx.
      destruct (v_roles (w_store w) !! Role_ID y); [|destruct Hx as [-> Hx]; wp_steps; by rewrite Hx].
      case_bool_decide; [|destruct Hx as [-> Hx]; wp_steps; by rewrite Hx].
      destruct Hx as (i & -> & Hx). wp_steps. split; [|done]. rewrite Hx. by apply (roles_ok_insert _ (set_Role_ConcurrencyStamp (o_uuid i) y)). }
    destruct Hr as [(z & -> & Hz & Hn)|[-> Hr]]; cbn [lookup_clash ErrorsIs].
    + destruct (String.eqb_spec (Role_ID z) (Role_ID y)) as [He|He]; cbn [negb]; [|wp_steps; by rewrite Hw1].
      apply Hrest. intros k a Ha. destruct (decide (Role_NormalizedName a = Role_NormalizedName y)) as [Hay|]; [|by right].
      left. rewrite <-He. eapply (proj2 Hok); [exact Ha|exact Hz|]. by rewrite Hn.
    + apply Hrest. intros k a Ha. right. exact (Hr k a Ha).
  - eapply wp_mono; [apply spec_Role_Delete|]. intros r w' [-> ->]. split; [|done]. by apply roles_ok_delete.
Qed.

Fixpoint run_role_ops (ops : list role_op) : M S unit :=
  match ops with
  | [] => mret tt
  | op :: ops => _ ← run_role_op op; run_role_ops ops
  end.
End ops.

(** ** Properties *)

(** C37: role names stay unique: from a store whose roles have distinct normalized
    names, any sequence of role creations, renames and deletions, with any caller-made
    role values, keeps them distinct and never panics. *)
Theorem roles_stay_unique `{Oracle} {S} `{RoleStore S, !RoleStoreSpec S} (m : RoleManager)
    (ops : list role_op) (w : World S) :
  roles_ok (v_roles (w_store w)) →
  wp (run_role_ops m ops) (λ _ w', roles_ok (v_roles (w_store w'))) w.
Proof.
  revert w. induction ops as [|op ops IH]; intros w Hok; cbn [run_role_ops]; wp_steps; [done|].
  eapply wp_mono; [by apply wp_run_role_op|]. intros r w' [Hok' _]. by apply IH.
Qed.
