(* ===== verification/ApiKeys.v ===== *)
(** * API keys

    [identity/apikey.go]: opaque keys stored by hash, on the [APIKeyStore] interface;
    what a verified key has shown, and that revocation is final. *)

From S2P Require Import Prelude GoStrings GoBytes GoCrypto Errors World Entities Stores StoreLaws.
From S2P Require Import Hasher TokenProvider SignIn UserManager UserManagerFacts TwoFactor TwoFactorFacts.
From S2P Require Import Jwt TokenService.

Local Open Scope Z_scope.

Definition sha256Hex (plaintext : string) : string := hex_encode (sha256 (str_bytes plaintext)).

Record APIKeyOptions := mkAPIKeyOptions {
  AO_Name : string;
  AO_ExpiresAt : option Time;
  AO_Scopes : option Scopes;
}.

(** [identity.APIKeyManagerOf]; its [Store] is the [APIKeyStore] instance. *)
Record APIKeyManager (S : Type) := mkAPIKeyManager {
  AM_Users : UserManager S;
  AM_Hasher : string → string;
  AM_Prefix : string;
  AM_PrefixLen : Z;
}.
Arguments mkAPIKeyManager {S} _ _ _ _.
Arguments AM_Users {S} _.
Arguments AM_Hasher {S} _ _.
Arguments AM_Prefix {S} _.
Arguments AM_PrefixLen {S} _.

Definition displayPrefix (secret : string) (n : Z) : string :=
  let n := if n <=? 0 then 8 else n in
  let n := if len secret <? n then len secret else n in
  bytes_str (take (Z.to_nat n) (str_bytes secret)).

Section manager.
Context `{Oracle} `{UnicodeDB} `{PBKDF2} {S : Type} `{UserStore S, APIKeyStore S}.

Definition NewAPIKeyManager (users : UserManager S) : APIKeyManager S :=
  mkAPIKeyManager users sha256Hex "" 12.
Definition WithAPIKeyHasher (m : APIKeyManager S) (h : option (string → string)) : APIKeyManager S :=
  mkAPIKeyManager (AM_Users m) (default (AM_Hasher m) h) (AM_Prefix m) (AM_PrefixLen m).
Definition WithAPIKeyPrefix (m : APIKeyManager S) (prefix : string) : APIKeyManager S :=
  mkAPIKeyManager (AM_Users m) (AM_Hasher m) prefix (AM_PrefixLen m).

Section ops.
Context (m : APIKeyManager S).

Definition CreateAPIKey (u : User) (opts : APIKeyOptions) : M S (result (string * APIKey)) :=
  tok ← randomToken;
  let secret := AM_Prefix m +:+ tok in
  id ← uuid_NewString;
  created ← now;
  let k := mkAPIKey id (ID u) (AO_Name opts) (displayPrefix secret (AM_PrefixLen m))
    (AM_Hasher m secret) (AO_Scopes opts) (AO_ExpiresAt opts) None None created in
  _ ←? ks_CreateAPIKey k;
  mret (Ok (secret, k)).

Definition ImportAPIKey (userID name prefix keyHash : string) (expiresAt : option Time)
    (scopes : option Scopes) : M S (result APIKey) :=
  id ← uuid_NewString;
  created ← now;
  let k := mkAPIKey id userID name prefix keyHash scopes expiresAt None None created in
  _ ←? ks_CreateAPIKey k;
  mret (Ok k).

(** A nil user dereferenced by [IsLockedOut] panics. *)
Definition VerifyAPIKey (plaintext : string) : M S (result (User * APIKey)) :=
  if String.eqb plaintext "" then mret (Err ErrInvalidAPIKey) else
  r ← ks_GetActiveAPIKeyByHash (AM_Hasher m plaintext);
  match r with
  | Err e => mret (Err (if ErrorsIs e ErrNotFound then ErrInvalidAPIKey else e))
  | Ok k =>
    t ← now;
    if bool_decide (is_Some (Key_RevokedAt k))
       || match Key_ExpiresAt k with Some e => negb (After e t) | None => false end
    then mret (Err ErrInvalidAPIKey) else
    r ← FindByID (Key_UserID k);
    match r with
    | Err e => mret (Err (if ErrorsIs e ErrNotFound then ErrInvalidAPIKey else e))
    | Ok None => panic "nil pointer dereference"
    | Ok (Some u) =>
      locked ← IsLockedOut u;
      if locked : bool then mret (Err ErrInvalidAPIKey) else
      r ← ks_TouchAPIKeyLastUsed (Key_ID k);
      _ ← match r with
          | Ok _ => mret tt
          | Err _ => log_Warn (AM_Users m) "identity: failed to touch api key last_used"
          end;
      mret (Ok (u, k))
    end
  end.

Definition RevokeAPIKey (id : string) : M S (result unit) := ks_RevokeAPIKey id.
Definition ListAPIKeys (u : User) : M S (result (list APIKey)) := ks_ListAPIKeysByUser (ID u).
End ops.
End manager.

(** ** Facts *)

Lemma inactive_at_bool t k :
  bool_decide (is_Some (Key_RevokedAt k))
    || match Key_ExpiresAt k with Some e => negb (After e t) | None => false end = true ↔ inactive_at t k.
Proof.
  unfold inactive_at, After. rewrite orb_true_iff, bool_decide_eq_true.
  destruct (Key_ExpiresAt k) as [e|]; [|naive_solver].
  rewrite negb_true_iff, Z.ltb_ge. naive_solver.
Qed.

(** ** Properties *)

Section props.
Context `{Oracle} `{UnicodeDB} `{PBKDF2} {S : Type}
  `{UserStore S, APIKeyStore S, StoreView S, !UserStoreSpec S, !APIKeyStoreSpec S}.
Context (m : APIKeyManager S).
Implicit Types w : World S.

(** The branches of a verification. *)
Lemma wp_VerifyAPIKey plaintext w (Q : result (User * APIKey) → World S → Prop) :
  v_inv (w_store w) →
  (∀ w', same w w' →
    (plaintext = "" ∨ ∀ k, v_keys (w_store w) !! Key_ID k = Some k → KeyHash k = AM_Hasher m plaintext →
      (∃ i, (w_step w <= i)%nat ∧ inactive_at (o_now i) k) ∨ v_users (w_store w) !! Key_UserID k = None
      ∨ ∃ u i, v_users (w_store w) !! Key_UserID k = Some u ∧ (w_step w <= i)%nat ∧ locked_at u (o_now i) = true) →
    Q (Err ErrInvalidAPIKey) w') →
  (∀ k u i j t w', plaintext ≠ "" → v_keys (w_store w) !! Key_ID k = Some k → KeyHash k = AM_Hasher m plaintext →
    (w_step w <= i)%nat → (w_step w <= j)%nat → ¬ inactive_at (o_now i) k →
    v_users (w_store w) !! Key_UserID k = Some u → locked_at u (o_now j) = false →
    moves w w' (v_users (w_store w)) (v_tok (w_store w)) (v_sess (w_store w))
      (alter (set_Key_LastUsedAt (Some t)) (Key_ID k) (v_keys (w_store w))) →
    Q (Ok (u, k)) w') →
  wp (VerifyAPIKey m plaintext) Q w.
Proof.
  intros Hi HE HQ. unfold VerifyAPIKey. destruct (String.eqb_spec plaintext "") as [|Hne].
  { wp_steps. apply HE; [by apply same_refl|by left]. }
  wp_steps. wp_call spec_GetActiveAPIKeyByHash; [done|]. intros r w1 (Hs1 & i & Hi1 & Hr).
  assert (v_inv (w_store w1)) as Hv1 by exact (same_inv _ _ Hs1).
  destruct Hr as [(k & -> & Hk & Hh & Ha)|[-> Hr]].
  2: { wp_steps. apply HE; [done|]. right. intros k Hk Hh. left. exists i. split; [lia|]. by apply (Hr _ _ Hk). }
  assert (∀ k', v_keys (w_store w) !! Key_ID k' = Some k' → KeyHash k' = AM_Hasher m plaintext → k' = k) as Huniq
    by (intros k' Hk' Hh'; eapply spec_keys_hash; [exact Hi|done..|by rewrite Hh]).
  wp_steps. assert (same w (tick w1)) as Hs2 by (eapply same_trans; [done|by apply same_tick]).
  pose proof (inactive_at_bool (o_now (w_step w1)) k) as Hin. case_if Hb; wp_steps.
  { apply HE; [done|]. right. intros k' Hk' Hh'. rewrite (Huniq _ Hk' Hh'). left. exists (w_step w1).
    split; [by apply same_step|by apply Hin]. }
  unfold FindByID. wp_call spec_FindByID; [exact (same_inv _ _ Hs2)|]. intros r w3 [Hs3 ->].
  rewrite (same_users _ _ Hs2). pose proof (same_trans _ _ _ Hs2 Hs3) as Hs3'.
  destruct (v_users (w_store w) !! Key_UserID k) as [u|] eqn:Hu.
  2: { wp_steps. apply HE; [done|]. right. intros k' Hk' Hh'. rewrite (Huniq _ Hk' Hh'). right. by left. }
  rewrite wp_bind. apply wp_IsLockedOut; [exact (same_inv _ _ Hs3)|]. intros j w4 Hj Hs4.
  pose proof (same_trans _ _ _ Hs3' Hs4) as Hs4'. pose proof (same_step _ _ Hs3').
  destruct (locked_at u (o_now j)) eqn:Hl; wp_steps.
  { apply HE; [done|]. right. intros k' Hk' Hh'. rewrite (Huniq _ Hk' Hh'). right. right.
    exists u, j. split_and!; [done|lia|done]. }
  wp_call spec_TouchAPIKeyLastUsed; [exact (same_inv _ _ Hs4')|]. intros r w5 (-> & t & Hm). wp_steps.
  pose proof (same_moves _ _ _ _ _ _ _ Hs4' Hm) as Hm'.
  apply (HQ k u (w_step w1) j t); try done; [by apply same_step|lia| |].
  - intros Hina. apply Hin in Hina. congruence.
  - unfold same in *. moves_after Hs4' Hm.
Qed.
End props.

(** C31: an API key is accepted only if it is the plaintext of a stored key that is
    neither revoked nor expired and whose owner is stored and not locked out; then
    exactly that row and its owner are returned and its last use is recorded.  It is
    refused only with [ErrInvalidAPIKey], changing nothing, and only for one of those
    reasons. *)
Theorem VerifyAPIKey_spec `{Oracle} `{UnicodeDB} `{PBKDF2} {S}
    `{UserStore S, APIKeyStore S, StoreView S, !UserStoreSpec S, !APIKeyStoreSpec S}
    (m : APIKeyManager S) plaintext (w : World S) :
  v_inv (w_store w) →
  wp (VerifyAPIKey m plaintext) (λ r w',
    match r with
    | Ok (u, k) => plaintext ≠ "" ∧ v_keys (w_store w) !! Key_ID k = Some k ∧ KeyHash k = AM_Hasher m plaintext
        ∧ (∃ i, (w_step w <= i)%nat ∧ ¬ inactive_at (o_now i) k)
        ∧ v_users (w_store w) !! Key_UserID k = Some u
        ∧ (∃ j, (w_step w <= j)%nat ∧ locked_at u (o_now j) = false)
        ∧ ∃ t, moves w w' (v_users (w_store w)) (v_tok (w_store w)) (v_sess (w_store w))
            (alter (set_Key_LastUsedAt (Some t)) (Key_ID k) (v_keys (w_store w)))
    | Err e => e = ErrInvalidAPIKey ∧ same w w' ∧
        (plaintext = "" ∨ ∀ k, v_keys (w_store w) !! Key_ID k = Some k → KeyHash k = AM_Hasher m plaintext →
          (∃ i, (w_step w <= i)%nat ∧ inactive_at (o_now i) k) ∨ v_users (w_store w) !! Key_UserID k = None
          ∨ ∃ u i, v_users (w_store w) !! Key_UserID k = Some u ∧ (w_step w <= i)%nat ∧ locked_at u (o_now i) = true)
    end) w.
Proof.
  intros Hi. apply wp_VerifyAPIKey; [done|done|].
  intros k u i j t w' Hne Hk Hh Hi1 Hj Ha Hu Hl Hm. split_and!; eauto.
Qed.

(** Revocation is final. [RevokeAPIKey] marks a stored key revoked (keeping an
    earlier revocation time), and while that row stays in the store no verification
    of the key's plaintext succeeds, whenever it is made; other keys, users, sessions
    and tokens are untouched. *)
Theorem RevokeAPIKey_final `{Oracle} `{UnicodeDB} `{PBKDF2} {S}
    `{UserStore S, APIKeyStore S, StoreView S, !UserStoreSpec S, !APIKeyStoreSpec S}
    (m : APIKeyManager S) plaintext k (w : World S) :
  v_inv (w_store w) → v_keys (w_store w) !! Key_ID k = Some k → KeyHash k = AM_Hasher m plaintext →
  wp (RevokeAPIKey (Key_ID k)) (λ r w', r = Ok tt ∧ ∃ k' t,
    k' = set_Key_RevokedAt (Some t) k ∧ (∀ t0, Key_RevokedAt k = Some t0 → t = t0)
    ∧ moves w w' (v_users (w_store w)) (v_tok (w_store w)) (v_sess (w_store w)) (<[Key_ID k := k']> (v_keys (w_store w)))
    ∧ ∀ w2, v_inv (w_store w2) → v_keys (w_store w2) !! Key_ID k = Some k' →
        wp (VerifyAPIKey m plaintext) (λ r2 w3, r2 = Err ErrInvalidAPIKey ∧ same w2 w3) w2) w.
Proof.
  intros Hi Hk Hh. unfold RevokeAPIKey. wp_call spec_RevokeAPIKey; [done|]. intros r w' (-> & t & Hm).
  split; [done|].
  assert (∃ t', alter (λ k, if bool_decide (Key_RevokedAt k = None) then set_Key_RevokedAt (Some t) k else k)
      (Key_ID k) (v_keys (w_store w)) = <[Key_ID k := set_Key_RevokedAt (Some t') k]> (v_keys (w_store w))
    ∧ ∀ t0, Key_RevokedAt k = Some t0 → t' = t0) as (t' & Halter & Ht').
  { exists (default t (Key_RevokedAt k)). split; [|by intros t0 ->].
    apply map_eq. intros i. destruct (decide (i = Key_ID k)) as [->|Hne].
    - rewrite lookup_alter_eq, lookup_insert_eq, Hk. cbn. f_equal.
      destruct k as [? ? ? ? ? ? ? ? rv ?]. cbn in *. by destruct rv.
    - by rewrite lookup_alter_ne, lookup_insert_ne. }
  rewrite Halter in Hm. eexists _, t'. do 3 (split; [done|]).
  intros w2 Hi2 Hk2. apply wp_VerifyAPIKey; [done|done|].
  intros k2 u i j t2 w3 _ Hk3 Hh2 _ _ Ha _ _ _. destruct Ha. left.
  assert (k2 = set_Key_RevokedAt (Some t') k) as ->; [|by eexists].
  eapply spec_keys_hash; [exact Hi2|done| |by rewrite Hh2; symmetry]. exact Hk2.
Qed.

(** [CreateAPIKey] issues a key under a fresh id whose stored row belongs to the
    user and holds the hash of the secret; the secret
    verifies, in any later state that still holds the row active with its owner stored
    and not locked out. *)
Theorem CreateAPIKey_verifies `{Oracle} `{UnicodeDB} `{PBKDF2} {S}
    `{UserStore S, APIKeyStore S, StoreView S, !UserStoreSpec S, !APIKeyStoreSpec S}
    (m : APIKeyManager S) u opts (w : World S) :
  v_inv (w_store w) → (∀ i, (w_step w <= i)%nat → v_keys (w_store w) !! o_uuid i = None) →
  wp (CreateAPIKey m u opts) (λ r w', ∀ secret k, r = Ok (secret, k) →
    v_keys (w_store w') = <[Key_ID k := k]> (v_keys (w_store w)) ∧ v_keys (w_store w) !! Key_ID k = None
    ∧ Key_UserID k = ID u ∧ KeyHash k = AM_Hasher m secret ∧ Key_ExpiresAt k = AO_ExpiresAt opts
    ∧ Key_RevokedAt k = None
    ∧ ∀ w2, v_inv (w_store w2) → v_keys (w_store w2) !! Key_ID k = Some k →
       (∀ i, (w_step w2 <= i)%nat → ¬ inactive_at (o_now i) k) →
       is_Some (v_users (w_store w2) !! ID u) →
       (∀ i u', (w_step w2 <= i)%nat → v_users (w_store w2) !! ID u = Some u' → locked_at u' (o_now i) = false) →
       wp (VerifyAPIKey m secret) (λ r2 _, ∃ u', v_users (w_store w2) !! ID u = Some u' ∧ r2 = Ok (u', k)) w2) w.
Proof.
  intros Hi Hfresh. unfold CreateAPIKey, randomToken. wp_steps. set (k := mkAPIKey _ _ _ _ _ _ _ _ _ _).
  set (w3 := tick (tick (tick w))). set (secret := AM_Prefix m +:+ _).
  assert (v_keys (w_store w) !! Key_ID k = None) as Hk by (apply Hfresh; cbn; lia).
  wp_call spec_CreateAPIKey; [done|done|]. intros r w4 [(-> & _ & Hm)|((e & ->) & _)]; [|done]. wp_steps.
  intros _ _ [= <- <-]. split_and!; try done; [by destruct Hm|].
  intros w2 Hi2 Hk2 Hact [u' Hu'] Hl. apply wp_VerifyAPIKey; [done|..].
  - intros w5 _ [Hnil|Hr]; exfalso.
    + unfold secret in Hnil. apply (f_equal str_bytes) in Hnil. rewrite str_bytes_app in Hnil.
      apply app_eq_nil in Hnil as [_ Hnil]. apply (str_bytes_inj _ (RawURLEncode [])), RawURLEncode_inj in Hnil.
      apply (f_equal length) in Hnil. by rewrite o_read_length in Hnil.
    + destruct (Hr k Hk2 eq_refl) as [(i & Hge & Hina)|[Hn|(u2 & i & Hu2 & Hge & Hl2)]].
      * by destruct (Hact i Hge).
      * change (Key_UserID k) with (ID u) in Hn. congruence.
      * specialize (Hl i u2 Hge Hu2). congruence.
  - intros k2 u2 i j t w5 _ Hk3 Hh2 _ _ _ Hu2 _ _. exists u'. split; [done|].
    assert (k2 = k) as -> by (eapply spec_keys_hash; [exact Hi2|done|exact Hk2|by rewrite Hh2]).
    change (Key_UserID k) with (ID u) in Hu2. congruence.
Qed.
