(* ===== verification/OAuthServer.v ===== *)
(** * The authorization server: configuration and management

    [oauth/server.go]: options and their validation, client, resource and scope
    resolution, metadata, connected-app management and the registration rate limiter. *)

From S2P Require Import Prelude GoStrings GoBytes GoCrypto GoNet GoUrl Errors World Entities OAuthTypes Stores.
From S2P Require Import UserManager Jwt GoHttp OAuthUtil Signer Jwks TokenService.

Local Open Scope Z_scope.

Record ConsentRequest := mkConsentRequest {
  CR_ClientID : string;
  CR_ClientName : string;
  CR_ClientHost : string;
  CR_RedirectURI : string;
  CR_RedirectHost : string;
  CR_LoopbackOnly : bool;
  CR_Scopes : list string;
  CR_Resource : string;
  CR_UserID : string;
  CR_Action : string;
  CR_Fields : Values;
}.

(** [resolvedClient]: a client as the server sees it, whatever its origin. *)
Record resolvedClient `{PublicKeys} := mkResolvedClient {
  rc_ID : string;
  rc_Name : string;
  rc_DisplayHost : string;
  rc_RedirectURIs : list string;
  rc_AuthMethod : string;
  rc_SecretHash : string;
  rc_GrantTypes : list string;
  rc_CIMD : bool;
  rc_JWKSURI : string;
  rc_Keys : list clientKey;
  rc_SigningAlg : string;
}.
Arguments mkResolvedClient {_ _} _ _ _ _ _ _ _ _ _ _ _.

(** What the server calls on its [CIMDFetcher]. *)
Record CIMDClient `{PublicKeys} (S : Type) := mkCIMDClient {
  cimd_Resolve : string → M S (result resolvedClient);
  cimd_jwks : string → bool → M S (result (list clientKey));
}.
Arguments mkCIMDClient {_ _ S} _ _.
Arguments cimd_Resolve {_ _ S} _ _.
Arguments cimd_jwks {_ _ S} _ _ _.

(** [oauth.Options]; a nil function is [None]. *)
Record Options `{PublicKeys} (S : Type) := mkOptions {
  O_Issuer : string;
  O_Resources : list string;
  O_Scopes : list string;
  O_DefaultScopes : option (list string);
  O_CodeTTL : Duration;
  O_AccessTokenTTL : Duration;
  O_RefreshTokenTTL : Duration;
  O_RefreshReuseGrace : Duration;
  O_RequireOfflineAccess : bool;
  O_AllowDCR : bool;
  O_AllowCIMD : bool;
  O_AuthorizePath : string;
  O_TokenPath : string;
  O_RegisterPath : string;
  O_RevokePath : string;
  O_CurrentUser : option (Request → string * bool);
  O_LoginURL : option (Request → string → string);
  O_RenderConsent : option (Headers → Request → ConsentRequest → Response);
  O_RenderError : option (Headers → Request → OError → Response);
  O_CSRFKey : bytes;
  O_CIMD : option (CIMDClient S);
  O_RegisterLimit : Z;
  O_ClientIP : option (Request → string);
  O_ClientAssertionMaxLifetime : Duration;
}.
Arguments mkOptions {_ _ S} _ _ _ _ _ _ _ _ _ _ _ _ _ _ _ _ _ _ _ _ _ _ _ _.
Arguments O_Issuer {_ _ S} _. Arguments O_Resources {_ _ S} _. Arguments O_Scopes {_ _ S} _.
Arguments O_DefaultScopes {_ _ S} _. Arguments O_CodeTTL {_ _ S} _. Arguments O_AccessTokenTTL {_ _ S} _.
Arguments O_RefreshTokenTTL {_ _ S} _. Arguments O_RefreshReuseGrace {_ _ S} _.
Arguments O_RequireOfflineAccess {_ _ S} _. Arguments O_AllowDCR {_ _ S} _. Arguments O_AllowCIMD {_ _ S} _.
Arguments O_AuthorizePath {_ _ S} _. Arguments O_TokenPath {_ _ S} _. Arguments O_RegisterPath {_ _ S} _.
Arguments O_RevokePath {_ _ S} _. Arguments O_CurrentUser {_ _ S} _. Arguments O_LoginURL {_ _ S} _.
Arguments O_RenderConsent {_ _ S} _. Arguments O_RenderError {_ _ S} _. Arguments O_CSRFKey {_ _ S} _.
Arguments O_CIMD {_ _ S} _. Arguments O_RegisterLimit {_ _ S} _. Arguments O_ClientIP {_ _ S} _.
Arguments O_ClientAssertionMaxLifetime {_ _ S} _.

(** The resolved configuration of a server: options with their defaults in place. *)
Record Server `{PublicKeys} (S : Type) := mkServer {
  sv_users : UserManager S;
  sv_issuer : string;
  sv_ipath : string;
  sv_signer : Signer;
  sv_scopeSet : gset string;
  sv_resourceList : list string;
  sv_Scopes : list string;
  sv_DefaultScopes : option (list string);
  sv_CodeTTL : Duration;
  sv_AccessTokenTTL : Duration;
  sv_RefreshTokenTTL : Duration;
  sv_RefreshReuseGrace : Duration;
  sv_RequireOfflineAccess : bool;
  sv_AllowDCR : bool;
  sv_AllowCIMD : bool;
  sv_AuthorizePath : string;
  sv_TokenPath : string;
  sv_RegisterPath : string;
  sv_RevokePath : string;
  sv_CurrentUser : Request → string * bool;
  sv_LoginURL : Request → string → string;
  sv_RenderConsent : Headers → Request → ConsentRequest → Response;
  sv_RenderError : Headers → Request → OError → Response;
  sv_CSRFKey : bytes;
  sv_CIMD : CIMDClient S;
  sv_RegisterLimit : Z;
  sv_ClientIP : Request → string;
  sv_ClientAssertionMaxLifetime : Duration;
}.
Arguments mkServer {_ _ S} _ _ _ _ _ _ _ _ _ _ _ _ _ _ _ _ _ _ _ _ _ _ _ _ _ _ _ _.
Arguments sv_users {_ _ S} _. Arguments sv_issuer {_ _ S} _. Arguments sv_ipath {_ _ S} _.
Arguments sv_signer {_ _ S} _. Arguments sv_scopeSet {_ _ S} _. Arguments sv_resourceList {_ _ S} _.
Arguments sv_Scopes {_ _ S} _. Arguments sv_DefaultScopes {_ _ S} _. Arguments sv_CodeTTL {_ _ S} _.
Arguments sv_AccessTokenTTL {_ _ S} _. Arguments sv_RefreshTokenTTL {_ _ S} _.
Arguments sv_RefreshReuseGrace {_ _ S} _. Arguments sv_RequireOfflineAccess {_ _ S} _.
Arguments sv_AllowDCR {_ _ S} _. Arguments sv_AllowCIMD {_ _ S} _. Arguments sv_AuthorizePath {_ _ S} _.
Arguments sv_TokenPath {_ _ S} _. Arguments sv_RegisterPath {_ _ S} _. Arguments sv_RevokePath {_ _ S} _.
Arguments sv_CurrentUser {_ _ S} _. Arguments sv_LoginURL {_ _ S} _. Arguments sv_RenderConsent {_ _ S} _.
Arguments sv_RenderError {_ _ S} _. Arguments sv_CSRFKey {_ _ S} _. Arguments sv_CIMD {_ _ S} _.
Arguments sv_RegisterLimit {_ _ S} _. Arguments sv_ClientIP {_ _ S} _.
Arguments sv_ClientAssertionMaxLifetime {_ _ S} _.

(** ** The registration rate limiter *)

Record window := mkWindow { win_start : Time; win_n : Z }.
Record ipLimiter := mkLimiter { lim_limit : Z; lim_window : Duration; lim_hits : gmap string window }.

(** [l.allow(ip)] at a time: the entries past their window go once there are more than
    10000, then the caller's window opens, counts or refuses. *)
Definition allow (l : ipLimiter) (at_ : Time) (ip : string) : ipLimiter * bool :=
  let hits :=
    if 10000 <? Z.of_nat (size (lim_hits l))
    then filter (λ kv, (lim_window l <? Sub at_ (win_start kv.2)) = false) (lim_hits l)
    else lim_hits l in
  let with_hits h := mkLimiter (lim_limit l) (lim_window l) h in
  match hits !! ip with
  | None => (with_hits (<[ip := mkWindow at_ 1]> hits), true)
  | Some w =>
    if lim_window l <? Sub at_ (win_start w) then (with_hits (<[ip := mkWindow at_ 1]> hits), true)
    else if lim_limit l <=? win_n w then (with_hits hits, false)
    else (with_hits (<[ip := mkWindow (win_start w) (win_n w + 1)]> hits), true)
  end.

(** ** Default pages *)

Definition DefaultConsentPage (h : Headers) (_ : Request) (c : ConsentRequest) : Response :=
  let app := if String.eqb (CR_ClientHost c) "" then CR_ClientName c else CR_ClientHost c in
  let app := if String.eqb app "" then CR_ClientID c else app in
  let name := if String.eqb (CR_ClientName c) app then "" else CR_ClientName c in
  mkResponse StatusOK (<["Content-Type" := "text/html; charset=utf-8"]> h)
    (Page (mkConsentPage app name (CR_RedirectHost c) (CR_LoopbackOnly c) (CR_Scopes c)
      (CR_Resource c) (CR_Action c) (CR_Fields c))).

Definition defaultErrorPage `{UnicodeDB} (h : Headers) (_ : Request) (e : OError) : Response :=
  let status := if (oe_Status e =? 0) || (oe_Status e =? StatusUnauthorized) then StatusBadRequest else oe_Status e in
  let msg := "Authorization request error: " +:+ oe_Code e in
  let msg := if String.eqb (oe_Description e) "" then msg else msg +:+ " — " +:+ oe_Description e in
  mkResponse status (<["Content-Type" := "text/plain; charset=utf-8"]> h)
    (Text (TrimSpace msg +:+ bytes_str [to_byte 10])).

Definition setDefault (p v : string) : string := if String.eqb p "" then v else p.

Definition default_ClientIP (r : Request) : string :=
  match SplitHostPort (req_RemoteAddr r) with Some (host, _) => host | None => req_RemoteAddr r end.

Section server.
Context `{Oracle} `{UnicodeDB} `{PublicKeys} {S : Type} `{UserStore S} `{OAuthStore S}.

Definition rc_public (c : resolvedClient) : bool :=
  String.eqb (rc_SecretHash c) "" && negb (String.eqb (rc_AuthMethod c) AuthMethodPrivateKeyJWT).

(** ** Validating the options *)

(** [for _, r := range opts.Resources]: the canonical list, or the first bad resource. *)
Fixpoint canonical_resources (l : list string) : string + list string :=
  match l with
  | [] => inr []
  | r :: l =>
    match canonicalResource r with
    | None => inl r
    | Some c => match canonical_resources l with inl bad => inl bad | inr cs => inr (c :: cs) end
    end
  end.

Definition first_bad (ok : string → bool) (l : list string) : option string := head (filter (λ s, ok s = false) l).

(** A configuration the checks accept, or the error. *)
Definition check_issuer (issuer : string) : result URL :=
  match url_Parse (TrimSuffix issuer "/") with
  | Some iu =>
    if String.eqb (u_Host iu) "" || negb (String.eqb (u_RawQuery iu) "") || negb (String.eqb (u_Fragment iu) "")
    then Err (OtherError ("oauth: invalid Issuer " +:+ Quote issuer))
    else if negb (String.eqb (u_Scheme iu) "https")
            && negb (String.eqb (u_Scheme iu) "http" && isLoopbackHost (Hostname iu))
    then Err (OtherError "oauth: Issuer must use https (http is allowed only on loopback for development)")
    else Ok iu
  | None => Err (OtherError ("oauth: invalid Issuer " +:+ Quote issuer))
  end.

Definition path_ok (p : string) : bool := String.eqb p "" || HasPrefix p "/".

(** [NewCIMDFetcher()] is the argument [fetcher]. *)
Definition NewServer (users : UserManager S) (tokens : TokenService S) (fetcher : CIMDClient S) (opts : Options S)
    : M S (result (Server S)) :=
  match O_CurrentUser opts, O_LoginURL opts with
  | Some currentUser, Some loginURL =>
    match check_issuer (O_Issuer opts) with
    | Err e => mret (Err e)
    | Ok iu =>
    if bool_decide (O_Resources opts = []) then mret (Err (OtherError "oauth: at least one Resource is required")) else
    match canonical_resources (O_Resources opts) with
    | inl r => mret (Err (OtherError ("oauth: invalid resource " +:+ Quote r)))
    | inr resourceList =>
    let scopeSet : gset string := list_to_set (O_Scopes opts) in
    match first_bad (λ sc, bool_decide (sc ∈ scopeSet)) (default [] (O_DefaultScopes opts)) with
    | Some sc => mret (Err (OtherError ("oauth: default scope " +:+ Quote sc +:+ " is not in Scopes")))
    | None =>
    let accessTTL :=
      if 0 <? O_AccessTokenTTL opts then O_AccessTokenTTL opts
      else if 0 <? AccessTokenTTL (TS_Options tokens) then AccessTokenTTL (TS_Options tokens)
      else 15 * Minute in
    match first_bad path_ok [O_AuthorizePath opts; O_TokenPath opts; O_RegisterPath opts; O_RevokePath opts] with
    | Some p => mret (Err (OtherError ("oauth: endpoint path " +:+ Quote p +:+ " must start with /")))
    | None =>
    csrfKey ← (if bool_decide (O_CSRFKey opts = []) then rand_read 32 else mret (O_CSRFKey opts));
    mret (Ok (mkServer users (URL_String iu) (EscapedPath iu) (signer (TS_Options tokens)) scopeSet resourceList
      (O_Scopes opts) (O_DefaultScopes opts)
      (if 0 <? O_CodeTTL opts then O_CodeTTL opts else 60 * Second)
      accessTTL
      (if 0 <? O_RefreshTokenTTL opts then O_RefreshTokenTTL opts else 30 * 24 * Hour)
      (O_RefreshReuseGrace opts) (O_RequireOfflineAccess opts) (O_AllowDCR opts) (O_AllowCIMD opts)
      (setDefault (O_AuthorizePath opts) "/oauth/authorize") (setDefault (O_TokenPath opts) "/oauth/token")
      (setDefault (O_RegisterPath opts) "/oauth/register") (setDefault (O_RevokePath opts) "/oauth/revoke")
      currentUser loginURL
      (default DefaultConsentPage (O_RenderConsent opts)) (default defaultErrorPage (O_RenderError opts))
      csrfKey (default fetcher (O_CIMD opts))
      (if O_RegisterLimit opts =? 0 then 20 else O_RegisterLimit opts)
      (default default_ClientIP (O_ClientIP opts))
      (if 0 <? O_ClientAssertionMaxLifetime opts then O_ClientAssertionMaxLifetime opts else Hour)))
    end end end end
  | _, _ => mret (Err (OtherError "oauth: Options.CurrentUser and Options.LoginURL are required"))
  end.

(** The limiter a new server starts with; none when it is disabled. *)
Definition new_limiter (s : Server S) : option ipLimiter :=
  if 0 <? sv_RegisterLimit s then Some (mkLimiter (sv_RegisterLimit s) Minute ∅) else None.

Section ops.
Context (s : Server S).

Definition endpoint (path : string) : string := sv_issuer s +:+ path.
Definition mountPath (path : string) : string := sv_ipath s +:+ path.
Definition MetadataPath : string := "/.well-known/oauth-authorization-server" +:+ sv_ipath s.

Definition AssertionSigningAlgs : list string := ["RS256"; "ES256"].
Definition JStrs (l : list string) : json := JArr (JStr <$> l).

(** The RFC 8414 document. *)
Definition Metadata : MapClaims :=
  let m : MapClaims := list_to_map [
    ("issuer", JStr (sv_issuer s));
    ("authorization_endpoint", JStr (endpoint (sv_AuthorizePath s)));
    ("token_endpoint", JStr (endpoint (sv_TokenPath s)));
    ("revocation_endpoint", JStr (endpoint (sv_RevokePath s)));
    ("response_types_supported", JStrs ["code"]);
    ("response_modes_supported", JStrs ["query"]);
    ("grant_types_supported", JStrs [GrantTypeAuthorizationCode; GrantTypeRefreshToken]);
    ("code_challenge_methods_supported", JStrs ["S256"]);
    ("client_id_metadata_document_supported", JBool (sv_AllowCIMD s));
    ("authorization_response_iss_parameter_supported", JBool true)] in
  let m := if bool_decide (sv_Scopes s = []) then m else <["scopes_supported" := JStrs (sv_Scopes s)]> m in
  let methods := [AuthMethodNone; AuthMethodClientSecretBasic; AuthMethodClientSecretPost] in
  let methods := if sv_AllowCIMD s then methods ++ [AuthMethodPrivateKeyJWT] else methods in
  let m := if sv_AllowCIMD s then
      <["revocation_endpoint_auth_signing_alg_values_supported" := JStrs AssertionSigningAlgs]>
      (<["token_endpoint_auth_signing_alg_values_supported" := JStrs AssertionSigningAlgs]> m) else m in
  let m := <["revocation_endpoint_auth_methods_supported" := JStrs methods]>
    (<["token_endpoint_auth_methods_supported" := JStrs methods]> m) in
  if sv_AllowDCR s then <["registration_endpoint" := JStr (endpoint (sv_RegisterPath s))]> m else m.

Definition MetadataHandler (r : Request) : Response :=
  match cors ∅ r with
  | (_, Some resp) => resp
  | (h, None) =>
    if negb (String.eqb (req_Method r) "GET") && negb (String.eqb (req_Method r) "HEAD") then
      http_Error h "method not allowed" StatusMethodNotAllowed
    else writeJSON (<["Cache-Control" := "public, max-age=300"]> h) StatusOK (JObj (map_to_list Metadata))
  end.

(** ** Clients, resources, scopes *)

(** A client id that is an https URL names a metadata document. *)
Definition IsCIMDClientID (clientID : string) : bool := HasPrefix (ToLower clientID) "https://".

Definition client_of_row (c : Client) : resolvedClient :=
  mkResolvedClient (Client_ID c) (Client_Name c) "" (RedirectURIs c) (TokenEndpointAuthMethod c)
    (SecretHash c) (GrantTypes c) false "" [] "".

Definition resolveClient (clientID : string) : M S (result resolvedClient) :=
  if String.eqb clientID "" then mret (Err (OtherError "client_id is required")) else
  if IsCIMDClientID clientID then
    if negb (sv_AllowCIMD s) then mret (Err (OtherError "client metadata documents are not accepted by this server"))
    else cimd_Resolve (sv_CIMD s) clientID
  else
  r ← os_GetClient clientID;
  mret match r with
       | Err e => Err (if ErrorsIs e ErrNotFound then OtherError "unknown client_id" else e)
       | Ok c => Ok (client_of_row c)
       end.

Definition resolveResource (raw : string) : oresult string :=
  if String.eqb raw "" then
    match sv_resourceList s with
    | [r] => inl r
    | _ => inr (errInvalidTarget "resource is required")
    end
  else
  match canonicalResource raw with
  | None => inr (errInvalidTarget "resource must be an absolute URI without fragment")
  | Some c => if bool_decide (c ∈ sv_resourceList s) then inl c
              else inr (errInvalidTarget "resource is not served by this authorization server")
  end.

Definition resolveScopes (raw : string) : oresult (list string) :=
  let req := parseScopes raw in
  if bool_decide (req = []) then
    match sv_DefaultScopes s with Some d => inl d | None => inl (sv_Scopes s) end
  else
  match first_bad (λ sc, bool_decide (sc ∈ sv_scopeSet s)) req with
  | Some sc => inr (errInvalidScope ("unknown scope: " +:+ sc))
  | None => inl req
  end.

(** ** Connected apps and garbage collection *)

Definition ListGrants (userID : string) : M S (result (list Grant)) := os_ListUserGrants userID.

Definition RevokeGrant (userID grantID : string) : M S (result unit) :=
  r ← os_GetGrant grantID;
  match r with
  | Err e => mret (if ErrorsIs e ErrNotFound then Ok tt else Err e)
  | Ok g =>
    if negb (String.eqb (Grant_UserID g) userID) then mret (Err ErrNotFound)
    else os_DeleteGrant grantID
  end.

Definition RevokeClient (userID clientID : string) : M S (result unit) :=
  _ ←? os_DeleteUserClientGrants userID clientID;
  os_DeleteConsent userID clientID.

Definition PurgeExpired : M S (result (Z * Z)) :=
  at_ ← now;
  codes ←? os_DeleteExpiredCodes at_;
  grants ←? os_DeleteExpiredGrants at_;
  _ ←? os_DeleteExpiredClientAssertions at_;
  mret (Ok (codes, grants)).

Definition PurgeStaleClients (olderThan : Time) : M S (result Z) := os_DeleteStaleClients olderThan.
End ops.

Definition newID : M S string := uuid_NewString.
End server.
