(* ===== verification/OAuthServerFacts.v ===== *)
(** * Correctness of the server's configuration

    The contract of the metadata-document fetcher as the server uses it ([CIMDSpec]), the
    clients the server resolves, and what an accepted configuration guarantees. *)

From S2P Require Import Prelude GoStrings GoBytes GoCrypto GoNet GoUrl Errors World Entities OAuthTypes Stores.
From S2P Require Import StoreLaws UserManager Jwt GoHttp OAuthUtil Signer Jwks TokenService OAuthServer.

Local Open Scope Z_scope.

(** The rows of a world. *)
Abbreviation codes_of w := (r_codes (v_rows (w_store w))) (only parsing).
Abbreviation grants_of w := (r_grants (v_rows (w_store w))) (only parsing).
Abbreviation clients_of w := (r_clients (v_rows (w_store w))) (only parsing).
Abbreviation jtis_of w := (r_jtis (v_rows (w_store w))) (only parsing).

(** An answer that is an error. *)
Definition refused {A} (r : oresult A) : Prop := match r with inr _ => True | inl _ => False end.

(** What the server relies on in a client resolved from a metadata document. *)
Record cimd_ok `{UnicodeDB} `{PublicKeys} (id : string) (c : resolvedClient) : Prop := {
  co_id : rc_ID c = id;
  co_cimd : rc_CIMD c = true;
  co_no_secret : rc_SecretHash c = "";
  co_redirects : rc_RedirectURIs c ≠ [] ∧ Forall (λ u, validateRedirectURI u = None) (rc_RedirectURIs c);
  co_method : rc_AuthMethod c = AuthMethodNone
    ∨ rc_AuthMethod c = AuthMethodPrivateKeyJWT ∧ (rc_JWKSURI c ≠ "" ∨ rc_Keys c ≠ []);
  co_alg : rc_SigningAlg c = "" ∨ rc_SigningAlg c ∈ AssertionSigningAlgs;
}.

(** The contract of the fetcher: it leaves the store alone and resolves well-formed clients. *)
Class CIMDSpec `{Oracle} `{UnicodeDB} `{PublicKeys} {S} `{StoreView S} (c : CIMDClient S) : Prop := {
  spec_Resolve (w : World S) id : v_inv (w_store w) →
    wp (cimd_Resolve c id) (λ r w', same w w' ∧ ∀ cl, r = Ok cl → cimd_ok id cl) w;
  spec_jwks (w : World S) uri b : v_inv (w_store w) →
    wp (cimd_jwks c uri b) (λ r w', same w w') w;
}.

Section facts.
Context `{Oracle} `{UnicodeDB} `{PublicKeys} {S : Type} `{UserStore S, OAuthStore S, StoreView S, !OAuthStoreSpec S}.
Implicit Types (w : World S) (s : Server S).

(** A random secret is not empty, and no hash is. *)
Lemma secret_nonempty i : RawURLEncode (o_read i 32) ≠ "".
Proof.
  intros Hb%(f_equal str_bytes). unfold RawURLEncode in Hb. rewrite str_bytes_str in Hb.
  apply (f_equal length) in Hb. rewrite length_b64_enc, o_read_length in Hb. discriminate.
Qed.

Lemma hashSecret_nonempty t : hashSecret t ≠ "".
Proof.
  unfold hashSecret, hex_encode. intros Heq%(f_equal str_bytes). rewrite str_bytes_str in Heq.
  pose proof (length_sha256 (str_bytes t)) as Hl. destruct (sha256 (str_bytes t)); discriminate.
Qed.

(** ** Clients *)

(** A client as the server may use it: a stored row, or a valid metadata document. *)
Definition known_client (s : Server S) (w : World S) (id : string) (c : resolvedClient) : Prop :=
  (∃ row, clients_of w !! id = Some row ∧ c = client_of_row row ∧ IsCIMDClientID id = false)
  ∨ (sv_AllowCIMD s = true ∧ IsCIMDClientID id = true ∧ cimd_ok id c).

Lemma known_client_id s w id c : v_inv (w_store w) → known_client s w id c → rc_ID c = id.
Proof.
  intros Hi [(row & Hr & -> & _)|(_ & _ & [])]; [|done]. by apply (spec_clients_keyed _ Hi).
Qed.

Lemma wp_resolveClient (s : Server S) `{!CIMDSpec (sv_CIMD s)} id w (Q : result resolvedClient → World S → Prop) :
  v_inv (w_store w) →
  (∀ r w', same w w' → (∀ c, r = Ok c → id ≠ "" ∧ known_client s w id c) → Q r w') →
  wp (resolveClient s id) Q w.
Proof.
  intros Hi HQ. unfold resolveClient. destruct (String.eqb_spec id "") as [|Hid].
  { wp_steps. apply HQ; [by apply same_refl|discriminate]. }
  destruct (IsCIMDClientID id) eqn:Hc.
  - destruct (sv_AllowCIMD s) eqn:Ha; cbn [negb].
    + wp_call spec_Resolve; [done|]. intros r w' [Hs Hr]. apply HQ; [done|]. intros c Hcl.
      split; [done|]. right. split_and!; [done|done|by apply Hr].
    + wp_steps. apply HQ; [by apply same_refl|discriminate].
  - wp_steps. wp_call spec_GetClient; [done|]. intros r w' [Hs ->]. wp_steps. apply HQ; [done|].
    destruct (clients_of w !! id) as [row|] eqn:Hrow; [|discriminate]. intros c [= <-].
    split; [done|]. left. by exists row.
Qed.

(** ** Resources and scopes *)

Lemma first_bad_None ok l : first_bad ok l = None ↔ Forall (λ x, ok x = true) l.
Proof.
  unfold first_bad. rewrite Forall_forall. induction l as [|x l IH]; [split; [intros _ y Hy; by apply not_elem_of_nil in Hy|done]|].
  rewrite filter_cons. destruct (ok x) eqn:Hx.
  - rewrite decide_False by done. rewrite IH. setoid_rewrite elem_of_cons. naive_solver.
  - rewrite decide_True by done. split; [done|]. intros Hall. rewrite (Hall x) in Hx by left. done.
Qed.

Lemma first_bad_Some ok l x : first_bad ok l = Some x → x ∈ l ∧ ok x = false.
Proof.
  unfold first_bad. intros Hh%head_Some_elem_of. apply list_elem_of_filter in Hh as [? ?]. done.
Qed.

Lemma canonical_resources_ok l : match canonical_resources l with
  | inr cs => Forall2 (λ r c, canonicalResource r = Some c) l cs
  | inl bad => bad ∈ l ∧ canonicalResource bad = None
  end.
Proof.
  induction l as [|r l IH]; cbn [canonical_resources]; [constructor|].
  destruct (canonicalResource r) as [c|] eqn:Hr; [|split; [left|done]].
  destruct (canonical_resources l) as [bad|cs]; [|by constructor]. destruct IH. split; [by right|done].
Qed.

Lemma resolveResource_served s raw res : resolveResource s raw = inl res → res ∈ sv_resourceList s.
Proof.
  unfold resolveResource. destruct (String.eqb raw "").
  - destruct (sv_resourceList s) as [|r [|]]; [done| |done]. intros [= <-]. left.
  - destruct (canonicalResource raw) as [c|]; [|done]. case_bool_decide; [|done]. by intros [= <-].
Qed.

(** ** An accepted configuration *)

Record server_ok (s : Server S) : Prop := {
  so_ttls : 0 < sv_CodeTTL s ∧ 0 < sv_AccessTokenTTL s ∧ 0 < sv_RefreshTokenTTL s ∧ 0 < sv_ClientAssertionMaxLifetime s;
  so_resources : sv_resourceList s ≠ [] ∧ Forall (λ c, ∃ r, canonicalResource r = Some c) (sv_resourceList s);
  so_scopes : sv_scopeSet s = list_to_set (sv_Scopes s) ∧ default [] (sv_DefaultScopes s) ⊆ sv_Scopes s;
  so_paths : Forall (λ p, HasPrefix p "/" = true) [sv_AuthorizePath s; sv_TokenPath s; sv_RegisterPath s; sv_RevokePath s];
  so_csrf : sv_CSRFKey s ≠ [];
  so_limit : sv_RegisterLimit s ≠ 0;
}.

Lemma resolveScopes_known s raw scopes : server_ok s → resolveScopes s raw = inl scopes → scopes ⊆ sv_Scopes s.
Proof.
  intros [_ _ [Hset Hdef] _ _ _]. unfold resolveScopes. case_bool_decide.
  - destruct (sv_DefaultScopes s) as [d|]; intros [= <-]; [exact Hdef|done].
  - destruct (first_bad _ _) eqn:Hb; [done|]. intros [= <-] x Hx. apply first_bad_None in Hb.
    rewrite Forall_forall in Hb. specialize (Hb x Hx). apply bool_decide_eq_true in Hb. rewrite Hset in Hb.
    by apply elem_of_list_to_set in Hb.
Qed.

Lemma setDefault_path p d : path_ok p = true → HasPrefix d "/" = true → HasPrefix (setDefault p d) "/" = true.
Proof. unfold path_ok, setDefault. destruct (String.eqb p ""); cbn; auto. Qed.

(** When the options are accepted. *)
Definition accepted (o : Options S) : Prop :=
  is_Some (O_CurrentUser o) ∧ is_Some (O_LoginURL o) ∧ is_ok (check_issuer (O_Issuer o)) = true
  ∧ O_Resources o ≠ [] ∧ Forall (λ r, is_Some (canonicalResource r)) (O_Resources o)
  ∧ default [] (O_DefaultScopes o) ⊆ O_Scopes o
  ∧ Forall (λ p, path_ok p = true) [O_AuthorizePath o; O_TokenPath o; O_RegisterPath o; O_RevokePath o].

(** The server [NewServer] builds. *)
Definition server_of (users : UserManager S) (tokens : TokenService S) fetcher (o : Options S) cu lu iu cs csrf : Server S :=
  mkServer users (URL_String iu)
    (EscapedPath iu) (signer (TS_Options tokens)) (list_to_set (O_Scopes o)) cs
    (O_Scopes o) (O_DefaultScopes o)
    (if 0 <? O_CodeTTL o then O_CodeTTL o else 60 * Second)
    (if 0 <? O_AccessTokenTTL o then O_AccessTokenTTL o
    else if 0 <? AccessTokenTTL (TS_Options tokens) then AccessTokenTTL (TS_Options tokens)
    else 15 * Minute)
    (if 0 <? O_RefreshTokenTTL o then O_RefreshTokenTTL o else 30 * 24 * Hour)
    (O_RefreshReuseGrace o) (O_RequireOfflineAccess o) (O_AllowDCR o) (O_AllowCIMD o)
    (setDefault (O_AuthorizePath o) "/oauth/authorize") (setDefault (O_TokenPath o) "/oauth/token")
    (setDefault (O_RegisterPath o) "/oauth/register") (setDefault (O_RevokePath o) "/oauth/revoke")
    cu lu (default DefaultConsentPage (O_RenderConsent o)) (default defaultErrorPage (O_RenderError o))
    csrf (default fetcher (O_CIMD o))
    (if O_RegisterLimit o =? 0 then 20 else O_RegisterLimit o)
    (default default_ClientIP (O_ClientIP o))
    (if 0 <? O_ClientAssertionMaxLifetime o then O_ClientAssertionMaxLifetime o else Hour).

Lemma server_of_ok users (tokens : TokenService S) fetcher (o : Options S) cu lu iu cs csrf :
  O_Resources o ≠ [] → Forall2 (λ r c, canonicalResource r = Some c) (O_Resources o) cs →
  default [] (O_DefaultScopes o) ⊆ O_Scopes o →
  Forall (λ p, path_ok p = true) [O_AuthorizePath o; O_TokenPath o; O_RegisterPath o; O_RevokePath o] →
  csrf ≠ [] → server_ok (server_of users tokens fetcher o cu lu iu cs csrf).
Proof.
  intros Hr Hcan Hsc Hp Hcsrf. rewrite !Forall_cons in Hp. destruct Hp as (Hp1 & Hp2 & Hp3 & Hp4 & _). split; cbn.
  - repeat case_match; rewrite ?Z.ltb_lt in *; split_and!; done.
  - split; [intros ->; by inversion Hcan; subst|]. apply Forall_forall. intros c Hin.
    apply list_elem_of_lookup in Hin as [i Hin]. destruct (Forall2_lookup_r _ _ _ _ _ Hcan Hin) as (r & _ & ?). eauto.
  - by split.
  - repeat constructor; by apply setDefault_path.
  - done.
  - destruct (Z.eqb_spec (O_RegisterLimit o) 0); done.
Qed.

(** The configuration an accepted option set gives, or its rejection. *)
Lemma wp_NewServer users (tokens : TokenService S) fetcher (o : Options S) w (Q : result (Server S) → World S → Prop) :
  (∀ e, ¬ accepted o → Q (Err e) w) →
  (∀ sv w', accepted o → server_ok sv →
    Forall2 (λ r c, canonicalResource r = Some c) (O_Resources o) (sv_resourceList sv) → w_store w' = w_store w → sv_Scopes sv = O_Scopes o → sv_users sv = users →
    Q (Ok sv) w') →
  wp (NewServer users tokens fetcher o) Q w.
Proof.
  intros HE HQ. unfold NewServer, accepted in *.
  destruct (O_CurrentUser o) as [cu|]; [|wp_steps; apply HE; intros [[] _]; discriminate].
  destruct (O_LoginURL o) as [lu|]; [|wp_steps; apply HE; intros (_ & [] & _); discriminate].
  destruct (check_issuer (O_Issuer o)) as [iu|e]; [|wp_steps; apply HE; by intros (_ & _ & ? & _)].
  case_bool_decide as Hr; [wp_steps; apply HE; by intros (_ & _ & _ & ? & _)|].
  pose proof (canonical_resources_ok (O_Resources o)) as Hcan.
  destruct (canonical_resources (O_Resources o)) as [bad|cs].
  { wp_steps. apply HE. intros (_ & _ & _ & _ & Hall & _). rewrite Forall_forall in Hall.
    destruct Hcan as [Hin Hnone]. destruct (Hall _ Hin). congruence. }
  destruct (first_bad _ (default [] _)) as [sc|] eqn:Hsc.
  { wp_steps. apply HE. intros (_ & _ & _ & _ & _ & Hd & _).
    apply first_bad_Some in Hsc as [Hin Hno%bool_decide_eq_false]. apply Hno, elem_of_list_to_set. by apply Hd. }
  apply first_bad_None in Hsc. rewrite Forall_forall in Hsc.
  destruct (first_bad path_ok _) as [p|] eqn:Hp.
  { wp_steps. apply HE. intros (_ & _ & _ & _ & _ & _ & Hall). apply first_bad_None in Hall. congruence. }
  apply first_bad_None in Hp.
  assert (default [] (O_DefaultScopes o) ⊆ O_Scopes o) as Hsub.
  { intros x Hx. specialize (Hsc x Hx). apply bool_decide_eq_true in Hsc. by apply elem_of_list_to_set in Hsc. }
  assert (∀ csrf : bytes, csrf ≠ [] → ∀ w', w_store w' = w_store w →
    wp (mret (Ok (server_of users tokens fetcher o cu lu iu cs csrf))) Q w') as Hnew.
  { intros csrf Hcsrf w' Hw'. wp_steps. apply HQ; try done; [|by apply server_of_ok].
    split; [by eexists|]. split; [by eexists|]. split; [done|]. split; [done|]. split; [|by split].
    apply Forall_forall. intros r Hin. apply list_elem_of_lookup in Hin as [i Hin].
    destruct (Forall2_lookup_l _ _ _ _ _ Hcan Hin) as (c & _ & ->). done. }
  rewrite wp_bind. case_bool_decide as Hk; wp_steps; apply Hnew; try done.
  intros Hl. pose proof (o_read_length (w_step w) 32) as Hlen. by rewrite Hl in Hlen.
Qed.
End facts.

(** A configured server. [NewServer] accepts exactly the option sets with a current-user
    hook and a login URL, an https issuer, at least one resource, all resources canonical,
    default scopes among the scopes and absolute endpoint paths; it never panics and touches
    no store. The server it returns is well formed (positive lifetimes, absolute paths, a
    CSRF key), and whatever a request asks for, it resolves only its own resources and only
    configured scopes. *)
Theorem NewServer_ok `{Oracle} `{UnicodeDB} `{PublicKeys} {S} `{UserStore S, OAuthStore S}
    (users : UserManager S) tokens fetcher (o : Options S) (w : World S) :
  wp (NewServer users tokens fetcher o) (λ r w', w_store w' = w_store w ∧
    (is_ok r = true ↔ accepted o) ∧
    ∀ sv, r = Ok sv → server_ok sv ∧ sv_users sv = users ∧ ∀ raw,
      (∀ scopes, resolveScopes sv raw = inl scopes → scopes ⊆ O_Scopes o)
      ∧ (∀ res, resolveResource sv raw = inl res → ∃ r, r ∈ O_Resources o ∧ canonicalResource r = Some res)) w.
Proof.
  apply wp_NewServer.
  - intros e Hn. split; [done|]. split; [by split|discriminate].
  - intros sv w' Ha Hok Hres Hs Hsc Hu. split; [done|]. split; [done|]. intros sv' [= <-].
    split; [done|]. split; [done|]. intros raw. split.
    + intros scopes Hr. rewrite <-Hsc. by eapply resolveScopes_known.
    + intros res Hr%resolveResource_served. apply list_elem_of_lookup in Hr as [i Hin].
      destruct (Forall2_lookup_r _ _ _ _ _ Hres Hin) as (r & Hr & ?). apply list_elem_of_lookup_2 in Hr. eauto.
Qed.
