(* ===== verification/OAuthLimiter.v ===== *)
(** * The registration rate limiter

    The guarantee of [ipLimiter] ([oauth/server.go]): whatever the requests, of every
    address and in any order, one address gets at most twice its limit through in any
    period as long as the window. *)

From S2P Require Import Prelude GoStrings GoBytes GoCrypto GoNet GoUrl Errors World Entities OAuthTypes Stores.
From S2P Require Import UserManager Jwt GoHttp OAuthUtil Signer Jwks TokenService OAuthServer.

Local Open Scope Z_scope.


(** [now.Sub(start) > window] is not affected by the saturation of [Sub]. *)
Lemma past_window W t start : MinInt64 <= W < MaxInt64 → (W <? Sub t start) = (W <? t - start).
Proof.
  unfold MinInt64, MaxInt64. intros HW. unfold Sub, MinInt64, MaxInt64.
  destruct (Z.ltb_spec W (t - start)); [apply Z.ltb_lt|apply Z.ltb_ge]; lia.
Qed.

(** The requests of one address that were let through, newest first. *)
Fixpoint run_limiter (l : ipLimiter) (ip : string) (evs : list (Time * string)) (log : list Time)
    : ipLimiter * list Time :=
  match evs with
  | [] => (l, log)
  | (t, ip') :: evs =>
    let '(l, ok) := allow l t ip' in
    run_limiter l ip evs (if ok && String.eqb ip' ip then t :: log else log)
  end.

(** How many entries of a log lie between two times. *)
Definition between (x y : Time) (log : list Time) : Z :=
  Z.of_nat (length (filter (λ a, x <= a <= y) log)).

Section limiter.
Context (ip : string).

Lemma between_cons x y a log :
  between x y (a :: log) = (if bool_decide (x <= a <= y) then 1 else 0) + between x y log.
Proof. unfold between. rewrite filter_cons. case_decide; case_bool_decide; cbn [length]; lia. Qed.
Lemma between_nonneg x y log : 0 <= between x y log.
Proof. unfold between. lia. Qed.
Lemma between_le x y x' y' log : (∀ a, a ∈ log → x <= a <= y → x' <= a <= y') → between x y log <= between x' y' log.
Proof.
  induction log as [|a log IH]; intros Hle; [done|]. rewrite !between_cons.
  specialize (IH ltac:(set_solver)). specialize (Hle a ltac:(set_solver)).
  repeat case_bool_decide; try lia; naive_solver lia.
Qed.
Lemma between_split x m y log : between x y log <= between x (m - 1) log + between m y log.
Proof.
  induction log as [|a log IH]; [done|]. rewrite !between_cons. repeat case_bool_decide; lia.
Qed.
Lemma between_empty x y log : (∀ a, a ∈ log → ¬ (x <= a <= y)) → between x y log = 0.
Proof.
  induction log as [|a log IH]; intros Hn; [done|]. rewrite between_cons, IH by set_solver.
  rewrite bool_decide_eq_false_2; [done|]. apply Hn. left.
Qed.

(** The log against the window of the address, which may have been swept once past. *)
Record lim_inv (l : ipLimiter) (at_ : Time) (log : list Time) : Prop := {
  li_bounds : MinInt64 <= lim_window l < MaxInt64 ∧ 0 <= lim_window l ∧ 1 <= lim_limit l;
  li_seen : ∀ a, a ∈ log → a <= at_;
  li_any : ∀ x, between x (x + lim_window l) log <= 2 * lim_limit l;
  li_window : ∃ s n,
    (lim_hits l !! ip = Some (mkWindow s n) ∨ (lim_hits l !! ip = None ∧ (log = [] ∨ s + lim_window l < at_)))
    ∧ s <= at_ ∧ (∀ a, a ∈ log → a <= s + lim_window l)
    ∧ between s at_ log <= n <= lim_limit l ∧ (lim_hits l !! ip ≠ None → between s at_ log = n)
    ∧ between (s - lim_window l) (s - 1) log <= lim_limit l;
}.

Lemma lim_inv_later l t t' log : lim_inv l t log → t <= t' → lim_inv l t' log.
Proof.
  intros [Hb Hs Ha (s & n & Hw & Hst & Hm & Hn & He & Hp)] Ht. constructor; [done| |done|].
  { intros a Hin. specialize (Hs a Hin). lia. }
  assert (between s t' log = between s t log) as Heq.
  { apply Z.le_antisymm; apply between_le; intros a Hin ?; specialize (Hs a Hin); lia. }
  exists s, n. rewrite Heq. split; [|split; [lia|done]]. destruct Hw as [?|[? [?|?]]]; [by left|right; auto|right].
  split; [done|]. right. lia.
Qed.

(** The sweep only removes windows that are past. *)
Lemma swept_lookup l t k :
  let hits := if 10000 <? Z.of_nat (size (lim_hits l))
    then filter (λ kv, (lim_window l <? Sub t (win_start kv.2)) = false) (lim_hits l) else lim_hits l in
  hits !! k = lim_hits l !! k
  ∨ (hits !! k = None ∧ ∃ w, lim_hits l !! k = Some w ∧ (lim_window l <? Sub t (win_start w)) = true).
Proof.
  cbv zeta. destruct (_ <? _); [|by left]. rewrite map_lookup_filter.
  destruct (lim_hits l !! k) as [w|]; cbn; [|by left]. case_guard as Hg; cbn; [by left|].
  right. split; [done|]. exists w. split; [done|]. cbn in Hg. by destruct (_ <? _).
Qed.

(** A new window opens for the address. *)
Lemma lim_inv_open l l' t log : lim_inv l t log → lim_window l' = lim_window l → lim_limit l' = lim_limit l →
  lim_hits l' !! ip = Some (mkWindow t 1) →
  (lim_hits l !! ip = None ∨ ∃ w, lim_hits l !! ip = Some w ∧ (lim_window l <? Sub t (win_start w)) = true) →
  lim_inv l' t (t :: log).
Proof.
  intros [Hb Hs Ha (s & n & Hw & Hst & Hm & Hn & He & Hp)] HW HL Hl' Hold.
  assert (log = [] ∨ s + lim_window l < t) as Hpast.
  { destruct Hw as [Hw|[Hw [?|?]]]; [|by left|by right]. destruct Hold as [Ho|(w & Ho & Hlt)]; [congruence|].
    right. rewrite Hw in Ho. injection Ho as <-. cbn in Hlt. rewrite past_window in Hlt by apply Hb.
    apply Z.ltb_lt in Hlt. lia. }
  assert (between (t - lim_window l) (t - 1) log <= lim_limit l) as Hrecent.
  { destruct Hpast as [->|Hpast]; [unfold between; cbn; lia|]. etransitivity; [|apply Hn].
    etransitivity; [|apply Hn]. apply between_le. intros a Hin ?. specialize (Hs a Hin). lia. }
  assert (∀ a, a ∈ log → a < t) as Hlt.
  { destruct Hpast as [->|Hpast]; [set_solver|]. intros a Hin. specialize (Hm a Hin). lia. }
  constructor; rewrite ?HW, ?HL; [done| | |].
  - intros a [->|Hin]%elem_of_cons; [lia|]. by apply Hs.
  - intros x. rewrite between_cons. case_bool_decide as Ht; [|specialize (Ha x); lia].
    assert (between x (x + lim_window l) log <= between (t - lim_window l) (t - 1) log); [|lia].
    apply between_le. intros a Hin ?. specialize (Hlt a Hin). lia.
  - exists t, 1. rewrite ?HW, ?HL. split; [by left|]. rewrite between_cons, bool_decide_eq_true_2 by lia.
    rewrite (between_empty t t) by (intros a Hin; specialize (Hlt a Hin); lia).
    split_and!; try lia.
    + intros a [->|Hin]%elem_of_cons; [lia|]. specialize (Hlt a Hin). lia.
    + rewrite between_cons, bool_decide_eq_false_2 by lia. lia.
Qed.

Lemma lim_inv_count l l' t log w : lim_inv l t log → lim_window l' = lim_window l → lim_limit l' = lim_limit l →
  lim_hits l !! ip = Some w → (lim_window l <? Sub t (win_start w)) = false → win_n w < lim_limit l →
  lim_hits l' !! ip = Some (mkWindow (win_start w) (win_n w + 1)) →
  lim_inv l' t (t :: log).
Proof.
  intros [Hb Hs Ha (s & n & Hw & Hst & Hm & Hn & He & Hp)] HW HL Hl Hcur Hlim Hl'.
  destruct Hw as [Hw|[Hw _]]; [|congruence]. rewrite Hw in Hl. injection Hl as <-. cbn in *.
  rewrite past_window in Hcur by apply Hb. apply Z.ltb_ge in Hcur.
  specialize (He ltac:(congruence)).
  constructor; rewrite ?HW, ?HL; [done| | |].
  - intros a [->|Hin]%elem_of_cons; [lia|]. by apply Hs.
  - intros x. rewrite between_cons. case_bool_decide as Ht; [|specialize (Ha x); lia].
    pose proof (between_split x s (x + lim_window l) log).
    assert (between x (s - 1) log <= between (s - lim_window l) (s - 1) log) by (apply between_le; lia).
    assert (between s (x + lim_window l) log <= between s t log); [|lia].
    apply between_le. intros a Hin ?. specialize (Hs a Hin). lia.
  - exists s, (n + 1). rewrite ?HW, ?HL. split; [by left|]. rewrite !between_cons.
    rewrite bool_decide_eq_true_2, bool_decide_eq_false_2 by lia. split_and!; try lia.
    intros a [->|Hin]%elem_of_cons; [lia|]. by apply Hm.
Qed.

(** Requests of other addresses can at most sweep the window away. *)
Lemma lim_inv_other l l' t log : lim_inv l t log → lim_window l' = lim_window l → lim_limit l' = lim_limit l →
  (lim_hits l' !! ip = lim_hits l !! ip
   ∨ (lim_hits l' !! ip = None ∧ ∃ w, lim_hits l !! ip = Some w ∧ (lim_window l <? Sub t (win_start w)) = true)) →
  lim_inv l' t log.
Proof.
  intros [Hb Hs Ha (s & n & Hw & Hst & Hm & Hn & He & Hp)] HW HL Hl'.
  constructor; rewrite ?HW, ?HL; [done..|]. exists s, n. rewrite ?HW, ?HL.
  destruct Hl' as [->|(Hl' & w & Hl & Hpast)]; [done|]. rewrite Hl'. split; [|split_and!; done || lia].
  right. split; [done|]. right. destruct Hw as [Hw|[Hw _]]; [|congruence].
  rewrite Hw in Hl. injection Hl as <-. cbn in Hpast. rewrite past_window in Hpast by apply Hb.
  apply Z.ltb_lt in Hpast. lia.
Qed.

Lemma allow_inv l t0 t ip' log : lim_inv l t0 log → t0 <= t →
  let '(l', ok) := allow l t ip' in
  lim_inv l' t (if ok && String.eqb ip' ip then t :: log else log)
  ∧ (ok = false → ip' = ip → lim_limit l <= between (t - lim_window l) t log).
Proof.
  intros Hi Ht. apply (lim_inv_later _ _ t) in Hi; [|done].
  unfold allow. pose proof (swept_lookup l t) as Hsw. cbv zeta in Hsw |- *.
  set (hits := if 10000 <? _ then _ else _) in *.
  destruct (String.eqb_spec ip' ip) as [->|Hne]; rewrite ?andb_true_r, ?andb_false_r.
  - destruct (hits !! ip) as [w|] eqn:Hh.
    + assert (lim_hits l !! ip = Some w) as Heq by (destruct (Hsw ip) as [Heq|[Heq _]]; congruence).
      destruct (lim_window l <? Sub t (win_start w)) eqn:Hp.
      { split; [|done]. eapply (lim_inv_open l); try done; [cbn; by rewrite lookup_insert_eq|eauto]. }
      destruct (Z.leb_spec (lim_limit l) (win_n w)).
      * split; [|intros _ _].
        { eapply (lim_inv_other l); try done. all: left; cbn; congruence. }
        destruct Hi as [Hb Hs Ha (s & n & Hw & Hst & Hm & Hn & He & _)].
        destruct Hw as [Hw|[Hw _]]; [|congruence]. rewrite Hw in Heq. injection Heq as <-. cbn in *.
        specialize (He ltac:(congruence)). etransitivity; [done|]. rewrite <-He.
        rewrite past_window in Hp by apply Hb. apply Z.ltb_ge in Hp. apply between_le. lia.
      * split; [|done]. eapply (lim_inv_count l); try done. cbn. by rewrite lookup_insert_eq.
    + split; [|done]. eapply (lim_inv_open l); try done; [cbn; by rewrite lookup_insert_eq|].
      destruct (Hsw ip) as [Heq|[_ ?]]; [left; congruence|by right].
  - assert (∀ h, lim_hits h !! ip = hits !! ip → lim_window h = lim_window l → lim_limit h = lim_limit l →
      lim_inv h t log) as Hother.
    { intros h Hh HW HL. eapply (lim_inv_other l); try done. rewrite Hh. apply Hsw. }
    destruct (hits !! ip') as [w|]; [destruct (lim_window l <? _); [|destruct (lim_limit l <=? win_n w)]|];
      (split; [apply Hother; cbn; rewrite ?lookup_insert_ne by done; done|by intros]).
Qed.

Lemma run_limiter_inv evs : ∀ l t0 t log, lim_inv l t0 log → StronglySorted Z.le (t0 :: evs.*1) →
  t0 <= t → (∀ e, e ∈ evs → e.1 <= t) →
  let '(l', log') := run_limiter l ip evs log in
  lim_inv l' t log' ∧ lim_limit l' = lim_limit l ∧ lim_window l' = lim_window l.
Proof.
  induction evs as [|[t' ip'] evs IH]; intros l t0 t log Hi Hsort Ht Hle; cbn [run_limiter].
  { split; [|done]. by eapply lim_inv_later. }
  cbn in Hsort. apply StronglySorted_inv in Hsort as [Hsort Hall].
  pose proof (allow_inv l t0 t' ip' log Hi) as Hal.
  assert (lim_limit (allow l t' ip').1 = lim_limit l ∧ lim_window (allow l t' ip').1 = lim_window l) as [HL HW].
  { unfold allow. repeat case_match; done. }
  destruct (allow l t' ip') as [l' ok]. cbn in HL, HW. rewrite <-HL, <-HW.
  apply (IH l' t').
  - apply Hal. apply Forall_cons in Hall. lia.
  - done.
  - apply (Hle (t', ip')). left.
  - intros e He. apply Hle. by right.
Qed.
End limiter.

(** C25: registrations are rate-limited. Whatever the requests of all addresses, over any
    period of the limiter's length at most twice the limit of one address get through;
    and a request is refused only when that many as the limit got through in the period
    before it. *)
Theorem registrations_limited limit W ip evs t :
  1 <= limit → 0 <= W < MaxInt64 → StronglySorted Z.le evs.*1 → (∀ e, e ∈ evs → e.1 <= t) →
  let '(l, log) := run_limiter (mkLimiter limit W ∅) ip evs [] in
  (∀ x, between x (x + W) log <= 2 * limit)
  ∧ ((allow l t ip).2 = false → limit <= between (t - W) t log).
Proof.
  intros Hl HW Hs Ht.
  set (t0 := match evs with [] => t | e :: _ => e.1 end).
  pose proof (run_limiter_inv ip evs (mkLimiter limit W ∅) t0 t []) as Hr.
  destruct (run_limiter _ ip evs []) as [l log].
  destruct Hr as (Hi & HL & HW').
  - constructor; cbn; [unfold MinInt64; lia|set_solver|unfold between; cbn; lia|].
    exists t0, 0. split; [right; auto|]. unfold between; cbn. split_and!; try lia; set_solver.
  - destruct evs as [|e evs]; [repeat constructor|]. constructor; [done|].
    apply StronglySorted_inv in Hs as [_ Hs]. constructor; [done|]. exact Hs.
  - unfold t0. destruct evs as [|e evs]; [done|]. apply Ht. left.
  - done.
  - cbn in HL, HW'. split.
    + intros x. rewrite <-HL, <-HW'. apply Hi.
    + intros Hal. pose proof (allow_inv ip l t t ip log Hi (Z.le_refl _)) as Ha.
      destruct (allow l t ip) as [l' ok]. destruct Ha as [_ Ha]. rewrite <-HL, <-HW'. by apply Ha.
Qed.
