(* ===== verification/Cimd.v ===== *)
(** * Client ID metadata documents

    [oauth/cimd.go] and the fetching part of [oauth/client_assertion.go]: which URLs and
    addresses a fetch may reach, what a document may contain, and the fetcher with its
    two caches.  The HTTP client is a parameter: one GET of a URL. *)

From S2P Require Import Prelude GoStrings GoBytes GoNet GoUrl Errors World Entities OAuthTypes Stores.
From S2P Require Import UserManager Jwt GoHttp OAuthUtil Signer Jwks TokenService OAuthServer.
From S2P Require Import StoreLaws OAuthServerFacts.

Local Open Scope Z_scope.

(** ** Special-use addresses *)

Definition blocked_texts : list string :=
  ["0.0.0.0/8"; "10.0.0.0/8"; "100.64.0.0/10"; "127.0.0.0/8"; "169.254.0.0/16";
   "172.16.0.0/12"; "192.0.0.0/24"; "192.0.2.0/24"; "192.88.99.0/24"; "192.168.0.0/16";
   "198.18.0.0/15"; "198.51.100.0/24"; "203.0.113.0/24"; "224.0.0.0/4"; "240.0.0.0/4";
   "::/128"; "::1/128"; "::ffff:0:0/96"; "64:ff9b::/96"; "64:ff9b:1::/48"; "100::/64";
   "2001::/23"; "2001:db8::/32"; "2002::/16"; "fc00::/7"; "fe80::/10"; "ff00::/8"].
Definition blockedPrefixes : list Prefix := omap MustParsePrefix blocked_texts.

Definition isBlockedIP (addr : Addr) : bool :=
  let addr := Unmap addr in existsb (λ p, Prefix_Contains p addr) blockedPrefixes.

(** Run on the address dialed, after name resolution (the messages leave the address out). *)
Definition dialControl (address : string) : result unit :=
  match SplitHostPort address with
  | None => Err (OtherError "missing port in address")
  | Some (host, _) =>
    match ParseAddr host with
    | None => Err (OtherError "oauth: refusing non-IP dial target")
    | Some addr =>
      if isBlockedIP addr then Err (OtherError "oauth: refusing to fetch client metadata from special-use address")
      else Ok tt
    end
  end.

(** ** URLs *)

Definition fail_if (b : bool) (msg : string) (k : result unit) : result unit :=
  if b then Err (OtherError msg) else k.

Section urls.
Context `{UnicodeDB}.

Definition dot_segment (seg : string) : bool :=
  String.eqb seg "." || String.eqb seg ".." || EqualFold seg "%2e" || EqualFold seg "%2e%2e".

Definition validateCIMDURL (s : string) : result URL :=
  match url_Parse s with
  | None => Err (OtherError "invalid client_id URL")
  | Some u =>
    match
      fail_if (negb (String.eqb (u_Scheme u) "https")) "client_id URL must use https"
      (fail_if (String.eqb (u_Host u) "" || String.eqb (Hostname u) "") "client_id URL must have a host"
      (fail_if (bool_decide (u_User u ≠ None)) "client_id URL must not contain credentials"
      (fail_if (negb (String.eqb (u_Fragment u) "") || Contains s "#") "client_id URL must not contain a fragment"
      (fail_if (String.eqb (u_Path u) "" || String.eqb (u_Path u) "/") "client_id URL must contain a path"
      (fail_if (existsb dot_segment (Split "/" (EscapedPath u))) "client_id URL must not contain dot segments"
      (Ok tt)))))) with
    | Err e => Err e
    | Ok _ => Ok u
    end
  end.

Definition validateJWKSURI (s : string) : result unit :=
  match url_Parse s with
  | None => Err (OtherError "invalid jwks_uri")
  | Some u =>
    fail_if (negb (String.eqb (u_Scheme u) "https")) "jwks_uri must use https"
    (fail_if (String.eqb (Hostname u) "") "jwks_uri must have a host"
    (fail_if (bool_decide (u_User u ≠ None)) "jwks_uri must not contain credentials"
    (fail_if (negb (String.eqb (u_Fragment u) "") || Contains s "#") "jwks_uri must not contain a fragment"
    (Ok tt))))
  end.
End urls.

(** ** Documents *)

Record cimdDocument := mkCimdDocument {
  doc_ClientID : string;
  doc_ClientName : string;
  doc_RedirectURIs : list string;
  doc_TokenEndpointAuthMethod : string;
  doc_GrantTypes : list string;
  doc_ResponseTypes : list string;
  doc_SigningAlg : string;
  doc_JWKSURI : string;
  doc_JWKS : bytes;
  doc_ClientSecret : option string;
  doc_ClientSecretExpiresAt : option Z;
}.

(** [json.Unmarshal] into [cimdDocument]. *)
Class JSONCimd := { unmarshal_cimdDocument : bytes → option cimdDocument }.

Section document.
Context `{UnicodeDB} `{PublicKeys} `{JSONDocs}.

(** The keys a document declares for its authentication method: method, jwks_uri, inline
    keys and signing algorithm. *)
Definition doc_auth (d : cimdDocument) : result (string * string * list clientKey * string) :=
  let m := doc_TokenEndpointAuthMethod d in
  if String.eqb m "" || String.eqb m AuthMethodNone then Ok (AuthMethodNone, "", [], "")
  else if String.eqb m AuthMethodPrivateKeyJWT then
    let hasInline := negb (bool_decide (doc_JWKS d = [])) && negb (bool_decide (doc_JWKS d = str_bytes "null")) in
    let has_uri := negb (String.eqb (doc_JWKSURI d) "") in
    match
      (if has_uri && hasInline then Err (OtherError "client metadata must not contain both jwks_uri and jwks")
       else if has_uri then
         match validateJWKSURI (doc_JWKSURI d) with Err e => Err e | Ok _ => Ok (doc_JWKSURI d, []) end
       else if hasInline then
         match parseJWKS (doc_JWKS d) with Err e => Err e | Ok keys => Ok ("", keys) end
       else Err (OtherError "private_key_jwt requires jwks_uri or jwks in the client metadata")) with
    | Err e => Err e
    | Ok (uri, keys) =>
      let alg := doc_SigningAlg d in
      if String.eqb alg "" then Ok (AuthMethodPrivateKeyJWT, uri, keys, "")
      else if negb (hasScope AssertionSigningAlgs alg) then
        Err (OtherError ("unsupported token_endpoint_auth_signing_alg " +:+ Quote alg +:+ " (supported: "
          +:+ Join ", " AssertionSigningAlgs +:+ ")"))
      else Ok (AuthMethodPrivateKeyJWT, uri, keys, alg)
    end
  else if hasScope [AuthMethodClientSecretBasic; AuthMethodClientSecretPost; "client_secret_jwt"] m then
    Err (OtherError ("token_endpoint_auth_method " +:+ Quote m
      +:+ " relies on a shared secret, which a metadata-document client must not use"))
  else Err (OtherError ("unsupported token_endpoint_auth_method " +:+ Quote m
      +:+ " for a metadata-document client (supported: none, private_key_jwt)")).

Fixpoint bad_redirect (l : list string) : option OError :=
  match l with
  | [] => None
  | r :: l => match validateRedirectURI r with Some e => Some e | None => bad_redirect l end
  end.

Definition validateCIMDDocument (clientID : string) (d : cimdDocument) : result resolvedClient :=
  if negb (String.eqb (doc_ClientID d) clientID) then
    Err (OtherError "client metadata client_id does not match the document URL")
  else if bool_decide (is_Some (doc_ClientSecret d)) || bool_decide (is_Some (doc_ClientSecretExpiresAt d)) then
    Err (OtherError "client metadata must not contain a client secret")
  else
  match doc_auth d with
  | Err e => Err e
  | Ok (method, uri, keys, alg) =>
    if bool_decide (doc_RedirectURIs d = []) then Err (OtherError "client metadata must list redirect_uris") else
    match bad_redirect (doc_RedirectURIs d) with
    | Some e => Err (OtherError (OError_Error e))
    | None =>
      if negb (bool_decide (doc_GrantTypes d = [])) && negb (hasScope (doc_GrantTypes d) GrantTypeAuthorizationCode) then
        Err (OtherError "client metadata grant_types must include authorization_code")
      else if negb (bool_decide (doc_ResponseTypes d = [])) && negb (hasScope (doc_ResponseTypes d) "code") then
        Err (OtherError "client metadata response_types must include code")
      else
      let name := TrimSpace (doc_ClientName d) in
      let name := if 256 <? len name then slice_to name 256 else name in
      Ok (mkResolvedClient clientID name (hostOf clientID) (doc_RedirectURIs d) method "" [] true uri keys alg)
    end
  end.
End document.

(** ** The fetcher *)

(** [CIMDFetcher]'s settings (the TLS and dialer options belong to the HTTP client). *)
Record Fetcher := mkFetcher {
  F_Timeout : Duration;
  F_MaxBytes : Z;
  F_MaxJWKSBytes : Z;
  F_JWKSMinRefresh : Duration;
  F_DefaultTTL : Duration;
  F_MinTTL : Duration;
  F_MaxTTL : Duration;
}.

Definition NewCIMDFetcher : Fetcher :=
  mkFetcher (5 * Second) (5 * 1024) (64 * 1024) (30 * Second) (5 * Minute) Minute (24 * Hour).

(** The last valid [max-age] of a lower-cased Cache-Control value. *)
Definition max_age (ttl : Duration) (part : string) : Duration :=
  if HasPrefix part "max-age=" then
    match ParseInt (slice_from part 8) with
    | (n, true) => wrap_int64 (n * Second)
    | _ => ttl
    end
  else ttl.

Section fetch.
Context `{Oracle} `{UnicodeDB} `{PublicKeys} `{JSONDocs} `{JSONCimd} {S : Type}.

(** The lifetime of a cache entry; [None] when the response must not be cached. *)
Definition cacheTTL (f : Fetcher) (cc : string) : option Duration :=
  let cc := ToLower cc in
  if Contains cc "no-store" || Contains cc "no-cache" then None else
  let ttl := foldl (λ ttl part, max_age ttl (TrimSpace part)) (F_DefaultTTL f) (Split "," cc) in
  let ttl := if ttl <? F_MinTTL f then F_MinTTL f else ttl in
  let ttl := if F_MaxTTL f <? ttl then F_MaxTTL f else ttl in
  if 0 <? ttl then Some ttl else None.

Record cimdEntry := mkCimdEntry { ce_client : resolvedClient; ce_expires : Time }.
Record jwksEntry := mkJwksEntry { je_keys : list clientKey; je_fetched : Time; je_expires : Time }.
Record Caches := mkCaches { fc_cache : gmap string cimdEntry; fc_jwks : gmap string jwksEntry }.

(** Where the fetcher's caches live in the state. *)
Class FetcherState := { fs_get : S → Caches; fs_put : Caches → S → S }.

(** A response to a GET, its body not yet read. *)
Record HTTPResponse := mkHTTPResponse {
  hr_StatusCode : Z;
  hr_CacheControl : string;
  hr_Body : result bytes;
}.
(** [client.Do] of a GET with an Accept header, within the fetcher's timeout. *)
Class HTTPClient := { http_Get : string → string → M S (result HTTPResponse) }.

(** The common tail of both fetches: a 200 whose limited body is complete. *)
Definition read_response (what : string) (max : Z) (resp : HTTPResponse) : result bytes :=
  if negb (hr_StatusCode resp =? StatusOK) then
    Err (OtherError (what +:+ " fetch returned HTTP " +:+ FormatInt (hr_StatusCode resp)))
  else
  match hr_Body resp with
  | Err e => Err (Wrapped ("reading " +:+ what) e)
  | Ok body => if max <? Z.of_nat (length body)
               then Err (OtherError (what +:+ " document exceeds " +:+ FormatInt max +:+ " bytes")) else Ok body
  end.

Context `{FetcherState, HTTPClient}.

(** Store a document, dropping expired entries and then everything beyond 1000. *)
Definition cache_insert (c : gmap string cimdEntry) (at_ : Time) (clientID : string) (e : cimdEntry)
    : gmap string cimdEntry :=
  let c := if 1000 <? Z.of_nat (size c) then
             let c := filter (λ kv, After at_ (ce_expires kv.2) = false) c in
             if 1000 <? Z.of_nat (size c) then ∅ else c
           else c in
  <[clientID := e]> c.

Definition Resolve_fetch (f : Fetcher) (clientID : string) (u : URL) (at_ : Time) : M S (result resolvedClient) :=
  r ← http_Get (URL_String u) "application/json";
  match r with
  | Err e => mret (Err (Wrapped "fetching client metadata" e))
  | Ok resp =>
    match read_response "client metadata" (F_MaxBytes f) resp with
    | Err e => mret (Err e)
    | Ok body =>
      match unmarshal_cimdDocument body with
      | None => mret (Err (OtherError "client metadata is not valid JSON"))
      | Some doc =>
        match validateCIMDDocument clientID doc with
        | Err e => mret (Err e)
        | Ok rc =>
          _ ← match cacheTTL f (hr_CacheControl resp) with
              | None => mret tt
              | Some ttl => modify (λ s, fs_put (mkCaches
                  (cache_insert (fc_cache (fs_get s)) at_ clientID (mkCimdEntry rc (Add at_ ttl)))
                  (fc_jwks (fs_get s))) s)
              end;
          mret (Ok rc)
        end
      end
    end
  end.

Definition Resolve (f : Fetcher) (clientID : string) : M S (result resolvedClient) :=
  match validateCIMDURL clientID with
  | Err e => mret (Err e)
  | Ok u =>
    at_ ← now;
    s ← get;
    match fc_cache (fs_get s) !! clientID with
    | Some e => if Before at_ (ce_expires e) then mret (Ok (ce_client e)) else Resolve_fetch f clientID u at_
    | None => Resolve_fetch f clientID u at_
    end
  end.

Definition jwks_fetch (f : Fetcher) (uri : string) (at_ : Time) : M S (result (list clientKey)) :=
  match validateJWKSURI uri with
  | Err e => mret (Err e)
  | Ok _ =>
    r ← http_Get uri "application/json, application/jwk-set+json";
    match r with
    | Err e => mret (Err (Wrapped "fetching jwks_uri" e))
    | Ok resp =>
      let max := if 0 <? F_MaxJWKSBytes f then F_MaxJWKSBytes f else 64 * 1024 in
      match read_response "jwks_uri" max resp with
      | Err e => mret (Err e)
      | Ok body =>
        match parseJWKS body with
        | Err e => mret (Err e)
        | Ok keys =>
          _ ← match cacheTTL f (hr_CacheControl resp) with
              | None => mret tt
              | Some ttl => modify (λ s,
                  let c := fc_jwks (fs_get s) in
                  let c := if 1000 <? Z.of_nat (size c) then ∅ else c in
                  fs_put (mkCaches (fc_cache (fs_get s)) (<[uri := mkJwksEntry keys at_ (Add at_ ttl)]> c)) s)
              end;
          mret (Ok keys)
        end
      end
    end
  end.

(** A cached key set while fresh; a refresh is honoured once per minimum interval. *)
Definition jwks (f : Fetcher) (uri : string) (refresh : bool) : M S (result (list clientKey)) :=
  at_ ← now;
  let minRefresh := if 0 <? F_JWKSMinRefresh f then F_JWKSMinRefresh f else 30 * Second in
  s ← get;
  match fc_jwks (fs_get s) !! uri with
  | Some e =>
    if Before at_ (je_expires e) && (negb refresh || (Sub at_ (je_fetched e) <? minRefresh))
    then mret (Ok (je_keys e)) else jwks_fetch f uri at_
  | None => jwks_fetch f uri at_
  end.

(** The fetcher behind the server's interface. *)
Definition fetcher_client (f : Fetcher) : CIMDClient S := mkCIMDClient (Resolve f) (jwks f).
End fetch.

(** * Correctness of the metadata fetcher

    Which addresses a fetch reaches, how long a response is cached whatever it says, and
    that the fetcher keeps the contract the server relies on. *)

(** ** Special-use addresses *)

(** The blocked ranges, first to last address. *)
Definition v4_ranges : list (Z * Z) :=
  [(0x00000000, 0x00FFFFFF); (0x0A000000, 0x0AFFFFFF); (0x64400000, 0x647FFFFF); (0x7F000000, 0x7FFFFFFF);
   (0xA9FE0000, 0xA9FEFFFF); (0xAC100000, 0xAC1FFFFF); (0xC0000000, 0xC00000FF); (0xC0000200, 0xC00002FF);
   (0xC0586300, 0xC05863FF); (0xC0A80000, 0xC0A8FFFF); (0xC6120000, 0xC613FFFF); (0xC6336400, 0xC63364FF);
   (0xCB007100, 0xCB0071FF); (0xE0000000, 0xEFFFFFFF); (0xF0000000, 0xFFFFFFFF)].
Definition v6_ranges : list (Z * Z) :=
  [(0, 0); (1, 1); (0xFFFF00000000, 0xFFFFFFFFFFFF);
   (0x0064FF9B * 2 ^ 96, 0x0064FF9B * 2 ^ 96 + 0xFFFFFFFF);
   (0x0064FF9B0001 * 2 ^ 80, 0x0064FF9B0002 * 2 ^ 80 - 1); (0x01 * 2 ^ 120, 0x01 * 2 ^ 120 + 2 ^ 64 - 1);
   (0x2001 * 2 ^ 112, 0x20010200 * 2 ^ 96 - 1); (0x20010DB8 * 2 ^ 96, 0x20010DB9 * 2 ^ 96 - 1);
   (0x2002 * 2 ^ 112, 0x2003 * 2 ^ 112 - 1); (0xFC * 2 ^ 120, 0xFE * 2 ^ 120 - 1);
   (0xFE80 * 2 ^ 112, 0xFEC0 * 2 ^ 112 - 1); (0xFF * 2 ^ 120, 2 ^ 128 - 1)].
Definition in_ranges (l : list (Z * Z)) (z : Z) : bool := existsb (λ r, (r.1 <=? z) && (z <=? r.2)) l.

(** A prefix of [w]-bit addresses as a range. *)
Definition prefix_range (w n bits : Z) : Z * Z :=
  let size := 2 ^ (w - bits) in (n / size * size, n / size * size + size - 1).

Lemma same_prefix size n z : 0 < size → (z / size =? n / size) = ((n / size * size <=? z) && (z <=? n / size * size + size - 1)).
Proof.
  intros Hs. apply eq_true_iff_eq. rewrite Z.eqb_eq, andb_true_iff, !Z.leb_le.
  pose proof (Z.div_mod z size ltac:(lia)) as Hz. pose proof (Z.mod_pos_bound z size Hs). split.
  - intros <-. lia.
  - intros [Hl Hu]. symmetry. apply (Z.div_unique_pos _ _ _ (z - n / size * size)); lia.
Qed.

(** The range of every prefix of a list, for each family. *)
Definition ranges4 (l : list Prefix) : list (Z * Z) :=
  omap (λ p, match p_addr p with Addr4 n => Some (prefix_range 32 n (p_bits p)) | _ => None end) l.
Definition ranges6 (l : list Prefix) : list (Z * Z) :=
  omap (λ p, match p_addr p with Addr6 n _ => Some (prefix_range 128 n (p_bits p)) | _ => None end) l.
Definition bits_ok (p : Prefix) : bool :=
  match p_addr p with Addr4 _ => p_bits p <=? 32 | Addr6 _ _ => p_bits p <=? 128 end.

Lemma existsb_omap {A B} (f : A → option B) (g : B → bool) (h : A → bool) l :
  (∀ a, a ∈ l → h a = match f a with Some b => g b | None => false end) → existsb h l = existsb g (omap f l).
Proof.
  induction l as [|a l IH]; intros Hh; [done|]. cbn. rewrite (Hh a) by left.
  rewrite IH by (intros b Hb; apply Hh; by right). destruct (f a); done.
Qed.

Lemma contains4 l z : forallb bits_ok l = true →
  existsb (λ p, Prefix_Contains p (Addr4 z)) l = in_ranges (ranges4 l) z.
Proof.
  intros Hb. apply existsb_omap. intros p Hp. rewrite forallb_forall in Hb. specialize (Hb p).
  rewrite <-list_elem_of_In in Hb. specialize (Hb Hp). unfold bits_ok in Hb. unfold Prefix_Contains.
  destruct (p_addr p); [|done]. apply Z.leb_le in Hb. apply same_prefix. apply Z.pow_pos_nonneg; lia.
Qed.
Lemma contains6 l z : forallb bits_ok l = true →
  existsb (λ p, Prefix_Contains p (Addr6 z "")) l = in_ranges (ranges6 l) z.
Proof.
  intros Hb. apply existsb_omap. intros p Hp. rewrite forallb_forall in Hb. specialize (Hb p).
  rewrite <-list_elem_of_In in Hb. specialize (Hb Hp). unfold bits_ok in Hb. unfold Prefix_Contains.
  destruct (p_addr p); [done|]. apply Z.leb_le in Hb. cbn [String.eqb andb]. apply same_prefix. apply Z.pow_pos_nonneg; lia.
Qed.
Lemma contains_zoned l z zone : zone ≠ "" → existsb (λ p, Prefix_Contains p (Addr6 z zone)) l = false.
Proof.
  intros Hz. induction l as [|p l IH]; [done|]. cbn. rewrite IH, orb_false_r. unfold Prefix_Contains.
  destruct (p_addr p); [done|]. by rewrite (proj2 (String.eqb_neq _ _) Hz).
Qed.

(** C26: special-use addresses. The address check refuses an IPv4 address exactly if it lies
    in one of the listed ranges, an IPv4-mapped IPv6 address exactly if its IPv4 address is
    refused, and any other IPv6 address without a zone exactly if it lies in one of the
    listed IPv6 ranges.  An IPv6 address with a zone is never refused, whatever its value:
    a link-local address passes with its zone. *)
Theorem isBlockedIP_ranges z zone :
  isBlockedIP (Addr4 z) = in_ranges v4_ranges z
  ∧ (Is4In6 z = true → isBlockedIP (Addr6 z zone) = in_ranges v4_ranges (z mod 2 ^ 32))
  ∧ (Is4In6 z = false → isBlockedIP (Addr6 z "") = in_ranges v6_ranges z)
  ∧ (Is4In6 z = false → zone ≠ "" → isBlockedIP (Addr6 z zone) = false)
  ∧ is_ok (dialControl "[fe80::1]:443") = false ∧ is_ok (dialControl "[fe80::1%eth0]:443") = true.
Proof.
  assert (forallb bits_ok blockedPrefixes = true) as Hb by (vm_compute; reflexivity).
  assert (ranges4 blockedPrefixes = v4_ranges) as H4 by (vm_compute; reflexivity).
  assert (ranges6 blockedPrefixes = v6_ranges) as H6 by (vm_compute; reflexivity).
  unfold isBlockedIP. cbn [Unmap]. split_and!.
  - rewrite contains4 by done. by rewrite H4.
  - intros ->. rewrite contains4 by done. by rewrite H4.
  - intros ->. rewrite contains6 by done. by rewrite H6.
  - intros -> Hz. by apply contains_zoned.
  - vm_compute. reflexivity.
  - vm_compute. reflexivity.
Qed.

(** ** Documents *)

Section facts.
Context `{Oracle} `{UnicodeDB} `{PublicKeys} `{JSONDocs} `{JSONCimd} {S : Type} `{StoreView S}.
Context `{!FetcherState (S := S), !HTTPClient (S := S)}.
Implicit Types w : World S.

Lemma parseJWKS_nonempty data keys : parseJWKS data = Ok keys → keys ≠ [].
Proof.
  unfold parseJWKS. destruct (unmarshal_JWKS data) as [l|]; [|discriminate].
  destruct (usable_keys l) as [[|k ks]|]; by intros [= <-].
Qed.

(** Destruct the branches of a [result] program in a hypothesis. *)
Ltac ok_cases Hd :=
  repeat match type of Hd with
  | context [if ?b then _ else _] => destruct b eqn:?
  | context [match ?r with Ok _ => _ | Err _ => _ end] => destruct r eqn:?
  end; try discriminate Hd.

Lemma doc_auth_ok d m uri keys alg : doc_auth d = Ok (m, uri, keys, alg) →
  (m = AuthMethodNone ∨ m = AuthMethodPrivateKeyJWT ∧ (uri ≠ "" ∨ keys ≠ []))
  ∧ (alg = "" ∨ alg ∈ AssertionSigningAlgs).
Proof.
  unfold doc_auth. destruct (_ || _); [intros [= <- <- <- <-]; auto|].
  destruct (String.eqb (doc_TokenEndpointAuthMethod d) AuthMethodPrivateKeyJWT); [|destruct (hasScope _ _); discriminate].
  set (inline := negb _ && negb _). destruct (String.eqb_spec (doc_JWKSURI d) "") as [Hu|Hu]; cbn [negb andb].
  - destruct inline; [|discriminate]. destruct (parseJWKS (doc_JWKS d)) as [ks|] eqn:Hk; [|discriminate].
    apply parseJWKS_nonempty in Hk. destruct (String.eqb (doc_SigningAlg d) ""); [intros [= <- <- <- <-]; auto|].
    destruct (hasScope AssertionSigningAlgs _) eqn:Ha; [|discriminate]. apply hasScope_spec in Ha. intros [= <- <- <- <-]; auto.
  - destruct inline; [discriminate|]. destruct (validateJWKSURI (doc_JWKSURI d)); [|discriminate].
    destruct (String.eqb (doc_SigningAlg d) ""); [intros [= <- <- <- <-]; auto|].
    destruct (hasScope AssertionSigningAlgs _) eqn:Ha; [|discriminate]. apply hasScope_spec in Ha. intros [= <- <- <- <-]; auto.
Qed.

Lemma bad_redirect_None l : bad_redirect l = None ↔ Forall (λ u, validateRedirectURI u = None) l.
Proof.
  induction l as [|u l IH]; cbn [bad_redirect]; [done|]. rewrite Forall_cons, <-IH.
  destruct (validateRedirectURI u); naive_solver.
Qed.

Lemma validateCIMDDocument_ok id d rc : validateCIMDDocument id d = Ok rc → cimd_ok id rc.
Proof.
  unfold validateCIMDDocument. case_if Hid; [discriminate|]. destruct (_ || _); [discriminate|].
  destruct (doc_auth d) as [[[[m uri] keys] alg]|e] eqn:Ha; [|discriminate]. apply doc_auth_ok in Ha as [Hm Halg].
  case_bool_decide as Hr; [discriminate|]. destruct (bad_redirect _) eqn:Hb; [discriminate|].
  apply bad_redirect_None in Hb. destruct (_ && _); [discriminate|]. destruct (_ && _); [discriminate|].
  intros [= <-]. by split.
Qed.

(** ** Caching *)

Lemma clamped lo hi t : lo <= hi →
  let t := if t <? lo then lo else t in lo <= (if hi <? t then hi else t) <= hi.
Proof.
  intros Hle t2. assert (lo <= t2) by (unfold t2; destruct (Z.ltb_spec t lo); lia).
  destruct (Z.ltb_spec hi t2); lia.
Qed.

(** A cache of clients: each valid for its id. *)
Definition caches_ok (c : Caches) : Prop := map_Forall (λ id e, cimd_ok id (ce_client e)) (fc_cache c).

(** What the fetcher relies on: the store's invariant keeps the caches valid, writing valid
    caches and an HTTP GET leave the rest of the store alone. *)
Class FetcherLaws : Prop := {
  caches_inv s : v_inv s → caches_ok (fs_get s);
  put_same w c : v_inv (w_store w) → caches_ok c → same w (set_store (fs_put c (w_store w)) w);
  Get_same w url accept : v_inv (w_store w) → wp (http_Get url accept) (λ _ w', same w w') w;
}.

Context `{!FetcherLaws} (f : Fetcher).

Lemma cache_insert_ok c at_ id e : map_Forall (λ id e, cimd_ok id (ce_client e)) c → cimd_ok id (ce_client e) →
  map_Forall (λ id e, cimd_ok id (ce_client e)) (cache_insert c at_ id e).
Proof.
  intros Hc He. unfold cache_insert. apply map_Forall_insert_2; [done|].
  destruct (1000 <? _); [|done]. destruct (1000 <? _); [apply map_Forall_empty|].
  intros k x [Hk _]%map_lookup_filter_Some. by apply Hc.
Qed.

Lemma wp_Resolve_fetch id u at_ w0 w :
  same w0 w → wp (Resolve_fetch f id u at_) (λ r w', same w0 w' ∧ ∀ cl, r = Ok cl → cimd_ok id cl) w.
Proof.
  intros Hs. unfold Resolve_fetch. wp_steps. wp_call Get_same; [exact (same_inv _ _ Hs)|]. intros r w1 Hs1.
  pose proof (same_trans _ _ _ Hs Hs1) as Hs2.
  destruct r as [resp|e]; [|wp_steps; by split]. destruct (read_response _ _ _) as [body|e]; [|wp_steps; by split].
  destruct (unmarshal_cimdDocument body) as [doc|]; [|wp_steps; by split].
  destruct (validateCIMDDocument id doc) as [rc|e] eqn:Hd; [|wp_steps; by split].
  apply validateCIMDDocument_ok in Hd. destruct (cacheTTL f _) as [ttl|]; wp_steps.
  - split; [|by intros cl [= <-]]. eapply same_trans; [exact Hs2|]. apply put_same; [exact (same_inv _ _ Hs2)|].
    unfold caches_ok. cbn [fc_cache]. apply cache_insert_ok; [apply caches_inv; exact (same_inv _ _ Hs2)|done].
  - split; [done|]. by intros cl [= <-].
Qed.

Lemma wp_jwks_fetch uri at_ w0 w : same w0 w → wp (jwks_fetch f uri at_) (λ _ w', same w0 w') w.
Proof.
  intros Hs. unfold jwks_fetch. destruct (validateJWKSURI uri); [|wp_steps; done].
  wp_steps. wp_call Get_same; [exact (same_inv _ _ Hs)|]. intros r w1 Hs1.
  pose proof (same_trans _ _ _ Hs Hs1) as Hs2.
  destruct r as [resp|e]; [|wp_steps; done]. destruct (read_response _ _ _) as [body|e]; [|wp_steps; done].
  destruct (parseJWKS body) as [keys|e]; [|wp_steps; done].
  destruct (cacheTTL f _) as [ttl|]; wp_steps; [|done].
  eapply same_trans; [exact Hs2|]. apply put_same; [exact (same_inv _ _ Hs2)|].
  apply (caches_inv _ (same_inv _ _ Hs2)).
Qed.
End facts.

(** C27: the metadata fetcher implements the server's contract. Resolving a client id and
    fetching a key set always end with a result, leave the store as it was but for the
    fetcher's own caches, and a resolved client, fetched or cached, is well formed: its id
    is the document URL, it has no shared secret, its redirect URIs are valid and its keys
    are there when it uses them. *)
Theorem Fetcher_implements `{Oracle} `{UnicodeDB} `{PublicKeys} `{JSONDocs} `{JSONCimd} {S} `{StoreView S}
    `{!FetcherState (S := S), !HTTPClient (S := S), !FetcherLaws} (f : Fetcher) : CIMDSpec (fetcher_client (S := S) f).
Proof.
  split; cbn.
  - intros w id Hi. unfold Resolve. destruct (validateCIMDURL id); [|wp_steps; by split; [apply same_refl|]].
    wp_steps. pose proof (same_tick w Hi) as Ht. destruct (fc_cache _ !! id) as [e|] eqn:He; [|by apply wp_Resolve_fetch].
    destruct (Before _ _); [|by apply wp_Resolve_fetch]. wp_steps. split; [done|]. intros cl [= <-].
    by apply (caches_inv _ Hi).
  - intros w uri b Hi. unfold jwks. wp_steps. pose proof (same_tick w Hi) as Ht.
    destruct (fc_jwks _ !! uri) as [e|]; [|by apply wp_jwks_fetch].
    destruct (_ && _); [wp_steps; done|by apply wp_jwks_fetch].
Qed.

(** Cache lifetimes. Whatever a response's Cache-Control header says, also when its
    max-age overflows, an entry is kept at least the fetcher's minimum and at most its
    maximum; a response that must not be stored or needs revalidation is not kept. *)
Theorem cacheTTL_bounds `{UnicodeDB} f cc :
  F_MinTTL f <= F_MaxTTL f →
  match cacheTTL f cc with
  | Some ttl => 0 < ttl ∧ F_MinTTL f <= ttl <= F_MaxTTL f
      ∧ Contains (ToLower cc) "no-store" = false ∧ Contains (ToLower cc) "no-cache" = false
  | None => Contains (ToLower cc) "no-store" = true ∨ Contains (ToLower cc) "no-cache" = true ∨ F_MinTTL f <= 0
  end.
Proof.
  intros Hle. unfold cacheTTL.
  destruct (Contains (ToLower cc) "no-store"), (Contains (ToLower cc) "no-cache"); cbn [orb]; auto.
  pose proof (clamped _ _ (foldl (λ ttl part, max_age ttl (TrimSpace part)) (F_DefaultTTL f) (Split "," (ToLower cc))) Hle) as Hc.
  cbv zeta in Hc |- *. set (ttl := if F_MaxTTL f <? _ then _ else _) in *.
  destruct (Z.ltb_spec 0 ttl); [auto|]. right. right. lia.
Qed.
