(* ===== verification/OAuthRegister.v ===== *)
(** * Dynamic client registration

    [oauth/register.go]: validation of a registration request, the stored client, and
    the handler with its rate limiter. *)

From S2P Require Import Prelude GoStrings GoBytes GoCrypto GoNet GoUrl Errors World Entities OAuthTypes Stores.
From S2P Require Import UserManager Jwt GoHttp OAuthUtil Signer Jwks TokenService OAuthServer.

Local Open Scope Z_scope.

Record ClientMetadata := mkClientMetadata {
  CM_RedirectURIs : list string;
  CM_TokenEndpointAuthMethod : string;
  CM_GrantTypes : list string;
  CM_ResponseTypes : list string;
  CM_ClientName : string;
}.

Record ClientRegistration := mkClientRegistration {
  Reg_ClientID : string;
  Reg_ClientSecret : string;
  Reg_ClientIDIssuedAt : Z;
  Reg_ClientSecretExpiresAt : option Z;
  Reg_RedirectURIs : list string;
  Reg_TokenEndpointAuthMethod : string;
  Reg_GrantTypes : list string;
  Reg_ResponseTypes : list string;
  Reg_ClientName : string;
}.

(** [json.NewDecoder(body).Decode(&m)]. *)
Class JSONMetadata := { decode_ClientMetadata : bytes → option ClientMetadata }.

Definition Registration_json (r : ClientRegistration) : json :=
  let opt k v := if String.eqb v "" then [] else [(k, JStr v)] in
  JObj ([("client_id", JStr (Reg_ClientID r))] ++ opt "client_secret" (Reg_ClientSecret r)
    ++ [("client_id_issued_at", JNum (Reg_ClientIDIssuedAt r))]
    ++ match Reg_ClientSecretExpiresAt r with Some z => [("client_secret_expires_at", JNum z)] | None => [] end
    ++ [("redirect_uris", JStrs (Reg_RedirectURIs r));
        ("token_endpoint_auth_method", JStr (Reg_TokenEndpointAuthMethod r));
        ("grant_types", JStrs (Reg_GrantTypes r)); ("response_types", JStrs (Reg_ResponseTypes r))]
    ++ opt "client_name" (Reg_ClientName r)).

Section register.
Context `{Oracle} `{UnicodeDB} `{PublicKeys} {S : Type} `{UserStore S} `{OAuthStore S}.
Context (s : Server S).

Definition bad (d : string) : OError := oerr StatusBadRequest "invalid_client_metadata" d.

Fixpoint validate_redirects (l : list string) : option OError :=
  match l with
  | [] => None
  | ru :: l => match validateRedirectURI ru with Some e => Some e | None => validate_redirects l end
  end.

(** The request with its defaults, or the first error. *)
Definition check_registration (m : ClientMetadata) : oresult (string * list string * list string) :=
  if bool_decide (CM_RedirectURIs m = []) then inr (errInvalidRedirect "at least one redirect_uri is required") else
  if 20 <? Z.of_nat (length (CM_RedirectURIs m)) then inr (errInvalidRedirect "too many redirect_uris") else
  match validate_redirects (CM_RedirectURIs m) with
  | Some e => inr e
  | None =>
    let method := if String.eqb (CM_TokenEndpointAuthMethod m) "" then AuthMethodClientSecretBasic
                  else CM_TokenEndpointAuthMethod m in
    if negb (hasScope [AuthMethodNone; AuthMethodClientSecretBasic; AuthMethodClientSecretPost] method)
    then inr (bad ("unsupported token_endpoint_auth_method: " +:+ method)) else
    let grants := if bool_decide (CM_GrantTypes m = []) then [GrantTypeAuthorizationCode; GrantTypeRefreshToken]
                  else CM_GrantTypes m in
    match first_bad (λ g, String.eqb g GrantTypeAuthorizationCode || String.eqb g GrantTypeRefreshToken) grants with
    | Some g => inr (bad ("unsupported grant_type: " +:+ g))
    | None =>
      if negb (hasScope grants GrantTypeAuthorizationCode)
      then inr (bad "grant_types must include authorization_code") else
      let resp := if bool_decide (CM_ResponseTypes m = []) then ["code"] else CM_ResponseTypes m in
      match first_bad (λ rt, String.eqb rt "code") resp with
      | Some rt => inr (bad ("unsupported response_type: " +:+ rt))
      | None => inl (method, grants, resp)
      end
    end
  end.

Definition register (m : ClientMetadata) : M S (oresult ClientRegistration) :=
  match check_registration m with
  | inr e => mret (inr e)
  | inl (method, grants, resp) =>
    let name := TrimSpace (CM_ClientName m) in
    let name := if 256 <? len name then slice_to name 256 else name in
    at_ ← now;
    id ← newID;
    let out secret never := mkClientRegistration id secret (Unix at_) never (CM_RedirectURIs m) method grants resp name in
    let row hash := mkClient id hash name (CM_RedirectURIs m) method grants at_ None in
    '(c, out) ← (if negb (String.eqb method AuthMethodNone) then
                   secret ← randomSecret 32;
                   mret (row (hashSecret secret), out secret (Some 0))
                 else mret (row "", out "" None));
    r ← os_CreateClient c;
    mret match r with
         | Err _ => inr (errServer "could not register client")
         | Ok _ => inl out
         end
  end.

(** [RegisterClient]: the same, for the application. *)
Definition RegisterClient (m : ClientMetadata) : M S (oresult ClientRegistration) := register m.

(** The handler, with the limiter it may advance. *)
Definition RegisterHandler `{JSONMetadata} (l : option ipLimiter) (r : Request)
    : M S (Response * option ipLimiter) :=
  match cors ∅ r with
  | (_, Some resp) => mret (resp, l)
  | (h, None) =>
    let h := noStore h in
    if negb (String.eqb (req_Method r) "POST") then
      mret (writeError h (oerr StatusMethodNotAllowed "invalid_request" "use POST"), l)
    else
    '(l, allowed) ← match l with
                    | None => mret (None, true)
                    | Some lim =>
                      at_ ← now;
                      let '(lim, ok) := allow lim at_ (sv_ClientIP s r) in mret (Some lim, ok)
                    end;
    if negb allowed then
      mret (writeError (<["Retry-After" := "60"]> h)
        (oerr StatusTooManyRequests "invalid_request" "too many registrations; retry later"), l)
    else if negb (String.eqb (req_MediaType r) "application/json") then
      mret (writeError h (oerr StatusBadRequest "invalid_client_metadata" "content type must be application/json"), l)
    else
    match decode_ClientMetadata (req_Body r) with
    | None => mret (writeError h (oerr StatusBadRequest "invalid_client_metadata" "malformed JSON"), l)
    | Some m =>
      e ← register m;
      mret (match e with
            | inr e => writeError h e
            | inl reg => writeJSON h StatusCreated (Registration_json reg)
            end, l)
    end
  end.
End register.
