(* ===== verification/OAuthToken.v ===== *)
(** * The token endpoint

    [oauth/token.go]: client authentication with a secret, the authorization-code and
    refresh-token grants, access tokens for a resource and their validation, and the
    token and revocation handlers.  Client assertions are an argument: they are
    [oauth/client_assertion.go]'s. *)

From S2P Require Import Prelude GoStrings GoBytes GoCrypto GoNet GoUrl Errors World Entities OAuthTypes Stores.
From S2P Require Import UserManager Jwt GoHttp OAuthUtil Signer Jwks TokenService OAuthServer.

Local Open Scope Z_scope.

Definition ClaimClientID : string := "client_id".
Definition ClaimScope : string := "scope".
Definition ClaimGrantID : string := "gid".

Record TokenResponse := mkTokenResponse {
  TR_AccessToken : string;
  TR_TokenType : string;
  TR_ExpiresIn : Z;
  TR_RefreshToken : string;
  TR_Scope : string;
}.

Definition TokenResponse_json (t : TokenResponse) : json :=
  let opt k v := if String.eqb v "" then [] else [(k, JStr v)] in
  JObj ([("access_token", JStr (TR_AccessToken t)); ("token_type", JStr (TR_TokenType t));
    ("expires_in", JNum (TR_ExpiresIn t))] ++ opt "refresh_token" (TR_RefreshToken t)
    ++ opt "scope" (TR_Scope t)).

Section token.
Context `{Oracle} `{UnicodeDB} `{PublicKeys} {S : Type} `{UserStore S} `{OAuthStore S}.
Context (s : Server S).

(** [s.authenticateAssertion(ctx, endpoint, form)]. *)
Variable authenticateAssertion : string → Values → M S (oresult resolvedClient).

(** ** Client authentication *)

(** The credentials presented: [id], [secret] and whether HTTP Basic was used. *)
Definition credentials (r : Request) (f : Values) : oresult (string * string * bool) * bool :=
  let formSecret := Values_Get f "client_secret" in
  match BasicAuth r with
  | Some (basicID, basicSecret) =>
    (if negb (String.eqb formSecret "") then inr (errInvalidRequest "use only one client authentication method")
     else match QueryUnescape basicID, QueryUnescape basicSecret with
          | Some id, Some secret =>
            let fid := Values_Get f "client_id" in
            if negb (String.eqb fid "") && negb (String.eqb fid id)
            then inr (errInvalidClient "client_id mismatch") else inl (id, secret, true)
          | _, _ => inr (errInvalidClient "malformed client credentials")
          end, true)
  | None => (inl (Values_Get f "client_id", formSecret, false), false)
  end.

(** The check of a resolved client against the secret presented. *)
Definition check_secret (client : resolvedClient) (secret : string) : oresult resolvedClient :=
  if String.eqb (rc_AuthMethod client) AuthMethodPrivateKeyJWT then
    inr (errInvalidClient "client must authenticate with private_key_jwt (client_assertion)")
  else if rc_public client then
    if negb (String.eqb secret "") then inr (errInvalidClient "public client must not present a secret")
    else inl client
  else if String.eqb secret "" || negb (constEq (hashSecret secret) (rc_SecretHash client)) then
    inr (errInvalidClient "invalid client credentials")
  else inl client.

Definition authenticateClient (r : Request) (f : Values) (endpoint : string)
    : M S (oresult resolvedClient * bool) :=
  let basic := bool_decide (is_Some (BasicAuth r)) in
  if Values_Has f "client_assertion" || Values_Has f "client_assertion_type" then
    if basic || negb (String.eqb (Values_Get f "client_secret") "") then
      mret (inr (errInvalidRequest "use only one client authentication method"), basic)
    else
    c ← authenticateAssertion endpoint f;
    mret (c, false)
  else
  match credentials r f with
  | (inr e, basic) => mret (inr e, basic)
  | (inl (id, secret, basic), _) =>
    if String.eqb id "" then mret (inr (errInvalidClient "client authentication required"), basic) else
    c ← resolveClient s id;
    match c with
    | Err e => mret (inr (errInvalidClient (Error e)), basic)
    | Ok client => mret (check_secret client secret, basic)
    end
  end.

Definition clientAllows (c : resolvedClient) (grantType : string) : bool :=
  if bool_decide (rc_GrantTypes c = []) then
    String.eqb grantType GrantTypeAuthorizationCode || String.eqb grantType GrantTypeRefreshToken
  else hasScope (rc_GrantTypes c) grantType.

Definition issuesRefresh (c : resolvedClient) (scopes : list string) : bool :=
  if negb (clientAllows c GrantTypeRefreshToken) then false else
  if sv_RequireOfflineAccess s then hasScope scopes ScopeOfflineAccess else true.

(** ** Access tokens *)

Definition resource_claims (u : User) (g : Grant) (scopes : list string) (issued : Time) (jti : string)
    (roles : result (list string)) : MapClaims :=
  let exp := Add issued (sv_AccessTokenTTL s) in
  let claims : MapClaims := list_to_map [
    ("iss", JStr (sv_issuer s)); ("sub", JStr (ID u)); ("aud", JStr (Grant_Resource g));
    ("iat", JNum (Unix issued)); ("nbf", JNum (Unix issued)); ("exp", JNum (Unix exp));
    ("jti", JStr jti); (ClaimClientID, JStr (Grant_ClientID g)); (ClaimScope, JStr (joinScopes scopes));
    (ClaimGrantID, JStr (Grant_ID g)); (ClaimSecurityStamp, JStr (SecurityStamp u))] in
  match roles with
  | Ok (_ :: _ as roles) => <[ClaimRole := JArr (JStr <$> roles)]> claims
  | _ => claims
  end.

Definition resource_token (u : User) (g : Grant) (scopes : list string) (issued : Time) (jti : string)
    (roles : result (list string)) : Token :=
  let tok := set_Header "typ" (JStr TokenTypeAccessJWT)
    (NewWithClaims (sg_Alg (sv_signer s)) (resource_claims u g scopes issued jti roles)) in
  let kid := (sg_SignKey (sv_signer s)).1 in
  if negb (String.eqb kid "") then set_Header "kid" (JStr kid) tok else tok.

Definition signAccessToken (u : User) (g : Grant) (scopes : list string) : M S (result (string * Time)) :=
  issued ← now;
  jti ← newID;
  roles ← GetRoles u;
  let exp := Add issued (sv_AccessTokenTTL s) in
  mret match SignedString (resource_token u g scopes issued jti roles) (sg_SignKey (sv_signer s)).2 with
       | Err e => Err e
       | Ok signed => Ok (signed, exp)
       end.

Definition tokenResponse (u : User) (g : Grant) (scopes : list string) (refresh : string)
    : M S (oresult TokenResponse) :=
  r ← signAccessToken u g scopes;
  match r with
  | Err _ => mret (inr (errServer "could not sign access token"))
  | Ok (at_, exp) =>
    t ← now;
    mret (inl (mkTokenResponse at_ "Bearer" (Seconds (Sub exp t)) refresh (joinScopes scopes)))
  end.

(** ** The authorization-code grant *)

(** A user the grants may act for. *)
Definition available_user (id : string) : M S (option User) :=
  r ← FindByID id;
  match r with
  | Ok (Some u) => locked ← IsLockedOut u; mret (if locked : bool then None else Some u)
  | _ => mret None
  end.

(** A resource parameter that is not the expected one. *)
Definition resource_mismatch (f : Values) (resource : string) : bool :=
  negb (String.eqb (Values_Get f "resource") "")
  && negb (bool_decide (canonicalResource (Values_Get f "resource") = Some resource)).

(** The checks of [exchangeCode] on the code found, in order. *)
Definition check_code (client : resolvedClient) (f : Values) (code : Code) (at_ : Time) : option OError :=
  if After at_ (Code_ExpiresAt code) then Some (errInvalidGrant "authorization code expired")
  else if negb (String.eqb (Code_ClientID code) (rc_ID client)) then
    Some (errInvalidGrant "authorization code was issued to another client")
  else if negb (String.eqb (Values_Get f "redirect_uri") "")
          && negb (String.eqb (Values_Get f "redirect_uri") (Code_RedirectURI code)) then
    Some (errInvalidGrant "redirect_uri does not match the authorization request")
  else if negb (verifyS256 (Values_Get f "code_verifier") (CodeChallenge code)) then
    Some (errInvalidGrant "PKCE verification failed")
  else if resource_mismatch f (Code_Resource code) then
    Some (errInvalidTarget "resource does not match the authorization request")
  else None.

Definition exchangeCode (client : resolvedClient) (f : Values) : M S (oresult TokenResponse) :=
  if negb (clientAllows client GrantTypeAuthorizationCode) then
    mret (inr (oerr StatusBadRequest "unauthorized_client" "client may not use this grant"))
  else
  let raw := Values_Get f "code" in
  if String.eqb raw "" then mret (inr (errInvalidRequest "code is required")) else
  let hash := hashSecret raw in
  r ← os_GetCode hash;
  match r with
  | Err e => mret (inr (if ErrorsIs e ErrNotFound then errInvalidGrant "invalid authorization code"
                        else errServer "code lookup failed"))
  | Ok code =>
    at_ ← now;
    if bool_decide (UsedAt code ≠ None) then
      _ ← (if negb (String.eqb (Code_GrantID code) "") then os_DeleteGrant (Code_GrantID code) else mret (Ok tt));
      mret (inr (errInvalidGrant "authorization code already used"))
    else
    match check_code client f code at_ with
    | Some e => mret (inr e)
    | None =>
    ou ← available_user (Code_UserID code);
    match ou with
    | None => mret (inr (errInvalidGrant "the authorizing user is not available"))
    | Some u =>
    grantID ← newID;
    won ← os_MarkCodeUsed hash grantID at_;
    match won with
    | Err _ => mret (inr (errServer "could not redeem code"))
    | Ok false =>
      c ← os_GetCode hash;
      _ ← match c with
          | Ok c => if negb (String.eqb (Code_GrantID c) "") then os_DeleteGrant (Code_GrantID c) else mret (Ok tt)
          | Err _ => mret (Ok tt)
          end;
      mret (inr (errInvalidGrant "authorization code already used"))
    | Ok true =>
      let scopes := parseScopes (Code_Scopes code) in
      let g hash := mkGrant grantID (ID u) (rc_ID client) (Code_Scopes code) (Code_Resource code) hash ""
        (SecurityStamp u) (Add at_ (sv_RefreshTokenTTL s)) at_ None in
      '(g, refresh) ← (if issuesRefresh client scopes then
                         secret ← randomSecret 32;
                         mret (g (hashSecret secret), grantID +:+ "." +:+ secret)
                       else mret (g "", ""));
      r ← os_CreateGrant g;
      match r with
      | Err _ => mret (inr (errServer "could not create grant"))
      | Ok _ =>
        _ ← (if rc_CIMD client then mret (Ok tt) else os_TouchClient (rc_ID client) at_);
        tokenResponse u g scopes refresh
      end
    end
    end
    end
  end.

(** ** The refresh-token grant *)

(** A replayed secret inside the grace window after its rotation. *)
Definition in_grace (g : Grant) (at_ : Time) : bool :=
  (0 <? sv_RefreshReuseGrace s)
  && match Grant_LastUsedAt g with
     | Some t => Sub at_ t <=? sv_RefreshReuseGrace s
     | None => false
     end.

(** The scopes of the new access token: the requested ones if any, never more than the grant's. *)
Definition narrow_scopes (g : Grant) (f : Values) : oresult (list string) :=
  let scopes := parseScopes (Grant_Scopes g) in
  let req := parseScopes (Values_Get f "scope") in
  if bool_decide (req = []) then inl scopes
  else if containsAll scopes req then inl req
  else inr (errInvalidScope "requested scope exceeds the original grant").

Definition refreshGrant (client : resolvedClient) (f : Values) : M S (oresult TokenResponse) :=
  if negb (clientAllows client GrantTypeRefreshToken) then
    mret (inr (oerr StatusBadRequest "unauthorized_client" "client may not use this grant"))
  else
  let '(gid, secret, ok) := Cut "." (Values_Get f "refresh_token") in
  if negb ok || String.eqb gid "" || String.eqb secret "" || (64 <? len gid) then
    mret (inr (errInvalidGrant "invalid refresh token"))
  else
  r ← os_GetGrant gid;
  match r with
  | Err e => mret (inr (if ErrorsIs e ErrNotFound then errInvalidGrant "invalid refresh token"
                        else errServer "grant lookup failed"))
  | Ok g =>
    if negb (String.eqb (Grant_ClientID g) (rc_ID client)) then
      mret (inr (errInvalidGrant "refresh token was issued to another client"))
    else
    at_ ← now;
    let presented := hashSecret secret in
    if String.eqb (Grant_TokenHash g) "" || negb (constEq presented (Grant_TokenHash g)) then
      if negb (String.eqb (PrevTokenHash g) "") && constEq presented (PrevTokenHash g) then
        _ ← (if negb (in_grace g at_) then os_DeleteGrant (Grant_ID g) else mret (Ok tt));
        mret (inr (errInvalidGrant "refresh token already used"))
      else mret (inr (errInvalidGrant "invalid refresh token"))
    else if After at_ (Grant_ExpiresAt g) then
      _ ← os_DeleteGrant (Grant_ID g);
      mret (inr (errInvalidGrant "refresh token expired"))
    else if resource_mismatch f (Grant_Resource g) then
      mret (inr (errInvalidTarget "resource does not match the grant"))
    else
    ou ← available_user (Grant_UserID g);
    match ou with
    | None => mret (inr (errInvalidGrant "the authorizing user is not available"))
    | Some u =>
      if negb (constEq (SecurityStamp u) (Grant_SecurityStamp g)) then
        _ ← os_DeleteGrant (Grant_ID g);
        mret (inr (errInvalidGrant "grant was revoked"))
      else
      match narrow_scopes g f with
      | inr e => mret (inr e)
      | inl scopes =>
        newSecret ← randomSecret 32;
        r ← os_RotateGrant (Grant_ID g) (Grant_TokenHash g) (hashSecret newSecret)
              (Add at_ (sv_RefreshTokenTTL s)) at_;
        match r with
        | Err _ => mret (inr (errServer "could not rotate refresh token"))
        | Ok false => mret (inr (errInvalidGrant "refresh token already used"))
        | Ok true => tokenResponse u g scopes (Grant_ID g +:+ "." +:+ newSecret)
        end
      end
    end
  end.

(** ** Validation at the resource *)

Definition resource_options (aud : option string) (exp : bool) : ParserOptions :=
  mkParserOptions [sg_Alg (sv_signer s)] (sv_issuer s) aud exp.

Definition ValidateResourceToken (token resource : string) : M S (result (User * MapClaims)) :=
  match canonicalResource resource with
  | None => mret (Err ErrInvalidToken)
  | Some res =>
    at_ ← now;
    match Parse (sg_Keyfunc (sv_signer s)) (resource_options (Some res) true) at_ token with
    | Err _ => mret (Err ErrInvalidToken)
    | Ok parsed =>
      if negb (EqualFold (as_string (tok_Header parsed !! "typ")) TokenTypeAccessJWT)
      then mret (Err ErrInvalidToken) else
      let claims := tok_Claims parsed in
      let sub := as_string (claims !! "sub") in
      let gid := as_string (claims !! ClaimGrantID) in
      if String.eqb sub "" || String.eqb gid "" then mret (Err ErrInvalidToken) else
      r ← FindByID sub;
      match r with
      | Ok None => mret (Err ErrInvalidToken)
      | Err e => mret (Err (if ErrorsIs e ErrNotFound then ErrInvalidToken else e))
      | Ok (Some u) =>
        if negb (constEq (as_string (claims !! ClaimSecurityStamp)) (SecurityStamp u))
        then mret (Err ErrInvalidToken) else
        locked ← IsLockedOut u;
        if locked : bool then mret (Err ErrInvalidToken) else
        r ← os_GetGrant gid;
        match r with
        | Err e => mret (Err (if ErrorsIs e ErrNotFound then ErrInvalidToken else e))
        | Ok g => if negb (String.eqb (Grant_UserID g) (ID u)) then mret (Err ErrInvalidToken)
                  else mret (Ok (u, claims))
        end
      end
    end
  end.

(** ** Revocation *)

Definition grantIDOf (token : string) : M S string :=
  let '(gid, secret, ok) := Cut "." token in
  if ok && negb (Contains secret ".") then
    r ← os_GetGrant gid;
    mret match r with
         | Ok g =>
           let h := hashSecret secret in
           if (negb (String.eqb (Grant_TokenHash g) "") && constEq h (Grant_TokenHash g))
              || (negb (String.eqb (PrevTokenHash g) "") && constEq h (PrevTokenHash g))
           then gid else ""
         | Err _ => ""
         end
  else
  at_ ← now;
  mret match Parse (sg_Keyfunc (sv_signer s)) (resource_options None false) at_ token with
       | Err _ => ""
       | Ok parsed =>
         if negb (EqualFold (as_string (tok_Header parsed !! "typ")) TokenTypeAccessJWT) then ""
         else as_string (tok_Claims parsed !! ClaimGrantID)
       end.

(** The body of the revocation request, once the client is authenticated. *)
Definition revoke_token (client : resolvedClient) (token : string) : M S unit :=
  gid ← grantIDOf token;
  if String.eqb gid "" then mret tt else
  r ← os_GetGrant gid;
  match r with
  | Ok g => if String.eqb (Grant_ClientID g) (rc_ID client)
            then _ ← os_DeleteGrant gid; mret tt else mret tt
  | Err _ => mret tt
  end.

(** ** The handlers *)

(** The checks both handlers start with: the headers, and the form or an answer. *)
Definition form_post (r : Request) : Headers * (Values + Response) :=
  match cors ∅ r with
  | (h, Some resp) => (h, inr resp)
  | (h, None) =>
    let h := noStore h in
    (h, if negb (String.eqb (req_Method r) "POST") then
          inr (writeError h (oerr StatusMethodNotAllowed "invalid_request" "use POST"))
        else if negb (String.eqb (req_MediaType r) "application/x-www-form-urlencoded") then
          inr (writeError h (errInvalidRequest "content type must be application/x-www-form-urlencoded"))
        else match req_PostForm r with
             | None => inr (writeError h (errInvalidRequest "malformed form body"))
             | Some f => inl f
             end)
  end.

(** A client error, with the Basic challenge when HTTP Basic was used. *)
Definition client_error (h : Headers) (e : OError) (basic : bool) : Response :=
  let quote := bytes_str [to_byte 0x22] in
  let h := if String.eqb (oe_Code e) "invalid_client" && basic
           then <["WWW-Authenticate" := "Basic realm=" +:+ quote +:+ "oauth" +:+ quote]> h else h in
  writeError h e.

Definition TokenHandler (r : Request) : M S Response :=
  match form_post r with
  | (_, inr resp) => mret resp
  | (h, inl f) =>
    l ← range_map f;
    match head (filter (λ kv, (1 < length kv.2)%nat) l) with
    | Some (k, _) => mret (writeError h (errInvalidRequest ("parameter " +:+ k +:+ " is duplicated")))
    | None =>
      '(client, basic) ← authenticateClient r f (endpoint s (sv_TokenPath s));
      match client with
      | inr e => mret (client_error h e basic)
      | inl client =>
        let gt := Values_Get f "grant_type" in
        e ← (if String.eqb gt GrantTypeAuthorizationCode then exchangeCode client f
             else if String.eqb gt GrantTypeRefreshToken then refreshGrant client f
             else if String.eqb gt "" then mret (inr (errInvalidRequest "grant_type is required"))
             else mret (inr (errUnsupportedGrant ("unsupported grant_type: " +:+ gt))));
        mret match e with
             | inr e => writeError h e
             | inl resp => writeJSON h StatusOK (TokenResponse_json resp)
             end
      end
    end
  end.

Definition RevokeHandler (r : Request) : M S Response :=
  match form_post r with
  | (_, inr resp) => mret resp
  | (h, inl f) =>
    '(client, basic) ← authenticateClient r f (endpoint s (sv_RevokePath s));
    match client with
    | inr e => mret (client_error h e basic)
    | inl client =>
      let token := Values_Get f "token" in
      if String.eqb token "" then mret (writeError h (errInvalidRequest "token is required")) else
      _ ← revoke_token client token;
      mret (mkResponse StatusOK h NoBody)
    end
  end.
End token.
