(* ===== verification/OAuthTokenFacts.v ===== *)
(** * Correctness of the token endpoint

    A code is exchanged once, by its client, with its verifier; a refresh token rotates
    and a replay ends the grant; an access token is accepted exactly while its grant and
    the security stamp of its user last. *)

From S2P Require Import Prelude GoStrings GoBytes GoCrypto GoNet GoUrl Errors World Entities OAuthTypes Stores.
From S2P Require Import StoreLaws UserManager SignIn Jwt GoHttp OAuthUtil Signer Jwks TokenService.
From S2P Require Import OAuthServer OAuthServerFacts OAuthToken.

Local Open Scope Z_scope.

Section facts.
Context `{Oracle} `{UnicodeDB} `{PublicKeys} {S : Type} `{UserStore S, OAuthStore S, StoreView S}.
Context `{!UserStoreSpec S, !OAuthStoreSpec S} (s : Server S).
Implicit Types w : World S.

(** ** Access tokens *)

(** The user a grant acts for: stored, and not locked at some later time. *)
Lemma wp_available_user id w (Q : option User → World S → Prop) :
  v_inv (w_store w) →
  (∀ w', v_users (w_store w) !! id = None → same w w' → Q None w') →
  (∀ u i w', v_users (w_store w) !! id = Some u → (w_step w <= i < w_step w')%nat → locked_at u (o_now i) = true →
    same w w' → Q None w') →
  (∀ u i w', v_users (w_store w) !! id = Some u → (w_step w <= i)%nat → locked_at u (o_now i) = false →
    same w w' → Q (Some u) w') →
  wp (available_user id) Q w.
Proof.
  intros Hi HN HL HQ. unfold available_user, FindByID. wp_steps.
  wp_call spec_FindByID; [done|]. intros r w1 [Hs ->]. pose proof (same_step _ _ Hs).
  destruct (v_users (w_store w) !! id) as [u|]; [|wp_steps; by apply HN]. wp_steps.
  unfold UserManager.IsLockedOut. specialize (HL u (w_step w1)). specialize (HQ u (w_step w1)). unfold locked_at in HL, HQ.
  pose proof (same_trans _ _ _ Hs (same_tick w1 (same_inv _ _ Hs))) as Ht.
  destruct (LockoutEnabled u); cbn [negb andb] in *; [|wp_steps; by apply HQ].
  destruct (LockoutEnd u) as [e|]; wp_steps; [|by apply HQ].
  unfold After. destruct (_ <? e) in *; [apply HL|apply HQ]; try done. cbn. lia.
Qed.

Lemma wp_signResourceToken u g scopes w (Q : result (string * Time) → World S → Prop) :
  v_inv (w_store w) →
  (∀ i jti roles w', (w_step w <= i)%nat → same w w' →
    let tok := resource_token s u g scopes (o_now i) jti roles in
    Q match SignedString tok (sg_SignKey (sv_signer s)).2 with
      | Err e => Err e
      | Ok str => Ok (str, o_now i + sv_AccessTokenTTL s)
      end w') →
  wp (signAccessToken s u g scopes) Q w.
Proof.
  intros Hi HQ. unfold signAccessToken, newID, GetRoles. wp_steps.
  assert (same w (tick (tick w))) as Hs by (eapply same_trans; apply same_tick; done).
  wp_call spec_GetRoles; [exact (same_inv _ _ Hs)|]. intros r w1 [Hs1 _]. wp_steps.
  apply HQ; [done|by eapply same_trans].
Qed.

(** Signing some token fails. *)
Definition sign_fails : Prop := ∃ tok, is_ok (SignedString tok (sg_SignKey (sv_signer s)).2) = false.

(** A token response, or the error of a signing that failed. *)
Lemma wp_tokenResponse u g scopes refresh w (Q : oresult TokenResponse → World S → Prop) :
  v_inv (w_store w) →
  (∀ w', sign_fails → same w w' → Q (inr (errServer "could not sign access token")) w') →
  (∀ i jti roles str ttl w', (w_step w <= i)%nat → same w w' →
    SignedString (resource_token s u g scopes (o_now i) jti roles) (sg_SignKey (sv_signer s)).2 = Ok str →
    Q (inl (mkTokenResponse str "Bearer" ttl refresh (joinScopes scopes))) w') →
  wp (tokenResponse s u g scopes refresh) Q w.
Proof.
  intros Hi HE HQ. unfold tokenResponse. rewrite wp_bind. apply wp_signResourceToken; [done|].
  intros i jti roles w' Hij Hs tok. fold tok in HQ.
  destruct (SignedString _ _) as [str|e] eqn:Hsig; wp_steps;
    [|apply HE; [exists tok; by rewrite Hsig|done]].
  eapply HQ; [done| |exact Hsig]. eapply same_trans; [done|]. apply same_tick. exact (same_inv _ _ Hs).
Qed.

(** ** Codes *)

(** What a code must show to be exchanged at [at_]. *)
Record code_shown (client : resolvedClient) (f : Values) (c : Code) (at_ : Time) : Prop := {
  shown_fresh : at_ <= Code_ExpiresAt c;
  shown_client : Code_ClientID c = rc_ID client;
  shown_redirect : Values_Get f "redirect_uri" = "" ∨ Values_Get f "redirect_uri" = Code_RedirectURI c;
  shown_verifier : validVerifier (Values_Get f "code_verifier") = true;
  shown_challenge : CodeChallenge c = RawURLEncode (sha256 (str_bytes (Values_Get f "code_verifier")));
  shown_resource : Values_Get f "resource" = "" ∨ canonicalResource (Values_Get f "resource") = Some (Code_Resource c);
}.

Lemma resource_match f res : resource_mismatch f res = false ↔
  Values_Get f "resource" = "" ∨ canonicalResource (Values_Get f "resource") = Some res.
Proof.
  unfold resource_mismatch. destruct (String.eqb_spec (Values_Get f "resource") ""); cbn [negb andb]; [naive_solver|].
  rewrite negb_false_iff, bool_decide_eq_true. naive_solver.
Qed.

Lemma check_code_shown client f c at_ : check_code client f c at_ = None ↔ code_shown client f c at_.
Proof.
  unfold check_code, After. split.
  - destruct (Z.ltb_spec (Code_ExpiresAt c) at_); [done|].
    destruct (String.eqb_spec (Code_ClientID c) (rc_ID client)); [|done]. cbn [negb].
    destruct (String.eqb_spec (Values_Get f "redirect_uri") ""), (String.eqb_spec (Values_Get f "redirect_uri") (Code_RedirectURI c));
      cbn [negb andb]; try discriminate;
      (destruct (verifyS256 _ _) eqn:Hv; cbn [negb]; [|discriminate]);
      (destruct (resource_mismatch f (Code_Resource c)) eqn:Hr; [discriminate|]); intros _;
      apply verifyS256_true in Hv as [??]; apply resource_match in Hr; constructor; auto.
  - intros [Hf Hc Hu Hv Hh Hr]. destruct (Z.ltb_spec (Code_ExpiresAt c) at_); [lia|].
    rewrite Hc, String.eqb_refl. cbn [negb].
    assert (negb (String.eqb (Values_Get f "redirect_uri") "")
      && negb (String.eqb (Values_Get f "redirect_uri") (Code_RedirectURI c)) = false) as ->.
    { destruct Hu as [-> | ->]; [done|]. rewrite String.eqb_refl. apply andb_false_r. }
    assert (verifyS256 (Values_Get f "code_verifier") (CodeChallenge c) = true) as -> by by apply verifyS256_true.
    cbn [negb]. by rewrite (proj2 (resource_match _ _) Hr).
Qed.

(** A code the client may present, with its user. *)
Record code_held w (client : resolvedClient) (f : Values) (c : Code) (u : User) : Prop := {
  ch_allowed : clientAllows client GrantTypeAuthorizationCode = true;
  ch_code : Values_Get f "code" ≠ "" ∧ codes_of w !! hashSecret (Values_Get f "code") = Some c;
  ch_unused : UsedAt c = None;
  ch_user : v_users (w_store w) !! Code_UserID c = Some u;
}.

(** A code that the exchange accepts: checked at [at_], and the user not locked at [at']. *)
Record redeemable w (client : resolvedClient) (f : Values) (c : Code) (u : User) (at_ at' : Time) : Prop := {
  rd_held : code_held w client f c u;
  rd_shown : code_shown client f c at_;
  rd_unlocked : locked_at u at' = false;
}.

(** The grant of an exchange, and the rows it leaves. *)
Definition new_grant (client : resolvedClient) (c : Code) (u : User) (gid hash : string) (at_ : Time) : Grant :=
  mkGrant gid (ID u) (rc_ID client) (Code_Scopes c) (Code_Resource c) hash "" (SecurityStamp u)
    (at_ + sv_RefreshTokenTTL s) at_ None.
Definition exchanged (O : ORows) (client : resolvedClient) (c : Code) (g : Grant) (at_ : Time) : ORows :=
  let O := set_codes (<[CodeHash c := mark_Code at_ (Grant_ID g) c]> (r_codes O)) O in
  let O := set_grants (<[Grant_ID g := g]> (r_grants O)) O in
  if rc_CIMD client then O else set_clients (alter (touch_Client at_) (rc_ID client) (r_clients O)) O.

(** The rows without the grant of a replayed code. *)
Definition revoked (gid : string) (O : ORows) : ORows :=
  if String.eqb gid "" then O else set_grants (delete gid (r_grants O)) O.

Lemma wp_revoke gid w (Q : result unit → World S → Prop) :
  v_inv (w_store w) → (∀ r w', rows_set w w' (revoked gid (v_rows (w_store w))) → Q r w') →
  wp (if negb (String.eqb gid "") then os_DeleteGrant gid else mret (Ok tt)) Q w.
Proof.
  intros Hi HQ. unfold revoked in HQ. destruct (String.eqb gid ""); cbn [negb].
  - wp_steps. apply HQ. by apply same_omoves, same_refl.
  - wp_call spec_DeleteGrant; [done|]. intros r w' [_ Hr]. by apply HQ.
Qed.

(** The refresh token of an exchange and its stored hash. *)
Definition refresh_issued (client : resolvedClient) (c : Code) (gid hash refresh : string) : Prop :=
  if issuesRefresh s client (parseScopes (Code_Scopes c))
  then ∃ secret, hash = hashSecret secret ∧ refresh = gid +:+ "." +:+ secret
  else hash = "" ∧ refresh = "".

(** The end of an exchange, once the code is marked used. *)
Definition finish_exchange (client : resolvedClient) (c : Code) (u : User) (gid hash : string) (at_ : Time)
    (refresh : string) : M S (oresult TokenResponse) :=
  let g := new_grant client c u gid hash at_ in
  r ← os_CreateGrant g;
  match r with
  | Err _ => mret (inr (errServer "could not create grant"))
  | Ok _ =>
    _ ← (if rc_CIMD client then mret (Ok tt) else os_TouchClient (rc_ID client) at_);
    tokenResponse s u g (parseScopes (Code_Scopes c)) refresh
  end.

Lemma wp_finish_exchange client c u gid hash at_ refresh w0 w (Q : oresult TokenResponse → World S → Prop) :
  rows_set w0 w (set_codes (<[CodeHash c := mark_Code at_ gid c]> (codes_of w0)) (v_rows (w_store w0))) →
  grants_of w0 !! gid = None →
  (let g := new_grant client c u gid hash at_ in
   ∀ r w', (w_step w <= w_step w')%nat → rows_set w0 w' (exchanged (v_rows (w_store w0)) client c g at_) →
    (r = inr (errServer "could not sign access token") ∧ sign_fails
     ∨ ∃ i' jti roles str ttl, (w_step w <= i')%nat
       ∧ SignedString (resource_token s u g (parseScopes (Code_Scopes c)) (o_now i') jti roles)
           (sg_SignKey (sv_signer s)).2 = Ok str
       ∧ r = inl (mkTokenResponse str "Bearer" ttl refresh (joinScopes (parseScopes (Code_Scopes c))))) → Q r w') →
  wp (finish_exchange client c u gid hash at_ refresh) Q w.
Proof.
  intros Hw Hfresh HQ. unfold finish_exchange. set (g := new_grant _ _ _ _ _ _) in *. cbn zeta in HQ |- *.
  pose proof (rows_set_rows _ _ _ Hw) as Hr. rewrite wp_bind.
  wp_call spec_CreateGrant; [exact (rows_set_inv _ _ _ Hw)|by rewrite Hr|].
  intros r w5 [-> Hw5]. rewrite Hr in Hw5. pose proof (rows_set_step _ _ _ Hw5).
  pose proof (rows_set_trans _ _ _ _ _ Hw Hw5) as Hw5'.
  pose proof (rows_set_rows _ _ _ Hw5') as Hr5. rewrite wp_bind.
  assert (wp (if rc_CIMD client then mret (Ok tt) else os_TouchClient (rc_ID client) at_)
    (λ _ w6, (w_step w <= w_step w6)%nat ∧ rows_set w0 w6 (exchanged (v_rows (w_store w0)) client c g at_)) w5) as Htouch.
  { unfold exchanged. destruct (rc_CIMD client); wp_steps; [done|].
    wp_call spec_TouchClient; [exact (rows_set_inv _ _ _ Hw5')|]. intros r w6 [_ Hw6].
    pose proof (rows_set_step _ _ _ Hw6). split; [lia|]. rewrite Hr5 in Hw6. by eapply rows_set_trans. }
  eapply wp_mono; [exact Htouch|]. cbn beta. intros _ w6 [Hst Hw6].
  apply wp_tokenResponse; [exact (rows_set_inv _ _ _ Hw6)|..].
  - intros w' Hf Hs'. apply HQ; [pose proof (same_step _ _ Hs'); lia|by eapply rows_set_before|by left].
  - intros i' jti roles str ttl w' Hi' Hs' Hsig.
    apply HQ; [pose proof (same_step _ _ Hs'); lia|by eapply rows_set_before|right].
    exists i', jti, roles, str, ttl. split; [lia|done].
Qed.

(** The branches of an exchange. *)
Lemma wp_exchangeCode client f w (Q : oresult TokenResponse → World S → Prop) :
  v_inv (w_store w) → (∀ i, (w_step w <= i)%nat → grants_of w !! o_uuid i = None) →
  (∀ e w', same w w' → (∀ c u, code_held w client f c u → ∃ i, (w_step w <= i < w_step w')%nat
    ∧ (¬ code_shown client f c (o_now i) ∨ locked_at u (o_now i) = true)) → Q (inr e) w') →
  (∀ c e w', codes_of w !! hashSecret (Values_Get f "code") = Some c → is_Some (UsedAt c) →
    rows_set w w' (revoked (Code_GrantID c) (v_rows (w_store w))) → Q (inr e) w') →
  (∀ c u i j k hash refresh r w', (w_step w <= i)%nat → (w_step w <= j)%nat → (w_step w <= k < w_step w')%nat →
    redeemable w client f c u (o_now i) (o_now j) → refresh_issued client c (o_uuid k) hash refresh →
    let g := new_grant client c u (o_uuid k) hash (o_now i) in
    rows_set w w' (exchanged (v_rows (w_store w)) client c g (o_now i)) →
    (r = inr (errServer "could not sign access token") ∧ sign_fails
     ∨ ∃ i' jti roles str ttl, (w_step w <= i')%nat
       ∧ SignedString (resource_token s u g (parseScopes (Code_Scopes c)) (o_now i') jti roles)
           (sg_SignKey (sv_signer s)).2 = Ok str
       ∧ r = inl (mkTokenResponse str "Bearer" ttl refresh (joinScopes (parseScopes (Code_Scopes c))))) →
    Q r w') →
  wp (exchangeCode s client f) Q w.
Proof.
  intros Hi Hfresh HE HR HQ. unfold exchangeCode.
  assert (∀ e w', (∀ c u, ¬ code_held w client f c u) → same w w' → Q (inr e) w') as HE'.
  { intros e w' Hn Hs. apply HE; [done|]. intros c u Hh. by destruct (Hn c u). }
  case_if Hal. { wp_steps. apply HE'; [|by apply same_refl]. intros c u []. by rewrite ch_allowed0 in Hal. }
  apply negb_false_iff in Hal. destruct (String.eqb_spec (Values_Get f "code") "") as [Hraw|Hraw].
  { wp_steps. apply HE'; [|by apply same_refl]. intros c u []. by destruct ch_code0. }
  wp_steps. wp_call spec_GetCode; [done|]. intros r w1 [Hs1 ->].
  destruct (codes_of w !! _) as [c|] eqn:Hc; wp_steps.
  2:{ apply HE'; [|done]. intros c u []. destruct ch_code0. congruence. }
  assert (CodeHash c = hashSecret (Values_Get f "code")) as Hch by by apply (spec_codes_keyed _ Hi _ _ Hc).
  set (i := w_step w1). pose proof (same_step _ _ Hs1) as Hi1.
  assert (same w (tick w1)) as Hs by (eapply same_trans; [done|apply same_tick; exact (same_inv _ _ Hs1)]).
  case_bool_decide as Hu.
  { rewrite wp_bind. apply wp_revoke; [exact (same_inv _ _ Hs)|]. intros r w2 Hw2. wp_steps.
    apply (HR c); [done|by destruct (UsedAt c)|]. rewrite (same_rows _ _ Hs) in Hw2. by eapply rows_set_after. }
  assert (∀ c' u, code_held w client f c' u → c' = c) as Huniq.
  { intros c' u []. destruct ch_code0. congruence. }
  destruct (check_code client f c (o_now i)) as [e|] eqn:Hck.
  { wp_steps. apply HE; [done|]. intros c' u Hr. pose proof (Huniq _ _ Hr). subst c'. exists i. split; [cbn; lia|].
    left. intros Hsh%check_code_shown. congruence. }
  rewrite wp_bind. apply wp_available_user; [exact (same_inv _ _ Hs)|..]; rewrite (same_users _ _ Hs).
  { intros w2 Hnone Hs2. wp_steps. apply HE'; [|by eapply same_trans]. intros c' u Hr.
    pose proof (Huniq _ _ Hr). subst c'. destruct Hr. congruence. }
  { intros u j w2 Hus Hj Hl Hs2. wp_steps. apply HE; [by eapply same_trans|]. intros c' u' Hr.
    pose proof (Huniq _ _ Hr). subst c'. destruct Hr. exists j. split; [cbn in Hj; lia|]. right. congruence. }
  intros u j w2 Hus Hj Hl Hs2. cbn in Hj. pose proof (same_trans _ _ _ Hs Hs2) as Hs3.
  assert (redeemable w client f c u (o_now i) (o_now j)) as Hred.
  { constructor; [by constructor|by apply check_code_shown|done]. }
  unfold newID. wp_steps. set (k := w_step w2). pose proof (same_step _ _ Hs2) as Hst2. cbn in Hst2.
  assert (same w (tick w2)) as Hs4 by (eapply same_trans; [done|apply same_tick; exact (same_inv _ _ Hs3)]).
  clear Hs2 Hs3. wp_call spec_MarkCodeUsed; [exact (same_inv _ _ Hs4)|]. intros r w3 Hw3.
  rewrite (same_rows _ _ Hs4), Hc, bool_decide_eq_true_2 in Hw3 by done. destruct Hw3 as [-> Hw3']. wp_steps.
  pose proof (rows_set_after _ _ _ _ Hs4 Hw3') as Hw3. rewrite <-Hch in Hw3.
  assert (∀ hash refresh w4, same w3 w4 → refresh_issued client c (o_uuid k) hash refresh →
    wp (finish_exchange client c u (o_uuid k) hash (o_now i) refresh) Q w4) as Hcreate.
  { intros hash refresh w4 Hs4' Href. eapply wp_finish_exchange; [by eapply rows_set_before|apply Hfresh; lia|].
    intros g r w' Hst' Hw' Hr. pose proof (rows_set_step _ _ _ Hw3') as Hst3. cbn in Hst3.
    pose proof (same_step _ _ Hs4'). apply (HQ c u i j k hash refresh); try done; [lia..|].
    destruct Hr as [|(i' & jti & roles & str & ttl & Hi' & ?)]; [by left|right].
    exists i', jti, roles, str, ttl. split; [|done]. pose proof (rows_set_step _ _ _ Hw3). pose proof (same_step _ _ Hs4'). lia. }
  destruct (issuesRefresh s client (parseScopes (Code_Scopes c))) eqn:Hrf.
  - unfold randomSecret. wp_steps. apply wp_bind.
    apply Hcreate; [apply same_tick; exact (rows_set_inv _ _ _ Hw3)|]. unfold refresh_issued. rewrite Hrf. eauto.
  - wp_steps. apply wp_bind. apply Hcreate; [apply same_refl; exact (rows_set_inv _ _ _ Hw3)|]. unfold refresh_issued. by rewrite Hrf.
Qed.

(** ** Refresh tokens *)

(** A refresh request that succeeds: what the form presents, the grant, its user and the
    scopes of the new access token. *)
Record refreshable w (client : resolvedClient) (f : Values) (gid secret : string) (g : Grant) (u : User)
    (scopes : list string) (at_ at' : Time) : Prop := {
  rf_allowed : clientAllows client GrantTypeRefreshToken = true;
  rf_presented : Cut "." (Values_Get f "refresh_token") = (gid, secret, true);
  rf_shape : gid ≠ "" ∧ secret ≠ "" ∧ len gid <= 64;
  rf_grant : grants_of w !! gid = Some g;
  rf_client : Grant_ClientID g = rc_ID client;
  rf_hash : Grant_TokenHash g = hashSecret secret;
  rf_fresh : at_ <= Grant_ExpiresAt g;
  rf_resource : Values_Get f "resource" = "" ∨ canonicalResource (Values_Get f "resource") = Some (Grant_Resource g);
  rf_user : v_users (w_store w) !! Grant_UserID g = Some u;
  rf_unlocked : locked_at u at' = false;
  rf_stamp : SecurityStamp u = Grant_SecurityStamp g;
  rf_scopes : scopes ⊆ parseScopes (Grant_Scopes g);
}.

Lemma narrow_scopes_sub g f scopes : narrow_scopes g f = inl scopes → scopes ⊆ parseScopes (Grant_Scopes g).
Proof.
  unfold narrow_scopes. case_bool_decide; [by intros [= <-]|].
  destruct (containsAll _ _) eqn:Hc; [|done]. intros [= <-]. by apply containsAll_spec.
Qed.

(** The branches of a refresh; a refusal changes nothing or ends the grant presented. *)
Lemma wp_refreshGrant client f w (Q : oresult TokenResponse → World S → Prop) :
  v_inv (w_store w) →
  (∀ e w', same w w' → Q (inr e) w') →
  (∀ e gid secret g w', Cut "." (Values_Get f "refresh_token") = (gid, secret, true) →
    grants_of w !! gid = Some g → Grant_ClientID g = rc_ID client →
    hashSecret secret = Grant_TokenHash g ∨ hashSecret secret = PrevTokenHash g →
    rows_set w w' (set_grants (delete gid (grants_of w)) (v_rows (w_store w))) → Q (inr e) w') →
  (∀ gid secret g u scopes i j new r w', (w_step w <= i)%nat → (w_step w <= j)%nat →
    refreshable w client f gid secret g u scopes (o_now i) (o_now j) →
    let g' := rotate_Grant (Grant_TokenHash g) (hashSecret new) (o_now i + sv_RefreshTokenTTL s) (o_now i) g in
    rows_set w w' (set_grants (<[gid := g']> (grants_of w)) (v_rows (w_store w))) →
    (r = inr (errServer "could not sign access token") ∧ sign_fails
     ∨ ∃ i' jti roles str ttl, (w_step w <= i')%nat
       ∧ SignedString (resource_token s u g scopes (o_now i') jti roles) (sg_SignKey (sv_signer s)).2 = Ok str
       ∧ r = inl (mkTokenResponse str "Bearer" ttl (gid +:+ "." +:+ new) (joinScopes scopes))) →
    Q r w') →
  wp (refreshGrant s client f) Q w.
Proof.
  intros Hi HE HD HQ. unfold refreshGrant. case_if Hal; [wp_steps; by apply HE, same_refl|].
  destruct (Cut "." (Values_Get f "refresh_token")) as [[gid secret] ok] eqn:Hcut.
  case_if Hshape; [wp_steps; by apply HE, same_refl|].
  apply orb_false_iff in Hshape as [[[Hok%negb_false_iff Hg0%String.eqb_neq]%orb_false_iff Hs0%String.eqb_neq]%orb_false_iff Hlen%Z.ltb_ge].
  subst ok. wp_steps. wp_call spec_GetGrant; [done|]. intros r w1 [Hs1 ->].
  destruct (grants_of w !! gid) as [g|] eqn:Hg; [|wp_steps; by apply HE].
  assert (Grant_ID g = gid) as Hgid by by apply (spec_grants_keyed _ Hi _ _ Hg).
  destruct (String.eqb_spec (Grant_ClientID g) (rc_ID client)) as [Hcl|]; cbn [negb]; [|wp_steps; by apply HE].
  wp_steps. set (i := w_step w1). pose proof (same_step _ _ Hs1) as Hi1.
  assert (same w (tick w1)) as Hs by (eapply same_trans; [done|apply same_tick; exact (same_inv _ _ Hs1)]).
  assert (∀ e w2, hashSecret secret = Grant_TokenHash g ∨ hashSecret secret = PrevTokenHash g → same w w2 →
    wp (_ ← os_DeleteGrant (Grant_ID g); mret (inr e)) Q w2) as Hend.
  { intros e w2 Hh Hs2. wp_steps. wp_call spec_DeleteGrant; [exact (same_inv _ _ Hs2)|]. intros r w3 [_ Hw3].
    wp_steps. rewrite Hgid, (same_rows _ _ Hs2) in Hw3. eapply HD; try done. by eapply rows_set_after. }
  case_if Hcur.
  { case_if Hprev; [|wp_steps; by apply HE]. apply andb_true_iff in Hprev as [_ Hprev%constEq_spec].
    destruct (in_grace s g (o_now i)); cbn [negb]; [wp_steps; by apply HE|]. apply Hend; [by right|done]. }
  apply orb_false_iff in Hcur as [_ Hcur%negb_false_iff%constEq_spec].
  case_if Hexp; [apply Hend; [by left|done]|]. unfold After in Hexp. apply Z.ltb_ge in Hexp.
  case_if Hres; [wp_steps; by apply HE|]. apply resource_match in Hres.
  rewrite wp_bind. apply wp_available_user; [exact (same_inv _ _ Hs)|..]; rewrite (same_users _ _ Hs).
  { intros w2 _ Hs2. wp_steps. apply HE. by eapply same_trans. }
  { intros u j w2 _ _ _ Hs2. wp_steps. apply HE. by eapply same_trans. }
  intros u j w2 Hu Hj Hl Hs2. cbn in Hj. pose proof (same_trans _ _ _ Hs Hs2) as Hs3.
  case_if Hst; [apply Hend; [by left|done]|]. apply negb_false_iff, constEq_spec in Hst.
  destruct (narrow_scopes g f) as [scopes|e] eqn:Hn; [|wp_steps; by apply HE].
  unfold randomSecret. wp_steps. pose proof (same_step _ _ Hs2) as Hst2. cbn in Hst2.
  assert (same w (tick w2)) as Hs4 by (eapply same_trans; [done|apply same_tick; exact (same_inv _ _ Hs3)]).
  wp_call spec_RotateGrant; [exact (same_inv _ _ Hs4)|]. intros r w3 Hw3.
  rewrite Hgid, (same_rows _ _ Hs4), Hg, bool_decide_eq_true_2 in Hw3 by done. destruct Hw3 as [-> Hw3].
  apply (rows_set_after _ _ _ _ Hs4) in Hw3. rewrite Hgid. pose proof (rows_set_step _ _ _ Hw3).
  assert (refreshable w client f gid secret g u scopes (o_now i) (o_now j)) as Hred.
  { constructor; auto; [by apply negb_false_iff|by eapply narrow_scopes_sub]. }
  apply wp_tokenResponse; [exact (rows_set_inv _ _ _ Hw3)|..].
  - intros w' Hf Hs'. eapply (HQ gid secret g u scopes i j); [lia|lia|done|by eapply rows_set_before|by left].
  - intros i' jti roles str ttl w' Hi' Hs' Hsig.
    eapply (HQ gid secret g u scopes i j); [lia|lia|done|by eapply rows_set_before|right].
    exists i', jti, roles, str, ttl. split; [lia|done].
Qed.

(** A secret already rotated away, presented by the grant's client. *)
Lemma wp_refresh_replay client f gid secret g w (Q : oresult TokenResponse → World S → Prop) :
  v_inv (w_store w) → clientAllows client GrantTypeRefreshToken = true →
  Cut "." (Values_Get f "refresh_token") = (gid, secret, true) → gid ≠ "" → secret ≠ "" → len gid <= 64 →
  grants_of w !! gid = Some g → Grant_ClientID g = rc_ID client →
  hashSecret secret = PrevTokenHash g → hashSecret secret ≠ Grant_TokenHash g →
  (∀ e i w', (w_step w <= i)%nat →
    (if in_grace s g (o_now i) then same w w'
     else rows_set w w' (set_grants (delete gid (grants_of w)) (v_rows (w_store w)))) → Q (inr e) w') →
  wp (refreshGrant s client f) Q w.
Proof.
  intros Hi Hal Hcut Hgid Hsec Hlen Hg Hcl Hprev Hcur HQ. unfold refreshGrant. rewrite Hal, Hcut. cbn [negb orb].
  rewrite (proj2 (String.eqb_neq gid "")), (proj2 (String.eqb_neq secret "")), (proj2 (Z.ltb_ge 64 _)) by done.
  cbn [orb]. wp_steps. wp_call spec_GetGrant; [done|]. intros r w1 [Hs1 ->]. rewrite Hg, Hcl, String.eqb_refl.
  cbn [negb]. assert (Grant_ID g = gid) as -> by by apply (spec_grants_keyed _ Hi _ _ Hg).
  wp_steps. pose proof (same_step _ _ Hs1) as Hi1.
  assert (same w (tick w1)) as Hs by (eapply same_trans; [done|apply same_tick; exact (same_inv _ _ Hs1)]).
  rewrite (proj2 (constEq_false _ _) Hcur), orb_true_r. rewrite Hprev, constEq_refl.
  assert (PrevTokenHash g ≠ "") as Hne.
  { rewrite <-Hprev. apply hashSecret_nonempty. }
  rewrite (proj2 (String.eqb_neq _ _) Hne). cbn [negb andb].
  specialize (HQ (errInvalidGrant "refresh token already used") (w_step w1)).
  destruct (in_grace s g _); cbn [negb]; wp_steps; [by apply HQ|].
  wp_call spec_DeleteGrant; [exact (same_inv _ _ Hs)|]. intros r w2 [_ Hw2]. wp_steps. apply HQ; [done|].
  rewrite (same_rows _ _ Hs) in Hw2. by eapply rows_set_after.
Qed.

(** ** Access tokens at the resource *)

(** The verdict on the claims of a parsed token: the stored user they name by id and
    stamp, not locked at [t], through a grant of that user. *)
Definition resource_verdict (U : gmap string User) (G : gmap string Grant) (t : Time) (claims : MapClaims)
    : result (User * MapClaims) :=
  match U !! as_string (claims !! "sub"), G !! as_string (claims !! ClaimGrantID) with
  | Some u, Some g =>
    if bool_decide (as_string (claims !! ClaimSecurityStamp) = SecurityStamp u ∧ locked_at u t = false
                    ∧ Grant_UserID g = ID u ∧ ID u ≠ "" ∧ Grant_ID g ≠ "")
    then Ok (u, claims) else Err ErrInvalidToken
  | _, _ => Err ErrInvalidToken
  end.

(** Validation parses for the resource, then gives its verdict; it changes nothing. *)
Lemma wp_ValidateResourceToken token resource w (Q : result (User * MapClaims) → World S → Prop) :
  v_inv (w_store w) →
  (∀ i w', (w_step w <= i)%nat → same w w' →
    Q match canonicalResource resource with
      | None => Err ErrInvalidToken
      | Some res =>
        match Parse (sg_Keyfunc (sv_signer s)) (resource_options s (Some res) true) (o_now (w_step w)) token with
        | Err _ => Err ErrInvalidToken
        | Ok tok => if EqualFold (as_string (tok_Header tok !! "typ")) TokenTypeAccessJWT
                    then resource_verdict (v_users (w_store w)) (grants_of w) (o_now i) (tok_Claims tok)
                    else Err ErrInvalidToken
        end
      end w') →
  wp (ValidateResourceToken s token resource) Q w.
Proof.
  intros Hi HQ. unfold ValidateResourceToken, FindByID.
  destruct (canonicalResource resource) as [res|]; [|wp_steps; apply (HQ (w_step w)); [done|by apply same_refl]].
  wp_steps. pose proof (same_tick w Hi) as Ht.
  destruct (Parse _ _ _ token) as [tok|e]; [|wp_steps; by apply (HQ (w_step w))].
  destruct (EqualFold _ _); cbn [negb]; [|wp_steps; by apply (HQ (w_step w))].
  unfold resource_verdict in HQ. set (claims := tok_Claims tok) in *.
  set (sub := as_string (claims !! "sub")) in *. set (gid := as_string (claims !! ClaimGrantID)) in *.
  assert (∀ u, v_users (w_store w) !! sub = Some u → ID u = sub) as Hid by (intros u Hu; by apply (spec_keyed _ Hi sub)).
  assert (∀ g, grants_of w !! gid = Some g → Grant_ID g = gid) as Hgd by (intros g Hg; by apply (spec_grants_keyed _ Hi gid)).
  case_if Hne.
  { wp_steps. specialize (HQ (w_step w) _ (le_n _) Ht). apply orb_true_iff in Hne.
    destruct (_ !! sub) as [u|] eqn:Hu; [|done]. destruct (_ !! gid) as [g|] eqn:Hg; [|done].
    rewrite bool_decide_eq_false_2 in HQ; [done|]. specialize (Hid u eq_refl). specialize (Hgd g eq_refl).
    destruct Hne as [Hne%String.eqb_eq|Hne%String.eqb_eq]; intros (_ & _ & _ & ? & ?); congruence. }
  apply orb_false_iff in Hne as [Hsub%String.eqb_neq Hgid%String.eqb_neq].
  wp_steps. wp_call spec_FindByID; [done|]. intros r w1 [Hs1 ->]. rewrite (same_users _ _ Ht).
  pose proof (same_trans _ _ _ Ht Hs1) as Hs1'. pose proof (same_step _ _ Hs1') as Hst.
  destruct (v_users (w_store w) !! sub) as [u|] eqn:Hu; [|wp_steps; by apply (HQ (w_step w))].
  specialize (Hid u eq_refl). case_if Hstamp.
  { wp_steps. specialize (HQ (w_step w) w1 (le_n _) Hs1'). destruct (_ !! gid); [|done].
    rewrite bool_decide_eq_false_2 in HQ; [done|]. apply negb_true_iff, constEq_false in Hstamp. naive_solver. }
  apply negb_false_iff, constEq_spec in Hstamp.
  wp_steps. apply wp_IsLockedOut; [exact (same_inv _ _ Hs1')|]. intros i w2 Hi2 Hs2.
  specialize (HQ i). pose proof (same_trans _ _ _ Hs1' Hs2) as Hs2'.
  destruct (locked_at u (o_now i)).
  { wp_steps. assert (w_step w <= i)%nat as Hi' by lia. specialize (HQ w2 Hi' Hs2'). destruct (_ !! gid); [|done].
    rewrite bool_decide_eq_false_2 in HQ; [done|]. naive_solver. }
  wp_steps. wp_call spec_GetGrant; [exact (same_inv _ _ Hs2')|]. intros r w3 [Hs3 ->].
  rewrite (same_rows _ _ Hs2'). assert (w_step w <= i)%nat as Hi' by lia.
  specialize (HQ w3 Hi' (same_trans _ _ _ Hs2' Hs3)).
  destruct (grants_of w !! gid) as [g|] eqn:Hg; [|by wp_steps]. specialize (Hgd g eq_refl).
  destruct (String.eqb_spec (Grant_UserID g) (ID u)); cbn [negb]; wp_steps.
  - rewrite bool_decide_eq_true_2 in HQ; [done|]. split_and!; congruence.
  - rewrite bool_decide_eq_false_2 in HQ; [done|]. naive_solver.
Qed.

(** The header and claims of an issued token. *)
Lemma resource_token_header u g scopes issued jti roles :
  let tok := resource_token s u g scopes issued jti roles in
  tok_Alg tok = sg_Alg (sv_signer s)
  ∧ tok_Header tok !! "alg" = Some (JStr (sg_Alg (sv_signer s)))
  ∧ as_string (tok_Header tok !! "typ") = TokenTypeAccessJWT
  ∧ as_string (tok_Header tok !! "kid") = (sg_SignKey (sv_signer s)).1
  ∧ map_Forall (λ _ v, json_exact v = true) (tok_Header tok)
  ∧ tok_Claims tok = resource_claims s u g scopes issued jti roles.
Proof.
  unfold resource_token. set (kid := (sg_SignKey _).1).
  destruct (String.eqb_spec kid "") as [->|Hk]; cbn [negb]; (split_and!; [done|done|done| | |done]).
  - done.
  - intros k v. cbn. rewrite ?lookup_insert_Some, lookup_singleton_Some. naive_solver.
  - cbn. by rewrite lookup_insert_eq.
  - intros k v. cbn. rewrite ?lookup_insert_Some, lookup_singleton_Some. naive_solver.
Qed.

Lemma resource_claims_lookup u g scopes issued jti roles k v : k ≠ ClaimRole →
  (list_to_map [
    ("iss", JStr (sv_issuer s)); ("sub", JStr (ID u)); ("aud", JStr (Grant_Resource g));
    ("iat", JNum (Unix issued)); ("nbf", JNum (Unix issued)); ("exp", JNum (Unix (issued + sv_AccessTokenTTL s)));
    ("jti", JStr jti); (ClaimClientID, JStr (Grant_ClientID g)); (ClaimScope, JStr (joinScopes scopes));
    (ClaimGrantID, JStr (Grant_ID g)); (ClaimSecurityStamp, JStr (SecurityStamp u))] : MapClaims) !! k = Some v →
  resource_claims s u g scopes issued jti roles !! k = Some v.
Proof.
  intros Hk Hv. unfold resource_claims. destruct roles as [[|r l]|e]; [done| |done]. by rewrite lookup_insert_ne.
Qed.

Lemma resource_token_exact u g scopes issued jti roles :
  Z.abs (Unix issued) <= 2 ^ 53 → Z.abs (Unix (issued + sv_AccessTokenTTL s)) <= 2 ^ 53 →
  token_exact (resource_token s u g scopes issued jti roles).
Proof.
  intros Hi He. destruct (resource_token_header u g scopes issued jti roles) as (_&_&_&_&Hh&Hc).
  split; [done|]. rewrite Hc. unfold resource_claims, Add. set (m := list_to_map _).
  assert (map_Forall (λ _ v, json_exact v = true) m) as Hm.
  { intros k v Hv. apply elem_of_list_to_map_2 in Hv. rewrite !elem_of_cons, elem_of_nil in Hv.
    destruct_or! Hv; simplify_eq; try done; by apply Z.leb_le. }
  destruct roles as [[|r l]|e]; [done| |done]. apply map_Forall_insert_2; [|done].
  cbn. apply forallb_forall. intros x [y [<- _]]%in_map_iff. done.
Qed.

Lemma resource_token_valid u g scopes issued jti roles now :
  Grant_Resource g ≠ "" →
  Unix issued * Second <= now < Unix (issued + sv_AccessTokenTTL s) * Second →
  claims_valid (resource_options s (Some (Grant_Resource g)) true) now
    (tok_Claims (resource_token s u g scopes issued jti roles)).
Proof.
  intros Ha [Hn He]. destruct (resource_token_header u g scopes issued jti roles) as (_&_&_&_&_&->).
  unfold claims_valid. cbn [resource_options po_Issuer po_Audience po_ExpirationRequired].
  rewrite (resource_claims_lookup u g scopes issued jti roles "iss" (JStr (sv_issuer s))) by done.
  rewrite (resource_claims_lookup u g scopes issued jti roles "aud" (JStr (Grant_Resource g))) by done.
  rewrite (resource_claims_lookup u g scopes issued jti roles "exp" (JNum (Unix (issued + sv_AccessTokenTTL s)))) by done.
  rewrite (resource_claims_lookup u g scopes issued jti roles "nbf" (JNum (Unix issued))) by done.
  split_and!; try done. by right.
Qed.

(** A signed token parses at the resource while it is valid. *)
Lemma resource_token_parses `{!JWTLaws} u g scopes issued jti roles str pk now :
  SignedString (resource_token s u g scopes issued jti roles) (sg_SignKey (sv_signer s)).2 = Ok str →
  signer_ok (sv_signer s) → public_of (sg_SignKey (sv_signer s)).2 = Some pk → Grant_Resource g ≠ "" →
  Z.abs (Unix issued) <= 2 ^ 53 → Z.abs (Unix (issued + sv_AccessTokenTTL s)) <= 2 ^ 53 →
  Unix issued * Second <= now < Unix (issued + sv_AccessTokenTTL s) * Second →
  Parse (sg_Keyfunc (sv_signer s)) (resource_options s (Some (Grant_Resource g)) true) now str
    = Ok (resource_token s u g scopes issued jti roles).
Proof.
  intros Hsign Hok Hpk Hres Hx1 Hx2 Hwin.
  destruct (resource_token_header u g scopes issued jti roles) as (Halg & Hhalg & Htyp & Hkid & _ & _).
  eapply Parse_signed; [exact Hsign|exact Hpk|by apply Hok|rewrite Halg; by left|
    by apply resource_token_exact|by rewrite Halg|by apply resource_token_valid].
Qed.

(** A used code, presented again. *)
Lemma wp_code_replay client f c w (Q : oresult TokenResponse → World S → Prop) :
  v_inv (w_store w) → clientAllows client GrantTypeAuthorizationCode = true → Values_Get f "code" ≠ "" →
  codes_of w !! hashSecret (Values_Get f "code") = Some c → UsedAt c ≠ None →
  (∀ e w', rows_set w w' (revoked (Code_GrantID c) (v_rows (w_store w))) → Q (inr e) w') →
  wp (exchangeCode s client f) Q w.
Proof.
  intros Hi Hal Hraw Hc Hu HQ. unfold exchangeCode. rewrite Hal, (proj2 (String.eqb_neq _ _) Hraw). cbn [negb].
  wp_steps. wp_call spec_GetCode; [done|]. intros r w1 [Hs1 ->]. rewrite Hc. wp_steps.
  assert (same w (tick w1)) as Hs by (eapply same_trans; [done|apply same_tick; exact (same_inv _ _ Hs1)]).
  rewrite bool_decide_eq_true_2 by done. rewrite wp_bind. apply wp_revoke; [exact (same_inv _ _ Hs)|].
  intros r w2 Hw2. wp_steps. apply HQ. rewrite (same_rows _ _ Hs) in Hw2. by eapply rows_set_after.
Qed.

(** Validating a token issued for a grant is a lookup of its claims. *)
Lemma wp_validate_issued `{!JWTLaws} u g scopes issued jti roles str pk resource w
    (Q : result (User * MapClaims) → World S → Prop) :
  SignedString (resource_token s u g scopes issued jti roles) (sg_SignKey (sv_signer s)).2 = Ok str →
  signer_ok (sv_signer s) → public_of (sg_SignKey (sv_signer s)).2 = Some pk → Grant_Resource g ≠ "" →
  canonicalResource resource = Some (Grant_Resource g) →
  Z.abs (Unix issued) <= 2 ^ 53 → Z.abs (Unix (issued + sv_AccessTokenTTL s)) <= 2 ^ 53 →
  v_inv (w_store w) →
  Unix issued * Second <= o_now (w_step w) < Unix (issued + sv_AccessTokenTTL s) * Second →
  (∀ i w', (w_step w <= i)%nat → same w w' →
    Q (resource_verdict (v_users (w_store w)) (grants_of w) (o_now i) (resource_claims s u g scopes issued jti roles)) w') →
  wp (ValidateResourceToken s str resource) Q w.
Proof.
  intros Hsign Hok Hpk Hres Hcan Hx1 Hx2 Hi Hwin HQ. apply wp_ValidateResourceToken; [done|]. intros i w' Hi' Hs.
  rewrite Hcan, (resource_token_parses u g scopes issued jti roles str pk) by done.
  destruct (resource_token_header u g scopes issued jti roles) as (_ & _ & -> & _ & _ & ->).
  assert (EqualFold TokenTypeAccessJWT TokenTypeAccessJWT = true) as -> by reflexivity. by apply HQ.
Qed.
End facts.

(** ** Properties *)

(** What the claims of an issued token say. *)
Record token_claims (u : User) (g : Grant) (scope : string) (claims : MapClaims) : Prop := {
  tc_sub : as_string (claims !! "sub") = ID u;
  tc_gid : as_string (claims !! ClaimGrantID) = Grant_ID g;
  tc_stamp : as_string (claims !! ClaimSecurityStamp) = SecurityStamp u;
  tc_scope : as_string (claims !! ClaimScope) = scope;
  tc_client : as_string (claims !! ClaimClientID) = Grant_ClientID g;
}.

Section properties.
Context `{Oracle} `{UnicodeDB} `{PublicKeys} {S : Type} `{UserStore S, OAuthStore S, StoreView S}.
Context `{!UserStoreSpec S, !OAuthStoreSpec S} (s : Server S).
Implicit Types w : World S.

(** C1: an authorization code is exchanged once. Tokens are issued only for a stored,
    unused, unexpired code of this client, with its redirect URI, its PKCE verifier and its
    resource, and for a stored user who is not locked out; the code is then marked used and
    exactly one grant is created, with the scopes and the resource of the code. Presenting
    the code again, in any later state that still holds it, issues nothing and deletes the
    grant. A refusal changes nothing, unless the code was used before (its grant goes) or
    the new token could not be signed, which is answered with a server error. *)
Theorem code_exchanged_once client f w :
  v_inv (w_store w) → (∀ i, (w_step w <= i)%nat → grants_of w !! o_uuid i = None) →
  wp (exchangeCode s client f) (λ r w',
    let h := hashSecret (Values_Get f "code") in
    (same w w' ∧ refused r)
    ∨ (∃ c, codes_of w !! h = Some c ∧ UsedAt c ≠ None ∧ refused r
        ∧ rows_set w w' (revoked (Code_GrantID c) (v_rows (w_store w))))
    ∨ (∃ c u i j k hash refresh,
        redeemable w client f c u (o_now i) (o_now j) ∧ refresh_issued s client c (o_uuid k) hash refresh
        ∧ rows_set w w' (exchanged (v_rows (w_store w)) client c (new_grant s client c u (o_uuid k) hash (o_now i)) (o_now i))
        ∧ (∀ tr, r = inl tr → TR_RefreshToken tr = refresh ∧ TR_Scope tr = joinScopes (parseScopes (Code_Scopes c)))
        ∧ (∀ e, r = inr e → e = errServer "could not sign access token" ∧ sign_fails s)
        ∧ ∀ client2 f2 w2, v_inv (w_store w2) → clientAllows client2 GrantTypeAuthorizationCode = true →
            Values_Get f2 "code" = Values_Get f "code" →
            codes_of w2 !! h = Some (mark_Code (o_now i) (o_uuid k) c) →
            wp (exchangeCode s client2 f2) (λ r2 w3, refused r2
              ∧ rows_set w2 w3 (revoked (o_uuid k) (v_rows (w_store w2)))) w2)) w.
Proof.
  intros Hi Hfresh. apply wp_exchangeCode; [done|done|by left| |].
  - intros c e w' Hc Hu Hw'. right; left. exists c. split_and!; try done. by apply not_eq_None_Some.
  - intros c u i j k hash refresh r w' Hi1 Hj1 Hk1 Hred Href g Hw' Hr. right; right.
    exists c, u, i, j, k, hash, refresh. split; [done|]. split; [done|]. split; [done|]. split.
    + intros tr ->. destruct Hr as [[? _]|(i' & jti & roles & str & ttl & _ & _ & [= ->])]; [discriminate|]. done.
    + split; [intros e ->; by destruct Hr as [[[= ->] ?]|(? & ? & ? & ? & ? & ? & ? & ?)]|].
      intros client2 f2 w2 Hi2 Hal Hf2 Hc2. destruct Hred, rd_held0. rewrite <-Hf2 in Hc2, ch_code0.
      eapply wp_code_replay; [done|done|apply ch_code0|exact Hc2|discriminate|]. intros e w3 Hw3. split; [exact I|exact Hw3].
Qed.

(** C10: refresh-token rotation and reuse detection. A refresh succeeds only for the current
    secret of a stored, unexpired grant of this client, while its user is stored under the
    same security stamp and not locked out; it replaces the secret, keeps everything else of
    the grant, and never widens the scopes. The secret rotated away then issues nothing:
    presented again it deletes the grant, or, inside the configured grace, changes nothing.
    A refusal changes nothing or deletes the grant whose current or previous secret was
    presented. *)
Theorem refresh_rotates_grant client f w :
  v_inv (w_store w) →
  wp (refreshGrant s client f) (λ r w',
    (same w w' ∧ refused r)
    ∨ (∃ gid secret g, Cut "." (Values_Get f "refresh_token") = (gid, secret, true)
        ∧ grants_of w !! gid = Some g ∧ Grant_ClientID g = rc_ID client ∧ refused r
        ∧ (hashSecret secret = Grant_TokenHash g ∨ hashSecret secret = PrevTokenHash g)
        ∧ rows_set w w' (set_grants (delete gid (grants_of w)) (v_rows (w_store w))))
    ∨ (∃ gid secret g u scopes i j new,
        let g' := rotate_Grant (Grant_TokenHash g) (hashSecret new) (o_now i + sv_RefreshTokenTTL s) (o_now i) g in
        refreshable w client f gid secret g u scopes (o_now i) (o_now j)
        ∧ rows_set w w' (set_grants (<[gid := g']> (grants_of w)) (v_rows (w_store w)))
        ∧ (∀ tr, r = inl tr → TR_RefreshToken tr = gid +:+ "." +:+ new ∧ TR_Scope tr = joinScopes scopes)
        ∧ ∀ client2 f2 w2, v_inv (w_store w2) → rc_ID client2 = rc_ID client →
            clientAllows client2 GrantTypeRefreshToken = true →
            Values_Get f2 "refresh_token" = Values_Get f "refresh_token" →
            grants_of w2 !! gid = Some g' → hashSecret secret ≠ hashSecret new →
            wp (refreshGrant s client2 f2) (λ r2 w3, refused r2 ∧ ∃ k, (w_step w2 <= k)%nat ∧
              if in_grace s g' (o_now k) then same w2 w3
              else rows_set w2 w3 (set_grants (delete gid (grants_of w2)) (v_rows (w_store w2)))) w2)) w.
Proof.
  intros Hi. apply wp_refreshGrant; [done|by left| |].
  - intros e gid secret g w' Hcut Hg Hcl Hh Hw'. right; left. exists gid, secret, g. done.
  - intros gid secret g u scopes i j new r w' Hi1 Hj1 Hred g' Hw' Hr. right; right.
    exists gid, secret, g, u, scopes, i, j, new. split; [done|]. split; [done|]. split.
    + intros tr ->. destruct Hr as [[? _]|(i' & jti & roles & str & ttl & _ & _ & [= ->])]; [discriminate|]. done.
    + intros client2 f2 w2 Hi2 Hcl Hal Hf2 Hg2 Hne. destruct Hred. destruct rf_shape0 as (Hg0 & Hs0 & Hlen). rewrite <-Hf2 in rf_presented0.
      eapply wp_refresh_replay; [done|done|exact rf_presented0|done|done|done|exact Hg2|by rewrite Hcl|by rewrite rf_hash0|done|].
      intros e k w3 Hk Hw3. split; [exact I|by exists k].
Qed.

Lemma resource_claims_say u g scopes issued jti roles :
  token_claims u g (joinScopes scopes) (resource_claims s u g scopes issued jti roles).
Proof.
  split; [rewrite (resource_claims_lookup s u g scopes issued jti roles "sub" (JStr (ID u)))
    |rewrite (resource_claims_lookup s u g scopes issued jti roles ClaimGrantID (JStr (Grant_ID g)))
    |rewrite (resource_claims_lookup s u g scopes issued jti roles ClaimSecurityStamp (JStr (SecurityStamp u)))
    |rewrite (resource_claims_lookup s u g scopes issued jti roles ClaimScope (JStr (joinScopes scopes)))
    |rewrite (resource_claims_lookup s u g scopes issued jti roles ClaimClientID (JStr (Grant_ClientID g)))]; done.
Qed.

(** The life of an access token of a response, issued at [issued] for the user [u] through
    the grant [g]: in any state, within its validity window, validation for the resource of
    the grant is the verdict on its claims. *)
Definition token_lives (tr : TokenResponse) (u : User) (g : Grant) (issued : Time) : Prop :=
  ∀ resource w2, v_inv (w_store w2) → Grant_Resource g ≠ "" →
    canonicalResource resource = Some (Grant_Resource g) →
    Z.abs (Unix issued) <= 2 ^ 53 → Z.abs (Unix (issued + sv_AccessTokenTTL s)) <= 2 ^ 53 →
    Unix issued * Second <= o_now (w_step w2) < Unix (issued + sv_AccessTokenTTL s) * Second →
    wp (ValidateResourceToken s (TR_AccessToken tr) resource) (λ r w3, same w2 w3 ∧
      ∃ i claims, (w_step w2 <= i)%nat ∧ token_claims u g (TR_Scope tr) claims
        ∧ r = resource_verdict (v_users (w_store w2)) (grants_of w2) (o_now i) claims) w2.

Lemma signed_token_lives `{!JWTLaws} u g scopes issued jti roles str ttl refresh pk :
  SignedString (resource_token s u g scopes issued jti roles) (sg_SignKey (sv_signer s)).2 = Ok str →
  signer_ok (sv_signer s) → public_of (sg_SignKey (sv_signer s)).2 = Some pk →
  token_lives (mkTokenResponse str "Bearer" ttl refresh (joinScopes scopes)) u g issued.
Proof.
  intros Hsign Hok Hpk resource w2 Hi2 Hres Hcan Hx1 Hx2 Hwin.
  eapply wp_validate_issued; try done. intros i w3 Hi3 Hs3. split; [done|].
  exists i, (resource_claims s u g scopes issued jti roles). split; [done|]. split; [|reflexivity].
  apply resource_claims_say.
Qed.

(** C11: the life of an OAuth access token. The access token of a code exchange or of a
    refresh is issued for a stored user through a grant of theirs that is stored when the
    response is sent. In any later state, while it is within its validity window, the
    resource of the grant accepts it exactly if the user is still stored under the same
    security stamp and not locked out and the grant is still stored and theirs: revoking
    the grant, changing the stamp, locking or deleting the user ends it at once. *)
Theorem resource_token_lifecycle `{!JWTLaws} client f pk w :
  v_inv (w_store w) → (∀ i, (w_step w <= i)%nat → grants_of w !! o_uuid i = None) →
  signer_ok (sv_signer s) → public_of (sg_SignKey (sv_signer s)).2 = Some pk →
  let good r w' := ∀ tr, r = inl tr → ∃ u g issued g', v_users (w_store w) !! ID u = Some u
    ∧ grants_of w' !! Grant_ID g = Some g' ∧ Grant_UserID g' = ID u ∧ Grant_Resource g' = Grant_Resource g
    ∧ token_lives tr u g issued in
  wp (exchangeCode s client f) good w ∧ wp (refreshGrant s client f) good w.
Proof.
  intros Hi Hfresh Hok Hpk good.
  assert (∀ id u, v_users (w_store w) !! id = Some u → ID u = id) as Hid by (intros id u Hu; by apply (spec_keyed _ Hi id)).
  split.
  - apply wp_exchangeCode; [done|done|discriminate..|].
    intros c u i j k hash refresh r w' _ _ _ Hred _ g Hw' Hr tr ->.
    destruct Hr as [[? _]|(i' & jti & roles & str & ttl & _ & Hsign & [= ->])]; [discriminate|].
    exists u, g, (o_now i'), g. destruct Hred, rd_held0. pose proof (Hid _ _ ch_user0) as Hu.
    split; [by rewrite Hu|]. split; [|split; [done|]; split; [done|by eapply signed_token_lives]].
    rewrite (rows_set_rows _ _ _ Hw'). unfold exchanged. destruct (rc_CIMD client); cbn; by rewrite lookup_insert_eq.
  - apply wp_refreshGrant; [done|discriminate..|].
    intros gid secret g u scopes i j new r w' _ _ Hred g' Hw' Hr tr ->.
    destruct Hr as [[? _]|(i' & jti & roles & str & ttl & _ & Hsign & [= ->])]; [discriminate|].
    exists u, g, (o_now i'), g'. destruct Hred. pose proof (Hid _ _ rf_user0) as Hu.
    assert (Grant_ID g = gid) as Hg by by apply (spec_grants_keyed _ Hi gid).
    split; [by rewrite Hu|]. split; [|split; [by rewrite Hu|]; split; [done|by eapply signed_token_lives]].
    rewrite (rows_set_rows _ _ _ Hw'), Hg. cbn. by rewrite lookup_insert_eq.
Qed.

(** What an accepted token has shown: signed with the server's algorithm and an accepted
    key, for this issuer and resource, valid now and of the access-token type, naming a
    stored user by id and stamp, not locked out, through a stored grant of theirs. *)
Record token_shown w (res : string) (tok : Token) (u : User) (g : Grant) : Prop := {
  ts_alg : tok_Alg tok = sg_Alg (sv_signer s);
  ts_key : is_ok (sg_Keyfunc (sv_signer s) tok) = true;
  ts_type : EqualFold (as_string (tok_Header tok !! "typ")) TokenTypeAccessJWT = true;
  ts_claims : claims_valid (resource_options s (Some res) true) (o_now (w_step w)) (tok_Claims tok);
  ts_sub : as_string (tok_Claims tok !! "sub") = ID u;
  ts_stamp : as_string (tok_Claims tok !! ClaimSecurityStamp) = SecurityStamp u;
  ts_grant : as_string (tok_Claims tok !! ClaimGrantID) = Grant_ID g;
  ts_user : v_users (w_store w) !! ID u = Some u;
  ts_stored : grants_of w !! Grant_ID g = Some g ∧ Grant_UserID g = ID u;
  ts_unlocked : ∃ i, (w_step w <= i)%nat ∧ locked_at u (o_now i) = false;
}.

(** What an access token accepted at a resource has shown: it was signed with the
    server's algorithm and an accepted key, for this issuer and this resource, is within its
    validity window and of the OAuth access-token type, and names a stored user by id and
    current security stamp, not locked out, through a stored grant of that user. Validation
    changes nothing and never panics. *)
Theorem ValidateResourceToken_sound `{!JWTLaws} token resource w :
  v_inv (w_store w) →
  wp (ValidateResourceToken s token resource) (λ r w', same w w' ∧
    match r with
    | Err e => e = ErrInvalidToken
    | Ok (u, claims) => ∃ res tok g, canonicalResource resource = Some res ∧ tok_Claims tok = claims
        ∧ token_shown w res tok u g
    end) w.
Proof.
  intros Hi. apply wp_ValidateResourceToken; [done|]. intros i w' Hi' Hs. split; [done|].
  destruct (canonicalResource resource) as [res|] eqn:Hcan; [|done].
  destruct (Parse _ _ _ token) as [tok|e] eqn:Hp; [|done]. destruct (EqualFold _ _) eqn:Htyp; [|done].
  unfold resource_verdict. destruct (_ !! as_string (_ !! "sub")) as [u|] eqn:Hu; [|done].
  destruct (_ !! as_string (_ !! ClaimGrantID)) as [g|] eqn:Hg; [|done].
  case_bool_decide as Hb; [|done]. destruct Hb as (Hst & Hl & Hgu & _ & _).
  pose proof (spec_keyed _ Hi _ _ Hu) as Hid. pose proof (spec_grants_keyed _ Hi _ _ Hg) as Hgid. cbn in Hid, Hgid.
  apply Parse_sound in Hp as (Halg & Hkey & Hvalid). apply list_elem_of_singleton in Halg.
  exists res, tok, g. split; [done|]. split; [done|].
  constructor; rewrite ?Hgid, ?Hid; try done; [by rewrite Hgu|by exists i].
Qed.
End properties.
