(* ===== verification/SignOut.v ===== *)
(** * A credential change signs out everywhere

    The parts of the program meet in the security stamp: operations of the user manager
    that change a credential replace it, session access tokens and OAuth grants carry the
    one they were issued under. *)

From S2P Require Import Prelude GoStrings GoBytes GoCrypto GoNet GoUrl Errors World Entities OAuthTypes Stores StoreLaws Hasher.
From S2P Require Import TokenProvider UserManager UserManagerFacts AccountTokens TwoFactor TwoFactorFacts SignIn.
From S2P Require Import Jwt GoHttp OAuthUtil Signer Jwks TokenService TokenServiceFacts OAuthServer OAuthServerFacts.
From S2P Require Import OAuthToken OAuthTokenFacts.

Local Open Scope Z_scope.

Section rotation.
Context `{Oracle} `{UnicodeDB} `{PBKDF2} {S : Type} `{UserStore S, StoreView S, !UserStoreSpec S}.
Context (m : UserManager S) (HS : HasherSpec (Mgr_Hasher m)).
Implicit Types w : World S.

(** Every operation of the user manager that replaces the security stamp of a stored
    account. *)
Inductive credential_change :=
  | cc_ChangePassword (current new : string)
  | cc_ResetPassword (token new : string)
  | cc_AddPassword (new : string)
  | cc_RemovePassword
  | cc_SetUserName (name : string)
  | cc_SetEmail (email : string)
  | cc_ChangeEmail (email token : string)
  | cc_ConvertToRegistered (name email password : string)
  | cc_SetTwoFactorEnabled (enabled : bool)
  | cc_SetPhoneNumber (phone : string)
  | cc_ChangePhoneNumber (phone code : string)
  | cc_UpdateSecurityStamp.

Definition run_change (c : credential_change) (u : User) : M S (User * result unit) :=
  match c with
  | cc_ChangePassword current new => ChangePassword m u current new
  | cc_ResetPassword token new => ResetPassword m u token new
  | cc_AddPassword new => AddPassword m u new
  | cc_RemovePassword => RemovePassword u
  | cc_SetUserName name => SetUserName m u name
  | cc_SetEmail email => SetEmail m u email
  | cc_ChangeEmail email token => ChangeEmail m u email token
  | cc_ConvertToRegistered name email password => ConvertToRegistered m u name email password
  | cc_SetTwoFactorEnabled enabled => SetTwoFactorEnabled u enabled
  | cc_SetPhoneNumber phone => SetPhoneNumber u phone
  | cc_ChangePhoneNumber phone code => ChangePhoneNumber u phone code
  | cc_UpdateSecurityStamp => UpdateSecurityStamp u
  end.

(** The SMS code of a new number is kept in a token slot, under an id without ['|']. *)
Definition change_ok (c : credential_change) (u : User) : Prop :=
  match c with cc_ChangePhoneNumber _ _ => plain (ID u) | _ => True end.

(** Success leaves the copy stored under a stamp of its own. *)
Definition rotated (u : User) (ur : User * result unit) w' : Prop :=
  ur.2 = Ok tt → v_users (w_store w') !! ID u = Some ur.1 ∧ ∃ i, SecurityStamp ur.1 = RawURLEncode (o_read i 20).

Lemma wp_rotate u0 u w : v_inv (w_store w) → ID u0 = ID u →
  wp (stamp ← newStamp; us_Update (set_SecurityStamp stamp u0)) (rotated u) w.
Proof.
  intros Hi Hid. apply wp_stamp_Update; [done|..].
  - intros i j w' _ _ _ u' Hm _. cbn [fst]. split; [|by exists i]. rewrite <-Hid. exact (row_set_lookup _ _ _ Hm).
  - intros i e w' _ _ _. discriminate.
Qed.

Lemma wp_store_rotate u0 u pw w : v_inv (w_store w) → ID u0 = ID u → wp (store_password m u0 pw) (rotated u) w.
Proof.
  intros Hi Hid. apply (wp_store_password m HS); [done|..].
  - intros h i j w' _ _ _ _ u' Hm _. cbn [fst]. split; [|by exists i]. rewrite <-Hid. exact (row_set_lookup _ _ _ Hm).
  - intros u' e w' _ _ _. discriminate.
Qed.

Lemma wp_email_rotate u e (k : M S (User * result unit)) w : v_inv (w_store w) →
  (∀ w1, v_inv (w_store w1) → wp k (rotated u) w1) →
  wp (clash ← email_taken m u e; match clash with Some err => mret (u, Err err) | None => k end) (rotated u) w.
Proof.
  intros Hi Hk. unfold email_taken. rewrite wp_bind. case_if Hu; wp_steps; [|by apply Hk].
  wp_call spec_FindByEmail; [done|]. intros r w1 [Hs _]. wp_steps.
  destruct (lookup_clash _ _ _); [by wp_steps|]. apply Hk. exact (same_inv _ _ Hs).
Qed.

Lemma wp_name_rotate u n f (k : M S (User * result unit)) w : v_inv (w_store w) →
  (∀ w1, v_inv (w_store w1) → wp k (rotated u) w1) →
  wp (r ← us_FindByName n; match lookup_clash r f ErrDuplicateUserName with
      | Some err => mret (u, Err err) | None => k end) (rotated u) w.
Proof.
  intros Hi Hk. rewrite wp_bind. wp_call spec_FindByName; [done|]. intros r w1 [Hs _].
  destruct (lookup_clash _ _ _); [by wp_steps|]. apply Hk. exact (same_inv _ _ Hs).
Qed.

Lemma wp_token_rotate u purpose token (k : M S (User * result unit)) w : v_inv (w_store w) →
  (∀ w1, v_inv (w_store w1) → wp k (rotated u) w1) →
  wp (ok ← Tokens_Validate m purpose token u; if negb ok then mret (u, Err ErrInvalidToken) else k) (rotated u) w.
Proof.
  intros Hi Hk. rewrite wp_bind. apply wp_Tokens_Validate; [done|]. intros b w1 Hs _.
  destruct b; cbn [negb]; [|by wp_steps]. apply Hk. exact (same_inv _ _ Hs).
Qed.

Lemma wp_ChangePassword_rotates u cur new w : v_inv (w_store w) → wp (ChangePassword m u cur new) (rotated u) w.
Proof.
  intros Hi. unfold ChangePassword. rewrite wp_bind. apply (wp_CheckPassword m HS); [done|..].
  - intros w1 Hs. destruct (negb _ && _); [|by wp_steps]. cbn [negb].
    destruct (ValidatePassword _ _); [|by wp_steps]. apply wp_store_rotate; [exact (same_inv _ _ Hs)|done].
  - intros h i w1 _ _ _ _ u' Hm. cbn [negb].
    destruct (ValidatePassword _ _); [|by wp_steps]. apply wp_store_rotate; [exact (row_set_inv _ _ _ Hm)|done].
  - intros h w1 _ _ _ _ Hs. cbn [negb].
    destruct (ValidatePassword _ _); [|by wp_steps]. apply wp_store_rotate; [exact (same_inv _ _ Hs)|done].
Qed.

Lemma wp_ConvertToRegistered_rotates u n e pw w :
  v_inv (w_store w) → wp (ConvertToRegistered m u n e pw) (rotated u) w.
Proof.
  intros Hi. unfold ConvertToRegistered. destruct (negb _); [by wp_steps|].
  destruct (ValidateUserName _ _); [|by wp_steps]. destruct (ValidatePassword _ _); [|by wp_steps].
  apply wp_name_rotate; [done|]. intros w1 Hi1. apply wp_email_rotate; [done|]. intros w2 Hi2.
  rewrite wp_bind. wp_call (h_Hash HS); [done|]. intros h w3 (Hs & _).
  by apply wp_rotate; [exact (same_inv _ _ Hs)|].
Qed.

Lemma wp_ChangePhoneNumber_rotates u phone code w :
  v_inv (w_store w) → plain (ID u) → wp (ChangePhoneNumber u phone code) (rotated u) w.
Proof.
  intros Hi Hp. unfold ChangePhoneNumber. rewrite wp_bind. apply wp_consumePhoneCode_any; [done..|].
  intros [[]|e] w1 Hw1; [|by wp_steps..].
  apply wp_rotate; [|done]. destruct Hw1 as [Hs|[v Hm]]; [exact (same_inv _ _ Hs)|exact (slot_set_inv _ _ _ _ _ Hm)].
Qed.

Lemma wp_change_rotates c u w : v_inv (w_store w) → change_ok c u → wp (run_change c u) (rotated u) w.
Proof.
  intros Hi Hok. destruct c as [cur new|token new|new| |name|email|email token|name email pw| | |phone code|];
    cbn [run_change change_ok] in *; try by apply wp_rotate.
  - by apply wp_ChangePassword_rotates.
  - apply wp_token_rotate; [done|]. intros w1 Hi1.
    destruct (ValidatePassword _ _); [|by wp_steps]. by apply wp_store_rotate.
  - unfold AddPassword. destruct (HasPassword u); [by wp_steps|].
    destruct (ValidatePassword _ _); [|by wp_steps]. by apply wp_store_rotate.
  - unfold SetUserName. destruct (ValidateUserName _ _); [|by wp_steps].
    apply wp_name_rotate; [done|]. intros. by apply wp_rotate.
  - apply wp_email_rotate; [done|]. intros. by apply wp_rotate.
  - apply wp_token_rotate; [done|]. intros w1 Hi1. apply wp_email_rotate; [done|]. intros. by apply wp_rotate.
  - by apply wp_ConvertToRegistered_rotates.
  - by apply wp_ChangePhoneNumber_rotates.
Qed.
End rotation.

Section sign_out.
Context `{Oracle} `{UnicodeDB} `{PBKDF2} `{PublicKeys} {S : Type} `{UserStore S, OAuthStore S, StoreView S}.
Context `{!UserStoreSpec S, !OAuthStoreSpec S}.
Context (m : UserManager S) (HS : HasherSpec (Mgr_Hasher m)) (t : TokenService S) (s : Server S).
Implicit Types w : World S.

(** No access token issued to the account under the stamp [old] is among what [validate]
    accepts. *)
Definition refuses_stamp (validate : M S (result (User * MapClaims))) (id old : string) w : Prop :=
  wp validate (λ r w', same w w' ∧ ∀ v claims, r = Ok (v, claims) → ID v = id →
    as_string (claims !! ClaimSecurityStamp) ≠ old) w.

Lemma ValidateAccessToken_refuses str id old w :
  v_inv (w_store w) → (∀ v, v_users (w_store w) !! id = Some v → SecurityStamp v ≠ old) →
  refuses_stamp (ValidateAccessToken t str) id old w.
Proof.
  intros Hi Hold. apply wp_ValidateAccessToken; [done|intros w' Hs; by split|].
  intros tok v w' _ _ Hv Hst Hs. split; [done|]. intros v' claims [= <- <-] Hid. rewrite Hst. apply Hold.
  pose proof (spec_keyed _ Hi _ _ Hv) as Hk. cbn in Hk. by rewrite <-Hid, Hk.
Qed.

Lemma ValidateResourceToken_refuses str res id old w :
  v_inv (w_store w) → (∀ v, v_users (w_store w) !! id = Some v → SecurityStamp v ≠ old) →
  refuses_stamp (ValidateResourceToken s str res) id old w.
Proof.
  intros Hi Hold. apply wp_ValidateResourceToken; [done|]. intros i w' _ Hs. split; [done|]. intros v claims Hr Hid.
  destruct (canonicalResource res) as [r|]; [|discriminate]. destruct (Parse _ _ _ str) as [tok|]; [|discriminate].
  destruct (EqualFold _ _); [|discriminate]. unfold resource_verdict in Hr.
  destruct (_ !! as_string (_ !! "sub")) as [v'|] eqn:Hv; [|discriminate].
  destruct (_ !! as_string (_ !! ClaimGrantID)); [|discriminate]. case_bool_decide as Hb; [|discriminate].
  injection Hr as -> <-. destruct Hb as [-> _]. apply Hold.
  pose proof (spec_keyed _ Hi _ _ Hv) as Hk. cbn in Hk. by rewrite <-Hid, Hk.
Qed.

Lemma refreshGrant_refuses client f gid secret g w :
  v_inv (w_store w) → Cut "." (Values_Get f "refresh_token") = (gid, secret, true) → grants_of w !! gid = Some g →
  (∀ v, v_users (w_store w) !! Grant_UserID g = Some v → SecurityStamp v ≠ Grant_SecurityStamp g) →
  wp (refreshGrant s client f) (λ r w', refused r ∧ grants_of w' ⊆ grants_of w) w.
Proof.
  intros Hi Hcut Hg Hold. apply wp_refreshGrant; [done|..].
  - intros e w' Hs. split; [done|]. by rewrite (same_rows _ _ Hs).
  - intros e gid' secret' g' w' _ _ _ _ Hw'. split; [done|]. rewrite (rows_set_rows _ _ _ Hw'). apply delete_subseteq.
  - intros gid' secret' g' v scopes i j new r w' _ _ Hred _ _ _. destruct Hred. rewrite Hcut in rf_presented.
    injection rf_presented as <- <-. rewrite Hg in rf_grant. injection rf_grant as <-. by destruct (Hold _ rf_user).
Qed.

(** C12: a credential change signs out. Once a password, name, email address or phone
    number is changed, the second factor switched, a guest registered or the stamp replaced
    (every operation of the user manager that rotates the stamp), the account is stored
    under a new security stamp; while it keeps that stamp, in any later state, no session
    access token and no OAuth access token that was issued to it under the old one is
    accepted, at any resource and at any time, and no grant authorized under the old one is
    refreshed: the attempt is refused and can only end the grant. (The refresh tokens of
    sessions do not carry the stamp; they end with [Revoke].) *)
Theorem credential_change_signs_out c u w :
  v_inv (w_store w) → change_ok c u → (∀ i, RawURLEncode (o_read i 20) ≠ SecurityStamp u) →
  wp (run_change m c u) (λ ur w1, ur.2 = Ok tt → v_users (w_store w1) !! ID u = Some ur.1 ∧
    ∀ w2, v_inv (w_store w2) →
      (∀ v, v_users (w_store w2) !! ID u = Some v → SecurityStamp v = SecurityStamp ur.1) →
      (∀ str, refuses_stamp (ValidateAccessToken t str) (ID u) (SecurityStamp u) w2)
      ∧ (∀ str resource, refuses_stamp (ValidateResourceToken s str resource) (ID u) (SecurityStamp u) w2)
      ∧ ∀ client f gid secret g, Cut "." (Values_Get f "refresh_token") = (gid, secret, true) →
          grants_of w2 !! gid = Some g → Grant_UserID g = ID u → Grant_SecurityStamp g = SecurityStamp u →
          wp (refreshGrant s client f) (λ r w3, refused r ∧ grants_of w3 ⊆ grants_of w2) w2) w.
Proof.
  intros Hi Hok0 Hfresh. eapply wp_mono; [by apply (wp_change_rotates m HS)|]. intros ur w1 Hr Hok.
  destruct (Hr Hok) as [Hu [i Hst]]. split; [done|]. intros w2 Hi2 Hkept.
  assert (∀ v, v_users (w_store w2) !! ID u = Some v → SecurityStamp v ≠ SecurityStamp u) as Hold
    by (intros v Hv; by rewrite (Hkept v Hv), Hst).
  split_and!; [by intros; apply ValidateAccessToken_refuses|by intros; apply ValidateResourceToken_refuses|].
  intros client f gid secret g Hcut Hg Huid Hgst. eapply refreshGrant_refuses; [done..|]. by rewrite Huid, Hgst.
Qed.
End sign_out.
