(* ===== verification/OAuthProtocol.v ===== *)
(** * The token endpoint refines an abstract protocol

    Codes and grants as an authorization server without strings, clocks or errors sees
    them: a code is an authorization, unused or spent on one grant; a grant carries the
    authorization of its code and a current secret.  Requests to the token endpoint, in any
    sequence and with any outcome, only take steps of the abstract protocol, whose
    invariant then holds of the store. *)

From S2P Require Import Prelude GoStrings GoBytes GoCrypto GoNet GoUrl Errors World Entities OAuthTypes Stores.
From S2P Require Import StoreLaws UserManager SignIn Jwt GoHttp OAuthUtil Signer Jwks TokenService.
From S2P Require Import OAuthServer OAuthServerFacts OAuthToken OAuthTokenFacts.

Local Open Scope Z_scope.

(** ** The abstract protocol *)

(** Who authorized which client for what. *)
Record auth := mkAuth { au_user : string; au_client : string; au_scopes : string; au_resource : string }.

(** Codes by hash, unused or spent on a grant; live grants with the hash of their secret. *)
Record protocol := mkProtocol {
  pr_codes : gmap string (auth * option string);
  pr_live : gmap string (auth * string);
}.

Inductive pstep : protocol → protocol → Prop :=
  (** an unused code is spent on a new grant with its authorization *)
  | step_redeem C L h a gid sec :
      C !! h = Some (a, None) → L !! gid = None → (∀ h' a', C !! h' ≠ Some (a', Some gid)) →
      pstep (mkProtocol C L) (mkProtocol (<[h := (a, Some gid)]> C) (<[gid := (a, sec)]> L))
  (** a refresh replaces the secret of a live grant *)
  | step_rotate C L gid a sec sec' :
      L !! gid = Some (a, sec) → pstep (mkProtocol C L) (mkProtocol C (<[gid := (a, sec')]> L))
  (** codes expire; grants expire, are revoked or end with the replay of a code or secret *)
  | step_forget C L C' L' : C' ⊆ C → L' ⊆ L → pstep (mkProtocol C L) (mkProtocol C' L').

(** A grant is spent by one code only and carries exactly its authorization. *)
Definition pinv (p : protocol) : Prop :=
  (∀ h1 h2 a1 a2 gid, pr_codes p !! h1 = Some (a1, Some gid) → pr_codes p !! h2 = Some (a2, Some gid) → h1 = h2)
  ∧ ∀ h a gid a' sec, pr_codes p !! h = Some (a, Some gid) → pr_live p !! gid = Some (a', sec) → a' = a.

Lemma pstep_inv p p' : pstep p p' → pinv p → pinv p'.
Proof.
  intros [C L h a gid sec Hh Hg Hn|C L gid a sec sec' Hg|C L C' L' HC HL] [Hu Ha]; split; cbn in *.
  - intros h1 h2 a1 a2 g H1 H2.
    apply lookup_insert_Some in H1 as [[<- H1]|[Hne1 H1]], H2 as [[<- H2]|[Hne2 H2]]; simplify_eq; [done| | |by eapply Hu];
      by destruct (Hn _ _ ltac:(eassumption)).
  - intros h1 a1 g a2 sec2 H1 H2.
    apply lookup_insert_Some in H1 as [[<- H1]|[Hne1 H1]], H2 as [[<- H2]|[Hne2 H2]]; simplify_eq; [done| |by eapply Ha].
    by destruct (Hn _ _ H1).
  - done.
  - intros h1 a1 g a2 sec2 H1 [[<- [= <- _]]|[_ H2]]%lookup_insert_Some; by eapply Ha.
  - intros h1 h2 a1 a2 g H1 H2. eapply Hu; by eapply lookup_weaken.
  - intros h1 a1 g a2 sec2 H1 H2. eapply Ha; by eapply lookup_weaken.
Qed.

Lemma psteps_inv p p' : rtc pstep p p' → pinv p → pinv p'.
Proof. induction 1; eauto using pstep_inv. Qed.

(** ** The abstraction *)

Definition auth_of_code (c : Code) : auth := mkAuth (Code_UserID c) (Code_ClientID c) (Code_Scopes c) (Code_Resource c).
Definition auth_of_grant (g : Grant) : auth := mkAuth (Grant_UserID g) (Grant_ClientID g) (Grant_Scopes g) (Grant_Resource g).
Definition abs_code (c : Code) : auth * option string :=
  (auth_of_code c, match UsedAt c with Some _ => Some (Code_GrantID c) | None => None end).
Definition abs_grant (g : Grant) : auth * string := (auth_of_grant g, Grant_TokenHash g).
Definition abs_rows (O : ORows) : protocol := mkProtocol (abs_code <$> r_codes O) (abs_grant <$> r_grants O).

(** Deleting grants or codes is forgetting. *)
Lemma abs_subset O O' : r_codes O' ⊆ r_codes O → r_grants O' ⊆ r_grants O → pstep (abs_rows O) (abs_rows O').
Proof. intros HC HG. apply step_forget; cbn; by apply map_fmap_mono. Qed.

(** ** Requests *)

Section requests.
Context `{Oracle} `{UnicodeDB} `{PublicKeys} {S : Type} `{UserStore S, OAuthStore S, StoreView S}.
Context `{!UserStoreSpec S, !OAuthStoreSpec S} (s : Server S).
Implicit Types w : World S.

(** What reaches the token endpoint once the client is authenticated, and the management
    operations of the application. *)
Inductive request :=
  | req_exchange (client : resolvedClient) (f : Values)
  | req_refresh (client : resolvedClient) (f : Values)
  | req_revoke (client : resolvedClient) (token : string)
  | req_revoke_grant (userID grantID : string)
  | req_purge.

Definition run_request (q : request) : M S unit :=
  match q with
  | req_exchange client f => _ ← exchangeCode s client f; mret tt
  | req_refresh client f => _ ← refreshGrant s client f; mret tt
  | req_revoke client token => revoke_token s client token
  | req_revoke_grant userID grantID => _ ← RevokeGrant userID grantID; mret tt
  | req_purge => _ ← PurgeExpired; mret tt
  end.
Definition run_requests (l : list request) : M S unit := foldr (λ q k, _ ← run_request q; k) (mret tt) l.

(** New ids are not in the store. *)
Definition ids_fresh w : Prop := ∀ i, (w_step w <= i)%nat →
  grants_of w !! o_uuid i = None ∧ ∀ h c, codes_of w !! h = Some c → UsedAt c ≠ None → Code_GrantID c ≠ o_uuid i.

(** One concrete step. *)
Definition refines w w' : Prop :=
  v_inv (w_store w') ∧ ids_fresh w' ∧ pstep (abs_rows (v_rows (w_store w))) (abs_rows (v_rows (w_store w'))).

Lemma refines_subset w w' O : rows_set w w' O → ids_fresh w → r_codes O ⊆ codes_of w → r_grants O ⊆ grants_of w →
  refines w w'.
Proof.
  intros Hw Hf HC HG. split_and!; [exact (rows_set_inv _ _ _ Hw)| |rewrite (rows_set_rows _ _ _ Hw); by apply abs_subset].
  intros i Hi. pose proof (rows_set_step _ _ _ Hw). destruct (Hf i) as [Hg Hc]; [lia|]. rewrite (rows_set_rows _ _ _ Hw). split.
  - by eapply lookup_weaken_None.
  - intros h c Hh Hu. eapply Hc; [by eapply lookup_weaken|done].
Qed.

Lemma refines_same w w' : same w w' → ids_fresh w → refines w w'.
Proof. intros Hs Hf. by apply (refines_subset _ _ _ (same_omoves _ _ Hs) Hf). Qed.

Lemma refines_delete w w' gid : rows_set w w' (set_grants (delete gid (grants_of w)) (v_rows (w_store w))) → ids_fresh w →
  refines w w'.
Proof. intros Hw Hf. apply (refines_subset _ _ _ Hw Hf); cbn; [done|apply delete_subseteq]. Qed.

Lemma refines_revoked w w' gid : rows_set w w' (revoked gid (v_rows (w_store w))) → ids_fresh w → refines w w'.
Proof.
  unfold revoked. destruct (String.eqb gid ""); [|apply refines_delete].
  intros Hw Hf. by apply (refines_subset _ _ _ Hw Hf).
Qed.

Context (Hinj : Inj (=) (=) (o_uuid : nat → string)).

Lemma refines_exchange client c u f t t' k hash w w' :
  v_inv (w_store w) → ids_fresh w → redeemable w client f c u t t' → (w_step w <= k < w_step w')%nat →
  rows_set w w' (exchanged (v_rows (w_store w)) client c (new_grant s client c u (o_uuid k) hash t) t) →
  refines w w'.
Proof.
  intros Hi Hf [[_ [_ Hc] Hunused Hu] Hsh _] Hk Hw. pose proof (spec_codes_keyed _ Hi _ _ Hc) as Hch. cbn in Hch.
  pose proof (spec_keyed _ Hi _ _ Hu) as Hid. cbn in Hid. rewrite <-Hch in Hc.
  set (g := new_grant s client c u (o_uuid k) hash t) in *.
  assert (r_codes (v_rows (w_store w')) = <[CodeHash c := mark_Code t (o_uuid k) c]> (codes_of w)
    ∧ r_grants (v_rows (w_store w')) = <[o_uuid k := g]> (grants_of w)) as [HC HG].
  { rewrite (rows_set_rows _ _ _ Hw). unfold exchanged. by destruct (rc_CIMD client). }
  destruct (Hf k) as [Hgk Hck]; [lia|]. split; [exact (rows_set_inv _ _ _ Hw)|]. split.
  - intros i Hi'. rewrite HC, HG. destruct (Hf i) as [Hgi Hci]; [lia|].
    assert (o_uuid k ≠ o_uuid i) as Hne by (intros Heq%Hinj; lia). split; [by rewrite lookup_insert_ne|].
    intros h c' [[_ <-]|[_ Hh]]%lookup_insert_Some Hu'; [done|by eapply Hci].
  - unfold abs_rows. rewrite HC, HG, !fmap_insert.
    assert (abs_code (mark_Code t (o_uuid k) c) = (auth_of_code c, Some (o_uuid k))) as -> by done.
    assert (abs_grant g = (auth_of_code c, hash)) as ->.
    { unfold abs_grant, auth_of_grant, auth_of_code, g. cbn. by rewrite Hid, (shown_client _ _ _ _ Hsh). }
    apply step_redeem.
    + rewrite lookup_fmap, Hc. unfold abs_code. cbn. by rewrite Hunused.
    + by rewrite lookup_fmap, Hgk.
    + intros h' a'. rewrite lookup_fmap. destruct (codes_of w !! h') as [c'|] eqn:Hc'; [|done]. cbn. unfold abs_code.
      destruct (UsedAt c') eqn:Hu'; [|done]. intros [= _ Heq]. eapply Hck; [exact Hc'|by rewrite Hu'|done].
Qed.

Lemma refines_rotate gid g old new t t' w w' :
  ids_fresh w → grants_of w !! gid = Some g →
  rows_set w w' (set_grants (<[gid := rotate_Grant old new t t' g]> (grants_of w)) (v_rows (w_store w))) → refines w w'.
Proof.
  intros Hf Hg Hw. split; [exact (rows_set_inv _ _ _ Hw)|]. unfold ids_fresh. rewrite (rows_set_rows _ _ _ Hw). cbn. split.
  - intros i Hi. pose proof (rows_set_step _ _ _ Hw). destruct (Hf i) as [Hgi Hci]; [lia|]. split; [|done].
    rewrite lookup_insert_ne; [done|]. intros ->. congruence.
  - unfold abs_rows. cbn. rewrite fmap_insert. change (abs_grant (rotate_Grant old new t t' g)) with (auth_of_grant g, new).
    eapply step_rotate. by rewrite lookup_fmap, Hg.
Qed.

Lemma wp_revoke_token client token w (Q : unit → World S → Prop) :
  v_inv (w_store w) → (∀ w', same w w' → Q tt w') →
  (∀ gid g w', grants_of w !! gid = Some g → Grant_ClientID g = rc_ID client →
    rows_set w w' (set_grants (delete gid (grants_of w)) (v_rows (w_store w))) → Q tt w') →
  wp (revoke_token s client token) Q w.
Proof.
  intros Hi HS HD. unfold revoke_token. rewrite wp_bind.
  assert (wp (grantIDOf s token) (λ _ w1, same w w1) w) as Hgid.
  { unfold grantIDOf. destruct (Cut "." token) as [[gid secret] ok]. destruct (ok && _); wp_steps; [|by apply same_tick].
    wp_call spec_GetGrant; [done|]. by intros r w1 [Hs _]. }
  eapply wp_mono; [exact Hgid|]. intros gid w1 Hs1. destruct (String.eqb gid ""); [wp_steps; by apply HS|].
  wp_steps. wp_call spec_GetGrant; [exact (same_inv _ _ Hs1)|]. intros r w2 [Hs2 ->].
  pose proof (same_trans _ _ _ Hs1 Hs2) as Hs. rewrite (same_rows _ _ Hs1).
  destruct (grants_of w !! gid) as [g|] eqn:Hg; [|wp_steps; by apply HS].
  destruct (String.eqb_spec (Grant_ClientID g) (rc_ID client)); [|wp_steps; by apply HS].
  wp_steps. wp_call spec_DeleteGrant; [exact (same_inv _ _ Hs)|]. intros r w3 [_ Hw3]. wp_steps.
  rewrite (same_rows _ _ Hs) in Hw3. eapply HD; [exact Hg|done|by eapply rows_set_after].
Qed.

Lemma wp_PurgeExpired w (Q : result (Z * Z) → World S → Prop) :
  v_inv (w_store w) →
  (∀ r O w', rows_set w w' O → r_codes O ⊆ codes_of w → r_grants O ⊆ grants_of w → Q r w') →
  wp (PurgeExpired (S := S)) Q w.
Proof.
  intros Hi HQ. unfold PurgeExpired. wp_steps. pose proof (same_tick w Hi) as Ht.
  wp_call spec_DeleteExpiredCodes; [done|]. intros r w1 [-> Hw1]. wp_steps.
  wp_call spec_DeleteExpiredGrants; [exact (rows_set_inv _ _ _ Hw1)|]. intros r w2 [-> Hw2]. wp_steps.
  wp_call spec_DeleteExpiredClientAssertions; [exact (rows_set_inv _ _ _ Hw2)|]. intros r w3 [-> Hw3]. wp_steps.
  pose proof (rows_set_trans _ _ _ _ _ Hw2 Hw3) as Hw.
  rewrite (rows_set_rows _ _ _ Hw2), (rows_set_rows _ _ _ Hw1) in Hw.
  eapply HQ; [eapply rows_set_after; [exact Ht|]; eapply rows_set_trans; [exact Hw1|exact Hw]|..]; cbn; apply map_filter_subseteq.
Qed.

(** Every request takes one step of the protocol. *)
Lemma wp_run_request q w : v_inv (w_store w) → ids_fresh w → wp (run_request q) (λ _ w', refines w w') w.
Proof.
  intros Hi Hf. destruct q as [client f|client f|client token|uid gid|]; cbn [run_request]; rewrite ?wp_bind.
  - apply wp_exchangeCode; [done|intros i Hi'; by apply Hf|..].
    + intros e w' Hs _. wp_steps. by apply refines_same.
    + intros c e w' _ _ Hw'. wp_steps. by eapply refines_revoked.
    + intros c u i j k hash refresh r w' _ _ Hk Hred _ g Hw' _. wp_steps. by eapply refines_exchange.
  - apply wp_refreshGrant; [done|intros e w' Hs; wp_steps; by apply refines_same|..].
    + intros e gid secret g w' _ _ _ _ Hw'. wp_steps. by eapply refines_delete.
    + intros gid secret g u scopes i j new r w' _ _ Hred g' Hw' _. wp_steps. destruct Hred. by eapply refines_rotate.
  - apply wp_revoke_token; [done|intros w' Hs; by apply refines_same|]. intros gid g w' _ _ Hw'. by eapply refines_delete.
  - unfold RevokeGrant. wp_steps. wp_call spec_GetGrant; [done|]. intros r w1 [Hs ->].
    destruct (grants_of w !! gid) as [g|]; [|wp_steps; by apply refines_same].
    destruct (negb _); [wp_steps; by apply refines_same|]. wp_call spec_DeleteGrant; [exact (same_inv _ _ Hs)|].
    intros r w2 [_ Hw2]. wp_steps. rewrite (same_rows _ _ Hs) in Hw2. eapply refines_delete; [by eapply rows_set_after|done].
  - apply wp_PurgeExpired; [done|]. intros r O w' Hw' HC HG. wp_steps. by eapply refines_subset.
Qed.

(** C2: the token endpoint refines the abstract protocol. Any sequence of code exchanges,
    refreshes, revocations and garbage collections, by any clients and with any outcome,
    runs to its end, and its effect on codes and grants is a run of the protocol; so in
    every state it reaches, a grant was spent by at most one code, and it carries exactly
    that code's user, client, scopes and resource. *)
Theorem requests_refine_protocol l w :
  v_inv (w_store w) → ids_fresh w → pinv (abs_rows (v_rows (w_store w))) →
  wp (run_requests l) (λ _ w', rtc pstep (abs_rows (v_rows (w_store w))) (abs_rows (v_rows (w_store w')))
    ∧ ∀ h c g, codes_of w' !! h = Some c → UsedAt c ≠ None → grants_of w' !! Code_GrantID c = Some g →
        auth_of_grant g = auth_of_code c
        ∧ ∀ h2 c2, codes_of w' !! h2 = Some c2 → UsedAt c2 ≠ None → Code_GrantID c2 = Code_GrantID c → h2 = h) w.
Proof.
  intros Hi Hf Hp.
  enough (wp (run_requests l) (λ _ w', rtc pstep (abs_rows (v_rows (w_store w))) (abs_rows (v_rows (w_store w')))) w) as Hrun.
  { eapply wp_mono; [exact Hrun|]. intros [] w' Hr. split; [done|]. apply (psteps_inv _ _ Hr) in Hp as [Huniq Hauth].
    intros h c g Hc Hu Hg. destruct (UsedAt c) as [t|] eqn:Huc; [|done].
    assert (abs_code c = (auth_of_code c, Some (Code_GrantID c))) as Hac by (unfold abs_code; by rewrite Huc).
    split.
    - eapply (Hauth h _ (Code_GrantID c) _ (Grant_TokenHash g)); cbn; [by rewrite lookup_fmap, Hc; cbn; rewrite Hac|].
      by rewrite lookup_fmap, Hg.
    - intros h2 c2 Hc2 Hu2 Hid. eapply (Huniq h2 h _ _ (Code_GrantID c)); cbn; rewrite lookup_fmap, ?Hc, ?Hc2; cbn; [|by rewrite Hac].
      unfold abs_code. destruct (UsedAt c2); [by rewrite Hid|done]. }
  clear Hp. revert w Hi Hf. induction l as [|q l IH]; intros w Hi Hf; cbn [run_requests foldr]; [wp_steps; constructor|].
  rewrite wp_bind. eapply wp_mono; [by apply wp_run_request|]. intros [] w1 (Hi1 & Hf1 & Hs1).
  eapply wp_mono; [by apply IH|]. intros [] w2 Hs2. by eapply rtc_l.
Qed.
End requests.
