(* ===== verification/OAuthConcurrency.v ===== *)
(** * Concurrent requests to the token endpoint

    The two grants of [oauth/token.go] as sequences of store calls, clock readings and
    random draws, each atomic, run side by side by any number of requests and with anything
    else going on in between: of the requests that present one code, or one refresh token,
    at most one gets tokens. *)

From S2P Require Import Prelude GoStrings GoBytes GoCrypto GoNet GoUrl Errors World Interleaving Entities OAuthTypes.
From S2P Require Import Stores StoreLaws UserManager SignIn Jwt GoHttp OAuthUtil Signer Jwks TokenService.
From S2P Require Import OAuthServer OAuthServerFacts OAuthToken OAuthTokenFacts.

Local Open Scope Z_scope.

Section steps.
Context `{Oracle} `{UnicodeDB} `{PublicKeys} {S : Type} `{UserStore S} `{OAuthStore S}.
Context (s : Server S).

(** ** The handlers step by step *)

Definition available_user_steps (id : string) : prog S (option User) :=
  r ← step (FindByID id);
  match r with
  | Ok (Some u) => locked ← step (UserManager.IsLockedOut u); mret (if locked : bool then None else Some u)
  | _ => mret None
  end.

Definition signAccessToken_steps (u : User) (g : Grant) (scopes : list string) : prog S (result (string * Time)) :=
  issued ← step now;
  jti ← step newID;
  roles ← step (GetRoles u);
  let exp := Add issued (sv_AccessTokenTTL s) in
  mret match SignedString (resource_token s u g scopes issued jti roles) (sg_SignKey (sv_signer s)).2 with
       | Err e => Err e
       | Ok signed => Ok (signed, exp)
       end.

Definition tokenResponse_steps (u : User) (g : Grant) (scopes : list string) (refresh : string)
    : prog S (oresult TokenResponse) :=
  r ← signAccessToken_steps u g scopes;
  match r with
  | Err _ => mret (inr (errServer "could not sign access token"))
  | Ok (at_, exp) =>
    t ← step now;
    mret (inl (mkTokenResponse at_ "Bearer" (Seconds (Sub exp t)) refresh (joinScopes scopes)))
  end.

Definition exchange_steps (client : resolvedClient) (f : Values) : prog S (oresult TokenResponse) :=
  if negb (clientAllows client GrantTypeAuthorizationCode) then
    mret (inr (oerr StatusBadRequest "unauthorized_client" "client may not use this grant"))
  else
  let raw := Values_Get f "code" in
  if String.eqb raw "" then mret (inr (errInvalidRequest "code is required")) else
  let hash := hashSecret raw in
  r ← step (os_GetCode hash);
  match r with
  | Err e => mret (inr (if ErrorsIs e ErrNotFound then errInvalidGrant "invalid authorization code"
                        else errServer "code lookup failed"))
  | Ok code =>
    at_ ← step now;
    if bool_decide (UsedAt code ≠ None) then
      _ ← step (if negb (String.eqb (Code_GrantID code) "") then os_DeleteGrant (Code_GrantID code) else mret (Ok tt));
      mret (inr (errInvalidGrant "authorization code already used"))
    else
    match check_code client f code at_ with
    | Some e => mret (inr e)
    | None =>
    ou ← available_user_steps (Code_UserID code);
    match ou with
    | None => mret (inr (errInvalidGrant "the authorizing user is not available"))
    | Some u =>
    grantID ← step newID;
    won ← step (os_MarkCodeUsed hash grantID at_);
    match won with
    | Err _ => mret (inr (errServer "could not redeem code"))
    | Ok false =>
      c ← step (os_GetCode hash);
      _ ← step (match c with
                | Ok c => if negb (String.eqb (Code_GrantID c) "") then os_DeleteGrant (Code_GrantID c) else mret (Ok tt)
                | Err _ => mret (Ok tt)
                end);
      mret (inr (errInvalidGrant "authorization code already used"))
    | Ok true =>
      let scopes := parseScopes (Code_Scopes code) in
      let g hash := mkGrant grantID (ID u) (rc_ID client) (Code_Scopes code) (Code_Resource code) hash ""
        (SecurityStamp u) (Add at_ (sv_RefreshTokenTTL s)) at_ None in
      '(g, refresh) ← step (if issuesRefresh s client scopes then
                              secret ← randomSecret 32;
                              mret (g (hashSecret secret), grantID +:+ "." +:+ secret)
                            else mret (g "", ""));
      r ← step (os_CreateGrant g);
      match r with
      | Err _ => mret (inr (errServer "could not create grant"))
      | Ok _ =>
        _ ← step (if rc_CIMD client then mret (Ok tt) else os_TouchClient (rc_ID client) at_);
        tokenResponse_steps u g scopes refresh
      end
    end
    end
    end
  end.

Definition refresh_steps (client : resolvedClient) (f : Values) : prog S (oresult TokenResponse) :=
  if negb (clientAllows client GrantTypeRefreshToken) then
    mret (inr (oerr StatusBadRequest "unauthorized_client" "client may not use this grant"))
  else
  let '(gid, secret, ok) := Cut "." (Values_Get f "refresh_token") in
  if negb ok || String.eqb gid "" || String.eqb secret "" || (64 <? len gid) then
    mret (inr (errInvalidGrant "invalid refresh token"))
  else
  r ← step (os_GetGrant gid);
  match r with
  | Err e => mret (inr (if ErrorsIs e ErrNotFound then errInvalidGrant "invalid refresh token"
                        else errServer "grant lookup failed"))
  | Ok g =>
    if negb (String.eqb (Grant_ClientID g) (rc_ID client)) then
      mret (inr (errInvalidGrant "refresh token was issued to another client"))
    else
    at_ ← step now;
    let presented := hashSecret secret in
    if String.eqb (Grant_TokenHash g) "" || negb (constEq presented (Grant_TokenHash g)) then
      if negb (String.eqb (PrevTokenHash g) "") && constEq presented (PrevTokenHash g) then
        _ ← step (if negb (in_grace s g at_) then os_DeleteGrant (Grant_ID g) else mret (Ok tt));
        mret (inr (errInvalidGrant "refresh token already used"))
      else mret (inr (errInvalidGrant "invalid refresh token"))
    else if After at_ (Grant_ExpiresAt g) then
      _ ← step (os_DeleteGrant (Grant_ID g));
      mret (inr (errInvalidGrant "refresh token expired"))
    else if resource_mismatch f (Grant_Resource g) then
      mret (inr (errInvalidTarget "resource does not match the grant"))
    else
    ou ← available_user_steps (Grant_UserID g);
    match ou with
    | None => mret (inr (errInvalidGrant "the authorizing user is not available"))
    | Some u =>
      if negb (constEq (SecurityStamp u) (Grant_SecurityStamp g)) then
        _ ← step (os_DeleteGrant (Grant_ID g));
        mret (inr (errInvalidGrant "grant was revoked"))
      else
      match narrow_scopes g f with
      | inr e => mret (inr e)
      | inl scopes =>
        newSecret ← step (randomSecret 32);
        r ← step (os_RotateGrant (Grant_ID g) (Grant_TokenHash g) (hashSecret newSecret)
              (Add at_ (sv_RefreshTokenTTL s)) at_);
        match r with
        | Err _ => mret (inr (errServer "could not rotate refresh token"))
        | Ok false => mret (inr (errInvalidGrant "refresh token already used"))
        | Ok true => tokenResponse_steps u g scopes (Grant_ID g +:+ "." +:+ newSecret)
        end
      end
    end
  end.

(** ** Alone, they are the handlers *)

Lemma run_available_user id w : run (available_user_steps id) w = available_user id w.
Proof.
  apply run_step_bind. intros [[u|]|e] w1; try done. by apply run_step_bind.
Qed.

Lemma run_tokenResponse u g scopes refresh w :
  run (tokenResponse_steps u g scopes refresh) w = tokenResponse s u g scopes refresh w.
Proof.
  apply run_prog_bind.
  - intros w1. do 3 (apply run_step_bind; intros ? ?). done.
  - intros [[str exp]|e] w1; [|done]. by apply run_step_bind.
Qed.

Lemma run_exchange client f w : run (exchange_steps client f) w = exchangeCode s client f w.
Proof.
  unfold exchange_steps, exchangeCode. destruct (negb _); [done|]. destruct (String.eqb _ ""); [done|].
  apply run_step_bind. intros [c|e] w1; [|done]. apply run_step_bind. intros t w2.
  destruct (bool_decide _); [by apply run_step_bind|]. destruct (check_code _ _ _ _); [done|].
  apply run_prog_bind; [apply run_available_user|]. intros [u|] w3; [|done].
  apply run_step_bind. intros gid w4. apply run_step_bind. intros [[]|e] w5; [| |done].
  - apply run_step_bind. intros [g refresh] w6. apply run_step_bind. intros [[]|e] w7; [|done].
    apply run_step_bind. intros r w8. apply run_tokenResponse.
  - apply run_step_bind. intros r w6. by apply run_step_bind.
Qed.

Lemma run_refresh client f w : run (refresh_steps client f) w = refreshGrant s client f w.
Proof.
  unfold refresh_steps, refreshGrant. destruct (negb _); [done|]. destruct (Cut _ _) as [[gid secret] ok].
  destruct (negb ok || _ || _ || _); [done|]. apply run_step_bind. intros [g|e] w1; [|done].
  destruct (negb _); [done|]. apply run_step_bind. intros t w2.
  destruct (_ || _); [destruct (_ && _); [by apply run_step_bind|done]|].
  destruct (After _ _); [by apply run_step_bind|]. destruct (resource_mismatch _ _); [done|].
  apply run_prog_bind; [apply run_available_user|]. intros [u|] w3; [|done].
  destruct (negb _); [by apply run_step_bind|]. destruct (narrow_scopes _ _) as [scopes|e]; [|done].
  apply run_step_bind. intros new w4. apply run_step_bind. intros [[]|e] w5; [|done..]. apply run_tokenResponse.
Qed.
End steps.

(** ** Races *)

Section races.
Context `{Oracle} `{UnicodeDB} `{PublicKeys} {S : Type} `{UserStore S, OAuthStore S, StoreView S}.
Context `{!UserStoreSpec S, !OAuthStoreSpec S} (s : Server S).
Implicit Types w : World S.

(** The store is in order, and the environment has answered at least [n] questions. *)
Definition in_order (n : nat) w : Prop := v_inv (w_store w) ∧ (n <= w_step w)%nat.

(** A response with tokens. *)
Definition tokens_issued (r : oresult TokenResponse) : Prop := is_Some (match r with inl tr => Some tr | inr _ => None end).

(** Steps that leave the store alone. *)
Definition quiet {A} (m : M S A) : Prop := ∀ w, v_inv (w_store w) → wp m (λ _ w', same w w') w.
Fixpoint quiet_steps {A} (p : prog S A) : Prop :=
  match p with
  | Return _ => True
  | Atomic k => ∀ w, v_inv (w_store w) → match k w with Done (p', w') => same w w' ∧ quiet_steps p' | Panic _ => False end
  end.

Lemma quiet_step {A} (m : M S A) : quiet m → quiet_steps (step m).
Proof.
  intros Hm w Hi. specialize (Hm w Hi). unfold wp in Hm. destruct (m w) as [[a w']|]; [by split|done].
Qed.
Lemma quiet_bind {A B} (p : prog S A) (f : A → prog S B) :
  quiet_steps p → (∀ a, quiet_steps (f a)) → quiet_steps (p ≫= f).
Proof.
  intros Hp Hf. unfold mbind, prog_bind. induction p as [a|k IH] using prog_steps_ind; [apply Hf|].
  intros w Hi. specialize (IH w). specialize (Hp w Hi). destruct (k w) as [[p' w']|]; [|done].
  destruct Hp as [Hs Hp]. split; [done|by apply IH].
Qed.

Lemma quiet_now : quiet now.
Proof. intros w Hi. wp_steps. by apply same_tick. Qed.
Lemma quiet_newID : quiet newID.
Proof. intros w Hi. unfold newID. wp_steps. by apply same_tick. Qed.
Lemma quiet_secret k : quiet (randomSecret k).
Proof. intros w Hi. unfold randomSecret. wp_steps. by apply same_tick. Qed.
Lemma quiet_FindByID id : quiet (FindByID id).
Proof. intros w Hi. unfold FindByID. wp_call spec_FindByID; [done|]. by intros r w' [Hs _]. Qed.
Lemma quiet_GetRoles u : quiet (GetRoles u).
Proof. intros w Hi. unfold GetRoles. wp_call spec_GetRoles; [done|]. by intros r w' [Hs _]. Qed.
Lemma quiet_IsLockedOut u : quiet (UserManager.IsLockedOut u).
Proof.
  intros w Hi. unfold UserManager.IsLockedOut. destruct (negb _); [wp_steps; by apply same_refl|].
  destruct (LockoutEnd u); wp_steps; [by apply same_tick|by apply same_refl].
Qed.
Lemma quiet_GetCode h : quiet (os_GetCode h).
Proof. intros w Hi. wp_call spec_GetCode; [done|]. by intros r w' [Hs _]. Qed.
Lemma quiet_GetGrant id : quiet (os_GetGrant id).
Proof. intros w Hi. wp_call spec_GetGrant; [done|]. by intros r w' [Hs _]. Qed.

Lemma quiet_user id : quiet_steps (available_user_steps id).
Proof.
  apply quiet_bind; [apply quiet_step, quiet_FindByID|]. intros [[u|]|e]; [|done..].
  apply quiet_bind; [apply quiet_step, quiet_IsLockedOut|done].
Qed.
Lemma quiet_tokenResponse u g scopes refresh : quiet_steps (tokenResponse_steps s u g scopes refresh).
Proof.
  apply quiet_bind.
  - apply quiet_bind; [apply quiet_step, quiet_now|intros issued].
    apply quiet_bind; [apply quiet_step, quiet_newID|intros jti].
    by apply quiet_bind; [apply quiet_step, quiet_GetRoles|].
  - intros [[str exp]|e]; [|done]. by apply quiet_bind; [apply quiet_step, quiet_now|].
Qed.

Section keeping.
Context (n : nat) (P : ORows → Prop).

(** What was spent of the rows. *)
Definition spent_rows w : Prop := P (v_rows (w_store w)).

Lemma race_keeps_same w w' : in_order n w → same w w' → keeps (in_order n) spent_rows w w'.
Proof.
  intros [Hi Hn] Hs. unfold keeps, spent_rows. rewrite (same_rows _ _ Hs). pose proof (same_step _ _ Hs).
  split; [|done]. split; [exact (same_inv _ _ Hs)|lia].
Qed.
Lemma race_keeps_rows w w' O : in_order n w → rows_set w w' O → (P (v_rows (w_store w)) → P O) →
  keeps (in_order n) spent_rows w w'.
Proof.
  intros [Hi Hn] Hw HP. unfold keeps, spent_rows. rewrite (rows_set_rows _ _ _ Hw). pose proof (rows_set_step _ _ _ Hw).
  split; [|done]. split; [exact (rows_set_inv _ _ _ Hw)|lia].
Qed.

Lemma racing_refused e : racing (in_order n) spent_rows tokens_issued (Return (inr e)).
Proof. intros [? [=]]. Qed.

(** Quiet steps change nothing of a race. *)
Lemma quiet_settled {A} (p : prog S A) : quiet_steps p → settled (in_order n) spent_rows p.
Proof.
  induction p as [a|k IH] using prog_steps_ind; [done|]. intros Hp w Hi. specialize (IH w).
  specialize (Hp w (proj1 Hi)). destruct (k w) as [[p' w']|]; [|done]. destruct Hp as [Hs Hp].
  split; [by apply race_keeps_same|by apply IH].
Qed.
Lemma settled_quiet {A B} (m : M S B) (f : B → prog S A) :
  quiet m → (∀ b, settled (in_order n) spent_rows (f b)) → settled (in_order n) spent_rows (step m ≫= f).
Proof.
  intros Hm Hf. apply settled_step. intros w Hi. eapply wp_mono; [apply Hm, Hi|]. intros b w' Hs.
  split; [by apply race_keeps_same|done].
Qed.
Lemma racing_steps {B} (p : prog S B) (f : B → prog S (oresult TokenResponse)) :
  quiet_steps p → (∀ b, racing (in_order n) spent_rows tokens_issued (f b)) →
  racing (in_order n) spent_rows tokens_issued (p ≫= f).
Proof.
  intros Hp Hf. unfold mbind, prog_bind. induction p as [a|k IH] using prog_steps_ind; [apply Hf|].
  intros w Hi. specialize (IH w). specialize (Hp w (proj1 Hi)). destruct (k w) as [[p' w']|]; [|done].
  destruct Hp as [Hs Hp]. split; [by apply race_keeps_same|left; by apply IH].
Qed.
Lemma racing_quiet {B} (m : M S B) (f : B → prog S (oresult TokenResponse)) :
  quiet m → (∀ b, racing (in_order n) spent_rows tokens_issued (f b)) →
  racing (in_order n) spent_rows tokens_issued (step m ≫= f).
Proof. intros Hm. by apply racing_steps, quiet_step. Qed.

(** Deleting a grant ends the request. *)
Lemma racing_delete (b : bool) gid e : (∀ O, P O → P (set_grants (delete gid (r_grants O)) O)) →
  racing (in_order n) spent_rows tokens_issued
    (_ ← step (if b then os_DeleteGrant gid else mret (Ok tt)); mret (inr e)).
Proof.
  intros HP. apply racing_step. intros w Hi. destruct b.
  - wp_call spec_DeleteGrant; [apply Hi|]. intros r w' [_ Hw']. split; [by eapply race_keeps_rows; eauto|left; apply racing_refused].
  - wp_steps. split; [apply race_keeps_same; [done|by apply same_refl; apply Hi]|left; apply racing_refused].
Qed.
End keeping.

(** The code [h] is used, or gone. *)
Definition code_spent (h : string) (O : ORows) : Prop := ∀ c, r_codes O !! h = Some c → UsedAt c ≠ None.

Lemma racing_exchange n h client f : hashSecret (Values_Get f "code") = h →
  racing (in_order n) (spent_rows (code_spent h)) tokens_issued (exchange_steps s client f).
Proof.
  intros Hh. unfold exchange_steps. destruct (negb _); [apply racing_refused|].
  destruct (String.eqb _ ""); [apply racing_refused|]. rewrite Hh.
  apply racing_quiet; [apply quiet_GetCode|]. intros [c|e]; [|apply racing_refused].
  apply racing_quiet; [exact quiet_now|]. intros at_. case_bool_decide; [by apply racing_delete|].
  destruct (check_code _ _ _ _); [apply racing_refused|]. apply racing_steps; [apply quiet_user|]. intros [u|]; [|apply racing_refused].
  apply racing_quiet; [exact quiet_newID|]. intros gid. apply racing_step. intros w Hi.
  wp_call spec_MarkCodeUsed; [apply Hi|]. intros won w' Hw.
  assert (racing (in_order n) (spent_rows (code_spent h)) tokens_issued
    (c ← step (os_GetCode h);
     _ ← step (match c with
               | Ok c => if negb (String.eqb (Code_GrantID c) "") then os_DeleteGrant (Code_GrantID c) else mret (Ok tt)
               | Err _ => mret (Ok tt)
               end); mret (inr (errInvalidGrant "authorization code already used")))) as Hlost.
  { apply racing_quiet; [apply quiet_GetCode|]. intros [c'|e]; [by apply racing_delete|].
    by apply (racing_delete _ _ false ""). }
  destruct (r_codes _ !! h) as [c'|] eqn:Hc; [case_bool_decide as Hu|]; [|destruct Hw as [-> Hs]..];
    [|split; [by apply race_keeps_same|by left]..].
  destruct Hw as [-> Hw]. split; [eapply race_keeps_rows; [done|exact Hw|]|right].
  { intros _ c2 Hc2. cbn in Hc2. rewrite lookup_insert_eq in Hc2. by injection Hc2 as <-. }
  split; [intros Hsp; by apply (Hsp c')|]. split.
  { unfold spent_rows. rewrite (rows_set_rows _ _ _ Hw). intros c2 Hc2. cbn in Hc2. rewrite lookup_insert_eq in Hc2. by injection Hc2 as <-. }
  apply settled_quiet.
  { intros w1 Hi1. destruct (issuesRefresh _ _ _); wp_steps; [|by apply same_refl].
    unfold randomSecret. wp_steps. by apply same_tick. }
  intros [g refresh]. apply settled_step. intros w1 Hi1. wp_call spec_CreateGrant_only; [apply Hi1|].
  intros [[]|e] w2 [G Hw2]; (split; [by eapply race_keeps_rows|]); [|done].
  apply settled_step. intros w3 Hi3. destruct (rc_CIMD client).
  - wp_steps. split; [apply race_keeps_same; [done|apply same_refl, Hi3]|apply quiet_settled, quiet_tokenResponse].
  - wp_call spec_TouchClient; [apply Hi3|]. intros r w4 [_ Hw4]. split; [by eapply race_keeps_rows|apply quiet_settled, quiet_tokenResponse].
Qed.

(** The secret with the hash [th] is not the current one of the grant [gid]. *)
Definition secret_spent (gid th : string) (O : ORows) : Prop :=
  ∀ g, r_grants O !! gid = Some g → Grant_TokenHash g ≠ th.

Lemma secret_spent_delete gid th gid' O : secret_spent gid th O →
  secret_spent gid th (set_grants (delete gid' (r_grants O)) O).
Proof. intros Hsp g Hg. cbn in Hg. apply lookup_delete_Some in Hg as [_ Hg]. by apply Hsp. Qed.

(** Rotating the secret away, to another one. *)
Lemma racing_rotate n gid th new exp at_ (f : result bool → prog S (oresult TokenResponse)) : new ≠ th →
  (∀ e, racing (in_order n) (spent_rows (secret_spent gid th)) tokens_issued (f (Err e))) →
  racing (in_order n) (spent_rows (secret_spent gid th)) tokens_issued (f (Ok false)) →
  quiet_steps (f (Ok true)) →
  racing (in_order n) (spent_rows (secret_spent gid th)) tokens_issued (step (os_RotateGrant gid th new exp at_) ≫= f).
Proof.
  intros Hne HE HF HT. apply racing_step. intros w Hi. wp_call spec_RotateGrant; [apply Hi|]. intros won w' Hw.
  destruct (r_grants _ !! gid) as [g|] eqn:Hg; [case_bool_decide as Hh|]; [|destruct Hw as [-> Hs]..];
    [|split; [by apply race_keeps_same|by left]..].
  destruct Hw as [-> Hw].
  assert (secret_spent gid th (set_grants (<[gid := rotate_Grant th new exp at_ g]> (r_grants (v_rows (w_store w)))) (v_rows (w_store w)))) as Hsp.
  { intros g' Hg'. cbn in Hg'. rewrite lookup_insert_eq in Hg'. by injection Hg' as <-. }
  split; [by eapply race_keeps_rows|right]. split; [intros Hn; by apply (Hn g)|]. split; [|by apply quiet_settled].
  unfold spent_rows. by rewrite (rows_set_rows _ _ _ Hw).
Qed.

Lemma racing_refresh n gid secret client f :
  (∀ i, (n <= i)%nat → hashSecret (RawURLEncode (o_read i 32)) ≠ hashSecret secret) →
  (Cut "." (Values_Get f "refresh_token")).1 = (gid, secret) →
  racing (in_order n) (spent_rows (secret_spent gid (hashSecret secret))) tokens_issued (refresh_steps s client f).
Proof.
  intros Hfresh Hcut. unfold refresh_steps. destruct (negb _); [apply racing_refused|].
  destruct (Cut _ _) as [[gid' secret'] ok]. cbn in Hcut. injection Hcut as -> ->.
  destruct (_ || _ || _ || _); [apply racing_refused|]. apply racing_step. intros w Hi.
  wp_call spec_GetGrant; [apply Hi|]. intros r w1 [Hs1 ->]. split; [by apply race_keeps_same|left].
  destruct (r_grants _ !! gid) as [g|] eqn:Hg; [|apply racing_refused].
  assert (Grant_ID g = gid) as -> by by apply (spec_grants_keyed _ (proj1 Hi) _ _ Hg).
  destruct (negb (String.eqb (Grant_ClientID g) _)); [apply racing_refused|].
  apply racing_steps; [apply quiet_step, quiet_now|]. intros at_.
  destruct (String.eqb (Grant_TokenHash g) "" || _) eqn:Hh.
  { destruct (_ && _); [|apply racing_refused]. apply racing_delete. intros O. apply secret_spent_delete. }
  apply orb_false_iff in Hh as [_ Hh%negb_false_iff]. apply constEq_spec in Hh. rewrite <-Hh.
  destruct (After _ _). { apply (racing_delete _ _ true). intros O. apply secret_spent_delete. }
  destruct (resource_mismatch _ _); [apply racing_refused|].
  apply racing_steps; [apply quiet_user|]. intros [u|]; [|apply racing_refused].
  destruct (negb _). { apply (racing_delete _ _ true). intros O. apply secret_spent_delete. }
  destruct (narrow_scopes _ _) as [scopes|e]; [|apply racing_refused].
  apply racing_step. intros w2 Hi2. unfold randomSecret. wp_steps.
  split; [apply race_keeps_same; [done|by apply same_tick, Hi2]|left].
  apply racing_rotate; [apply Hfresh, Hi2|intros; apply racing_refused|apply racing_refused|apply quiet_tokenResponse].
Qed.

(** Anything else that goes on meanwhile: it keeps the store in order, and what is spent. *)
Definition others (spent : ORows → Prop) w w' : Prop :=
  v_inv (w_store w') ∧ (w_step w <= w_step w')%nat ∧ (spent (v_rows (w_store w)) → spent (v_rows (w_store w'))).

Lemma others_keep n P w w' : in_order n w → others P w w' → keeps (in_order n) (spent_rows P) w w'.
Proof. intros [Hi Hn] (Hi' & Hst & HP). split; [split; [done|lia]|exact HP]. Qed.

(** C3: concurrent requests. The two grants are sequences of atomic steps, which run alone
    are the handlers. Let any number of requests that present one authorization code run
    side by side, their steps interleaved in any way with each other and with anything else
    that does not make a used code usable again: at most one of them ever answers with
    tokens, and none panics. The same holds of requests that present one refresh token,
    while fresh secrets differ from it and nothing else makes it current again. *)
Theorem one_request_wins reqs w ts w' :
  v_inv (w_store w) →
  (∀ client f w1, run (exchange_steps s client f) w1 = exchangeCode s client f w1
    ∧ run (refresh_steps s client f) w1 = refreshGrant s client f w1)
  ∧ (∀ code, (∀ q, q ∈ reqs → Values_Get q.2 "code" = code) →
      rtc (pool_step (others (code_spent (hashSecret code))))
        ((λ q, exchange_steps s q.1 q.2) <$> reqs, w) (ts, w') →
      race_safe tokens_issued ts w')
  ∧ (∀ gid secret, (∀ q, q ∈ reqs → (Cut "." (Values_Get q.2 "refresh_token")).1 = (gid, secret)) →
      (∀ i, (w_step w <= i)%nat → hashSecret (RawURLEncode (o_read i 32)) ≠ hashSecret secret) →
      rtc (pool_step (others (secret_spent gid (hashSecret secret))))
        ((λ q, refresh_steps s q.1 q.2) <$> reqs, w) (ts, w') →
      race_safe tokens_issued ts w').
Proof.
  intros Hi. assert (in_order (w_step w) w) as Hin by by split. split_and!.
  - intros client f w1. split; [apply run_exchange|apply run_refresh].
  - intros code Hreqs. apply (race_one_winner (in_order (w_step w)) (spent_rows (code_spent (hashSecret code))));
      [by intros; apply others_keep|done|].
    apply Forall_fmap, Forall_forall. intros q Hq. apply racing_exchange. by rewrite (Hreqs q Hq).
  - intros gid secret Hreqs Hfresh.
    apply (race_one_winner (in_order (w_step w)) (spent_rows (secret_spent gid (hashSecret secret))));
      [by intros; apply others_keep|done|].
    apply Forall_fmap, Forall_forall. intros q Hq. apply racing_refresh; [done|by apply Hreqs].
Qed.
End races.
