(* ===== verification/OAuthRegisterFacts.v ===== *)
(** * Correctness of client registration

    A registered client is well formed, and authenticates at the token endpoint with the
    credentials it was given and with nothing else. *)

From S2P Require Import Prelude GoStrings GoBytes GoCrypto GoNet GoUrl Errors World Entities OAuthTypes Stores.
From S2P Require Import StoreLaws UserManager Jwt GoHttp OAuthUtil Signer Jwks TokenService OAuthServer OAuthServerFacts.
From S2P Require Import OAuthToken OAuthTokenFacts OAuthRegister.

Local Open Scope Z_scope.

(** A well-formed row of a registered client. *)
Record client_ok `{UnicodeDB} (c : Client) : Prop := {
  cl_redirects : RedirectURIs c ≠ [] ∧ Z.of_nat (length (RedirectURIs c)) <= 20
    ∧ Forall (λ u, validateRedirectURI u = None) (RedirectURIs c);
  cl_method : TokenEndpointAuthMethod c ∈ [AuthMethodNone; AuthMethodClientSecretBasic; AuthMethodClientSecretPost];
  cl_secret : SecretHash c = "" ↔ TokenEndpointAuthMethod c = AuthMethodNone;
  cl_grants : GrantTypeAuthorizationCode ∈ GrantTypes c
    ∧ Forall (λ g, g = GrantTypeAuthorizationCode ∨ g = GrantTypeRefreshToken) (GrantTypes c);
  cl_name : len (Client_Name c) <= 256;
}.

Section facts.
Context `{Oracle} `{UnicodeDB} `{PublicKeys} {S : Type} `{UserStore S, OAuthStore S, StoreView S, !OAuthStoreSpec S}.
Context (s : Server S) `{!CIMDSpec (sv_CIMD s)}.
Implicit Types w : World S.

Lemma validate_redirects_None l : validate_redirects l = None ↔ Forall (λ u, validateRedirectURI u = None) l.
Proof.
  induction l as [|u l IH]; cbn [validate_redirects]; [done|]. rewrite Forall_cons, <-IH.
  destruct (validateRedirectURI u); naive_solver.
Qed.

Lemma check_registration_ok m method grants resp : check_registration m = inl (method, grants, resp) →
  (CM_RedirectURIs m ≠ [] ∧ Z.of_nat (length (CM_RedirectURIs m)) <= 20
    ∧ Forall (λ u, validateRedirectURI u = None) (CM_RedirectURIs m))
  ∧ method ∈ [AuthMethodNone; AuthMethodClientSecretBasic; AuthMethodClientSecretPost]
  ∧ GrantTypeAuthorizationCode ∈ grants
  ∧ Forall (λ g, g = GrantTypeAuthorizationCode ∨ g = GrantTypeRefreshToken) grants.
Proof.
  unfold check_registration. case_bool_decide as Hr; [discriminate|]. case_if Hn; [discriminate|].
  apply Z.ltb_ge in Hn. destruct (validate_redirects _) eqn:Hv; [discriminate|]. apply validate_redirects_None in Hv.
  case_if Hm; [discriminate|]. apply negb_false_iff, hasScope_spec in Hm.
  match goal with |- context [first_bad ?f ?l] => destruct (first_bad f l) eqn:Hg end; [discriminate|]. apply first_bad_None in Hg.
  case_if Ha; [discriminate|]. apply negb_false_iff, hasScope_spec in Ha.
  match goal with |- context [first_bad ?f ?l] => destruct (first_bad f l) end; [discriminate|].
  intros [= <- <- <-]. split_and!; try done. eapply Forall_impl; [exact Hg|]. cbn. intros g Hgg.
  apply orb_true_iff in Hgg as [->%String.eqb_eq| ->%String.eqb_eq]; auto.
Qed.

Lemma len_truncated name : len (if 256 <? len name then slice_to name 256 else name) <= 256.
Proof.
  destruct (Z.ltb_spec 256 (len name)); [|lia]. unfold slice_to, len.
  rewrite <-length_str_bytes, str_bytes_str, length_take. lia.
Qed.


(** The branches of a registration. *)
Lemma wp_register m w (Q : oresult ClientRegistration → World S → Prop) :
  v_inv (w_store w) → (∀ i, (w_step w <= i)%nat → clients_of w !! o_uuid i = None) →
  (∀ e, check_registration m = inr e → Q (inr e) w) →
  (∀ reg row i w', (w_step w <= i)%nat → client_ok row → Client_ID row = o_uuid i →
    Reg_ClientID reg = Client_ID row → Reg_RedirectURIs reg = RedirectURIs row →
    Reg_GrantTypes reg = GrantTypes row → Reg_TokenEndpointAuthMethod reg = TokenEndpointAuthMethod row →
    (if String.eqb (SecretHash row) "" then Reg_ClientSecret reg = ""
     else Reg_ClientSecret reg ≠ "" ∧ SecretHash row = hashSecret (Reg_ClientSecret reg)) →
    rows_set w w' (set_clients (<[Client_ID row := row]> (clients_of w)) (v_rows (w_store w))) →
    Q (inl reg) w') →
  wp (register m) Q w.
Proof.
  intros Hi Hf HE HQ. unfold register. destruct (check_registration m) as [[[method grants] resp]|e] eqn:Hc;
    [|wp_steps; by apply HE].
  apply check_registration_ok in Hc as (Hred & Hm & Ha & Hg). unfold newID, randomSecret.
  set (name := if 256 <? len _ then _ else _). assert (len name <= 256) as Hname by apply len_truncated.
  wp_steps. set (at_ := o_now (w_step w)). set (id := o_uuid _).
  assert (same w (tick (tick w))) as Hs by (eapply same_trans; apply same_tick; done).
  assert (∀ row reg w2, same w w2 → client_ok row → Client_ID row = id → Reg_ClientID reg = Client_ID row →
    Reg_RedirectURIs reg = RedirectURIs row → Reg_GrantTypes reg = GrantTypes row →
    Reg_TokenEndpointAuthMethod reg = TokenEndpointAuthMethod row →
    (if String.eqb (SecretHash row) "" then Reg_ClientSecret reg = ""
     else Reg_ClientSecret reg ≠ "" ∧ SecretHash row = hashSecret (Reg_ClientSecret reg)) →
    wp (r ← os_CreateClient row;
        mret match r with Err _ => inr (errServer "could not register client") | Ok _ => inl reg end) Q w2) as Hgo.
  { intros row reg w2 Hs2 Hrow Hid Hr1 Hr2 Hr3 Hr4 Hsec. wp_steps. wp_call spec_CreateClient; [exact (same_inv _ _ Hs2)| |].
    { rewrite (same_rows _ _ Hs2), Hid. apply Hf. cbn. lia. }
    intros r w3 [-> Hw3]. wp_steps. rewrite (same_rows _ _ Hs2) in Hw3.
    eapply (HQ reg row (Datatypes.S (w_step w))); try done; [lia|]. by eapply rows_set_after. }
  destruct (String.eqb_spec method AuthMethodNone) as [->|Hne]; cbn [negb]; wp_steps; apply wp_bind.
  - apply Hgo; [exact Hs| |reflexivity..]. by constructor.
  - pose proof (hashSecret_nonempty (RawURLEncode (o_read (w_step (tick (tick w))) 32))) as Hh.
    apply Hgo; [|constructor; cbn; try assumption|reflexivity..|].
    + eapply same_trans; [exact Hs|]. apply same_tick. exact (same_inv _ _ Hs).
    + split; [intros Hb; by destruct (Hh Hb)|intros Hb; by destruct (Hne Hb)].
    + split; assumption.
    + cbn [SecretHash Reg_ClientSecret]. rewrite (proj2 (String.eqb_neq _ _) Hh). split; [apply secret_nonempty|reflexivity].
Qed.

(** The secrets a registered client's row accepts. *)
Definition accepts (row : Client) (secret : string) : Prop :=
  if String.eqb (SecretHash row) "" then secret = "" else secret ≠ "" ∧ hashSecret secret = SecretHash row.

Lemma check_secret_row row secret : client_ok row →
  match check_secret (client_of_row row) secret with
  | inl c => c = client_of_row row ∧ accepts row secret
  | inr _ => ¬ accepts row secret
  end.
Proof.
  intros [_ Hm _ _ _]. unfold check_secret, accepts, rc_public, client_of_row. cbn [rc_AuthMethod rc_SecretHash].
  assert (String.eqb (TokenEndpointAuthMethod row) AuthMethodPrivateKeyJWT = false) as ->.
  { rewrite !elem_of_cons, elem_of_nil in Hm. by destruct Hm as [->|[->|[->|[]]]]. }
  rewrite andb_true_r. destruct (String.eqb_spec (SecretHash row) "") as [Hs|Hs].
  - destruct (String.eqb_spec secret ""); cbn [negb]; [by split|done].
  - destruct (String.eqb_spec secret ""); cbn [orb]; [by intros [? _]|].
    destruct (constEq _ _) eqn:Hc; cbn [negb]; [apply constEq_spec in Hc; by split|].
    apply constEq_false in Hc. by intros [_ ?].
Qed.

(** C19: registration. A registration is refused exactly if its metadata is; otherwise one
    well-formed row is stored under a fresh id: valid redirect URIs, a supported method and
    grant types, a secret hash exactly for confidential clients. From then on, as long as
    the row is there, the id authenticates at the token endpoint with the secret handed out
    (or without one, for a public client), and with no other secret but one of the same
    SHA-256 hash. *)
Theorem registered_client_authenticates (aa : string → Values → M S (oresult resolvedClient)) m w :
  v_inv (w_store w) → (∀ i, (w_step w <= i)%nat → clients_of w !! o_uuid i = None) →
  (∀ i, o_uuid i ≠ "" ∧ IsCIMDClientID (o_uuid i) = false) →
  wp (register m) (λ r w1,
    match r with
    | inr e => w1 = w ∧ check_registration m = inr e
    | inl reg => ∃ row, client_ok row ∧ Client_ID row = Reg_ClientID reg ∧ RedirectURIs row = Reg_RedirectURIs reg
        ∧ GrantTypes row = Reg_GrantTypes reg ∧ accepts row (Reg_ClientSecret reg)
        ∧ rows_set w w1 (set_clients (<[Reg_ClientID reg := row]> (clients_of w)) (v_rows (w_store w)))
        ∧ ∀ row2 req f ep w2, v_inv (w_store w2) → clients_of w2 !! Reg_ClientID reg = Some row2 →
            client_of_row row2 = client_of_row row →
            BasicAuth req = None → Values_Has f "client_assertion" = false →
            Values_Has f "client_assertion_type" = false → Values_Get f "client_id" = Reg_ClientID reg →
            wp (authenticateClient s aa req f ep) (λ cb w3, same w2 w3 ∧ cb.2 = false ∧
              match cb.1 with
              | inl c => c = client_of_row row ∧ accepts row (Values_Get f "client_secret")
              | inr _ => ¬ accepts row (Values_Get f "client_secret")
              end) w2
    end) w.
Proof.
  intros Hi Hf Hid. apply wp_register; [done|done|done|].
  intros reg row i w1 _ Hok Hrid Hr1 Hr2 Hr3 _ Hsec Hw1. rewrite Hr1. exists row.
  split; [done|]. split; [done|]. split; [by symmetry|]. split; [by symmetry|]. split.
  { unfold accepts. destruct (String.eqb (SecretHash row) ""); [done|]. destruct Hsec as [? ->]. by split. }
  split; [done|]. intros row2 req f ep w2 Hi2 Hrow2 Hsame Hb Ha1 Ha2 Hcid.
  unfold authenticateClient. rewrite Ha1, Ha2, Hb. unfold credentials. rewrite Hb, Hcid. cbn [orb].
  destruct (Hid i) as [Hne Hcimd]. rewrite <-Hrid in Hne, Hcimd.
  rewrite (proj2 (String.eqb_neq _ _) Hne). unfold resolveClient. rewrite (proj2 (String.eqb_neq _ _) Hne), Hcimd.
  wp_steps. wp_call spec_GetClient; [done|]. intros r w3 [Hs ->]. rewrite Hrow2. wp_steps.
  split; [done|]. split; [reflexivity|]. cbn [fst]. rewrite Hsame. by apply check_secret_row.
Qed.
End facts.
