(* ===== verification/OAuthAuthorize.v ===== *)
(** * The authorization endpoint

    [oauth/authorize.go]: the two-phase validation of an authorization request, the
    consent form with its CSRF token, remembered consents and issued codes. *)

From S2P Require Import Prelude GoStrings GoBytes GoCrypto GoNet GoUrl Errors World Entities OAuthTypes Stores.
From S2P Require Import UserManager Jwt GoHttp OAuthUtil Signer Jwks TokenService OAuthServer.

Local Open Scope Z_scope.

Definition authzParams : list string :=
  ["response_type"; "client_id"; "redirect_uri"; "state"; "scope"; "code_challenge";
   "code_challenge_method"; "resource"].

Record authzRequest `{PublicKeys} := mkAuthzRequest {
  az_v : Values;
  az_client : resolvedClient;
  az_redirectURI : string;
  az_state : string;
  az_scopes : list string;
  az_resource : string;
  az_challenge : string;
}.
Arguments mkAuthzRequest {_ _} _ _ _ _ _ _ _.

(** What [parseAuthz] answers (after an error only the redirect URI and the state of the
    request are used): an error page, an error for the client's validated
    redirect URI, or a valid request. *)
Inductive authz_outcome `{PublicKeys} :=
  | Fatal (e : OError)
  | RedirErr (req : authzRequest) (e : OError)
  | Valid (req : authzRequest).

Definition csrfMaxAge : Duration := 15 * Minute.

Section authorize.
Context `{Oracle} `{UnicodeDB} `{PublicKeys} {S : Type} `{UserStore S} `{OAuthStore S}.
Context (s : Server S).

Definition currentUser (r : Request) : option string :=
  let '(id, ok) := sv_CurrentUser s r in
  if ok && negb (String.eqb id "") then Some id else None.

(** The OAuth parameters of a request, each at most once; or the duplicated one.  A key of
    parsed values has at least one value. *)
Fixpoint pick_params (all : Values) (l : list string) (v : Values) : string + Values :=
  match l with
  | [] => inr v
  | k :: l =>
    match all !! k with
    | None => pick_params all l v
    | Some vals => if bool_decide (1 < length vals)%nat then inl k
                   else pick_params all l (Values_Set k (hd "" vals) v)
    end
  end.

(** The checks after the redirect URI is trusted. *)
Definition check_authz (v : Values) (client : resolvedClient) : oresult (list string * string) :=
  let challenge := Values_Get v "code_challenge" in
  if negb (String.eqb (Values_Get v "response_type") "code") then
    inr (oerr StatusBadRequest "unsupported_response_type" "only response_type=code is supported")
  else if negb (bool_decide (rc_GrantTypes client = [])) && negb (hasScope (rc_GrantTypes client) GrantTypeAuthorizationCode) then
    inr (oerr StatusBadRequest "unauthorized_client" "client is not allowed to use the authorization code grant")
  else if String.eqb challenge "" then inr (errInvalidRequest "code_challenge is required (PKCE)")
  else if negb (String.eqb (Values_Get v "code_challenge_method") "S256") then
    inr (errInvalidRequest "code_challenge_method must be S256")
  else if negb (validChallenge challenge) then inr (errInvalidRequest "malformed code_challenge")
  else
  match resolveScopes s (Values_Get v "scope") with
  | inr e => inr e
  | inl scopes =>
    match resolveResource s (Values_Get v "resource") with
    | inr e => inr e
    | inl res => inl (scopes, res)
    end
  end.

Definition parseAuthz (all : Values) : M S authz_outcome :=
  match pick_params all authzParams ∅ with
  | inl k => mret (Fatal (errInvalidRequest ("parameter " +:+ k +:+ " is duplicated")))
  | inr v =>
    c ← resolveClient s (Values_Get v "client_id");
    mret match c with
    | Err e => Fatal (oerr StatusBadRequest "invalid_client" (Error e))
    | Ok client =>
      let redirectURI := Values_Get v "redirect_uri" in
      let req scopes res := mkAuthzRequest v client redirectURI (Values_Get v "state") scopes res
                              (Values_Get v "code_challenge") in
      if String.eqb redirectURI "" then Fatal (errInvalidRequest "redirect_uri is required")
      else if negb (matchRedirectURI (rc_RedirectURIs client) redirectURI) then
        Fatal (errInvalidRequest "redirect_uri is not registered for this client")
      else
      match check_authz v client with
      | inr e => RedirErr (req [] "") e
      | inl (scopes, res) => Valid (req scopes res)
      end
    end
  end.

(** ** Answers to the client's redirect URI *)

Definition redirectTo (h : Headers) (r : Request) (req : authzRequest) (add : list (string * string)) : Response :=
  match url_Parse (az_redirectURI req) with
  | None => sv_RenderError s h r (errServer "bad redirect_uri")
  | Some u =>
    let q := foldl (λ q kv, <[kv.1 := [kv.2]]> q) (ParseQuery (u_RawQuery u)) add in
    let q := if String.eqb (az_state req) "" then q else Values_Set "state" (az_state req) q in
    let q := Values_Set "iss" (sv_issuer s) q in
    let status := if String.eqb (req_Method r) "POST" then StatusSeeOther else StatusFound in
    Redirect h (URL_String (set_RawQuery (Encode q) u)) status
  end.

Definition redirectError (h : Headers) (r : Request) (req : authzRequest) (e : OError) : Response :=
  redirectTo h r req ([("error", oe_Code e)] ++
    if String.eqb (oe_Description e) "" then [] else [("error_description", oe_Description e)]).

Definition saveConsent (userID : string) (req : authzRequest) : M S (result unit) :=
  at_ ← now;
  prev ← os_GetConsent userID (rc_ID (az_client req));
  let '(scopes, created) :=
    match prev with
    | Ok prev => (unionScopes (parseScopes (Consent_Scopes prev)) (az_scopes req), Consent_CreatedAt prev)
    | Err _ => (az_scopes req, at_)
    end in
  os_SaveConsent (mkConsent userID (rc_ID (az_client req)) (joinScopes scopes) created at_).

Definition issueCode (h : Headers) (r : Request) (userID : string) (req : authzRequest) : M S Response :=
  code ← randomSecret 32;
  at_ ← now;
  e ← os_CreateCode (mkCode (hashSecret code) (rc_ID (az_client req)) userID (az_redirectURI req)
        (joinScopes (az_scopes req)) (az_resource req) (az_challenge req)
        (Add at_ (sv_CodeTTL s)) None "");
  mret match e with
       | Err _ => redirectError h r req (errServer "could not issue authorization code")
       | Ok _ => redirectTo h r req [("code", code)]
       end.

(** ** The consent form's CSRF token *)

Definition csrf_parts (userID : string) (req : authzRequest) : list string :=
  [userID; rc_ID (az_client req); az_redirectURI req; joinScopes (az_scopes req); az_resource req;
   az_state req; az_challenge req].

(** The message: eight bytes of time, then every part followed by a zero byte. *)
Definition csrf_message (ts : Z) (parts : list string) : bytes :=
  put_be 8 (wrap_uint64 ts) ++ (parts ≫= λ p, str_bytes p ++ [zero]).

Definition csrfMAC (ts : Z) (userID : string) (req : authzRequest) : bytes :=
  hmac_sha256 (sv_CSRFKey s) (csrf_message ts (csrf_parts userID req)).

Definition csrf_token_at (ts : Z) (userID : string) (req : authzRequest) : string :=
  RawURLEncode (put_be 8 (wrap_uint64 ts) ++ csrfMAC ts userID req).

Definition csrfToken (userID : string) (req : authzRequest) : M S string :=
  at_ ← now; mret (csrf_token_at (Unix at_) userID req).

Definition checkCSRF (token userID : string) (req : authzRequest) : M S bool :=
  match RawURLDecode token with
  | None => mret false
  | Some raw =>
    if negb (Z.of_nat (length raw) =? 8 + 32) then mret false else
    let ts := wrap_int64 (get_be (take 8 raw)) in
    at_ ← now;
    let age := Sub at_ (FromUnix ts) in
    mret (if (age <? - Minute) || (csrfMaxAge <? age) then false
          else const_eq (drop 8 raw) (csrfMAC ts userID req))
  end.

(** ** The handler *)

Definition to_login (h : Headers) (r : Request) (req : authzRequest) : Response :=
  Redirect h (sv_LoginURL s r (endpoint s (sv_AuthorizePath s) +:+ "?" +:+ Encode (az_v req))) StatusFound.

(** A consent decision posted for a validated request. *)
Definition post_decision (h : Headers) (r : Request) (params : Values) (userID : string) (req : authzRequest)
    : M S Response :=
  ok ← checkCSRF (Values_Get params "csrf_token") userID req;
  if negb ok then mret (sv_RenderError s h r (errInvalidRequest "consent form expired or tampered; please retry"))
  else if negb (String.eqb (Values_Get params "decision") "approve") then
    mret (redirectError h r req (oerr StatusForbidden "access_denied" "the user denied the request"))
  else
  e ← saveConsent userID req;
  match e with
  | Err _ => mret (redirectError h r req (errServer "could not record consent"))
  | Ok _ => issueCode h r userID req
  end.

Definition consent_page (h : Headers) (r : Request) (userID : string) (req : authzRequest) : M S Response :=
  token ← csrfToken userID req;
  mret (sv_RenderConsent s h r (mkConsentRequest (rc_ID (az_client req)) (rc_Name (az_client req))
    (rc_DisplayHost (az_client req)) (az_redirectURI req) (hostOf (az_redirectURI req))
    (allLoopback (rc_RedirectURIs (az_client req))) (az_scopes req) (az_resource req) userID
    (endpoint s (sv_AuthorizePath s)) (Values_Set "csrf_token" token (az_v req)))).

(** The consent page, or a code at once when a remembered consent covers the scopes. *)
Definition get_consent (h : Headers) (r : Request) (userID : string) (req : authzRequest) : M S Response :=
  c ← os_GetConsent userID (rc_ID (az_client req));
  match c with
  | Ok c =>
    if containsAll (parseScopes (Consent_Scopes c)) (az_scopes req) then issueCode h r userID req else
    consent_page h r userID req
  | Err e =>
    if negb (ErrorsIs e ErrNotFound) then mret (redirectError h r req (errServer "consent lookup failed")) else
    consent_page h r userID req
  end.

Definition authorize_valid (h : Headers) (r : Request) (params : Values) (req : authzRequest) : M S Response :=
  match currentUser r with
  | None => mret (to_login h r req)
  | Some userID =>
    u ← FindByID userID;
    match u with
    | Ok (Some u) =>
      locked ← IsLockedOut u;
      if locked : bool then
        mret (redirectError h r req (oerr StatusForbidden "access_denied" "account is locked"))
      else if String.eqb (req_Method r) "POST" then post_decision h r params userID req
      else get_consent h r userID req
    | _ => mret (to_login h r req)
    end
  end.

Definition AuthorizeHandler (r : Request) : M S Response :=
  let h : Headers := {["X-Frame-Options" := "DENY"; "Content-Security-Policy" := "frame-ancestors 'none'";
                       "Cache-Control" := "no-store"]} in
  let run params :=
    o ← parseAuthz params;
    match o with
    | Fatal e => mret (sv_RenderError s h r e)
    | RedirErr req e => mret (redirectError h r req e)
    | Valid req => authorize_valid h r params req
    end in
  if String.eqb (req_Method r) "GET" then run (req_Query r)
  else if String.eqb (req_Method r) "POST" then
    match req_PostForm r with
    | None => mret (sv_RenderError s h r (errInvalidRequest "malformed form"))
    | Some f => run f
    end
  else mret (http_Error h "method not allowed" StatusMethodNotAllowed).
End authorize.
