(* ===== verification/OAuthAuthorizeFacts.v ===== *)
(** * Correctness of the authorization endpoint

    The consent form's CSRF token is bound to every parameter of the request; a code is
    stored only for a signed-in user whose consent covers its scopes; the answer never
    redirects to a URI the client did not register; and a code redeems. *)

From S2P Require Import Prelude GoStrings GoBytes GoCrypto GoNet GoUrl Errors World Entities OAuthTypes Stores.
From S2P Require Import StoreLaws TokenProvider UserManager SignIn Jwt GoHttp OAuthUtil Signer Jwks.
From S2P Require Import TokenService OAuthServer OAuthServerFacts OAuthToken OAuthTokenFacts OAuthAuthorize.

Local Open Scope Z_scope.

(** ** The CSRF message *)

Lemma app_sep_inj {A} (x : A) l1 l2 r1 r2 : x ∉ l1 → x ∉ l2 → l1 ++ x :: r1 = l2 ++ x :: r2 → l1 = l2 ∧ r1 = r2.
Proof.
  revert l2. induction l1 as [|a l1 IH]; intros [|b l2] Hl1 Hl2 Heq; cbn in Heq.
  - by injection Heq as ->.
  - injection Heq as -> _. destruct Hl2. left.
  - injection Heq as -> _. destruct Hl1. left.
  - injection Heq as -> Heq. apply not_elem_of_cons in Hl1 as [_ Hl1], Hl2 as [_ Hl2].
    by destruct (IH l2 Hl1 Hl2 Heq) as [-> ->].
Qed.

(** Strings without a zero byte. *)
Definition no_nul (s : string) : Prop := zero ∉ str_bytes s.

Lemma nul_part_inj p p' r r' : no_nul p → no_nul p' →
  (str_bytes p ++ [zero]) ++ r = (str_bytes p' ++ [zero]) ++ r' → p = p' ∧ r = r'.
Proof.
  intros Hp Hp' Heq. rewrite <-!app_assoc in Heq. cbn in Heq.
  destruct (app_sep_inj _ _ _ _ _ Hp Hp' Heq) as [Hb Hr]. split; [by apply str_bytes_inj|done].
Qed.

(** The two last parts: only the last one needs to be free of zero bytes. *)
Lemma nul_tail_inj s c s' c' : no_nul c → no_nul c' →
  (str_bytes s ++ [zero]) ++ str_bytes c ++ [zero] = (str_bytes s' ++ [zero]) ++ str_bytes c' ++ [zero] →
  s = s' ∧ c = c'.
Proof.
  intros Hc Hc' Heq. rewrite !app_assoc in Heq. apply app_inj_tail in Heq as [Heq _].
  apply (f_equal reverse) in Heq. rewrite !reverse_app in Heq. cbn in Heq.
  apply app_sep_inj in Heq as [Hb Hs]; [|unfold no_nul in *; by rewrite elem_of_reverse..].
  split; apply str_bytes_inj; by apply (inj reverse).
Qed.

Section csrf.
Context `{Oracle} `{UnicodeDB} `{PublicKeys} {S : Type} (s : Server S).
Implicit Types w : World S.

(** The parts of a request that hold no zero byte, the state excepted. *)
Definition csrf_plain (userID : string) (req : authzRequest) : Prop :=
  no_nul userID ∧ no_nul (rc_ID (az_client req)) ∧ no_nul (az_redirectURI req)
  ∧ no_nul (joinScopes (az_scopes req)) ∧ no_nul (az_resource req) ∧ no_nul (az_challenge req).

Lemma csrf_message_inj ts ts' u u' req req' : csrf_plain u req → csrf_plain u' req' →
  csrf_message ts (csrf_parts u req) = csrf_message ts' (csrf_parts u' req') →
  csrf_parts u req = csrf_parts u' req'.
Proof.
  intros (P1 & P2 & P3 & P4 & P5 & P6) (Q1 & Q2 & Q3 & Q4 & Q5 & Q6) Heq. unfold csrf_message in Heq.
  apply app_inj_1 in Heq as [_ Heq]; [|by rewrite !length_put_be]. unfold csrf_parts in *. cbn in Heq.
  apply nul_part_inj in Heq as [-> Heq]; [|done..]. apply nul_part_inj in Heq as [-> Heq]; [|done..].
  apply nul_part_inj in Heq as [-> Heq]; [|done..]. apply nul_part_inj in Heq as [-> Heq]; [|done..].
  apply nul_part_inj in Heq as [-> Heq]; [|done..]. rewrite !app_nil_r in Heq.
  apply nul_tail_inj in Heq as [-> ->]; done.
Qed.

(** The check of a token issued at [ts]: its age, then its message. *)
Lemma wp_checkCSRF_issued ts u u' req req' w (Q : bool → World S → Prop) :
  stamp_ok ts →
  (let age := Sub (o_now (w_step w)) (ts * Second) in
   Q (if (age <? - Minute) || (csrfMaxAge <? age) then false
      else const_eq (csrfMAC s ts u req) (csrfMAC s ts u' req')) (tick w)) →
  wp (checkCSRF s (csrf_token_at s ts u req) u' req') Q w.
Proof.
  intros Hts HQ. unfold checkCSRF, csrf_token_at. rewrite RawURLDecode_Encode.
  set (t := put_be 8 (wrap_uint64 ts)). assert (length t = 8%nat) as Ht by apply length_put_be.
  assert (length (csrfMAC s ts u req) = 32%nat) as Hmac by apply length_hmac_sha256.
  rewrite (proj2 (Z.eqb_eq _ _)) by (rewrite length_app; lia). cbn [negb].
  rewrite take_app_length', drop_app_length' by done.
  assert (get_be t = wrap_uint64 ts) as -> by (apply get_be_put_be, Z.mod_pos_bound; done).
  rewrite wrap_int64_wrap_uint64, FromUnix_small by (destruct Hts; done). wp_steps. exact HQ.
Qed.

End csrf.

(** ** Requests *)

Section authorize.
Context `{Oracle} `{UnicodeDB} `{PublicKeys} {S : Type} `{UserStore S, OAuthStore S, StoreView S}.
Context `{!UserStoreSpec S, !OAuthStoreSpec S} (s : Server S) `{!CIMDSpec (sv_CIMD s)}.
Implicit Types w : World S.

(** A request whose redirect URI may be trusted: it is registered for a known client. *)
Definition authz_trusted w (req : authzRequest) : Prop :=
  known_client s w (rc_ID (az_client req)) (az_client req)
  ∧ matchRedirectURI (rc_RedirectURIs (az_client req)) (az_redirectURI req) = true.

(** A request that passed every check. *)
Record authz_valid w (req : authzRequest) : Prop := {
  av_trusted : authz_trusted w req;
  av_grant : rc_GrantTypes (az_client req) = [] ∨ GrantTypeAuthorizationCode ∈ rc_GrantTypes (az_client req);
  av_challenge : validChallenge (az_challenge req) = true;
  av_scopes : ∃ raw, resolveScopes s raw = inl (az_scopes req);
  av_resource : az_resource req ∈ sv_resourceList s;
}.

Lemma check_authz_ok v client scopes res : check_authz s v client = inl (scopes, res) →
  (rc_GrantTypes client = [] ∨ GrantTypeAuthorizationCode ∈ rc_GrantTypes client)
  ∧ validChallenge (Values_Get v "code_challenge") = true
  ∧ resolveScopes s (Values_Get v "scope") = inl scopes ∧ res ∈ sv_resourceList s.
Proof.
  unfold check_authz. case_if Hc1; [discriminate|]. case_if Hc2; [discriminate|]. case_if Hc3; [discriminate|].
  case_if Hc4; [discriminate|]. case_if Hc5; [discriminate|].
  destruct (resolveScopes s _) as [sc|e] eqn:Hs; [|discriminate].
  destruct (resolveResource s _) as [rs|e] eqn:Hr; [|discriminate]. intros [= -> ->].
  apply resolveResource_served in Hr. split_and!; [|by apply negb_false_iff|done|done].
  apply andb_false_iff in Hc2 as [Hc2%negb_false_iff%bool_decide_eq_true|Hc2%negb_false_iff%hasScope_spec]; auto.
Qed.

Lemma wp_parseAuthz all w (Q : authz_outcome → World S → Prop) :
  v_inv (w_store w) →
  (∀ e w', same w w' → Q (Fatal e) w') →
  (∀ req e w', same w w' → authz_trusted w req → Q (RedirErr req e) w') →
  (∀ req w', same w w' → authz_valid w req → Q (Valid req) w') →
  wp (parseAuthz s all) Q w.
Proof.
  intros Hi HF HR HV. unfold parseAuthz. destruct (pick_params all authzParams ∅) as [k|v].
  { wp_steps. by apply HF, same_refl. }
  rewrite wp_bind. apply wp_resolveClient; [apply _|done|]. intros r w' Hs Hk. wp_steps.
  destruct r as [client|e]; [|by apply HF]. destruct (Hk client eq_refl) as [_ Hkc]. clear Hk.
  pose proof (known_client_id _ _ _ _ Hi Hkc) as Hid.
  case_if Hre; [by apply HF|]. case_if Hm; [by apply HF|]. apply negb_false_iff in Hm.
  rewrite <-Hid in Hkc.
  destruct (check_authz s v client) as [[scopes res]|e] eqn:Hc; [|by apply HR].
  apply check_authz_ok in Hc as (Hg & Hch & Hsc & Hres). apply HV; [done|]. split; try done. by eexists.
Qed.

(** ** Codes and consents *)

(** The row of a code issued at [at_]. *)
Definition code_row (code uid : string) (req : authzRequest) (at_ : Time) : Code :=
  mkCode (hashSecret code) (rc_ID (az_client req)) uid (az_redirectURI req) (joinScopes (az_scopes req))
    (az_resource req) (az_challenge req) (at_ + sv_CodeTTL s) None "".

(** Random codes are new. *)
Definition codes_fresh w : Prop :=
  ∀ i, (w_step w <= i)%nat → codes_of w !! hashSecret (RawURLEncode (o_read i 32)) = None.

Lemma wp_issueCode h r uid req w (Q : Response → World S → Prop) :
  v_inv (w_store w) → codes_fresh w →
  (∀ i j w', (w_step w <= i)%nat → (w_step w <= j)%nat → let code := RawURLEncode (o_read i 32) in
    rows_set w w' (set_codes (<[hashSecret code := code_row code uid req (o_now j)]> (codes_of w)) (v_rows (w_store w))) →
    Q (redirectTo s h r req [("code", code)]) w') →
  wp (issueCode s h r uid req) Q w.
Proof.
  intros Hi Hf HQ. unfold issueCode, randomSecret. wp_steps.
  assert (same w (tick (tick w))) as Hs by (eapply same_trans; apply same_tick; done).
  wp_call spec_CreateCode; [done|apply Hf; done|]. intros e w' [-> Hw']. wp_steps.
  eapply (HQ (w_step w) (Datatypes.S (w_step w))); [lia|lia|]. by eapply rows_set_after.
Qed.

(** [x ∈ parseScopes (joinScopes l)], for words [l]. *)
Lemma elem_of_parse_join l x : Forall (λ f, word (str_bytes f)) l → x ∈ parseScopes (joinScopes l) ↔ x ∈ l.
Proof. intros Hl. unfold parseScopes, joinScopes. rewrite elem_of_dedup, Fields_Join by done. set_solver. Qed.

Definition scopes_are_words : Prop := Forall (λ f, word (str_bytes f)) (sv_Scopes s).

Lemma resolveScopes_words raw scopes : server_ok s → scopes_are_words → resolveScopes s raw = inl scopes →
  Forall (λ f, word (str_bytes f)) scopes.
Proof.
  intros Hok Hw Hr. apply (resolveScopes_known _ _ _ Hok) in Hr. unfold scopes_are_words in Hw.
  rewrite Forall_forall in Hw |- *. intros x Hx. by apply Hw, Hr.
Qed.

(** The stored consent covers the scopes asked for. *)
Definition consented w (uid : string) (req : authzRequest) : Prop :=
  ∃ c, v_consent (w_store w) uid (rc_ID (az_client req)) = Some c ∧ az_scopes req ⊆ parseScopes (Consent_Scopes c).

Lemma wp_saveConsent uid req w (Q : result unit → World S → Prop) :
  v_inv (w_store w) → plain uid → Forall (λ f, word (str_bytes f)) (az_scopes req) →
  (∀ w' C, omoves w w' (v_rows (w_store w)) C → consented w' uid req → Q (Ok tt) w') →
  wp (saveConsent uid req) Q w.
Proof.
  intros Hi Hp Hw HQ. unfold saveConsent. wp_steps. pose proof (same_tick w Hi) as Ht.
  wp_call spec_GetConsent; [done|]. intros prev w1 [Hs1 ->]. pose proof (same_trans _ _ _ Ht Hs1) as Hs.
  set (prev := v_consent (w_store (tick w)) uid (rc_ID (az_client req))).
  set (scopes := match prev with Some p => unionScopes (parseScopes (Consent_Scopes p)) (az_scopes req)
                 | None => az_scopes req end).
  assert (∀ cr, wp (os_SaveConsent (mkConsent uid (rc_ID (az_client req)) (joinScopes scopes) cr (o_now (w_step w)))) Q w1) as Hgo.
  2:{ destruct prev; apply Hgo. }
  intros cr. wp_call spec_SaveConsent; [exact (same_inv _ _ Hs)|done|]. intros r w2 [-> Hm]. cbn in Hm.
  eapply HQ.
  - rewrite <-(same_rows _ _ Hs). eapply omoves_trans; [by apply same_omoves|exact Hm].
  - eexists. split; [rewrite (om_consent _ _ _ _ Hm) by done; unfold set_consent; by rewrite bool_decide_eq_true_2|].
    assert (∀ x, x ∈ az_scopes req → x ∈ parseScopes (joinScopes scopes)) as Hsub.
    { intros x Hx. unfold scopes. destruct prev.
      - apply elem_of_parse_join; [apply parseScopes_words|].
        apply elem_of_unionScopes; [apply parseScopes_words|done|by right].
      - by apply elem_of_parse_join. }
    intros x Hx. specialize (Hsub x Hx). by destruct (v_consent (w_store w1) _ _).
Qed.

(** ** The handler *)

(** What an accepted CSRF token shows: it is young and carries the MAC of this user and
    this request. *)
Definition csrf_accepted (token uid : string) (req : authzRequest) (at_ : Time) : Prop :=
  ∃ raw, RawURLDecode token = Some raw ∧ length raw = 40%nat ∧
    let ts := wrap_int64 (get_be (take 8 raw)) in
    - Minute <= Sub at_ (FromUnix ts) <= csrfMaxAge ∧ drop 8 raw = csrfMAC s ts uid req.

Lemma wp_checkCSRF token uid req w (Q : bool → World S → Prop) :
  v_inv (w_store w) →
  (∀ b w', same w w' → (b = true → csrf_accepted token uid req (o_now (w_step w))) → Q b w') →
  wp (checkCSRF s token uid req) Q w.
Proof.
  intros Hi HQ. unfold checkCSRF. destruct (RawURLDecode token) as [raw|] eqn:Hraw;
    [|wp_steps; apply HQ; [by apply same_refl|discriminate]].
  destruct (Z.eqb_spec (Z.of_nat (length raw)) (8 + 32)) as [Hl|]; cbn [negb];
    [|wp_steps; apply HQ; [by apply same_refl|discriminate]].
  wp_steps. apply HQ; [by apply same_tick|]. intros Hb. exists raw. split; [done|]. split; [lia|].
  destruct ((_ <? - Minute) || _) eqn:Ha in Hb; [discriminate|]. apply orb_false_iff in Ha as [?%Z.ltb_ge ?%Z.ltb_ge].
  apply const_eq_spec in Hb.
  cbn zeta. split; [lia|done].
Qed.

(** How a request came to a code: the user signed in, not locked out, whose stored consent
    covers the request; a posted form was approved with a valid CSRF token. *)
Record code_justified (r : Request) w w' (uid : string) (req : authzRequest) : Prop := {
  cj_signed_in : currentUser s r = Some uid;
  cj_user : ∃ u i, v_users (w_store w) !! uid = Some u ∧ (w_step w <= i)%nat ∧ locked_at u (o_now i) = false;
  cj_request : authz_valid w req;
  cj_consent : consented w' uid req;
  cj_posted : req_Method r = "POST" → ∃ f i, req_PostForm r = Some f ∧ Values_Get f "decision" = "approve"
    ∧ csrf_accepted (Values_Get f "csrf_token") uid req (o_now i);
}.

(** The pages the endpoint answers with itself, and the login redirect. *)
Definition own_page (r : Request) (resp : Response) : Prop :=
  (∃ h e, resp = sv_RenderError s h r e) ∨ (∃ h c, resp = sv_RenderConsent s h r c)
  ∨ (∃ h req, resp = to_login s h r req) ∨ ∃ h, resp = http_Error h "method not allowed" StatusMethodNotAllowed.

(** The answer to a request: a page, an answer to a registered redirect URI without a code,
    or a justified code sent to one. *)
Inductive answered (r : Request) w (resp : Response) w' : Prop :=
  | answered_page : own_page r resp → same w w' → answered r w resp w'
  | answered_error h req add : authz_trusted w req → resp = redirectTo s h r req add →
      (∀ kv, kv ∈ add → kv.1 ≠ "code") → codes_of w' = codes_of w → answered r w resp w'
  | answered_code h req uid code t : resp = redirectTo s h r req [("code", code)] →
      code_justified r w w' uid req →
      codes_of w' = <[hashSecret code := code_row code uid req t]> (codes_of w) → answered r w resp w'.

Lemma redirectError_answered r w w' h req e : authz_trusted w req → codes_of w' = codes_of w →
  answered r w (redirectError s h r req e) w'.
Proof.
  intros Ht Hc. eapply answered_error; [done|reflexivity| |done]. intros kv Hkv.
  destruct (String.eqb _ _); cbn in Hkv; set_solver.
Qed.

Context (Hok : server_ok s) (Hwords : scopes_are_words).

Lemma wp_post_decision h r f uid req u i w0 w :
  same w0 w → codes_fresh w0 → v_inv (w_store w0) → plain uid → req_PostForm r = Some f →
  authz_valid w0 req → currentUser s r = Some uid → v_users (w_store w0) !! uid = Some u →
  (w_step w0 <= i)%nat → locked_at u (o_now i) = false →
  wp (post_decision s h r f uid req) (answered r w0) w.
Proof.
  intros Hs Hf Hi Hp Hform Hv Hcu Hu Hi1 Hl. unfold post_decision. rewrite wp_bind.
  apply wp_checkCSRF; [exact (same_inv _ _ Hs)|]. intros ok w1 Hs1 Hcsrf. pose proof (same_trans _ _ _ Hs Hs1) as Hs1'.
  destruct ok; cbn [negb]; [|wp_steps; apply answered_page; [left; by do 2 eexists|done]].
  destruct (String.eqb_spec (Values_Get f "decision") "approve") as [Hd|]; cbn [negb].
  2:{ wp_steps. apply redirectError_answered; [apply Hv|by rewrite (same_rows _ _ Hs1')]. }
  assert (Forall (λ f, word (str_bytes f)) (az_scopes req)) as Hw.
  { destruct (av_scopes _ _ Hv) as [raw Hraw]. by eapply resolveScopes_words. }
  rewrite wp_bind. apply wp_saveConsent; [exact (same_inv _ _ Hs1')|done|done|]. intros w2 C Hm Hcons.
  assert (v_rows (w_store w2) = v_rows (w_store w0)) as Hr2 by (by rewrite (om_rows _ _ _ _ Hm), (same_rows _ _ Hs1')).
  apply wp_issueCode; [by destruct Hm| |].
  { intros j Hj. rewrite Hr2. apply Hf. pose proof (same_step _ _ Hs1'). pose proof (om_step _ _ _ _ Hm). lia. }
  intros j k w3 _ _ code Hw3. rewrite Hr2 in Hw3.
  eapply answered_code; [reflexivity| |by rewrite (rows_set_rows _ _ _ Hw3)].
  split; [done|by exists u, i|done| |intros _; exists f; eexists; split_and!; [done|done|by apply Hcsrf]].
  destruct Hcons as (c & Hc & Hsub). exists c. split; [|done]. by rewrite (om_consent _ _ _ _ Hw3).
Qed.

Lemma wp_get_consent h r uid req u i w0 w :
  same w0 w → codes_fresh w0 → v_inv (w_store w0) → plain uid → req_Method r ≠ "POST" →
  authz_valid w0 req → currentUser s r = Some uid → v_users (w_store w0) !! uid = Some u →
  (w_step w0 <= i)%nat → locked_at u (o_now i) = false →
  wp (get_consent s h r uid req) (answered r w0) w.
Proof.
  intros Hs Hf Hi Hp Hmeth Hv Hcu Hu Hi1 Hl. unfold get_consent. wp_steps.
  wp_call spec_GetConsent; [exact (same_inv _ _ Hs)|]. intros c w1 [Hs1 ->]. pose proof (same_trans _ _ _ Hs Hs1) as Hs1'.
  assert (wp (consent_page s h r uid req) (answered r w0) w1) as Hpage.
  { unfold consent_page, csrfToken. wp_steps. apply answered_page; [right; left; by do 2 eexists|].
    eapply same_trans; [done|]. apply same_tick. exact (same_inv _ _ Hs1'). }
  destruct (v_consent (w_store w) uid _) as [c|] eqn:Hc; [|exact Hpage].
  destruct (containsAll _ _) eqn:Hall; [|exact Hpage].
  apply wp_issueCode; [exact (same_inv _ _ Hs1')| |].
  { intros j Hj. rewrite (same_rows _ _ Hs1'). apply Hf. pose proof (same_step _ _ Hs1'). lia. }
  intros j k w3 _ _ code Hw3. rewrite (same_rows _ _ Hs1') in Hw3.
  eapply answered_code; [reflexivity| |by rewrite (rows_set_rows _ _ _ Hw3)].
  split; [done|by exists u, i|done| |done]. exists c. split; [|by apply containsAll_spec].
  rewrite (om_consent _ _ _ _ Hw3) by done. by rewrite (mv_consent _ _ _ _ _ _ Hs1) by done.
Qed.

(** C9: what the authorization endpoint does. It never panics, and every answer is one of
    its own pages, or goes to a redirect URI that is registered for a known client. A code is
    stored and sent only for a validated request, in the name of the user signed in, who is
    stored and not locked out and whose stored consent covers every scope of the code; from
    a form only if it was approved under a fresh CSRF token of this user and request. The
    code row is exactly that of the request; no other code changes. *)
Theorem AuthorizeHandler_safe r w :
  v_inv (w_store w) → codes_fresh w → (∀ uid, currentUser s r = Some uid → plain uid) →
  wp (AuthorizeHandler s r) (answered r w) w.
Proof.
  intros Hi Hf Hplain. unfold AuthorizeHandler.
  assert (∀ h params, (req_Method r = "POST" → req_PostForm r = Some params) →
    wp (o ← parseAuthz s params;
        match o with
        | Fatal e => mret (sv_RenderError s h r e)
        | RedirErr req e => mret (redirectError s h r req e)
        | Valid req => authorize_valid s h r params req
        end) (answered r w) w) as Hrun.
  { intros h params Hpost. rewrite wp_bind. apply wp_parseAuthz; [done|..].
    - intros e w' Hs. wp_steps. apply answered_page; [left; by do 2 eexists|done].
    - intros req e w' Hs Ht. wp_steps. apply redirectError_answered; [done|by rewrite (same_rows _ _ Hs)].
    - intros req w' Hs Hv. unfold authorize_valid.
      destruct (currentUser s r) as [uid|] eqn:Hcu;
        [|wp_steps; apply answered_page; [do 2 right; left; by do 2 eexists|done]].
      unfold FindByID. wp_steps. wp_call spec_FindByID; [exact (same_inv _ _ Hs)|]. intros ru w1 [Hs1 ->].
      pose proof (same_trans _ _ _ Hs Hs1) as Hs1'. rewrite (same_users _ _ Hs).
      destruct (v_users (w_store w) !! uid) as [u|] eqn:Hu;
        [|wp_steps; apply answered_page; [do 2 right; left; by do 2 eexists|done]].
      wp_steps. apply wp_IsLockedOut; [exact (same_inv _ _ Hs1')|]. intros i w2 Hi2 Hs2.
      pose proof (same_trans _ _ _ Hs1' Hs2) as Hs2'. pose proof (same_step _ _ Hs1').
      destruct (locked_at u (o_now i)) eqn:Hl.
      { wp_steps. apply redirectError_answered; [apply Hv|by rewrite (same_rows _ _ Hs2')]. }
      destruct (String.eqb_spec (req_Method r) "POST") as [Hm|Hm].
      + apply (wp_post_decision h r params uid req u i w w2); auto; lia.
      + apply (wp_get_consent h r uid req u i w w2); auto; lia. }
  destruct (String.eqb_spec (req_Method r) "GET") as [Hg|]; [apply Hrun; by rewrite Hg|].
  destruct (String.eqb_spec (req_Method r) "POST") as [Hm|].
  - destruct (req_PostForm r) as [f|] eqn:Hform; [by apply Hrun|].
    wp_steps. apply answered_page; [left; by do 2 eexists|by apply same_refl].
  - wp_steps. apply answered_page; [do 3 right; by eexists|by apply same_refl].
Qed.
End authorize.

(** C24: the CSRF token of a consent form. It is accepted for the user and the request it was
    made for exactly while its age is between minus one and fifteen minutes; for any other
    user, client, redirect URI, scopes, resource, state or challenge it is accepted only if
    two different messages have the same HMAC under the server's key. The parts are taken
    without zero bytes, the state excepted: it may hold anything. *)
Theorem csrf_token_bound `{Oracle} `{UnicodeDB} `{PublicKeys} {S} (s : Server S) uid uid' req req' (w w2 : World S) :
  stamp_ok (Unix (o_now (w_step w))) → csrf_plain uid req → csrf_plain uid' req' →
  wp (csrfToken s uid req) (λ token _,
    wp (checkCSRF s token uid' req') (λ b w3, w_store w3 = w_store w2 ∧
      let age := Sub (o_now (w_step w2)) (Unix (o_now (w_step w)) * Second) in
      (csrf_parts uid req = csrf_parts uid' req' → (b = true ↔ - Minute <= age <= csrfMaxAge))
      ∧ (csrf_parts uid req ≠ csrf_parts uid' req' → b = true →
          ∃ m m', m ≠ m' ∧ hmac_sha256 (sv_CSRFKey s) m = hmac_sha256 (sv_CSRFKey s) m')) w2) w.
Proof.
  intros Hts Hp Hp'. unfold csrfToken. wp_steps. apply wp_checkCSRF_issued; [done|]. intros age. split; [done|].
  fold age. destruct (Z.ltb_spec age (- Minute)); cbn [orb]; [split; [split; [discriminate|lia]|discriminate]|].
  destruct (Z.ltb_spec csrfMaxAge age); cbn [orb]; [split; [split; [discriminate|lia]|discriminate]|].
  split.
  - intros Heq. unfold csrfMAC. rewrite Heq, const_eq_refl. split; [lia|done].
  - intros Hne Hb%const_eq_spec. do 2 eexists. split; [|exact Hb]. intros Hm. apply Hne.
    by eapply csrf_message_inj.
Qed.

(** C16: the authorization code flow completes. A code issued for a request with the S256
    challenge of a valid verifier is redeemed by the client with that verifier: as long as
    the code is stored, unexpired, and its user is stored and not locked out, the exchange
    returns tokens with the scopes of the request, through a stored grant of that user and
    client for that resource, and the access token lives. *)
Theorem code_flow_completes `{Oracle} `{UnicodeDB} `{PublicKeys, !JWTLaws} {S}
    `{UserStore S, OAuthStore S, StoreView S, !UserStoreSpec S, !OAuthStoreSpec S}
    (s : Server S) h r uid req v pk (w : World S) :
  v_inv (w_store w) → codes_fresh w →
  signer_ok (sv_signer s) → public_of (sg_SignKey (sv_signer s)).2 = Some pk →
  (∀ tok, is_ok (SignedString tok (sg_SignKey (sv_signer s)).2) = true) →
  validVerifier v = true → az_challenge req = RawURLEncode (sha256 (str_bytes v)) →
  wp (issueCode s h r uid req) (λ resp w1, ∃ code issued, resp = redirectTo s h r req [("code", code)]
    ∧ ∀ client f u w2, v_inv (w_store w2) →
      (∀ i, (w_step w2 <= i)%nat → grants_of w2 !! o_uuid i = None) →
      codes_of w2 !! hashSecret code = codes_of w1 !! hashSecret code →
      v_users (w_store w2) !! uid = Some u →
      rc_ID client = rc_ID (az_client req) → clientAllows client GrantTypeAuthorizationCode = true →
      Values_Get f "code" = code → Values_Get f "code_verifier" = v →
      Values_Get f "redirect_uri" = az_redirectURI req → Values_Get f "resource" = "" →
      wp (exchangeCode s client f) (λ res w3,
        (∀ i, (w_step w2 <= i < w_step w3)%nat → o_now i <= issued + sv_CodeTTL s ∧ locked_at u (o_now i) = false) →
        ∃ tr g t, res = inl tr ∧ TR_Scope tr = joinScopes (parseScopes (joinScopes (az_scopes req)))
          ∧ grants_of w3 !! Grant_ID g = Some g ∧ Grant_UserID g = uid ∧ Grant_ClientID g = rc_ID client
          ∧ Grant_Resource g = az_resource req ∧ token_lives s tr u g t) w2) w.
Proof.
  intros Hi Hf Hok Hpk Hsig Hv Hch. apply wp_issueCode; [done|done|].
  intros i j w1 _ _ code Hw1. exists code, (o_now j). split; [reflexivity|].
  intros client f u w2 Hi2 Hfresh Hc2 Hu2 Hcl Hal Hcode Hver Hred Hres.
  rewrite (rows_set_rows _ _ _ Hw1) in Hc2. cbn in Hc2. rewrite lookup_insert_eq in Hc2.
  pose proof (secret_nonempty i) as Hne. fold code in Hne.
  apply wp_exchangeCode; [done|done|..].
  - intros e w' Hs Hn Htime. exfalso. destruct (Hn (code_row s code uid req (o_now j)) u) as (k & Hk & Hbad).
    { constructor; cbn; [done|by rewrite Hcode|done|done]. }
    destruct (Htime k Hk) as [Hexp Hl]. destruct Hbad as [Hbad|Hbad]; [|congruence]. apply Hbad.
    constructor; cbn; [done|by rewrite Hcl|by right|by rewrite Hver|by rewrite Hver|by left].
  - intros c e w' Hc Hu. rewrite Hcode, Hc2 in Hc. injection Hc as <-. by destruct Hu.
  - intros c u' i' j' k hash refresh res w3 _ _ _ [[_ [_ Hc] _ Hu'] _ _] _ g Hw3 Hr _.
    rewrite Hcode, Hc2 in Hc. injection Hc as <-. cbn in Hu'. rewrite Hu2 in Hu'. injection Hu' as <-.
    destruct Hr as [[_ [tok Hbad]]|(i2 & jti & roles & str & ttl & _ & Hsign & ->)]; [by rewrite Hsig in Hbad|].
    pose proof (spec_keyed _ Hi2 _ _ Hu2) as Hid. cbn in Hid.
    eexists _, g, (o_now i2). split; [reflexivity|]. split; [reflexivity|].
    split; [|split; [exact Hid|split; [done|split; [done|by eapply signed_token_lives]]]].
    rewrite (rows_set_rows _ _ _ Hw3). unfold exchanged. destruct (rc_CIMD client); cbn; by rewrite lookup_insert_eq.
Qed.
