(* ===== verification/ClientAssertion.v ===== *)
(** * Client assertions (private_key_jwt)

    [oauth/client_assertion.go]: verification of an RFC 7523 assertion against the keys a
    client publishes, and its single use.  [jwt.Parse] with a key function that fetches
    keys is split as the library runs it: the unverified token, the allowed algorithm,
    the key function, then verification under the keys ([AssertionJWT]). *)

From S2P Require Import Prelude GoStrings GoBytes GoCrypto GoNet GoUrl Errors World Entities OAuthTypes Stores.
From S2P Require Import UserManager Jwt GoHttp OAuthUtil Signer Jwks TokenService OAuthServer.
From S2P Require Import StoreLaws OAuthServerFacts.

Local Open Scope Z_scope.

Definition assertionLeeway : Duration := 30 * Second.
Definition maxJTILen : Z := 256.

(** The parser options of an assertion. *)
Record AssertionOptions := mkAssertionOptions {
  ao_ValidMethods : list string;
  ao_Issuer : string;
  ao_Subject : string;
  ao_Audiences : list string;
  ao_Leeway : Duration;
}.

(** Why [jwt.Parse] failed, as far as [assertionError] tells the causes apart. *)
Inductive jwt_error :=
  | TokenUnverifiable (msg : string)
  | TokenSignatureInvalid
  | TokenInvalidAudience
  | TokenExpired
  | TokenRequiredClaimMissing
  | TokenUsedTooEarly
  | TokenInvalidIssuerOrSubject
  | TokenOther.

Class AssertionJWT `{JWT} := {
  jwt_ParseUnverified : string → option Token;
  (** verification under a non-empty key set, then the claims at a time *)
  jwt_VerifyWith : list (RSAPublicKey + ECPublicKey) → AssertionOptions → Time → string → Token + jwt_error;
  (** [claims.GetExpirationTime()] on a claim value *)
  jwt_NumericDate : json → option Time;
}.

Class AssertionLaws `{AssertionJWT} : Prop := {
  Verify_sound keys ao t str tok : jwt_VerifyWith keys ao t str = inl tok →
    jwt_ParseUnverified str = Some tok
    ∧ as_string (tok_Claims tok !! "iss") = ao_Issuer ao
    ∧ as_string (tok_Claims tok !! "sub") = ao_Subject ao
    ∧ Exists (λ a, audience_ok a (tok_Claims tok !! "aud")) (ao_Audiences ao)
    ∧ ∃ v e, tok_Claims tok !! "exp" = Some v ∧ jwt_NumericDate v = Some e ∧ t < e + ao_Leeway ao;
}.

(** [assertionError]. *)
Definition assertionError (e : jwt_error) : string :=
  match e with
  | TokenUnverifiable msg => "client assertion not verifiable: " +:+ msg
  | TokenSignatureInvalid => "client assertion signature or algorithm not accepted ("
      +:+ Join ", " AssertionSigningAlgs +:+ " with the client's published keys)"
  | TokenInvalidAudience => "client assertion aud must be the issuer or the token endpoint URL"
  | TokenExpired => "client assertion has expired"
  | TokenRequiredClaimMissing => "client assertion must carry exp"
  | TokenUsedTooEarly => "client assertion is not valid yet (iat/nbf in the future)"
  | TokenInvalidIssuerOrSubject => "client assertion iss and sub must both be the client_id"
  | TokenOther => "invalid client assertion"
  end.

Section assertion.
Context `{Oracle} `{UnicodeDB} `{PublicKeys} `{!AssertionJWT} {S : Type} `{UserStore S} `{OAuthStore S}.
Context (s : Server S).

(** The keys that fit an algorithm and, when given, a key id. *)
Definition pick (alg kid : string) (keys : list clientKey) : list (RSAPublicKey + ECPublicKey) :=
  ck_key <$> filter (λ k, fits k alg && (String.eqb kid "" || String.eqb (ck_kid k) kid) = true) keys.

(** The key function: inline keys or the published set, fetched again once for an unknown
    key id. *)
Definition assertion_keys (client : resolvedClient) (t : Token) : M S (list (RSAPublicKey + ECPublicKey) + jwt_error) :=
  let alg := tok_Alg t in
  let kid := as_string (tok_Header t !! "kid") in
  let uri := rc_JWKSURI client in
  let has_uri := negb (String.eqb uri "") in
  r ← (if has_uri then cimd_jwks (sv_CIMD s) uri false else mret (Ok (rc_Keys client)));
  match r with
  | Err e => mret (inr (TokenUnverifiable (Error e)))
  | Ok keys =>
    let set := pick alg kid keys in
    r ← (if bool_decide (set = []) && negb (String.eqb kid "") && has_uri then
           r ← cimd_jwks (sv_CIMD s) uri true;
           mret match r with Err e => Err e | Ok keys => Ok (pick alg kid keys) end
         else mret (Ok set));
    mret match r with
         | Err e => inr (TokenUnverifiable (Error e))
         | Ok [] => inr (TokenUnverifiable "no client key matches the assertion")
         | Ok set => inl set
         end
  end.

Definition parse_assertion (client : resolvedClient) (endpoint_ assertion : string) : M S (Token + jwt_error) :=
  let clientID := rc_ID client in
  let algs := if String.eqb (rc_SigningAlg client) "" then AssertionSigningAlgs else [rc_SigningAlg client] in
  let token_ep := endpoint s (sv_TokenPath s) in
  let audiences := [sv_issuer s; token_ep] ++ if String.eqb endpoint_ token_ep then [] else [endpoint_] in
  match jwt_ParseUnverified assertion with
  | None => mret (inr TokenOther)
  | Some t =>
    if negb (bool_decide (tok_Alg t ∈ algs)) then mret (inr TokenSignatureInvalid) else
    keys ← assertion_keys client t;
    match keys with
    | inr e => mret (inr e)
    | inl keys =>
      at_ ← now;
      mret (jwt_VerifyWith keys (mkAssertionOptions algs clientID clientID audiences assertionLeeway) at_ assertion)
    end
  end.

Definition authenticateAssertion (endpoint_ : string) (f : Values) : M S (oresult resolvedClient) :=
  if negb (String.eqb (Values_Get f "client_assertion_type") ClientAssertionTypeJWTBearer) then
    mret (inr (errInvalidClient "unsupported client_assertion_type")) else
  let assertion := Values_Get f "client_assertion" in
  if String.eqb assertion "" then mret (inr (errInvalidRequest "client_assertion is required")) else
  match jwt_ParseUnverified assertion with
  | None => mret (inr (errInvalidClient "malformed client assertion"))
  | Some unverified =>
    let uc := tok_Claims unverified in
    let clientID := as_string (uc !! "sub") in
    if String.eqb clientID "" || negb (String.eqb (as_string (uc !! "iss")) clientID) then
      mret (inr (errInvalidClient "client assertion iss and sub must both be the client_id")) else
    let id := Values_Get f "client_id" in
    if negb (String.eqb id "") && negb (String.eqb id clientID) then
      mret (inr (errInvalidClient "client_id does not match the client assertion")) else
    c ← resolveClient s clientID;
    match c with
    | Err e => mret (inr (errInvalidClient (Error e)))
    | Ok client =>
      if negb (String.eqb (rc_AuthMethod client) AuthMethodPrivateKeyJWT) then
        mret (inr (errInvalidClient "client is not registered for private_key_jwt")) else
      p ← parse_assertion client endpoint_ assertion;
      match p with
      | inr e => mret (inr (errInvalidClient (assertionError e)))
      | inl parsed =>
        let claims := tok_Claims parsed in
        match (claims !! "exp") ≫= jwt_NumericDate with
        | None => panic "runtime error: invalid memory address or nil pointer dereference"
        | Some exp =>
          at_ ← now;
          if sv_ClientAssertionMaxLifetime s <? Sub exp at_ then
            mret (inr (errInvalidClient "client assertion lifetime is too long")) else
          let jti := as_string (claims !! "jti") in
          if String.eqb jti "" || (maxJTILen <? len jti) then
            mret (inr (errInvalidClient "client assertion must carry a jti")) else
          fresh ← os_UseClientAssertion clientID jti (Add exp assertionLeeway);
          mret match fresh with
               | Err _ => inr (errServer "could not record the client assertion")
               | Ok false => inr (errInvalidClient "client assertion was already used")
               | Ok true => inl client
               end
        end
      end
    end
  end.
End assertion.

(** * Client assertions are used once

    What an accepted assertion shows, and that it is never accepted again, not even after
    its record has been purged. *)

Section facts.
Context `{Oracle} `{UnicodeDB} `{PublicKeys} `{!AssertionJWT, !AssertionLaws} {S : Type}.
Context `{UserStore S, OAuthStore S, StoreView S, !OAuthStoreSpec S} (s : Server S) `{!CIMDSpec (sv_CIMD s)}.
Implicit Types w : World S.

(** The options an assertion of [client] at an endpoint is verified with. *)
Definition assertion_options (client : resolvedClient) (endpoint_ : string) : AssertionOptions :=
  let token_ep := endpoint s (sv_TokenPath s) in
  mkAssertionOptions (if String.eqb (rc_SigningAlg client) "" then AssertionSigningAlgs else [rc_SigningAlg client])
    (rc_ID client) (rc_ID client)
    ([sv_issuer s; token_ep] ++ if String.eqb endpoint_ token_ep then [] else [endpoint_]) assertionLeeway.

Lemma wp_assertion_keys client t w (Q : list (RSAPublicKey + ECPublicKey) + jwt_error → World S → Prop) :
  v_inv (w_store w) → (∀ r w', same w w' → Q r w') → wp (assertion_keys s client t) Q w.
Proof.
  intros Hi HQ. unfold assertion_keys. set (alg := tok_Alg t). set (kid := as_string _). set (uri := rc_JWKSURI client).
  assert (∀ (refetch : bool) keys w1, same w w1 →
    wp (r ← (if refetch then r ← cimd_jwks (sv_CIMD s) uri true;
               mret match r with Err e => Err e | Ok keys => Ok (pick alg kid keys) end
             else mret (Ok (pick alg kid keys)));
        mret match r with
             | Err e => inr (TokenUnverifiable (Error e))
             | Ok [] => inr (TokenUnverifiable "no client key matches the assertion")
             | Ok set => inl set
             end) Q w1) as Htail.
  { intros refetch keys w1 Hs. destruct refetch; wp_steps; [|by apply HQ].
    wp_call spec_jwks; [exact (same_inv _ _ Hs)|]. intros r w2 Hs2. wp_steps. apply HQ. by eapply same_trans. }
  destruct (negb (String.eqb uri "")); rewrite wp_bind.
  - wp_call spec_jwks; [done|]. intros r w1 Hs. destruct r as [keys|e]; [by apply Htail|wp_steps; by apply HQ].
  - rewrite wp_ret. apply Htail. by apply same_refl.
Qed.

Lemma wp_parse_assertion client endpoint_ assertion w (Q : Token + jwt_error → World S → Prop) :
  v_inv (w_store w) →
  (∀ e w', same w w' → Q (inr e) w') →
  (∀ tok keys i w', (w_step w <= i)%nat → same w w' →
    jwt_VerifyWith keys (assertion_options client endpoint_) (o_now i) assertion = inl tok →
    tok_Alg tok ∈ ao_ValidMethods (assertion_options client endpoint_) → Q (inl tok) w') →
  wp (parse_assertion s client endpoint_ assertion) Q w.
Proof.
  intros Hi HE HQ. unfold parse_assertion. destruct (jwt_ParseUnverified assertion) as [t|] eqn:Hp;
    [|wp_steps; by apply HE, same_refl].
  case_bool_decide as Ha; cbn [negb]; [|wp_steps; by apply HE, same_refl].
  rewrite wp_bind. apply wp_assertion_keys; [done|]. intros r w1 Hs.
  destruct r as [keys|e]; [|wp_steps; by apply HE]. wp_steps. pose proof (same_step _ _ Hs).
  assert (same w (tick w1)) as Hs' by (eapply same_trans; [done|apply same_tick; exact (same_inv _ _ Hs)]).
  match goal with |- Q ?v _ => destruct v as [tok|e] eqn:Hv end; [|by apply HE].
  apply (HQ tok keys (w_step w1)); [done|done|exact Hv|].
  pose proof (Verify_sound _ _ _ _ _ Hv) as (Hp' & _). rewrite Hp in Hp'. by injection Hp' as <-.
Qed.

(** What an assertion accepted at [endpoint_] shows. *)
Record assertion_shown w (endpoint_ : string) (f : Values) (client : resolvedClient) (tok : Token)
    (exp : Time) (jti : string) (at_ at' : Time) : Prop := {
  as_parsed : jwt_ParseUnverified (Values_Get f "client_assertion") = Some tok;
  as_type : Values_Get f "client_assertion_type" = ClientAssertionTypeJWTBearer;
  as_client : known_client s w (rc_ID client) client ∧ rc_AuthMethod client = AuthMethodPrivateKeyJWT;
  as_form : Values_Get f "client_id" = "" ∨ Values_Get f "client_id" = rc_ID client;
  as_verified : ∃ keys, jwt_VerifyWith keys (assertion_options client endpoint_) at_
    (Values_Get f "client_assertion") = inl tok;
  as_alg : tok_Alg tok ∈ ao_ValidMethods (assertion_options client endpoint_);
  as_claims : as_string (tok_Claims tok !! "iss") = rc_ID client ∧ as_string (tok_Claims tok !! "sub") = rc_ID client;
  as_aud : Exists (λ a, audience_ok a (tok_Claims tok !! "aud")) (ao_Audiences (assertion_options client endpoint_));
  as_exp : (tok_Claims tok !! "exp") ≫= jwt_NumericDate = Some exp ∧ at_ < exp + assertionLeeway
    ∧ Sub exp at' <= sv_ClientAssertionMaxLifetime s;
  as_jti : as_string (tok_Claims tok !! "jti") = jti ∧ jti ≠ "" ∧ len jti <= maxJTILen;
}.

(** The branches of an authentication. *)
Lemma wp_authenticateAssertion endpoint_ f w (Q : oresult resolvedClient → World S → Prop) :
  v_inv (w_store w) →
  (∀ e w', same w w' → Q (inr e) w') →
  (∀ client tok exp jti i j w', (w_step w <= i)%nat → (w_step w <= j)%nat →
    assertion_shown w endpoint_ f client tok exp jti (o_now i) (o_now j) →
    match jtis_of w !! (rc_ID client, jti) with
    | Some _ => same w w'
    | None => rows_set w w' (set_jtis (<[(rc_ID client, jti) := exp + assertionLeeway]> (jtis_of w)) (v_rows (w_store w)))
    end →
    Q match jtis_of w !! (rc_ID client, jti) with
      | Some _ => inr (errInvalidClient "client assertion was already used")
      | None => inl client
      end w') →
  wp (authenticateAssertion s endpoint_ f) Q w.
Proof.
  intros Hi HE HQ. unfold authenticateAssertion. set (a := Values_Get f "client_assertion") in *.
  pose proof (same_refl w Hi) as Hr.
  destruct (String.eqb_spec (Values_Get f "client_assertion_type") ClientAssertionTypeJWTBearer) as [Htype|];
    cbn [negb]; [|wp_steps; by apply HE].
  destruct (String.eqb a ""); [wp_steps; by apply HE|].
  destruct (jwt_ParseUnverified a) as [t|] eqn:Hp; [|wp_steps; by apply HE].
  case_if Hiss; [wp_steps; by apply HE|].
  apply orb_false_iff in Hiss as [_ Hiss%negb_false_iff%String.eqb_eq].
  case_if Hid; [wp_steps; by apply HE|].
  rewrite wp_bind. apply wp_resolveClient; [apply _|done|]. intros c w1 Hs1 Hk.
  destruct c as [client|e]; [|wp_steps; by apply HE]. destruct (Hk client eq_refl) as [_ Hkc]. clear Hk.
  pose proof (known_client_id _ _ _ _ Hi Hkc) as Hcid. rewrite <-Hcid in *.
  destruct (String.eqb_spec (rc_AuthMethod client) AuthMethodPrivateKeyJWT) as [Hm|]; cbn [negb]; [|wp_steps; by apply HE].
  rewrite wp_bind. apply wp_parse_assertion; [exact (same_inv _ _ Hs1)|..].
  { intros e w2 Hs2. wp_steps. apply HE. by eapply same_trans. }
  intros tok keys i w2 Hi2 Hs2 Hv Halg. pose proof (same_trans _ _ _ Hs1 Hs2) as Hs.
  pose proof (Verify_sound _ _ _ _ _ Hv) as (Hp' & Htiss & Htsub & Haud & v & exp & Hev & Hexp & Hlt).
  fold a in Hp'. rewrite Hp in Hp'. injection Hp' as <-. rewrite Hev. cbn [mbind option_bind]. rewrite Hexp.
  wp_steps. pose proof (same_step _ _ Hs1). pose proof (same_step _ _ Hs2).
  assert (same w (tick w2)) as Ht by (eapply same_trans; [done|apply same_tick; exact (same_inv _ _ Hs)]).
  case_if Hlife; [wp_steps; by apply HE|]. apply Z.ltb_ge in Hlife.
  case_if Hj; [wp_steps; by apply HE|]. apply orb_false_iff in Hj as [Hj0%String.eqb_neq Hj1%Z.ltb_ge].
  assert (assertion_shown w endpoint_ f client t exp (as_string (tok_Claims t !! "jti")) (o_now i) (o_now (w_step w2))) as Hsh.
  { constructor; try done.
    - apply andb_false_iff in Hid as [Hid%negb_false_iff%String.eqb_eq|Hid%negb_false_iff%String.eqb_eq]; auto.
    - by exists keys.
    - by rewrite Hev. }
  wp_steps. wp_call spec_UseClientAssertion; [exact (same_inv _ _ Ht)|]. intros fr w3 Hw3. wp_steps.
  rewrite (same_rows _ _ Ht) in Hw3.
  specialize (HQ client t exp _ i (w_step w2) w3 ltac:(lia) ltac:(lia) Hsh).
  destruct (jtis_of w !! _) as [e|]; destruct Hw3 as [-> Hw3]; apply HQ.
  - by eapply same_trans.
  - by eapply rows_set_after.
Qed.

(** An assertion id that will never be accepted again: recorded until [e], or past it. *)
Definition spent w (clientID jti : string) (e : Time) : Prop :=
  jtis_of w !! (clientID, jti) = Some e ∨ ∀ i, (w_step w <= i)%nat → e <= o_now i.

Lemma PurgeExpired_spent w clientID jti e :
  v_inv (w_store w) → (∀ i j, (i <= j)%nat → o_now i <= o_now j) → spent w clientID jti e →
  wp (PurgeExpired (S := S)) (λ _ w', v_inv (w_store w') ∧ spent w' clientID jti e) w.
Proof.
  intros Hi Hmono Hsp. unfold PurgeExpired. wp_steps. set (t := o_now (w_step w)).
  wp_call spec_DeleteExpiredCodes; [done|]. intros r w1 [-> Hw1]. wp_steps.
  wp_call spec_DeleteExpiredGrants; [exact (rows_set_inv _ _ _ Hw1)|]. intros r w2 [-> Hw2]. wp_steps.
  wp_call spec_DeleteExpiredClientAssertions; [exact (rows_set_inv _ _ _ Hw2)|]. intros r w3 [-> Hw3]. wp_steps.
  split; [exact (rows_set_inv _ _ _ Hw3)|].
  pose proof (rows_set_step _ _ _ Hw1) as Hs1. pose proof (rows_set_step _ _ _ Hw2). pose proof (rows_set_step _ _ _ Hw3).
  cbn in Hs1. unfold spent. rewrite (rows_set_rows _ _ _ Hw3). cbn.
  rewrite (rows_set_rows _ _ _ Hw2), (rows_set_rows _ _ _ Hw1). cbn.
  assert (e <= t → ∀ i, (w_step w3 <= i)%nat → e <= o_now i) as Hpast.
  { intros He i Hi3. transitivity t; [done|]. apply Hmono. lia. }
  destruct Hsp as [Hj|Hp]; [|right; intros i Hi3; apply Hp; lia].
  destruct (Z.ltb_spec e t) as [Hlt|Hge]; [right; apply Hpast; lia|]. left.
  apply map_lookup_filter_Some. split; [done|]. cbn. unfold Before. by apply Z.ltb_ge.
Qed.

(** C18: a client assertion is used once. A client is authenticated only by an unexpired
    assertion that verifies under keys it publishes, with an algorithm it accepts, names it
    as issuer and subject and this server as audience, does not live too long and carries an
    id not recorded before; the id is then recorded past the assertion's expiry, and nothing
    else changes. From then on the same assertion is refused at every endpoint: while its
    record is there because of the record, and once the garbage collection has removed it
    because the assertion has expired; the collection keeps this so while the clock does not
    run backwards. *)
Theorem assertion_used_once endpoint_ f w :
  v_inv (w_store w) → (∀ i j, (i <= j)%nat → o_now i <= o_now j) →
  wp (authenticateAssertion s endpoint_ f) (λ r w1,
    match r with
    | inr _ => same w w1
    | inl client => ∃ tok exp jti i j, assertion_shown w endpoint_ f client tok exp jti (o_now i) (o_now j)
        ∧ jtis_of w !! (rc_ID client, jti) = None
        ∧ rows_set w w1 (set_jtis (<[(rc_ID client, jti) := exp + assertionLeeway]> (jtis_of w)) (v_rows (w_store w)))
        ∧ spent w1 (rc_ID client) jti (exp + assertionLeeway)
        ∧ ∀ w2, v_inv (w_store w2) → spent w2 (rc_ID client) jti (exp + assertionLeeway) →
            wp (PurgeExpired (S := S)) (λ _ w3, v_inv (w_store w3) ∧ spent w3 (rc_ID client) jti (exp + assertionLeeway)) w2
            ∧ ∀ endpoint2 f2, Values_Get f2 "client_assertion" = Values_Get f "client_assertion" →
                wp (authenticateAssertion s endpoint2 f2) (λ r2 w3, refused r2 ∧ same w2 w3) w2
    end) w.
Proof.
  intros Hi Hmono. apply wp_authenticateAssertion; [done|done|].
  intros client tok exp jti i j w1 Hi1 Hj1 Hsh Hw1. destruct (jtis_of w !! _) as [e|] eqn:Hn; [done|].
  exists tok, exp, jti, i, j. split; [done|]. split; [done|]. split; [done|]. split.
  { left. rewrite (rows_set_rows _ _ _ Hw1). cbn. by rewrite lookup_insert_eq. }
  intros w2 Hi2 Hsp. split; [by apply PurgeExpired_spent|]. intros endpoint2 f2 Hf2.
  apply wp_authenticateAssertion; [done|by split|].
  intros client2 tok2 exp2 jti2 i2 j2 w3 Hi3 _ Hsh2 Hw3. destruct Hsh, Hsh2.
  rewrite Hf2, as_parsed0 in as_parsed1. injection as_parsed1 as <-.
  destruct as_exp0 as (Hexp & _ & _), as_exp1 as (Hexp2 & Hlt & _). rewrite Hexp in Hexp2. injection Hexp2 as <-.
  destruct as_claims0 as [_ Hsub], as_claims1 as [_ Hsub2]. destruct as_jti0 as [Hj _], as_jti1 as [Hj2 _].
  rewrite Hsub in Hsub2. rewrite Hj in Hj2. subst jti2.
  destruct Hsp as [Hrec|Hpast]; [|specialize (Hpast i2 Hi3); lia].
  rewrite <-Hsub2, Hrec in Hw3 |- *. by split.
Qed.
End facts.
