(* ===== verification/OAuthEndpoints.v ===== *)
(** * The token and revocation endpoints answer every request

    The handlers composed: method and form, client authentication with a secret or an
    assertion, the grants and revocation.  They always end with an answer, whatever the
    request, and hand out tokens only to an authenticated client. *)

From S2P Require Import Prelude GoStrings GoBytes GoCrypto GoNet GoUrl Errors World Entities OAuthTypes Stores.
From S2P Require Import StoreLaws UserManager SignIn Jwt GoHttp OAuthUtil Signer Jwks TokenService.
From S2P Require Import OAuthServer OAuthServerFacts OAuthToken OAuthTokenFacts OAuthProtocol ClientAssertion.


Local Open Scope Z_scope.

Section endpoints.
Context `{Oracle} `{UnicodeDB} `{PublicKeys} `{!AssertionJWT, !AssertionLaws} {S : Type}.
Context `{UserStore S, OAuthStore S, StoreView S, !UserStoreSpec S, !OAuthStoreSpec S}.
Context (s : Server S) `{!CIMDSpec (sv_CIMD s)}.
Implicit Types w : World S.

(** How a client authenticated: a known client with the secret its row asks for, from the
    form or HTTP Basic, or with an assertion. *)
Definition authenticated w (req : Request) (f : Values) (client : resolvedClient) : Prop :=
  known_client s w (rc_ID client) client ∧
  ((∃ secret basic, credentials req f = (inl (rc_ID client, secret, basic), basic) ∧ check_secret client secret = inl client)
   ∨ rc_AuthMethod client = AuthMethodPrivateKeyJWT ∧ ∃ ep tok exp jti t t', assertion_shown s w ep f client tok exp jti t t').

Lemma authenticated_rows w w' req f client : v_rows (w_store w) = v_rows (w_store w') →
  authenticated w req f client → authenticated w' req f client.
Proof.
  intros Hr [Hk Ha].
  assert (known_client s w (rc_ID client) client → known_client s w' (rc_ID client) client) as Hkk
    by (unfold known_client; by rewrite Hr).
  split; [by apply Hkk|]. destruct Ha as [?|(Hm & ep & tok & exp & jti & t & t' & Hsh)]; [by left|right]. destruct Hsh.
  split; [done|]. exists ep, tok, exp, jti, t, t'. constructor; try done. split; [by apply Hkk|done].
Qed.

(** Authentication at most records the id of an assertion. *)
Definition auth_moves w w' : Prop := ∃ J, rows_set w w' (set_jtis J (v_rows (w_store w))).

Lemma auth_moves_same w w' : same w w' → auth_moves w w'.
Proof. intros Hs. exists (jtis_of w). apply same_omoves in Hs. by destruct (v_rows (w_store w)). Qed.

Lemma credentials_basic req f id secret basic b : credentials req f = (inl (id, secret, basic), b) → b = basic.
Proof.
  unfold credentials. destruct (BasicAuth req) as [[bid bsec]|]; [|by intros [= _ _ <- <-]].
  destruct (negb _); [discriminate|]. destruct (QueryUnescape bid), (QueryUnescape bsec); try discriminate.
  destruct (_ && _); [discriminate|]. by intros [= _ _ <- <-].
Qed.

Lemma check_secret_id client secret c : check_secret client secret = inl c → c = client.
Proof. unfold check_secret. repeat match goal with |- context [if ?b then _ else _] => destruct b end; congruence. Qed.

Lemma wp_authenticateClient req f ep w (Q : oresult resolvedClient * bool → World S → Prop) :
  v_inv (w_store w) →
  (∀ r b w', auth_moves w w' → (∀ c, r = inl c → authenticated w req f c) → Q (r, b) w') →
  wp (authenticateClient s (authenticateAssertion s) req f ep) Q w.
Proof.
  intros Hi HQ. unfold authenticateClient.
  assert (∀ e b, Q (inr e, b) w) as Herr by (intros e b; apply HQ; [by apply auth_moves_same, same_refl|discriminate]).
  destruct (_ || _).
  - destruct (_ || _); [wp_steps; apply Herr|]. rewrite wp_bind. apply wp_authenticateAssertion; [apply _|done|..].
    + intros e w' Hs. wp_steps. apply HQ; [by apply auth_moves_same|discriminate].
    + intros client tok exp jti i j w' _ _ Hsh Hw'. wp_steps. apply HQ.
      * destruct (jtis_of w !! _); [by apply auth_moves_same|by eexists].
      * destruct (jtis_of w !! _); [discriminate|]. intros c [= <-]. destruct (as_client _ _ _ _ _ _ _ _ _ _ Hsh).
        split; [done|]. right. split; [done|]. by do 6 eexists.
  - destruct (credentials req f) as [[[[id secret] basic]|e] b] eqn:Hcr; [|wp_steps; apply Herr].
    pose proof (credentials_basic _ _ _ _ _ _ Hcr) as ->.
    destruct (String.eqb id ""); [wp_steps; apply Herr|]. rewrite wp_bind. apply wp_resolveClient; [apply _|done|].
    intros r w' Hs Hk. destruct r as [client|e]; wp_steps; [|apply HQ; [by apply auth_moves_same|discriminate]].
    destruct (Hk client eq_refl) as [_ Hkc]. pose proof (known_client_id _ _ _ _ Hi Hkc) as Hid.
    apply HQ; [by apply auth_moves_same|]. intros c Hc. pose proof (check_secret_id _ _ _ Hc) as ->.
    rewrite <-Hid in Hkc, Hcr. split; [done|]. left. by exists secret, basic.
Qed.

(** What a request may leave behind: users, consents and messages are as before. *)
Definition answers w w' : Prop := v_inv (w_store w') ∧ v_users (w_store w') = v_users (w_store w)
  ∧ only_logs w w' ∧ ∀ u c, plain u → v_consent (w_store w') u c = v_consent (w_store w) u c.

Lemma rows_answers w w' O : rows_set w w' O → answers w w'.
Proof. intros []. by split_and!. Qed.
Lemma answers_rows w w1 w2 O1 O2 : rows_set w w1 O1 → rows_set w1 w2 O2 → answers w w2.
Proof. intros Hw1 Hw2. eapply rows_answers. by eapply rows_set_trans. Qed.

Lemma wp_exchange_total client f w :
  v_inv (w_store w) → (∀ i, (w_step w <= i)%nat → grants_of w !! o_uuid i = None) →
  wp (exchangeCode s client f) (λ r w', (∃ O, rows_set w w' O) ∧ (∀ tr, r = inl tr → clientAllows client GrantTypeAuthorizationCode = true)) w.
Proof.
  intros Hi Hf. apply wp_exchangeCode; [done|done|..].
  - intros e w' Hs _. split; [eexists; by apply same_omoves|discriminate].
  - intros c e w' _ _ Hw'. split; [by eexists|discriminate].
  - intros c u i j k hash refresh r w' _ _ _ Hred _ g Hw' _. split; [by eexists|]. intros _ _. by destruct Hred as [[]].
Qed.

Lemma wp_refresh_total client f w :
  v_inv (w_store w) →
  wp (refreshGrant s client f) (λ r w', (∃ O, rows_set w w' O) ∧ (∀ tr, r = inl tr → clientAllows client GrantTypeRefreshToken = true)) w.
Proof.
  intros Hi. apply wp_refreshGrant; [done|..].
  - intros e w' Hs. split; [eexists; by apply same_omoves|discriminate].
  - intros e gid secret g w' _ _ _ _ Hw'. split; [by eexists|discriminate].
  - intros gid secret g u scopes i j new r w' _ _ Hred g' Hw' _. split; [by eexists|]. intros _ _. by destruct Hred.
Qed.

(** Answers without tokens: an error document, a preflight answer or an empty success. *)
Definition plain_answer (resp : Response) : Prop :=
  (∃ h e, resp = writeError h e) ∨ ∃ h st, resp = mkResponse st h NoBody.

(** The form of a request, or an answer without tokens. *)
Lemma form_post_spec req : match form_post req with
  | (_, inr resp) => plain_answer resp
  | (h, inl f) => req_Method req = "POST" ∧ req_PostForm req = Some f ∧ h !! "Cache-Control" = Some "no-store"
  end.
Proof.
  unfold form_post, cors. destruct (String.eqb (req_Method req) "OPTIONS"); [right; by do 2 eexists|].
  set (h := noStore _). assert (h !! "Cache-Control" = Some "no-store") as Hh by reflexivity.
  destruct (String.eqb_spec (req_Method req) "POST"); cbn [negb]; [|left; by do 2 eexists].
  destruct (negb _); [left; by do 2 eexists|]. destruct (req_PostForm req); [done|left; by do 2 eexists].
Qed.

(** C23: the token endpoint. Every request, whatever its method, headers, form and
    credentials, ends with an answer and without a panic; it changes no user, no consent and
    sends nothing. Tokens are in the answer only for a POSTed form without repeated
    parameters, from a known client that authenticated with its secret or an assertion and
    may use the grant type it asks for; the answer must not be cached. *)
Theorem TokenHandler_answers req w :
  v_inv (w_store w) → (∀ i, (w_step w <= i)%nat → grants_of w !! o_uuid i = None) →
  wp (TokenHandler s (authenticateAssertion s) req) (λ resp w', answers w w' ∧
    (plain_answer resp ∨ ∃ h tr f client, resp = writeJSON h StatusOK (TokenResponse_json tr)
      ∧ h !! "Cache-Control" = Some "no-store" ∧ req_Method req = "POST" ∧ req_PostForm req = Some f
      ∧ (∀ k l, f !! k = Some l → (length l <= 1)%nat) ∧ authenticated w req f client
      ∧ clientAllows client (Values_Get f "grant_type") = true
      ∧ Values_Get f "grant_type" ∈ [GrantTypeAuthorizationCode; GrantTypeRefreshToken])) w.
Proof.
  intros Hi Hf. unfold TokenHandler. pose proof (form_post_spec req) as Hform. pose proof (same_refl w Hi) as Hr.
  destruct (form_post req) as [h [f|resp]]; [|wp_steps; split; [by eapply rows_answers, same_omoves|by left]].
  destruct Hform as (Hm & Hpf & Hh). unfold range_map. wp_steps. set (l := o_order _ _).
  assert (l ≡ₚ map_to_list f) as Hl by apply o_order_perm. pose proof (same_tick w Hi) as Ht.
  destruct (head _) as [[k ?]|] eqn:Hdup; [wp_steps; split; [by eapply rows_answers, same_omoves|left; left; by do 2 eexists]|].
  assert (∀ k l, f !! k = Some l → (length l <= 1)%nat) as Hone.
  { intros k vs Hk. destruct (decide (1 < length vs)%nat) as [Hlt|]; [|lia]. exfalso.
    assert ((k, vs) ∈ filter (λ kv : string * list string, (1 < length kv.2)%nat) l) as Hin.
    { apply list_elem_of_filter. split; [done|]. rewrite Hl. by apply elem_of_map_to_list. }
    destruct (filter _ l); [by apply not_elem_of_nil in Hin|discriminate]. }
  rewrite wp_bind. apply wp_authenticateClient; [done|]. intros r b w1 [J Hw1] Hauth.
  pose proof (rows_set_after _ _ _ _ Ht Hw1) as Hw. cbn in Hw.
  destruct r as [client|e]; [|wp_steps; split; [by eapply rows_answers|left; left; by do 2 eexists]].
  specialize (Hauth client eq_refl). apply (authenticated_rows _ w) in Hauth; [|done].
  assert (∀ gt (m : M S (oresult TokenResponse)), Values_Get f "grant_type" = gt →
    gt ∈ [GrantTypeAuthorizationCode; GrantTypeRefreshToken] →
    wp m (λ r w', (∃ O, rows_set w1 w' O) ∧ (∀ tr, r = inl tr → clientAllows client gt = true)) w1 →
    wp (e ← m; mret match e with inr e => writeError h e | inl resp => writeJSON h StatusOK (TokenResponse_json resp) end)
      (λ resp w', answers w w' ∧ (plain_answer resp ∨ ∃ h tr f client, resp = writeJSON h StatusOK (TokenResponse_json tr)
      ∧ h !! "Cache-Control" = Some "no-store" ∧ req_Method req = "POST" ∧ req_PostForm req = Some f
      ∧ (∀ k l, f !! k = Some l → (length l <= 1)%nat) ∧ authenticated w req f client
      ∧ clientAllows client (Values_Get f "grant_type") = true
      ∧ Values_Get f "grant_type" ∈ [GrantTypeAuthorizationCode; GrantTypeRefreshToken])) w1) as Hgrant.
  { intros gt m Hgt Hin Hrun. rewrite wp_bind. eapply wp_mono; [exact Hrun|]. intros r w2 [[O Hw2] Hal]. wp_steps.
    split; [by eapply answers_rows|]. destruct r as [tr|e]; [right|left; left; by do 2 eexists].
    exists h, tr, f, client. rewrite Hgt.
    do 6 (split; [first [reflexivity|assumption]|]). split; [by eapply Hal|exact Hin]. }
  assert (grants_of w1 = grants_of w) as Hg by by rewrite (rows_set_rows _ _ _ Hw).
  destruct (String.eqb_spec (Values_Get f "grant_type") GrantTypeAuthorizationCode) as [Hgt|].
  { apply (Hgrant _ _ Hgt); [left|]. apply wp_exchange_total; [exact (rows_set_inv _ _ _ Hw)|].
    intros i Hi'. rewrite Hg. apply Hf. pose proof (rows_set_step _ _ _ Hw). lia. }
  destruct (String.eqb_spec (Values_Get f "grant_type") GrantTypeRefreshToken) as [Hgt|].
  { apply (Hgrant _ _ Hgt); [right; left|]. apply wp_refresh_total. exact (rows_set_inv _ _ _ Hw). }
  destruct (String.eqb _ ""); wp_steps; (split; [by eapply rows_answers|left; left; by do 2 eexists]).
Qed.
End endpoints.
