(* ===== verification/AuthHttp.v ===== *)
(** * HTTP authentication and authorization

    Package [auth]: the middleware that turns a bearer token or a session cookie into a
    principal, role and policy gates, and the cookie itself. *)

From S2P Require Import Prelude GoStrings GoBytes GoNet GoUrl Errors World Entities Stores UserManager Jwt GoHttp.
From S2P Require Import Hasher TokenProvider TwoFactor Signer TokenService Jwks ApiKeys.

Local Open Scope Z_scope.

(** [auth.Principal]. *)
Record Principal := mkPrincipal {
  P_User : User;
  P_Claims : MapClaims;
  P_Roles : list string;
  P_Scopes : list string;
  P_ViaAPIKey : bool;
  P_ViaOAuth : bool;
  P_ClientID : string;
}.

(** ** Cookies *)

Record CookieAuth := mkCookieAuth {
  Cookie_Name : string;
  Cookie_Path : string;
  Cookie_Secure : bool;
  Cookie_SameSite : string;
  Cookie_MaxAge : Duration;
}.

(** [http.Cookie], as far as the code sets it; [MaxAge] is in seconds. *)
Record Cookie := mkCookie {
  ck_Name : string;
  ck_Value : string;
  ck_Path : string;
  ck_HttpOnly : bool;
  ck_Secure : bool;
  ck_SameSite : string;
  ck_Expires : option Time;
  ck_MaxAge : Z;
}.

Definition DefaultCookieAuth : CookieAuth :=
  mkCookieAuth ".GoIdentity.Auth" "/" true "Lax" (24 * Hour).

Definition cookie_read (c : option CookieAuth) (r : Request) : string :=
  match c with None => "" | Some c => default "" (req_Cookies r !! Cookie_Name c) end.

Definition cookie_Write {S} `{Oracle} (c : CookieAuth) (accessToken : string) : M S Cookie :=
  at_ ← now;
  mret (mkCookie (Cookie_Name c) accessToken (Cookie_Path c) true (Cookie_Secure c) (Cookie_SameSite c)
    (Some (Add at_ (Cookie_MaxAge c))) 0).
Definition cookie_Clear (c : CookieAuth) : Cookie :=
  mkCookie (Cookie_Name c) "" (Cookie_Path c) true (Cookie_Secure c) (Cookie_SameSite c) None (-1).

(** ** Principals *)

Section principal.
Context `{UnicodeDB}.

Definition HasRole (p : Principal) (role : string) : bool := existsb (λ r, EqualFold r role) (P_Roles p).
Definition HasScope (p : Principal) (scope : string) : bool := existsb (λ s, String.eqb s scope) (P_Scopes p).

(** [p.ClaimValue(claimType)]: [Some v] when [ok].  A list stored as [[]string] (the roles
    of an API-key principal) is told apart from decoded JSON by the caller. *)
Definition ClaimValue (p : Principal) (claimType : string) : option string :=
  match P_Claims p !! claimType with
  | Some (JStr s) => Some s
  | Some (JArr (JStr s :: _)) => if P_ViaAPIKey p && String.eqb claimType ClaimRole then None else Some s
  | _ => None
  end.

Definition HasClaim (p : Principal) (claimType : string) (value : list string) : bool :=
  match ClaimValue p claimType, value with
  | None, _ => false
  | Some _, [] => true
  | Some v, x :: _ => EqualFold v x
  end.

(** ** Policies *)

Record Policy := mkPolicy { Policy_Name : string; Requirements : list (Principal → bool) }.

Definition NewPolicy (name : string) : Policy := mkPolicy name [].
Definition add_requirement (p : Policy) (r : Principal → bool) : Policy :=
  mkPolicy (Policy_Name p) (Requirements p ++ [r]).

Definition Policy_RequireRole (p : Policy) (roles : list string) : Policy :=
  add_requirement p (λ pr, existsb (HasRole pr) roles).
Definition Policy_RequireClaim (p : Policy) (claimType : string) (allowedValues : list string) : Policy :=
  add_requirement p (λ pr,
    match ClaimValue pr claimType with
    | None => false
    | Some v => if bool_decide (allowedValues = []) then true else existsb (λ a, String.eqb v a) allowedValues
    end).
Definition Policy_RequireAssertion (p : Policy) (fn : Principal → bool) : Policy := add_requirement p fn.

Definition Evaluate (p : Policy) (pr : Principal) : bool := forallb (λ req, req pr) (Requirements p).

(** ** Gates: [None] lets the request through *)

Definition RequireAuth (h : Headers) (p : option Principal) : option Response :=
  match p with None => Some (http_Error h "unauthorized" StatusUnauthorized) | Some _ => None end.

Definition RequireRole (role : string) (h : Headers) (p : option Principal) : option Response :=
  match p with
  | None => Some (http_Error h "unauthorized" StatusUnauthorized)
  | Some p => if negb (HasRole p role) then Some (http_Error h "forbidden" StatusForbidden) else None
  end.

Definition RequirePolicy (policy : Policy) (h : Headers) (p : option Principal) : option Response :=
  match p with
  | None => Some (http_Error h "unauthorized" StatusUnauthorized)
  | Some p => if negb (Evaluate policy p) then Some (http_Error h "forbidden" StatusForbidden) else None
  end.

(** ** Authentication *)

Definition bearerToken (r : Request) : string :=
  let h := Header_Get r "Authorization" in
  if (7 <? len h) && EqualFold (slice_to h 7) "Bearer " then slice_from h 7 else "".

Definition rolesFromClaims (claims : MapClaims) : list string :=
  match claims !! ClaimRole with
  | Some (JStr s) => [s]
  | Some (JArr l) => omap (λ v, match v with JStr s => Some s | _ => None end) l
  | _ => []
  end.
End principal.

Section middleware.
Context `{Oracle} `{UnicodeDB} `{PBKDF2} `{JWT} {S : Type} `{UserStore S} `{APIKeyStore S}.

(** [OAuthTokenValidator]. *)
Definition OAuthTokenValidator : Type := string → string → M S (result (User * MapClaims)).

Record middlewareConfig := mkMiddlewareConfig {
  mc_keys : option (APIKeyManager S);
  mc_oauth : option OAuthTokenValidator;
  mc_oauthResource : string;
}.

Definition WithOAuthResource (v : OAuthTokenValidator) (resource : string) (c : middlewareConfig) : middlewareConfig :=
  mkMiddlewareConfig (mc_keys c) (Some v) resource.
Definition WithAPIKeys (keys : APIKeyManager S) (c : middlewareConfig) : middlewareConfig :=
  mkMiddlewareConfig (Some keys) (mc_oauth c) (mc_oauthResource c).

Definition authenticateAPIKey (token : string) (keys : APIKeyManager S) : M S (option Principal) :=
  r ← VerifyAPIKey keys token;
  match r with
  | Err _ => mret None
  | Ok (u, key) =>
    roles ← GetRoles u;
    let roles := match roles with Ok l => l | Err _ => [] end in
    cs ← GetClaims u;
    let claims : MapClaims := match cs with Ok cs => foldl merge_claim ∅ cs | Err _ => ∅ end in
    let claims := if bool_decide (roles = []) then claims else <[ClaimRole := JArr (JStr <$> roles)]> claims in
    mret (Some (mkPrincipal u claims roles (default [] (Key_Scopes key)) true false ""))
  end.

(** [tokens] and [cookies] may be nil. *)
Definition authenticate (r : Request) (tokens : option (TokenService S)) (cookies : option CookieAuth)
    (cfg : middlewareConfig) : M S (option Principal) :=
  let bearer := bearerToken r in
  let fromCookie := String.eqb bearer "" && bool_decide (is_Some cookies) in
  let token := if fromCookie then cookie_read cookies r else bearer in
  if String.eqb token "" then mret None else
  session ← match tokens with
            | None => mret (Err ErrInvalidToken)
            | Some tokens => ValidateAccessToken tokens token
            end;
  match session with
  | Ok (u, claims) => mret (Some (mkPrincipal u claims (rolesFromClaims claims) [] false false ""))
  | Err _ =>
    viaOAuth ← match mc_oauth cfg with
               | Some validate => if fromCookie then mret (Err ErrInvalidToken)
                                  else validate token (mc_oauthResource cfg)
               | None => mret (Err ErrInvalidToken)
               end;
    match viaOAuth with
    | Ok (u, claims) =>
      mret (Some (mkPrincipal u claims (rolesFromClaims claims)
        (Fields (as_string (claims !! "scope"))) false true (as_string (claims !! "client_id"))))
    | Err _ =>
      match mc_keys cfg with
      | Some keys => if fromCookie then mret None else authenticateAPIKey token keys
      | None => mret None
      end
    end
  end.

(** [Middleware(tokens, cookies, opts...)]: the next handler sees the principal, if any. *)
Definition Middleware {A} (tokens : option (TokenService S)) (cookies : option CookieAuth)
    (opts : list (middlewareConfig → middlewareConfig)) (next : option Principal → Request → M S A)
    (r : Request) : M S A :=
  let cfg := foldl (λ c o, o c) (mkMiddlewareConfig None None "") opts in
  p ← authenticate r tokens cookies cfg;
  next p r.

(** [JWKSHandler(p)]. *)
Definition JWK_json (k : JWK) : json :=
  let opt n v := if String.eqb v "" then [] else [(n, JStr v)] in
  JObj ([("kty", JStr (jwk_Kty k)); ("use", JStr (jwk_Use k)); ("kid", JStr (jwk_Kid k)); ("alg", JStr (jwk_Alg k))]
    ++ opt "n" (jwk_N k) ++ opt "e" (jwk_E k) ++ opt "crv" (jwk_Crv k) ++ opt "x" (jwk_X k) ++ opt "y" (jwk_Y k)).
Definition JWKSHandler (jwks : M S JWKSet) (r : Request) : M S Response :=
  set ← jwks;
  mret (mkResponse StatusOK (<["Cache-Control" := "public, max-age=300"]> {["Content-Type" := "application/json"]})
    (JSON (JObj [("keys", JArr (JWK_json <$> Keys set))]))).
End middleware.
