(* ===== verification/OAuthResource.v ===== *)
(** * Protected resources

    [oauth/resource.go]: the RFC 9728 metadata, the 401 and 403 challenges and the scope
    gate in front of a handler.  The principal is what [auth.PrincipalFrom] finds. *)

From S2P Require Import Prelude GoStrings GoBytes GoNet GoUrl Errors World Entities Jwt GoHttp OAuthUtil.
From S2P Require Import UserManager Signer Jwks TokenService OAuthServer AuthHttp.

Local Open Scope Z_scope.

Record ProtectedResourceMetadata := mkProtectedResourceMetadata {
  PR_Resource : string;
  PR_AuthorizationServers : list string;
  PR_ScopesSupported : list string;
  PR_BearerMethodsSupported : list string;
  PR_ResourceName : string;
  PR_ResourceDocumentation : string;
}.

Definition PRM_json (m : ProtectedResourceMetadata) : json :=
  let opt k v := if String.eqb v "" then [] else [(k, JStr v)] in
  let opts k v := if bool_decide (v = []) then [] else [(k, JStrs v)] in
  JObj ([("resource", JStr (PR_Resource m)); ("authorization_servers", JStrs (PR_AuthorizationServers m))]
    ++ opts "scopes_supported" (PR_ScopesSupported m)
    ++ opts "bearer_methods_supported" (PR_BearerMethodsSupported m)
    ++ opt "resource_name" (PR_ResourceName m) ++ opt "resource_documentation" (PR_ResourceDocumentation m)).

Definition ProtectedResourceHandler (m : ProtectedResourceMetadata) (r : Request) : Response :=
  let m := if bool_decide (PR_BearerMethodsSupported m = [])
           then mkProtectedResourceMetadata (PR_Resource m) (PR_AuthorizationServers m) (PR_ScopesSupported m)
                  ["header"] (PR_ResourceName m) (PR_ResourceDocumentation m)
           else m in
  match cors ∅ r with
  | (_, Some resp) => resp
  | (h, None) =>
    if negb (String.eqb (req_Method r) "GET") && negb (String.eqb (req_Method r) "HEAD") then
      http_Error h "method not allowed" StatusMethodNotAllowed
    else writeJSON (<["Cache-Control" := "public, max-age=300"]> h) StatusOK (PRM_json m)
  end.

Section resource.
Context `{UnicodeDB}.

Definition ResourceMetadataPath (resource : string) : result string :=
  match url_Parse resource with
  | Some u => if String.eqb (u_Host u) "" then Err (OtherError ("oauth: invalid resource " +:+ Quote resource))
              else Ok ("/.well-known/oauth-protected-resource" +:+ TrimSuffix (EscapedPath u) "/")
  | None => Err (OtherError ("oauth: invalid resource " +:+ Quote resource))
  end.

Definition ResourceMetadataURL (resource : string) : result string :=
  match ResourceMetadataPath resource with
  | Err e => Err e
  | Ok p => match url_Parse resource with
            | Some u => Ok (u_Scheme u +:+ "://" +:+ u_Host u +:+ p)
            | None => Err (OtherError "unreachable: the path above parsed")
            end
  end.

(** A quoted string of a header: backslashes and quotes escaped. *)
Definition dquote : ascii := to_byte 0x22.
Definition quote_byte (c : ascii) : bytes :=
  if Ascii.eqb c "\" || Ascii.eqb c dquote then ["\"%char; c] else [c].
Definition quote (s : string) : string :=
  bytes_str ([dquote] ++ (str_bytes s ≫= quote_byte) ++ [dquote]).

(** [Access-Control-Expose-Headers] with [name] added when it is not listed. *)
Definition exposeHeader (h : Headers) (name : string) : Headers :=
  let k := "Access-Control-Expose-Headers" in
  let cur := default "" (h !! k) in
  if existsb (λ v, EqualFold (TrimSpace v) name) (Split "," cur) then h
  else if String.eqb cur "" then <[k := name]> h
  else <[k := cur +:+ ", " +:+ name]> h.

Definition error_body (code desc : string) : json :=
  JObj [("error", JStr code); ("error_description", JStr desc)].

Definition Challenge (h : Headers) (metadataURL scope : string) : Response :=
  let v := "Bearer resource_metadata=" +:+ quote metadataURL in
  let v := if String.eqb scope "" then v else v +:+ ", scope=" +:+ quote scope in
  let h := exposeHeader (<["WWW-Authenticate" := v]> h) "WWW-Authenticate" in
  writeJSON h StatusUnauthorized (error_body "unauthorized" "authentication required").

Definition InsufficientScope (h : Headers) (metadataURL scope description : string) : Response :=
  let v := "Bearer error=" +:+ quote "insufficient_scope" +:+ ", scope=" +:+ quote scope
    +:+ ", resource_metadata=" +:+ quote metadataURL in
  let v := if String.eqb description "" then v else v +:+ ", error_description=" +:+ quote description in
  let h := exposeHeader (<["WWW-Authenticate" := v]> h) "WWW-Authenticate" in
  writeJSON h StatusForbidden (error_body "insufficient_scope" description).

(** The gate: [None] lets the request through to the next handler. *)
Definition RequireScopes (metadataURL : string) (scopes : list string) (h : Headers) (p : option Principal)
    : option Response :=
  match p with
  | None => Some (Challenge h metadataURL (joinScopes scopes))
  | Some p =>
    if P_ViaOAuth p && negb (containsAll (P_Scopes p) scopes) then
      Some (InsufficientScope h metadataURL (joinScopes (unionScopes (P_Scopes p) scopes)) "additional scope required")
    else None
  end.
End resource.
