(* ===== verification/AuthHttpFacts.v ===== *)
(** * Correctness of request authentication

    Where a principal comes from: a session token from the header or the cookie, an OAuth
    access token or an API key from the header only; and what the gates let through. *)

From S2P Require Import Prelude GoStrings GoBytes GoNet GoUrl Errors World Entities OAuthTypes Stores StoreLaws.
From S2P Require Import UserManager SignIn Jwt GoHttp Hasher TokenProvider TwoFactor Signer TokenService.
From S2P Require Import TokenServiceFacts Jwks ApiKeys OAuthUtil OAuthServer OAuthServerFacts OAuthToken OAuthTokenFacts.
From S2P Require Import AuthHttp OAuthResource.

Local Open Scope Z_scope.

Section facts.
Context `{Oracle} `{UnicodeDB} `{PBKDF2} `{PublicKeys} {S : Type}.
Context `{UserStore S, APIKeyStore S, OAuthStore S, StoreView S}.
Context `{!UserStoreSpec S, !APIKeyStoreSpec S, !OAuthStoreSpec S}.
Context (t : TokenService S) (keys : APIKeyManager S) (sv : Server S) (resource : string).
Implicit Types w : World S.

(** A middleware with every kind of credential, OAuth tokens validated by the server. *)
Definition full_config : middlewareConfig :=
  WithAPIKeys keys (WithOAuthResource (ValidateResourceToken sv) resource (mkMiddlewareConfig None None "")).

(** The token of a request: the bearer token, or without one the cookie. *)
Definition request_token (r : Request) (cookies : option CookieAuth) : string :=
  if String.eqb (bearerToken r) "" then cookie_read cookies r else bearerToken r.

(** The session token [str] is good for [p]. *)
Definition session_principal w (str : string) (p : Principal) : Prop :=
  P_ViaAPIKey p = false ∧ P_ViaOAuth p = false ∧ P_Scopes p = [] ∧ P_Roles p = rolesFromClaims (P_Claims p)
  ∧ ∃ tok i, (w_step w <= i)%nat ∧ Parse (sg_Keyfunc (signer (TS_Options t))) (mkParserOptions [sg_Alg (signer (TS_Options t))]
        (Issuer (TS_Options t)) (Some (Audience (TS_Options t))) false) (o_now i) str = Ok tok
      ∧ EqualFold (as_string (tok_Header tok !! "typ")) TokenTypeAccessJWT = false ∧ tok_Claims tok = P_Claims p
      ∧ as_string (P_Claims p !! "sub") = ID (P_User p)
      ∧ as_string (P_Claims p !! ClaimSecurityStamp) = SecurityStamp (P_User p).

(** The OAuth access token [str] is good for [p]: the scopes are those of the token, and the
    grant behind it is stored. *)
Definition oauth_principal w (str : string) (p : Principal) : Prop :=
  P_ViaAPIKey p = false ∧ P_ViaOAuth p = true ∧ P_Scopes p = Fields (as_string (P_Claims p !! "scope"))
  ∧ P_Roles p = rolesFromClaims (P_Claims p) ∧ P_ClientID p = as_string (P_Claims p !! "client_id")
  ∧ ∃ tok res i j, (w_step w <= i)%nat ∧ (w_step w <= j)%nat ∧ canonicalResource resource = Some res
      ∧ Parse (sg_Keyfunc (sv_signer sv)) (resource_options sv (Some res) true) (o_now i) str = Ok tok
      ∧ EqualFold (as_string (tok_Header tok !! "typ")) TokenTypeAccessJWT = true ∧ tok_Claims tok = P_Claims p
      ∧ resource_verdict (v_users (w_store w)) (grants_of w) (o_now j) (P_Claims p) = Ok (P_User p, P_Claims p).

(** The API key [str] is good for [p]. *)
Definition key_principal w (str : string) (p : Principal) : Prop :=
  P_ViaAPIKey p = true ∧ P_ViaOAuth p = false
  ∧ ∃ k i j, (w_step w <= i)%nat ∧ (w_step w <= j)%nat ∧ v_keys (w_store w) !! Key_ID k = Some k ∧ KeyHash k = AM_Hasher keys str
      ∧ Key_UserID k = ID (P_User p) ∧ P_Scopes p = default [] (Key_Scopes k)
      ∧ ¬ inactive_at (o_now i) k ∧ locked_at (P_User p) (o_now j) = false.

Lemma wp_authenticateAPIKey str w0 w (Q : option Principal → World S → Prop) :
  same w0 w →
  (∀ w', v_users (w_store w') = v_users (w_store w0) → v_rows (w_store w') = v_rows (w_store w0) → Q None w') →
  (∀ p w', v_users (w_store w') = v_users (w_store w0) → v_rows (w_store w') = v_rows (w_store w0) →
    v_users (w_store w0) !! ID (P_User p) = Some (P_User p) → key_principal w0 str p → Q (Some p) w') →
  wp (authenticateAPIKey str keys) Q w.
Proof.
  intros Hs HN HQ. pose proof (same_inv _ _ Hs) as Hi. unfold authenticateAPIKey. rewrite wp_bind.
  apply wp_VerifyAPIKey; [done|..].
  { intros w1 Hs1 _. wp_steps. pose proof (same_trans _ _ _ Hs Hs1). apply HN; [by apply same_users|by apply same_rows]. }
  intros k u i j tt_ w1 _ Hk Hh Hgi Hgj Ha Hu Hl Hm. pose proof (same_step _ _ Hs). rewrite (same_keys _ _ Hs) in Hk. rewrite (same_users _ _ Hs) in Hu.
  assert (ID u = Key_UserID k) as Hid.
  { rewrite <-(same_users _ _ Hs) in Hu. by apply (spec_keyed _ Hi _ _ Hu). }
  wp_steps. unfold GetRoles. wp_call spec_GetRoles; [by destruct Hm|]. intros r w2 [Hs2 [roles ->]]. wp_steps.
  unfold GetClaims. wp_call spec_GetClaims; [exact (same_inv _ _ Hs2)|]. intros cr w3 [Hs3 [cs ->]]. wp_steps.
  pose proof (same_trans _ _ _ Hs2 Hs3) as Hs4.
  apply HQ; cbn [P_User].
  - by rewrite (same_users _ _ Hs4), (mv_users _ _ _ _ _ _ Hm), (same_users _ _ Hs).
  - by rewrite (same_rows _ _ Hs4), (mv_rows _ _ _ _ _ _ Hm), (same_rows _ _ Hs).
  - by rewrite Hid.
  - split; [done|]. split; [done|]. exists k, i, j. cbn. split_and!; [lia..|done|done|done|done|done|done].
Qed.

(** The outcome of authentication with a bearer token [bearer] and a token [token]. *)
Definition principal_outcome w (bearer token : string) (op : option Principal) w' : Prop :=
  v_users (w_store w') = v_users (w_store w) ∧ v_rows (w_store w') = v_rows (w_store w) ∧
  ∀ p, op = Some p → token ≠ "" ∧ v_users (w_store w) !! ID (P_User p) = Some (P_User p) ∧
    (session_principal w token p ∨ bearer ≠ "" ∧ oauth_principal w bearer p ∨ bearer ≠ "" ∧ key_principal w bearer p).

Lemma no_principal w bearer token w' :
  v_users (w_store w') = v_users (w_store w) → v_rows (w_store w') = v_rows (w_store w) →
  principal_outcome w bearer token None w'.
Proof. intros Hu Hr. split; [done|]. split; [done|]. intros p. discriminate. Qed.

Lemma a_principal w bearer token p w' :
  v_users (w_store w') = v_users (w_store w) → v_rows (w_store w') = v_rows (w_store w) →
  token ≠ "" → v_users (w_store w) !! ID (P_User p) = Some (P_User p) →
  (session_principal w token p ∨ bearer ≠ "" ∧ oauth_principal w bearer p ∨ bearer ≠ "" ∧ key_principal w bearer p) →
  principal_outcome w bearer token (Some p) w'.
Proof. intros Hu Hr Hne Hp Hk. split; [done|]. split; [done|]. by intros q [= <-]. Qed.

Lemma resource_verdict_Ok U G at_ claims u claims' : keyed ID U →
  resource_verdict U G at_ claims = Ok (u, claims') → claims' = claims ∧ U !! ID u = Some u.
Proof.
  intros Hk. unfold resource_verdict. destruct (_ !! as_string (_ !! "sub")) as [u'|] eqn:Hu; [|discriminate].
  destruct (_ !! as_string (_ !! ClaimGrantID)); [|discriminate]. case_bool_decide; [|discriminate].
  intros [= -> <-]. split; [done|]. pose proof (Hk _ _ Hu) as Hid. cbn in Hid. by rewrite Hid.
Qed.

(** After the session token was refused: an OAuth access token, then an API key. *)
Lemma wp_oauth_or_key bearer w w1 : same w w1 → bearer ≠ "" →
  wp (viaOAuth ← ValidateResourceToken sv bearer resource;
      match viaOAuth with
      | Ok (u, claims) => mret (Some (mkPrincipal u claims (rolesFromClaims claims)
          (Fields (as_string (claims !! "scope"))) false true (as_string (claims !! "client_id"))))
      | Err _ => authenticateAPIKey bearer keys
      end) (principal_outcome w bearer bearer) w1.
Proof.
  intros Hs1 Hb. rewrite wp_bind. pose proof (same_inv _ _ Hs1) as Hi1.
  apply wp_ValidateResourceToken; [done|]. intros i w2 Hi2 Hs2. pose proof (same_trans _ _ _ Hs1 Hs2) as Hs.
  assert (wp (authenticateAPIKey bearer keys) (principal_outcome w bearer bearer) w2) as Hkey.
  { apply (wp_authenticateAPIKey bearer w w2); [done|by intros; apply no_principal|].
    intros p w3 Hu Hr Hp Hk. apply a_principal; auto. }
  destruct (canonicalResource resource) as [res|] eqn:Hcan; [|exact Hkey].
  destruct (Parse _ _ _ bearer) as [tok|] eqn:Hp; [|exact Hkey].
  destruct (EqualFold _ _) eqn:Htyp; [|exact Hkey].
  destruct (resource_verdict _ _ _ _) as [[u claims]|e] eqn:Hv; [|exact Hkey]. wp_steps.
  destruct (resource_verdict_Ok _ _ _ _ _ _ (spec_keyed _ Hi1) Hv) as [-> Hu]. rewrite (same_users _ _ Hs1) in Hu.
  apply a_principal; [by apply same_users|by apply same_rows|done|done|]. right. left. split; [done|].
  pose proof (same_step _ _ Hs1).
  split_and!; try done. exists tok, res, (w_step w1), i. split_and!; try done; [lia..|].
  by rewrite <-(same_users _ _ Hs1), <-(same_rows _ _ Hs1).
Qed.

(** C17: where a principal comes from. With every kind of credential enabled, authentication
    never panics and leaves users and grants alone. A principal is always a stored user, for
    exactly one of three reasons: a session token, from the header or, when the header has
    no bearer token, from the cookie; an OAuth access token of this resource whose grant is
    stored, from the header only, with the scopes of the token; or an active API key of a
    user not locked out, from the header only, with the scopes of the key. A cookie is never
    taken for an OAuth token or an API key, and a session token is never an OAuth token.
    Every check is made at a time the request read the clock, not before it came. *)
Theorem authenticate_principal r cookies w :
  v_inv (w_store w) →
  wp (authenticate r (Some t) cookies full_config) (λ op w',
    v_users (w_store w') = v_users (w_store w) ∧ v_rows (w_store w') = v_rows (w_store w) ∧
    ∀ p, op = Some p → request_token r cookies ≠ "" ∧ v_users (w_store w) !! ID (P_User p) = Some (P_User p) ∧
      (session_principal w (request_token r cookies) p
       ∨ bearerToken r ≠ "" ∧ oauth_principal w (bearerToken r) p
       ∨ bearerToken r ≠ "" ∧ key_principal w (bearerToken r) p)) w.
Proof.
  intros Hi. change (wp (authenticate r (Some t) cookies full_config)
    (principal_outcome w (bearerToken r) (request_token r cookies)) w). unfold authenticate.
  assert ((if String.eqb (bearerToken r) "" && bool_decide (is_Some cookies) then cookie_read cookies r else bearerToken r)
    = request_token r cookies) as ->.
  { unfold request_token. destruct (String.eqb_spec (bearerToken r) "") as [->|]; [|done]. by destruct cookies. }
  unfold request_token. set (bearer := bearerToken r). set (token := if String.eqb bearer "" then _ else _).
  destruct (String.eqb_spec token "") as [|Hne]; [wp_steps; by apply no_principal|]. rewrite wp_bind.
  apply wp_ValidateAccessToken; [done|..].
  2:{ intros tok u w' Hp Htyp Hu Hst Hs. wp_steps. pose proof (spec_keyed _ Hi _ _ Hu) as Hid. cbn in Hid.
      apply a_principal; cbn [P_User]; [by apply same_users|by apply same_rows|done|by rewrite Hid|].
      left. split_and!; try done. exists tok, (w_step w). by split_and!. }
  intros w1 Hs1. unfold full_config. cbn [mc_oauth mc_oauthResource mc_keys WithAPIKeys WithOAuthResource].
  unfold token in *. clear token. destruct (String.eqb_spec bearer "") as [Hb|Hb]; [|by apply wp_oauth_or_key].
  destruct cookies as [c|]; [|by destruct Hne]. rewrite bool_decide_eq_true_2 by done. cbn [andb].
  wp_steps. apply no_principal; [by apply same_users|by apply same_rows].
Qed.
End facts.
