(* ===== verification/ExampleEnv.v ===== *)
(** * A concrete environment

    Instances of every parameter of the development, under which its theorems apply to
    concrete inputs: a clock that ticks once a second, distinct ids, an ASCII-only
    Unicode database, a transparent key-derivation function and a JWT library whose
    tokens carry their signing key, all satisfying the laws the theorems assume. *)

From S2P Require Import Prelude GoStrings GoBytes GoCrypto Errors World Entities OAuthTypes Stores StoreLaws.
From S2P Require Import MemStore MemOAuth MemSpec Hasher GoNet GoUrl UserManager Jwt GoHttp OAuthUtil Signer Jwks.
From S2P Require Import TokenService OAuthServer OAuthServerFacts Cimd OAuthRegister OAuthAuthorize.
From S2P Require Import OAuthAuthorizeFacts ClientAssertion.

Local Open Scope Z_scope.

#[export, refine] Instance ex_Oracle : Oracle := {
  o_now i := (1700000000 + Z.of_nat i) * Second;
  o_read i n := replicate n (to_byte (Z.of_nat i));
  o_int i m := Z.of_nat i mod m;
  o_uuid i := bytes_str (replicate (Datatypes.S i) "x"%char);
  o_order _ _ l := l;
}.
Proof.
  - intros. by rewrite length_replicate.
  - intros i m Hm. by apply Z.mod_pos_bound.
  - done.
Defined.

Lemma ex_uuid_inj : Inj (=) (=) (o_uuid : nat → string).
Proof.
  intros i j Heq. change (bytes_str (replicate (Datatypes.S i) "x"%char) = bytes_str (replicate (Datatypes.S j) "x"%char)) in Heq.
  apply (f_equal str_bytes) in Heq. rewrite !str_bytes_str in Heq.
  apply (f_equal length) in Heq. rewrite !length_replicate in Heq. by injection Heq.
Qed.

#[export] Instance ex_UnicodeDB : UnicodeDB := {
  db_IsDigit _ := false; db_IsUpper _ := false; db_IsLower _ := false; db_IsLetter _ := false;
  db_ToUpper r := r; db_ToLower r := r; db_FoldEq r s := r =? s; db_IsPrint _ := true;
}.

Lemma ex_uuid_plain i : o_uuid i ≠ "" ∧ IsCIMDClientID (o_uuid i) = false.
Proof. done. Qed.

#[export, refine] Instance ex_PBKDF2 : PBKDF2 := {
  pbkdf2_Key pw salt iter n h := take n (pw ++ salt ++ replicate n zero);
}.
Proof. intros. rewrite length_take, !length_app, length_replicate. lia. Defined.

(** ** Tokens as text *)

Fixpoint json_tree (v : json) : gen_tree (bool + (Z + (string + string))) :=
  match v with
  | JNull => GenNode 0 []
  | JBool b => GenLeaf (inl b)
  | JNum z => GenLeaf (inr (inl z))
  | JFloat s => GenLeaf (inr (inr (inl s)))
  | JStr s => GenLeaf (inr (inr (inr s)))
  | JArr l => GenNode 1 (json_tree <$> l)
  | JObj l => GenNode 2 ((λ kv, GenNode 3 [GenLeaf (inr (inr (inr kv.1))); json_tree kv.2]) <$> l)
  end.
Fixpoint tree_json (t : gen_tree (bool + (Z + (string + string)))) : json :=
  match t with
  | GenLeaf (inl b) => JBool b
  | GenLeaf (inr (inl z)) => JNum z
  | GenLeaf (inr (inr (inl s))) => JFloat s
  | GenLeaf (inr (inr (inr s))) => JStr s
  | GenNode 1 l => JArr (tree_json <$> l)
  | GenNode 2 l => JObj ((λ t, match t with
      | GenNode _ [GenLeaf (inr (inr (inr k))); v] => (k, tree_json v)
      | _ => (EmptyString, JNull)
      end) <$> l)
  | GenNode _ _ => JNull
  end.

Lemma tree_json_tree v : tree_json (json_tree v) = v.
Proof.
  revert v. fix IH 1. intros [| | | | |l|l]; [reflexivity..| |]; cbn.
  - f_equal. induction l as [|v l IHl]; cbn; [done|]. by rewrite IH, IHl.
  - f_equal. induction l as [|[k v] l IHl]; cbn; [done|]. by rewrite IH, IHl.
Qed.

#[export] Instance json_eq_dec : EqDecision json.
Proof.
  intros v1 v2. destruct (decide (json_tree v1 = json_tree v2)) as [e|n]; [left|right].
  - by rewrite <-(tree_json_tree v1), e, tree_json_tree.
  - congruence.
Defined.
#[export] Instance json_countable : Countable json := inj_countable' json_tree tree_json tree_json_tree.

(** A token with the kind and number of its signing key. *)
Definition signed : Type := (nat * string) * (string * gmap string json * gmap string json).
Definition token_text (k : nat * string) (t : Token) : string :=
  bytes_str ((λ b : bool, if b then "1"%char else "0"%char) <$>
    (fix bits p := match p with xH => [] | xO p => false :: bits p | xI p => true :: bits p end)
      (encode ((k, (tok_Alg t, tok_Header t, tok_Claims t)) : signed))).
Definition text_token (s : string) : option signed :=
  countable.decode (foldr (λ c p, if Ascii.eqb c "1" then xI p else xO p) xH (str_bytes s)).

Lemma text_token_text k t : text_token (token_text k t) = Some (k, (tok_Alg t, tok_Header t, tok_Claims t)).
Proof.
  unfold text_token, token_text. rewrite str_bytes_str. rewrite <-(decode_encode (A := signed)). f_equal.
  generalize (encode ((k, (tok_Alg t, tok_Header t, tok_Claims t)) : signed)). clear.
  induction p as [p IH|p IH|]; cbn; [by rewrite IH..|done].
Qed.

(** ** The library *)

#[export] Instance audience_ok_dec aud v : Decision (audience_ok aud v).
Proof. destruct v as [[]|]; cbn; apply _. Defined.
#[export] Instance claims_valid_dec po t c : Decision (claims_valid po t c).
Proof.
  unfold claims_valid. apply and_dec; [apply _|]. apply and_dec; [destruct (po_Audience po); apply _|].
  apply and_dec; [destruct (c !! "exp") as [[]|]|destruct (c !! "nbf") as [[]|]]; apply _.
Defined.

Definition ex_key_text (k : bytes + (nat + nat)) : nat * string :=
  match k with inl k => (0%nat, bytes_str k) | inr (inl n) => (1%nat, FormatInt (Z.of_nat n)) | inr (inr n) => (2%nat, FormatInt (Z.of_nat n)) end.

(** Parsing reads the text, asks for the key and compares it with the signing key. *)
Definition ex_parse (kf : Token → result (bytes + (nat + nat))) (po : ParserOptions) (t : Time) (s : string)
    : result Token :=
  match text_token s with
  | None => Err (OtherError "token is malformed")
  | Some (k, (alg, h, c)) =>
    let tok := mkToken alg h c in
    match kf tok with
    | Err e => Err e
    | Ok pk =>
      if bool_decide (k = ex_key_text pk ∧ alg ∈ po_ValidMethods po) && bool_decide (claims_valid po t c)
      then Ok tok else Err (OtherError "token is invalid")
    end
  end.

#[export] Instance ex_JWT : JWT := {
  RSAPrivateKey := nat; RSAPublicKey := nat; ECPrivateKey := nat; ECPublicKey := nat;
  RSA_Public k := k; EC_Public k := k;
  jwt_SignHMAC t k := Ok (token_text (ex_key_text (inl k)) t);
  jwt_SignRSA t k := Ok (token_text (ex_key_text (inr (inl k))) t);
  jwt_SignEC t k := Ok (token_text (ex_key_text (inr (inr k))) t);
  jwt_ParseWith := ex_parse;
}.

#[export] Instance ex_JWTLaws : JWTLaws.
Proof.
  split.
  - intros kf po t s tok. unfold Parse. cbn. unfold ex_parse.
    destruct (text_token s) as [[k [[alg h] c]]|]; [|done]. destruct (kf _) as [pk|] eqn:Hk; [|done].
    case_if Hb; [|done]. intros [= <-]. apply andb_true_iff in Hb as [[? ?]%bool_decide_eq_true ?%bool_decide_eq_true].
    cbn. by rewrite Hk.
  - intros kf po t s tok k pk Hs Hp Hk Ha _ _ Hc. unfold Parse. cbn. unfold ex_parse.
    assert (text_token s = Some (ex_key_text pk, (tok_Alg tok, tok_Header tok, tok_Claims tok))) as ->.
    { destruct k as [k|[k|]|[k|]]; try discriminate; injection Hs as <-; injection Hp as <-; apply text_token_text. }
    assert (mkToken (tok_Alg tok) (tok_Header tok) (tok_Claims tok) = tok) as -> by by destruct tok.
    rewrite Hk, !bool_decide_eq_true_2 by done. done.
Qed.

(** ** A store with one account *)

Definition alice : User :=
  set_LockoutEnabled true (set_SecurityStamp "stamp" (set_ConcurrencyStamp "row"
    (set_NormalizedUserName "ALICE" (set_UserName "alice" (set_ID "1" zeroUser))))).

Definition store1 : Store := set_users {["1" := alice]} New.
Definition w1 : World Store := mkWorld 0 store1 [].

Lemma store1_inv : v_inv store1.
Proof.
  unfold store1. split_and!; cbn; try apply map_Forall_empty; [by apply map_Forall_singleton| |].
  - intros. simplify_map_eq.
  - split_and!; apply map_Forall_empty.
Qed.

Lemma alice_plain : plain (ID alice).
Proof. by apply (bool_decide_unpack _). Qed.

Lemma fresh_ids i : v_users store1 !! o_uuid i = None.
Proof. apply lookup_singleton_ne. by destruct i. Qed.

(** ** Public keys *)

(** Distinct keys of 2048 bits; key numbers as the coordinates of a point. *)
#[export] Instance ex_PublicKeys : PublicKeys := {
  RSA_N k := 2 ^ 2047 + Z.of_nat k;
  RSA_E _ := 65537;
  rsa_PublicKey n _ := Z.to_nat (n - 2 ^ 2047);
  EC_Uncompressed k := if Z.of_nat k <? 256 ^ 64 then Some (to_byte 4 :: put_be 64 (Z.of_nat k)) else None;
  ParseUncompressedP256 raw := Some (Z.to_nat (get_be (tail raw)));
}.

#[export] Instance ex_PublicKeyLaws : PublicKeyLaws.
Proof.
  split.
  - intros k. change (Z.to_nat (2 ^ 2047 + Z.of_nat k - 2 ^ 2047) = k). lia.
  - intros k raw Hr _. change ((if Z.of_nat k <? 256 ^ 64 then Some (to_byte 4 :: put_be 64 (Z.of_nat k)) else None) = Some raw) in Hr.
    destruct (Z.ltb_spec (Z.of_nat k) (256 ^ 64)) as [Hk|]; [|discriminate]. injection Hr as <-.
    change (Some (Z.to_nat (get_be (put_be 64 (Z.of_nat k)))) = Some k).
    rewrite get_be_put_be; [f_equal; lia|]. split; [lia|exact Hk].
Qed.

(** ** Client assertions *)

Definition ex_date (v : json) : option Time := match v with JNum z => Some (z * Second) | _ => None end.

Definition ex_verify (keys : list (nat + nat)) (ao : AssertionOptions) (t : Time) (s : string) : Token + jwt_error :=
  match text_token s with
  | None => inr TokenOther
  | Some (k, (alg, h, c)) =>
    let tok := mkToken alg h c in
    if negb (existsb (λ key, bool_decide (k = ex_key_text (inr key))) keys) then inr TokenSignatureInvalid else
    if negb (bool_decide (Exists (λ a, audience_ok a (c !! "aud")) (ao_Audiences ao))) then inr TokenInvalidAudience else
    match c !! "exp" ≫= ex_date with
    | None => inr TokenRequiredClaimMissing
    | Some e =>
      if negb (t <? e + ao_Leeway ao) then inr TokenExpired else
      if String.eqb (as_string (c !! "iss")) (ao_Issuer ao) && String.eqb (as_string (c !! "sub")) (ao_Subject ao)
      then inl tok else inr TokenInvalidIssuerOrSubject
    end
  end.

#[export] Instance ex_AssertionJWT : AssertionJWT := {
  jwt_ParseUnverified s := match text_token s with Some (_, (alg, h, c)) => Some (mkToken alg h c) | None => None end;
  jwt_VerifyWith := ex_verify;
  jwt_NumericDate := ex_date;
}.

#[export] Instance ex_AssertionLaws : AssertionLaws.
Proof.
  split. intros keys ao t str tok. change (ex_verify keys ao t str = inl tok → match text_token str with
    Some (_, (alg, h, c)) => Some (mkToken alg h c) | None => None end = Some tok
    ∧ as_string (tok_Claims tok !! "iss") = ao_Issuer ao ∧ as_string (tok_Claims tok !! "sub") = ao_Subject ao
    ∧ Exists (λ a, audience_ok a (tok_Claims tok !! "aud")) (ao_Audiences ao)
    ∧ ∃ v e, tok_Claims tok !! "exp" = Some v ∧ ex_date v = Some e ∧ t < e + ao_Leeway ao).
  unfold ex_verify. destruct (text_token str) as [[k [[alg h] c]]|]; [|discriminate].
  destruct (negb (existsb _ _)); [discriminate|]. case_bool_decide as Ha; [|discriminate]. cbn [negb].
  destruct (c !! "exp") as [v|] eqn:Hv; cbn [mbind option_bind]; [|discriminate].
  destruct (ex_date v) as [e|] eqn:He; [|discriminate].
  destruct (Z.ltb_spec t (e + ao_Leeway ao)); [|discriminate]. cbn [negb].
  destruct (_ && _) eqn:Hi; [|discriminate]. intros [= <-]. apply andb_true_iff in Hi as [?%String.eqb_eq ?%String.eqb_eq].
  cbn [tok_Claims]. rewrite Hv. split_and!; [done..|]. by exists v, e.
Qed.

(** ** An authorization server *)

(** A server without a metadata fetcher. *)
Definition no_cimd : CIMDClient Store :=
  mkCIMDClient (λ _, mret (Err (OtherError "no fetcher"))) (λ _ _, mret (Err (OtherError "no fetcher"))).

#[export] Instance no_cimd_spec : CIMDSpec no_cimd.
Proof. split; intros; apply wp_ret; [split; [by apply same_refl|done]|by apply same_refl]. Qed.

Definition server_with (allowCIMD : bool) (c : CIMDClient Store) : Server Store := mkServer
  (NewUserManager DefaultOptions) "https://id.example.org" "" (NewHMACSigner (str_bytes "key")) {["read"; "write"]}
  ["https://api.example.org"] ["read"; "write"] (Some ["read"]) Minute (15 * Minute) (30 * 24 * Hour) 0 false true allowCIMD
  "/oauth/authorize" "/oauth/token" "/oauth/register" "/oauth/revoke"
  (λ _, ("1", true)) (λ _ _, "/login") DefaultConsentPage defaultErrorPage (str_bytes "csrf") c 20
  default_ClientIP Hour.
Definition authServer : Server Store := server_with false no_cimd.

Lemma authServer_ok : server_ok authServer.
Proof.
  split.
  - done.
  - split; [done|]. apply Forall_singleton. exists "https://api.example.org". by vm_compute.
  - split; [by apply (bool_decide_unpack _)|]. intros x Hx. cbn in Hx |- *. set_solver.
  - repeat constructor.
  - done.
  - done.
Qed.

Lemma authServer_words : scopes_are_words authServer.
Proof. repeat apply Forall_cons_2; [split; [done|repeat constructor]..|constructor]. Qed.

(** A server that knows one client, with a published RSA key. *)
Definition key_client : resolvedClient := mkResolvedClient "https://app.example.org/client" "App" "app.example.org"
  ["https://app.example.org/cb"] AuthMethodPrivateKeyJWT "" [GrantTypeAuthorizationCode] true ""
  [mkClientKey "k" "RS256" (inl (7%nat : @RSAPublicKey ex_JWT))] "".
Definition key_cimd : CIMDClient Store :=
  mkCIMDClient (λ id, mret (if String.eqb id (rc_ID key_client) then Ok key_client else Err (OtherError "not found")))
    (λ _ _, mret (Err (OtherError "no key set"))).

#[export] Instance key_cimd_spec : CIMDSpec key_cimd.
Proof.
  split; intros; apply wp_ret; [|by apply same_refl]. split; [by apply same_refl|].
  destruct (String.eqb_spec id (rc_ID key_client)) as [->|]; [|discriminate]. intros cl [= <-].
  split; try done; [|right; by split; [|right]|by left]. split; [done|]. apply Forall_singleton. by vm_compute.
Qed.

Definition keyServer : Server Store := server_with true key_cimd.
(** An assertion of that client for the token endpoint. *)
Definition assertion : string := token_text (ex_key_text (inr (inl 7%nat)))
  (mkToken "RS256" (<["kid" := JStr "k"]> ∅) (list_to_map [("iss", JStr (rc_ID key_client)); ("sub", JStr (rc_ID key_client));
    ("aud", JStr "https://id.example.org/oauth/token"); ("exp", JNum 1700000300); ("jti", JStr "one")])).
Definition assertion_form : Values := {["client_assertion" := [assertion];
  "client_assertion_type" := ["urn:ietf:params:oauth:client-assertion-type:jwt-bearer"]]}.

(** A public client with a code and a grant. *)
Definition verifier : string := "0123456789012345678901234567890123456789012".
Definition challenge : string := RawURLEncode (sha256 (str_bytes verifier)).
Definition app1 : Client := mkClient "app" "" "App" ["https://app.example.org/cb"] AuthMethodNone
  [GrantTypeAuthorizationCode; GrantTypeRefreshToken] 0 None.
Definition code1 : Code := mkCode (hashSecret "c") "app" "1" "https://app.example.org/cb" "read" "https://api.example.org"
  challenge (1700000060 * Second) None "".
Definition grant1 : Grant := mkGrant "g" "1" "app" "read" "https://api.example.org" (hashSecret "s") "" "stamp"
  (1800000000 * Second) 0 None.

Definition oauth_store : Store :=
  set_oauthGrants {["g" := grant1]} (set_oauthCodes {[hashSecret "c" := code1]} (set_oauthClients {["app" := app1]} store1)).
Definition oauth_world : World Store := mkWorld 0 oauth_store [].

Lemma oauth_store_inv : v_inv oauth_store.
Proof.
  split_and!; [by apply map_Forall_singleton|apply map_Forall_empty|apply map_Forall_empty| |].
  - intros. simplify_map_eq.
  - split_and!; by apply map_Forall_singleton.
Qed.

Lemma oauth_fresh i : r_grants (v_rows oauth_store) !! o_uuid i = None.
Proof. by apply lookup_singleton_ne. Qed.

(** ** A metadata fetcher *)

(** The store and the caches of the fetcher; the web has one metadata document. *)
Definition FetchStore : Type := Store * Caches.

#[export] Instance fetch_view : StoreView FetchStore := {
  v_inv s := v_inv s.1 ∧ caches_ok s.2; v_users s := v_users s.1; v_tok s := v_tok s.1; v_sess s := v_sess s.1;
  v_keys s := v_keys s.1; v_rows s := v_rows s.1; v_consent s := v_consent s.1;
}.
#[export] Instance fetch_caches : FetcherState (S := FetchStore) := { fs_get := snd; fs_put c s := (s.1, c) }.
#[export] Instance fetch_http : HTTPClient (S := FetchStore) := {
  http_Get _ _ := mret (Ok (mkHTTPResponse 200 "max-age=60" (Ok (str_bytes "{}"))));
}.
#[export] Instance fetch_json : JSONCimd := {
  unmarshal_cimdDocument _ := Some (mkCimdDocument "https://app.example.org/client" "App" ["https://app.example.org/cb"]
    "none" [] [] "" "" [] None None);
}.
#[export] Instance fetch_docs : JSONDocs := { unmarshal_JWKS _ := None }.

#[export] Instance fetch_laws : FetcherLaws.
Proof.
  split.
  - by intros s [_ ?].
  - intros w c [Hi _] Hc. constructor; try done. by apply only_logs_refl.
  - intros w url accept Hi. apply wp_ret. by apply same_refl.
Qed.
