(* ===== verification/OAuthTest.v ===== *)
(** * The conformance suite of the OAuth stores

    [oauth/oauthtest/oauthtest.go]: [RunStoreConformance], a suite that any [oauth.Store] is
    to pass, run on a store and a user manager over the same database.  Every store that
    implements the abstract one of [OAuthStoreModel] passes it, so that the abstract store
    is not weaker than the contract the program tests its stores for. *)

From S2P Require Import Prelude GoStrings Errors World Hasher Totp Entities OAuthTypes Stores UserManager MemStore MemOAuth.
From S2P Require Import StoreLaws MemSpec OAuthStoreModel PgOAuthSpec OAuthStores ExampleEnv.

Local Open Scope Z_scope.

(** ** A test

    A test that calls [t.Fatal] stops there; dereferencing the result of a call that failed
    panics. *)

Definition Fatal (msg : string) : error := OtherError msg.

Section testing.
Context {S : Type}.

Definition check (b : bool) (msg : string) : M S (result unit) := mret (if b then Ok tt else Err (Fatal msg)).

(** [if err != nil { t.Fatalf(msg) }]. *)
Definition must {A} (m : M S (result A)) (msg : string) : M S (result A) :=
  r ← m; mret match r with Ok a => Ok a | Err _ => Err (Fatal msg) end.

(** [if !errors.Is(err, identity.ErrNotFound) { t.Fatal(msg) }]. *)
Definition missing {A} (m : M S (result A)) (msg : string) : M S (result unit) :=
  r ← m; check match r with Ok _ => false | Err e => ErrorsIs e ErrNotFound end msg.

(** [if got, _ := m; !b(got) { t.Fatal(msg) }] on a pointer. *)
Definition deref {A} (m : M S (result A)) (b : A → bool) (msg : string) : M S (result unit) :=
  r ← m; match r with Ok a => check (b a) msg | Err _ => panic "nil pointer dereference" end.

(** [if ok, _ := m; ok { t.Fatal(msg) }]. *)
Definition loses (m : M S (result bool)) (msg : string) : M S (result unit) :=
  r ← m; check match r with Ok b => negb b | Err _ => true end msg.

(** [_ = m]. *)
Definition ignored {A} (m : M S (result A)) : M S (result unit) := _ ← m; mret (Ok tt).
End testing.

(** ** Names

    [time.Now().Format("150405.000000000")], in the zone of the machine. *)

Definition time_of_day (t : Time) : string :=
  pad_zero 2 (t / Hour mod 24) +:+ pad_zero 2 (t / Minute mod 60) +:+ pad_zero 2 (t / Second mod 60)
  +:+ "." +:+ pad_zero 9 (t mod Second).

Section suite.
Context `{Oracle} `{UnicodeDB} `{PBKDF2} {S : Type} `{UserStore S}.
Context (st : OAuthStore S) (um : UserManager S) (zone : Duration).

Definition uniq (prefix : string) : M S string := t ← now; mret (prefix +:+ "_" +:+ time_of_day (t + zone)).

Definition mustUser (name : string) : M S (result User) :=
  let u := set_Email (name +:+ "@example.com") (set_UserName name zeroUser) in
  '(u, r) ← CreateWithPassword um u "Abcdef1!";
  mret match r with Ok _ => Ok u | Err _ => Err (Fatal "create user") end.

(** [t.Truncate(time.Second)]. *)
Definition to_second (t : Time) : Time := t / Second * Second.

(** ** The tests *)

Definition Clients : M S (result unit) :=
  t ← now; let now_ := to_second t in
  id ← uniq "client";
  let c := mkClient id "h" "Test" ["https://a.example/cb"; "http://127.0.0.1/cb"] AuthMethodClientSecretBasic
    [GrantTypeAuthorizationCode; GrantTypeRefreshToken] now_ None in
  _ ←? must (os_CreateClient c) "CreateClient";
  got ←? must (os_GetClient id) "GetClient";
  _ ←? check (String.eqb (Client_Name got) "Test" && String.eqb (SecretHash got) "h"
      && (Z.of_nat (length (RedirectURIs got)) =? 2)
      && String.eqb (default "" (RedirectURIs got !! 1%nat)) "http://127.0.0.1/cb"
      && (Z.of_nat (length (GrantTypes got)) =? 2)
      && String.eqb (TokenEndpointAuthMethod got) AuthMethodClientSecretBasic
      && bool_decide (Client_LastUsedAt got = None)) "client round-trip mismatch";
  _ ←? missing (os_GetClient "missing") "GetClient(missing) must be ErrNotFound";
  _ ←? must (os_TouchClient id now_) "TouchClient";
  deref (os_GetClient id) (λ got, bool_decide (Client_LastUsedAt got ≠ None)) "TouchClient must set LastUsedAt".

(** The closure [mk]. *)
Definition mk (id : string) (created : Time) : M S (result unit) :=
  must (os_CreateClient (mkClient id "" "" ["https://x/cb"] AuthMethodNone [] created None)) "create".

Definition StaleClients : M S (result unit) :=
  name ← uniq "stale"; u ←? mustUser name;
  t ← now; let old := Add t (-48 * Hour) in
  abandoned ← uniq "abandoned"; withGrant ← uniq "withgrant"; fresh ← uniq "fresh";
  _ ←? mk abandoned old;
  _ ←? mk withGrant old;
  t ← now; _ ←? mk fresh t;
  gid ← uuid_NewString; t1 ← now; t2 ← now;
  _ ←? must (os_CreateGrant (mkGrant gid (ID u) withGrant "" "https://r.example" "" "" "" (Add t1 Hour) t2 None)) "CreateGrant";
  t ← now;
  n ←? must (os_DeleteStaleClients (Add t (-24 * Hour))) "DeleteStaleClients";
  _ ←? check (negb (n <? 1)) "expected the abandoned client to be purged";
  _ ←? missing (os_GetClient abandoned) "abandoned client must be purged";
  _ ←? must (os_GetClient withGrant) "a client holding grants must be kept";
  _ ←? must (os_GetClient fresh) "a recent client must be kept";
  mret (Ok tt).

Definition Codes : M S (result unit) :=
  name ← uniq "coder"; u ←? mustUser name;
  hash ← uniq "hash"; t ← now;
  let c := mkCode hash "https://client.example/meta.json" (ID u) "http://127.0.0.1:5555/cb" "a b"
    "https://r.example/mcp" "challenge" (Add t Minute) None "" in
  _ ←? must (os_CreateCode c) "CreateCode";
  got ←? must (os_GetCode hash) "GetCode mismatch";
  _ ←? check (String.eqb (Code_UserID got) (ID u) && String.eqb (Code_Scopes got) "a b"
      && bool_decide (UsedAt got = None) && String.eqb (Code_ClientID got) (Code_ClientID c)) "GetCode mismatch";
  t ← now;
  won ←? must (os_MarkCodeUsed hash "grant-1" t) "first MarkCodeUsed must win";
  _ ←? check won "first MarkCodeUsed must win";
  t ← now;
  _ ←? loses (os_MarkCodeUsed hash "grant-2" t) "second MarkCodeUsed must lose (single use)";
  _ ←? deref (os_GetCode hash) (λ got, bool_decide (UsedAt got ≠ None) && String.eqb (Code_GrantID got) "grant-1")
    "used code must record UsedAt and the first grant";
  _ ←? missing (os_GetCode "missing") "GetCode(missing) must be ErrNotFound";
  old ← uniq "old"; t ← now;
  _ ←? ignored (os_CreateCode (mkCode old "c" (ID u) "https://x/cb" "" "" "x" (Add t (-1 * Minute)) None ""));
  t ← now;
  n ←? must (os_DeleteExpiredCodes t) "DeleteExpiredCodes";
  _ ←? check (negb (n <? 1)) "DeleteExpiredCodes";
  _ ←? missing (os_GetCode old) "expired code must be purged";
  _ ←? must (os_GetCode hash) "unexpired code must survive the purge";
  mret (Ok tt).

Definition Consents : M S (result unit) :=
  name ← uniq "consenter"; u ←? mustUser name;
  _ ←? missing (os_GetConsent (ID u) "client") "missing consent must be ErrNotFound";
  t ← now;
  _ ←? must (os_SaveConsent (mkConsent (ID u) "client" "a" t t)) "SaveConsent";
  _ ←? must (os_SaveConsent (mkConsent (ID u) "client" "a b" t t)) "SaveConsent (upsert)";
  got ←? must (os_GetConsent (ID u) "client") "upserted consent mismatch";
  _ ←? check (String.eqb (Consent_Scopes got) "a b") "upserted consent mismatch";
  _ ←? must (os_DeleteConsent (ID u) "client") "DeleteConsent";
  missing (os_GetConsent (ID u) "client") "consent must be deleted".

Definition Grants : M S (result unit) :=
  name ← uniq "granter"; u ←? mustUser name;
  gid ← uuid_NewString; t1 ← now; t2 ← now;
  let g := mkGrant gid (ID u) "client-a" "a" "https://r.example/mcp" "h1" "" "s" (Add t1 Hour) t2 None in
  _ ←? must (os_CreateGrant g) "CreateGrant";
  got ←? must (os_GetGrant gid) "GetGrant mismatch";
  _ ←? check (String.eqb (Grant_TokenHash got) "h1" && String.eqb (Grant_Resource got) (Grant_Resource g)
      && String.eqb (Grant_SecurityStamp got) "s") "GetGrant mismatch";
  t1 ← now; t2 ← now;
  ok ←? must (os_RotateGrant gid "h1" "h2" (Add t1 (2 * Hour)) t2) "RotateGrant with the current hash must succeed";
  _ ←? check ok "RotateGrant with the current hash must succeed";
  _ ←? deref (os_GetGrant gid) (λ got, String.eqb (Grant_TokenHash got) "h2" && String.eqb (PrevTokenHash got) "h1"
      && bool_decide (Grant_LastUsedAt got ≠ None)) "rotation must move h1 to prev and set last-used";
  t1 ← now; t2 ← now;
  _ ←? loses (os_RotateGrant gid "h1" "h3" t1 t2) "RotateGrant with a stale hash must fail (compare-and-swap)";
  gid2 ← uuid_NewString; t1 ← now; t2 ← now;
  _ ←? ignored (os_CreateGrant (mkGrant gid2 (ID u) "client-b" "" "https://r" "" "" "" (Add t1 (-1 * Minute)) t2 None));
  list ←? must (os_ListUserGrants (ID u)) "ListUserGrants";
  _ ←? check (Z.of_nat (length list) =? 2) "ListUserGrants";
  t ← now;
  n ←? must (os_DeleteExpiredGrants t) "DeleteExpiredGrants";
  _ ←? check (negb (n <? 1)) "DeleteExpiredGrants";
  _ ←? missing (os_GetGrant gid2) "expired grant must be purged";
  n ←? must (os_DeleteUserClientGrants (ID u) "client-a") "DeleteUserClientGrants";
  _ ←? check (n =? 1) "DeleteUserClientGrants";
  _ ←? missing (os_GetGrant gid) "client grants must be deleted";
  must (os_DeleteGrant "missing") "deleting a missing grant must be a no-op".

(** Eight goroutines, each with one call of the store; calls are atomic, so that a schedule
    is their order, and they are alike. *)
Fixpoint race (n : nat) (client jti : string) (exp : Time) (wins : Z) : M S Z :=
  match n with
  | O => mret wins
  | Datatypes.S n =>
    r ← os_UseClientAssertion client jti exp;
    race n client jti exp (match r with Ok true => wins + 1 | _ => wins end)
  end.

Definition ClientAssertions : M S (result unit) :=
  t ← now; let now_ := to_second t in let exp := Add now_ Minute in
  c ← uniq "c"; o ← uniq "o"; jti ← uniq "jti";
  let client := "https://" +:+ c +:+ ".example/client.json" in
  let other := "https://" +:+ o +:+ ".example/client.json" in
  ok ←? must (os_UseClientAssertion client jti exp) "first use must be accepted";
  _ ←? check ok "first use must be accepted";
  ok ←? must (os_UseClientAssertion client jti exp) "a replayed (client, jti) must be refused";
  _ ←? check (negb ok) "a replayed (client, jti) must be refused";
  ok ←? must (os_UseClientAssertion other jti exp) "the same jti from another client is distinct";
  _ ←? check ok "the same jti from another client is distinct";
  raced ← uniq "race";
  wins ← race 8 client raced exp 0;
  _ ←? check (wins =? 1) "concurrent uses of one assertion";
  old ← uniq "old";
  ok ←? must (os_UseClientAssertion client old (Add now_ (-1 * Minute))) "record expiring assertion";
  _ ←? check ok "record expiring assertion";
  n ←? must (os_DeleteExpiredClientAssertions now_) "DeleteExpiredClientAssertions";
  _ ←? check (negb (n <? 1)) "DeleteExpiredClientAssertions";
  ok ←? must (os_UseClientAssertion client jti exp) "purging expired ids must keep live ones";
  check (negb ok) "purging expired ids must keep live ones".

Definition CascadeOnUserDelete : M S (result unit) :=
  name ← uniq "leaver"; u ←? mustUser name;
  gid ← uuid_NewString; t1 ← now; t2 ← now;
  _ ←? ignored (os_CreateGrant (mkGrant gid (ID u) "c" "" "https://r" "" "" "" (Add t1 Hour) t2 None));
  t1 ← now; t2 ← now;
  _ ←? ignored (os_SaveConsent (mkConsent (ID u) "c" "a" t1 t2));
  code ← uniq "cascade"; t ← now;
  _ ←? ignored (os_CreateCode (mkCode code "c" (ID u) "https://x/cb" "" "" "x" (Add t Minute) None ""));
  _ ←? must (UserManager.Delete u) "delete user";
  _ ←? missing (os_GetGrant gid) "grants must cascade with the user";
  _ ←? missing (os_GetConsent (ID u) "c") "consents must cascade with the user";
  missing (os_GetCode code) "codes must cascade with the user".

Definition RunStoreConformance : list (string * M S (result unit)) :=
  [("Clients", Clients); ("StaleClients", StaleClients); ("Codes", Codes); ("Consents", Consents);
   ("Grants", Grants); ("ClientAssertions", ClientAssertions); ("CascadeOnUserDelete", CascadeOnUserDelete)].
End suite.

(** ** Stores that implement the abstract one

    Times may be rounded by less than a microsecond, as a database does. *)

Section rounding.
Context (ρ : Time → Time).

Definition round_client (c : Client) : Client :=
  mkClient (Client_ID c) (SecretHash c) (Client_Name c) (RedirectURIs c) (TokenEndpointAuthMethod c)
    (GrantTypes c) (ρ (Client_CreatedAt c)) (ρ <$> Client_LastUsedAt c).
Definition round_code (c : Code) : Code :=
  mkCode (CodeHash c) (Code_ClientID c) (Code_UserID c) (Code_RedirectURI c) (Code_Scopes c)
    (Code_Resource c) (CodeChallenge c) (ρ (Code_ExpiresAt c)) (ρ <$> UsedAt c) (Code_GrantID c).
Definition round_consent (x : Consent) : Consent :=
  mkConsent (Consent_UserID x) (Consent_ClientID x) (Consent_Scopes x) (ρ (Consent_CreatedAt x)) (ρ (Consent_UpdatedAt x)).
Definition round_grant (g : Grant) : Grant :=
  mkGrant (Grant_ID g) (Grant_UserID g) (Grant_ClientID g) (Grant_Scopes g) (Grant_Resource g) (Grant_TokenHash g)
    (PrevTokenHash g) (Grant_SecurityStamp g) (ρ (Grant_ExpiresAt g)) (ρ (Grant_CreatedAt g)) (ρ <$> Grant_LastUsedAt g).

Definition round_call (c : ocall) : ocall :=
  match c with
  | CCreateClient x => CCreateClient (round_client x)
  | CTouchClient id t => CTouchClient id (ρ t)
  | CDeleteStaleClients t => CDeleteStaleClients (ρ t)
  | CCreateCode x => CCreateCode (round_code x)
  | CMarkCodeUsed h g t => CMarkCodeUsed h g (ρ t)
  | CDeleteExpiredCodes t => CDeleteExpiredCodes (ρ t)
  | CSaveConsent x => CSaveConsent (round_consent x)
  | CCreateGrant x => CCreateGrant (round_grant x)
  | CRotateGrant id o n e t => CRotateGrant id o n (ρ e) (ρ t)
  | CDeleteExpiredGrants t => CDeleteExpiredGrants (ρ t)
  | CUseClientAssertion c j e => CUseClientAssertion c j (ρ e)
  | CDeleteExpiredClientAssertions t => CDeleteExpiredClientAssertions (ρ t)
  | _ => c
  end.
End rounding.

Definition empty_state : ostate := mkOState (mkRows ∅ ∅ ∅ ∅) ∅.

(** What a deleted user leaves. *)
Definition owithout (id : string) (O : ostate) : ostate :=
  let R := os_rows O in
  mkOState (mkRows (r_clients R) (filter (λ kv, Code_UserID kv.2 ≠ id) (r_codes R))
      (filter (λ kv, Grant_UserID kv.2 ≠ id) (r_grants R)) (r_jtis R))
    (filter (λ kv, Consent_UserID kv.2 ≠ id) (os_consents O)).

Section conform.
Context `{Oracle} `{UnicodeDB} `{PBKDF2} {S : Type} `{UserStore S}.
Context (st : OAuthStore S) (um : UserManager S) (zone : Duration).
Context (ρ : Time → Time) (Hρ : ∀ t, t - 1000 < ρ t <= t).
Context (R : S → ostate → Prop) (ok : ocall → Prop).

(** The suite's environments: new tables, in which the users of the tests can be created,
    and deleted with what they own. *)
Record environment (Fresh : S → Prop) : Prop := {
  env_fresh s : Fresh s → R s empty_state;
  env_user prefix t w : prefix ∈ ["stale"; "coder"; "consenter"; "granter"; "leaver"] → Fresh (w_store w) →
    wp (mustUser um (prefix +:+ "_" +:+ time_of_day t)) (λ r w', ∃ u, r = Ok u ∧ plain (ID u) ∧ R (w_store w') empty_state) w;
  env_delete u O w : R (w_store w) O →
    wp (UserManager.Delete u) (λ r w', r = Ok tt ∧ R (w_store w') (owithout (ID u) O)) w;
}.

Context (Himp : implements ostep (λ _, False) R (round_call ρ) ok (os_call st)) (Hok : ∀ c, plain_call c → clean_call c → ok c).
Context (Hsteps : ∀ c w, wp (os_call st c) (λ _ w', (w_step w <= w_step w')%nat) w).

(** The store shows [O], at step [k] or later. *)
Definition at_ (k : nat) (w : World S) (O : ostate) : Prop := R (w_store w) O ∧ (k <= w_step w)%nat.

Lemma call_wp {A} (m : M S (result A)) f c k O w (Q : result A → World S → Prop) :
  os_call st c = (r ← m; mret (answer f r)) → plain_call c → clean_call c → at_ k w O →
  (∀ r w' O', ostep (round_call ρ c) O (answer f r) O' → at_ k w' O' → Q r w') → wp m Q w.
Proof.
  intros Hm Hp Hc [HR Hk] HQ. pose proof (wp_and _ _ _ _ (Himp c O w (Hok c Hp Hc) HR) (Hsteps c w)) as Hw.
  rewrite Hm, wp_bind in Hw. eapply wp_mono; [exact Hw|]. intros r w' [(O' & Hstep & HR') Hs]%wp_ret.
  destruct Hstep as [Hstep|[(e & _ & []) _]]. eapply HQ; [exact Hstep|]. split; [done|lia].
Qed.

(** Each method, by what the tables hold under the key it is called with. *)
Implicit Types (Q : World S → Prop).

Ltac calls f c := intros HR; intros; eapply (call_wp _ f c); [reflexivity|done|done|exact HR|];
  intros r w' O' Hstep HR'; cbn [round_call ostep] in Hstep.
Ltac reads f c := calls f c; match goal with Hstep : reads_row _ ?o (answer _ ?r) ∧ _ |- _ =>
  destruct Hstep as [Hr ->]; unfold reads_row in Hr;
  assert (r = match o with Some x => Ok x | None => Err ErrNotFound end) as -> by (by destruct o, r; simplify_eq/=);
  auto end.

Lemma call_GetClient id k O w (Q : result Client → World S → Prop) : at_ k w O →
  (∀ w', at_ k w' O → Q (match r_clients (os_rows O) !! id with Some c => Ok c | None => Err ErrNotFound end) w') →
  wp (os_GetClient id) Q w.
Proof. reads RClient (CGetClient id). Qed.
Lemma call_GetCode h k O w (Q : result Code → World S → Prop) : at_ k w O →
  (∀ w', at_ k w' O → Q (match r_codes (os_rows O) !! h with Some c => Ok c | None => Err ErrNotFound end) w') →
  wp (os_GetCode h) Q w.
Proof. reads RCode (CGetCode h). Qed.
Lemma call_GetGrant id k O w (Q : result Grant → World S → Prop) : at_ k w O →
  (∀ w', at_ k w' O → Q (match r_grants (os_rows O) !! id with Some c => Ok c | None => Err ErrNotFound end) w') →
  wp (os_GetGrant id) Q w.
Proof. reads RGrant (CGetGrant id). Qed.
Lemma call_GetConsent u c k O w (Q : result Consent → World S → Prop) : plain u → at_ k w O →
  (∀ w', at_ k w' O → Q (match os_consents O !! (u, c) with Some c => Ok c | None => Err ErrNotFound end) w') →
  wp (os_GetConsent u c) Q w.
Proof. intros Hu. reads RConsent (CGetConsent u c). Qed.

Ltac creating f c := calls f c; match goal with Hk : _ !! _ = None, Hstep : ∃ m, _ |- _ =>
  destruct Hstep as (m & Hm & ->); unfold creates in Hm; cbn in Hm; rewrite Hk in Hm; destruct Hm as [Hr ->] end;
  match goal with r : result unit |- _ => destruct r as [[]|]; [auto|discriminate] end.

Lemma call_CreateClient x k O w (Q : result unit → World S → Prop) : clean x → at_ k w O →
  r_clients (os_rows O) !! Client_ID x = None →
  (∀ w', at_ k w' (on_rows (set_clients (<[Client_ID x := round_client ρ x]> (r_clients (os_rows O)))) O) → Q (Ok tt) w') →
  wp (os_CreateClient x) Q w.
Proof. intros Hcl. creating (λ _ : unit, RUnit) (CCreateClient x). Qed.
Lemma call_CreateCode x k O w (Q : result unit → World S → Prop) : at_ k w O →
  r_codes (os_rows O) !! CodeHash x = None →
  (∀ w', at_ k w' (on_rows (set_codes (<[CodeHash x := round_code ρ x]> (r_codes (os_rows O)))) O) → Q (Ok tt) w') →
  wp (os_CreateCode x) Q w.
Proof. creating (λ _ : unit, RUnit) (CCreateCode x). Qed.
Lemma call_CreateGrant x k O w (Q : result unit → World S → Prop) : at_ k w O →
  r_grants (os_rows O) !! Grant_ID x = None →
  (∀ w', at_ k w' (on_rows (set_grants (<[Grant_ID x := round_grant ρ x]> (r_grants (os_rows O)))) O) → Q (Ok tt) w') →
  wp (os_CreateGrant x) Q w.
Proof. creating (λ _ : unit, RUnit) (CCreateGrant x). Qed.

Ltac answers_unit f c := calls f c; match goal with Hstep : _ ∧ _, r : result unit |- _ =>
  destruct Hstep as [Hr ->], r as [[]|]; [auto|discriminate] end.
Ltac answers_count f c := calls f c; match goal with Hstep : _ ∧ _, r : result Z |- _ =>
  destruct Hstep as [Hr ->], r as [?|]; [simplify_eq/=; auto|discriminate] end.
Ltac answers_swap f c := calls f c; match goal with Hk : _ !! _ = Some _, Hb : _, Hstep : ∃ m, _, r : result bool |- _ =>
  destruct Hstep as (m & Hm & ->); unfold swaps in Hm; rewrite Hk in Hm;
  first [rewrite bool_decide_eq_true_2 in Hm by exact Hb|rewrite bool_decide_eq_false_2 in Hm by exact Hb];
  destruct Hm as [Hr ->], r as [?|]; [simplify_eq/=; auto|discriminate] end.

Lemma call_TouchClient id t k O w (Q : result unit → World S → Prop) : at_ k w O →
  (∀ w', at_ k w' (on_rows (set_clients (alter (touch_Client (ρ t)) id (r_clients (os_rows O)))) O) → Q (Ok tt) w') →
  wp (os_TouchClient id t) Q w.
Proof. answers_unit (λ _ : unit, RUnit) (CTouchClient id t). Qed.
Lemma call_DeleteStaleClients t k O w (Q : result Z → World S → Prop) : at_ k w O →
  (∀ m w', at_ k w' (on_rows (set_clients m) O) →
    (∀ id c, m !! id = Some c ↔ r_clients (os_rows O) !! id = Some c ∧ ¬ stale_client (ρ t) (os_rows O) c) →
    Q (Ok (removed (r_clients (os_rows O)) m)) w') →
  wp (os_DeleteStaleClients t) Q w.
Proof.
  calls RCount (CDeleteStaleClients t). destruct Hstep as (m & Hr & -> & Hm). destruct r; simplify_eq/=. eauto.
Qed.
Lemma call_MarkCodeUsed h g t c k O w (Q : result bool → World S → Prop) : at_ k w O →
  r_codes (os_rows O) !! h = Some c → UsedAt c = None →
  (∀ w', at_ k w' (on_rows (set_codes (<[h := mark_Code (ρ t) g c]> (r_codes (os_rows O)))) O) → Q (Ok true) w') →
  wp (os_MarkCodeUsed h g t) Q w.
Proof. answers_swap RBool (CMarkCodeUsed h g t). Qed.
Lemma call_MarkCodeUsed_lost h g t c k O w (Q : result bool → World S → Prop) : at_ k w O →
  r_codes (os_rows O) !! h = Some c → UsedAt c ≠ None →
  (∀ w', at_ k w' (on_rows (set_codes (r_codes (os_rows O))) O) → Q (Ok false) w') →
  wp (os_MarkCodeUsed h g t) Q w.
Proof. answers_swap RBool (CMarkCodeUsed h g t). Qed.
Lemma call_RotateGrant id old new e t g k O w (Q : result bool → World S → Prop) : at_ k w O →
  r_grants (os_rows O) !! id = Some g → Grant_TokenHash g = old →
  (∀ w', at_ k w' (on_rows (set_grants (<[id := rotate_Grant old new (ρ e) (ρ t) g]> (r_grants (os_rows O)))) O) →
    Q (Ok true) w') →
  wp (os_RotateGrant id old new e t) Q w.
Proof. answers_swap RBool (CRotateGrant id old new e t). Qed.
Lemma call_RotateGrant_lost id old new e t g k O w (Q : result bool → World S → Prop) : at_ k w O →
  r_grants (os_rows O) !! id = Some g → Grant_TokenHash g ≠ old →
  (∀ w', at_ k w' (on_rows (set_grants (r_grants (os_rows O))) O) → Q (Ok false) w') →
  wp (os_RotateGrant id old new e t) Q w.
Proof. answers_swap RBool (CRotateGrant id old new e t). Qed.
Lemma call_DeleteExpiredCodes t k O w (Q : result Z → World S → Prop) : at_ k w O →
  (∀ w', let m := filter (λ kv, Before (Code_ExpiresAt kv.2) (ρ t) = false) (r_codes (os_rows O)) in
    at_ k w' (on_rows (set_codes m) O) → Q (Ok (removed (r_codes (os_rows O)) m)) w') →
  wp (os_DeleteExpiredCodes t) Q w.
Proof. answers_count RCount (CDeleteExpiredCodes t). Qed.
Lemma call_DeleteExpiredGrants t k O w (Q : result Z → World S → Prop) : at_ k w O →
  (∀ w', let m := filter (λ kv, Before (Grant_ExpiresAt kv.2) (ρ t) = false) (r_grants (os_rows O)) in
    at_ k w' (on_rows (set_grants m) O) → Q (Ok (removed (r_grants (os_rows O)) m)) w') →
  wp (os_DeleteExpiredGrants t) Q w.
Proof. answers_count RCount (CDeleteExpiredGrants t). Qed.
Lemma call_DeleteUserClientGrants u c k O w (Q : result Z → World S → Prop) : at_ k w O →
  (∀ w', let m := filter (λ kv, ¬ (Grant_UserID kv.2 = u ∧ Grant_ClientID kv.2 = c)) (r_grants (os_rows O)) in
    at_ k w' (on_rows (set_grants m) O) → Q (Ok (removed (r_grants (os_rows O)) m)) w') →
  wp (os_DeleteUserClientGrants u c) Q w.
Proof. answers_count RCount (CDeleteUserClientGrants u c). Qed.
Lemma call_DeleteExpiredClientAssertions t k O w (Q : result Z → World S → Prop) : at_ k w O →
  (∀ w', let m := filter (λ kv, Before kv.2 (ρ t) = false) (r_jtis (os_rows O)) in
    at_ k w' (on_rows (set_jtis m) O) → Q (Ok (removed (r_jtis (os_rows O)) m)) w') →
  wp (os_DeleteExpiredClientAssertions t) Q w.
Proof. answers_count RCount (CDeleteExpiredClientAssertions t). Qed.
Lemma call_DeleteGrant id k O w (Q : result unit → World S → Prop) : at_ k w O →
  (∀ w', at_ k w' (on_rows (set_grants (delete id (r_grants (os_rows O)))) O) → Q (Ok tt) w') →
  wp (os_DeleteGrant id) Q w.
Proof. answers_unit (λ _ : unit, RUnit) (CDeleteGrant id). Qed.
Lemma call_DeleteConsent u c k O w (Q : result unit → World S → Prop) : plain u → at_ k w O →
  (∀ w', at_ k w' (set_consents (delete (u, c) (os_consents O)) O) → Q (Ok tt) w') →
  wp (os_DeleteConsent u c) Q w.
Proof. intros Hu. answers_unit (λ _ : unit, RUnit) (CDeleteConsent u c). Qed.
Lemma call_SaveConsent x k O w (Q : result unit → World S → Prop) : plain (Consent_UserID x) → at_ k w O →
  (∀ w', at_ k w' (set_consents (<[(Consent_UserID x, Consent_ClientID x) :=
      match os_consents O !! (Consent_UserID x, Consent_ClientID x) with
      | Some old => set_Consent_CreatedAt (Consent_CreatedAt old) (round_consent ρ x) | None => round_consent ρ x end]>
      (os_consents O)) O) → Q (Ok tt) w') →
  wp (os_SaveConsent x) Q w.
Proof. intros Hu. answers_unit (λ _ : unit, RUnit) (CSaveConsent x). Qed.
Lemma call_ListUserGrants u k O w (Q : result (list Grant) → World S → Prop) : at_ k w O →
  (∀ l w', at_ k w' O → l ≡ₚ (map_to_list (filter (λ kv, Grant_UserID kv.2 = u) (r_grants (os_rows O)))).*2 → Q (Ok l) w') →
  wp (os_ListUserGrants u) Q w.
Proof.
  calls RGrants (CListUserGrants u). destruct Hstep as (-> & l & Hr & Hl). destruct r; simplify_eq/=. eauto.
Qed.
Lemma call_UseClientAssertion c j e k O w (Q : result bool → World S → Prop) : at_ k w O →
  (∀ w', match r_jtis (os_rows O) !! (c, j) with
    | Some _ => at_ k w' O → Q (Ok false) w'
    | None => at_ k w' (on_rows (set_jtis (<[(c, j) := ρ e]> (r_jtis (os_rows O)))) O) → Q (Ok true) w' end) →
  wp (os_UseClientAssertion c j e) Q w.
Proof.
  intros HR HQ. eapply (call_wp _ RBool (CUseClientAssertion c j e)); [reflexivity|done|done|exact HR|].
  intros r w' O' Hstep HR'. cbn in Hstep. specialize (HQ w'). destruct (r_jtis (os_rows O) !! (c, j));
    destruct Hstep as [Hr ->], r; simplify_eq/=; auto.
Qed.
(** *** The tests *)

Definition named (prefix n : string) : Prop := ∃ t, n = prefix +:+ "_" +:+ time_of_day t.

Lemma wp_uniq prefix w (Q : string → World S → Prop) : (∀ n, named prefix n → Q n (tick w)) → wp (uniq zone prefix) Q w.
Proof. intros HQ. unfold uniq. wp_steps. apply HQ. by eexists. Qed.

Ltac tables := cbn [os_rows os_consents on_rows set_consents set_clients set_codes set_grants set_jtis r_clients r_codes
    r_grants r_jtis fmap option_fmap option_map empty_state tick w_store Client_ID CodeHash Grant_ID Consent_UserID Consent_ClientID].
Ltac tables_in HR := unfold on_rows, set_consents, set_clients, set_codes, set_grants, set_jtis, empty_state in HR; cbn [os_rows os_consents on_rows set_consents set_clients set_codes set_grants set_jtis r_clients r_codes
    r_grants r_jtis fmap option_fmap option_map empty_state tick w_store Client_ID CodeHash Grant_ID Consent_UserID Consent_ClientID] in HR.
Ltac steps := unfold must, missing, check, deref, loses, ignored; wp_steps; tables.
Ltac names n Hn := steps; apply wp_uniq; intros n Hn; steps.
(** Names of different prefixes, or none, differ. *)
Ltac differ := let H := fresh in intros H; repeat match goal with Hn : named _ _ |- _ => destruct Hn as [? ->] end;
  lazy -[time_of_day] in H; discriminate H.
Ltac at_key := first [rewrite lookup_insert_eq|rewrite lookup_insert_ne by (first [done|differ|congruence])|rewrite lookup_empty].
Ltac lookups := tables; repeat at_key; first [reflexivity|done].
(** The next call, by [law], in the state the last one left. *)
Lemma at_tick k w O : at_ k w O → at_ k (tick w) O.
Proof. intros [HR Hk]. split; [exact HR|cbn; lia]. Qed.
Lemma at_now k w O : at_ k w O → at_ (Datatypes.S (w_step w)) (tick w) O.
Proof. intros [HR Hk]. split; [exact HR|cbn; lia]. Qed.
Ltac here HR := first [exact HR|apply at_tick; here HR].
Ltac next law HR := steps; eapply law; [try first [here HR|lookups|done]..|clear HR; intros ?; cbv zeta; intros HR; tables_in HR; steps; repeat at_key; steps].

(** The check at hand holds. *)
Ltac passes := match goal with |- context [if ?b then Ok tt else Err _] =>
  assert (b = true) as -> by (cbn; rewrite ?String.eqb_refl; reflexivity) end; steps.

Lemma Clients_pass w : at_ 0 w empty_state → wp (Clients st zone) (λ r _, r = Ok tt) w.
Proof.
  intros HR. unfold Clients. steps. names cid Hcid. next call_CreateClient HR. next call_GetClient HR. passes.
  next call_GetClient HR. passes. next call_TouchClient HR. next call_GetClient HR. rewrite lookup_alter_eq. repeat at_key. steps. passes. done.
Qed.

Lemma user_pass (Fresh : S → Prop) (He : environment Fresh) prefix n w (Q : result User → World S → Prop) :
  prefix ∈ ["stale"; "coder"; "consenter"; "granter"; "leaver"] → named prefix n → Fresh (w_store w) →
  (∀ u w', plain (ID u) → at_ 0 w' empty_state → Q (Ok u) w') → wp (mustUser um n) Q w.
Proof.
  intros Hp [t ->] Hf HQ. eapply wp_mono; [by eapply (env_user Fresh He)|]. intros r w' (u & -> & Hu & HR). apply HQ; [done|]. split; [done|lia].
Qed.
Ltac user u Hu HR := steps; eapply user_pass; [eassumption| |eassumption|eassumption|]; [set_solver|intros u ? Hu HR; steps].

Context (Fresh : S → Prop) (He : environment Fresh).

Lemma Consents_pass w : Fresh (w_store w) → wp (Consents st um zone) (λ r _, r = Ok tt) w.
Proof.
  intros Hw. unfold Consents. names n Hn. user u Hu HR. next call_GetConsent HR. passes.
  next call_SaveConsent HR. next call_SaveConsent HR. next call_GetConsent HR. passes.
  next call_DeleteConsent HR. next call_GetConsent HR. rewrite lookup_delete_eq. steps. passes. done.
Qed.

Context (Hclock : ∀ i j, o_now i < o_now j + 59 * Second) (Hids : ∀ i j, o_uuid i = o_uuid j → i = j).

Lemma earlier a b : a + 1000 <= b → ρ a < ρ b.
Proof. intros. pose proof (Hρ a). pose proof (Hρ b). lia. Qed.
Lemma later a b : b + 1000 <= a → ¬ ρ a < ρ b.
Proof. intros. pose proof (Hρ a). pose proof (Hρ b). lia. Qed.
Lemma past a d t : a + d <= t - 1000 → Before (ρ (Add a d)) (ρ t) = true.
Proof. intros. apply Z.ltb_lt, earlier. unfold Add. lia. Qed.
Lemma ahead a d t : t + 1000 <= a + d → Before (ρ (Add a d)) (ρ t) = false.
Proof. intros. apply Z.ltb_nlt, later. unfold Add. lia. Qed.
Ltac timing law := cbn [fst snd round_code round_grant Code_ExpiresAt Grant_ExpiresAt mark_Code rotate_Grant];
  apply law;
  repeat match goal with |- context [o_now ?i] =>
    match goal with |- context [o_now ?j] => lazymatch goal with _ : o_now i < o_now j + _ |- _ => fail | _ => pose proof (Hclock i j) end end end;
  unfold Add, Hour, Minute, Second in *; lia.

Lemma fewer `{Countable K} {A} (k : K) (x : A) (m m' : gmap K A) : m' ⊆ m → m !! k = Some x → m' !! k = None →
  (removed m m' <? 1) = false.
Proof.
  intros Hs Hx Hn. apply Z.ltb_ge. unfold removed. assert (m' ⊂ m) as Hlt%map_subset_size; [|lia].
  split; [done|]. intros Hm. rewrite map_subseteq_spec in Hm. specialize (Hm k x Hx). congruence.
Qed.
Lemma fewer_filter `{Countable K} {A} (P : K * A → Prop) `{!∀ x, Decision (P x)} (k : K) (x : A) (m : gmap K A) :
  m !! k = Some x → ¬ P (k, x) → (removed m (filter P m) <? 1) = false.
Proof.
  intros Hx Hp. eapply fewer; [apply map_filter_subseteq|exact Hx|]. apply map_lookup_filter_None. right. naive_solver.
Qed.
(** Of two rows the one that fails the test is removed. *)
Lemma purge {A} (p : A → bool) (old k : string) (x y : A) : old ≠ k → p x = true → p y = false →
  let m := <[old := x]> (<[k := y]> ∅) : gmap string A in
  filter (λ kv, p kv.2 = false) m = <[k := y]> ∅ ∧ (removed m (filter (λ kv, p kv.2 = false) m) <? 1) = false.
Proof.
  intros Hk Hx Hy m. unfold m. split.
  - rewrite map_filter_insert_not', map_filter_insert_True, map_filter_empty; [done|done|cbn; congruence|].
    intros z Hz. by rewrite lookup_insert_ne in Hz.
  - eapply fewer_filter; [apply lookup_insert_eq|cbn; congruence].
Qed.

Lemma only `{Countable K} {A} (P : K * A → Prop) `{!∀ x, Decision (P x)} (k : K) (x : A) :
  ¬ P (k, x) → filter P (<[k := x]> (∅ : gmap K A)) = ∅.
Proof.
  intros Hp. apply map_eq. intros i. rewrite lookup_empty, map_lookup_filter_None. right. intros y Hy.
  destruct (decide (i = k)) as [->|Hi]; [rewrite lookup_insert_eq in Hy; by simplify_eq|by rewrite lookup_insert_ne in Hy].
Qed.

Lemma one_removed {A} (k : string) (x : A) : removed (<[k := x]> ∅) (∅ : gmap string A) = 1.
Proof. unfold removed. by rewrite map_size_insert_None. Qed.

Lemma Codes_pass w : Fresh (w_store w) → wp (Codes st um zone) (λ r _, r = Ok tt) w.
Proof.
  intros Hw. unfold Codes. names n Hn. user u Hu HR. names hash Hhash.
  next call_CreateCode HR. next call_GetCode HR. passes. next call_MarkCodeUsed HR. rewrite insert_insert_eq in HR.
  next call_MarkCodeUsed_lost HR. passes. next call_GetCode HR. passes. next call_GetCode HR. passes.
  names old Hold. unfold ignored. steps. next call_CreateCode HR. next call_DeleteExpiredCodes HR.
  edestruct (purge (λ c, Before (Code_ExpiresAt c) (ρ (o_now (w_step w'6)))) old hash) as [Hm Hn1]; [differ| | |].
  3: { rewrite Hm in HR. rewrite Hn1. clear Hm Hn1. passes. next call_GetCode HR. passes. next call_GetCode HR. done. }
  - timing past.
  - timing ahead.
Qed.

Lemma both_listed u g1 g2 (x y : Grant) (l : list Grant) : g2 ≠ g1 → Grant_UserID x = u → Grant_UserID y = u →
  l ≡ₚ (map_to_list (filter (λ kv, Grant_UserID kv.2 = u) (<[g2 := x]> (<[g1 := y]> (∅ : gmap string Grant))))).*2 →
  length l = 2%nat.
Proof.
  intros Hne Hx Hy ->. rewrite length_fmap, length_map_to_list, !map_filter_insert_True, map_filter_empty by done.
  rewrite map_size_insert_None by (by rewrite lookup_insert_ne). by rewrite map_size_insert_None.
Qed.

Lemma Grants_pass w : Fresh (w_store w) → wp (Grants st um zone) (λ r _, r = Ok tt) w.
Proof.
  intros Hw. unfold Grants. names n Hn. user u Hu HR. apply at_now in HR.
  next call_CreateGrant HR. next call_GetGrant HR. passes. next call_RotateGrant HR. rewrite insert_insert_eq in HR.
  next call_GetGrant HR. passes. next call_RotateGrant_lost HR. passes.
  assert (o_uuid (w_step w'4) ≠ o_uuid (w_step w')) as Hne by (intros Heq%Hids; destruct HR; lia).
  set (g2 := o_uuid (w_step w'4)) in *. set (g1 := o_uuid (w_step w')) in *. unfold ignored. steps.
  next call_CreateGrant HR. eapply call_ListUserGrants; [here HR|]. clear HR. intros l ? HR Hl. tables_in HR. tables.
  steps. assert (length l = 2%nat) as -> by (eapply (both_listed (ID u)); [exact Hne|..|exact Hl]; reflexivity). clear Hl. passes.
  next call_DeleteExpiredGrants HR.
  edestruct (purge (λ g, Before (Grant_ExpiresAt g) (ρ (o_now (w_step w'6)))) g2 g1) as [Hm Hn1]; [exact Hne| | |].
  3: { rewrite Hm in HR. rewrite Hn1. clear Hm Hn1. passes. next call_GetGrant HR. passes.
    next call_DeleteUserClientGrants HR. rewrite only in HR |- * by (intros Hno; by apply Hno).
    rewrite one_removed. passes.
    next call_GetGrant HR. passes. next call_DeleteGrant HR. done. }
  - timing past.
  - timing ahead.
Qed.

Lemma swept t Rw m ab wg fr a b c : r_clients Rw = <[fr := c]> (<[wg := b]> (<[ab := a]> ∅)) →
  fr ≠ ab → fr ≠ wg → wg ≠ ab →
  (∀ id x, m !! id = Some x ↔ r_clients Rw !! id = Some x ∧ ¬ stale_client t Rw x) →
  stale_client t Rw a → ¬ stale_client t Rw b → ¬ stale_client t Rw c →
  (removed (r_clients Rw) m <? 1) = false ∧ m !! ab = None ∧ m !! wg = Some b ∧ m !! fr = Some c.
Proof.
  intros HR Hd1 Hd2 Hd3 Hm Ha Hb Hc.
  assert (r_clients Rw !! ab = Some a) as Hab
    by (rewrite HR, !lookup_insert_ne by done; apply lookup_insert_eq).
  assert (m !! ab = None) as Hgone.
  { apply eq_None_not_Some. intros [x [Hx Hs]%Hm]. rewrite Hab in Hx. by simplify_eq. }
  split_and!; [|done|apply Hm|apply Hm].
  - eapply fewer; [|exact Hab|exact Hgone]. apply map_subseteq_spec. intros id x Hx. by apply Hm in Hx as [? _].
  - split; [|done]. rewrite HR, lookup_insert_ne by done. apply lookup_insert_eq.
  - split; [|done]. rewrite HR. apply lookup_insert_eq.
Qed.

Lemma StaleClients_pass w : Fresh (w_store w) → wp (StaleClients st um zone) (λ r _, r = Ok tt) w.
Proof.
  intros Hw. unfold StaleClients, mk. names n Hn. user u Hu HR. names ab Hab. names wg Hwg. names fr Hfr.
  next call_CreateClient HR. next call_CreateClient HR. next call_CreateClient HR. next call_CreateGrant HR.
  steps. eapply call_DeleteStaleClients; [here HR|]. clear HR. intros m ? HR Hm. tables_in HR. tables.
  match type of Hm with ∀ id c, _ ↔ r_clients ?Rw !! _ = _ ∧ ¬ stale_client ?t _ _ =>
    edestruct (swept t Rw m ab wg fr) as (Hn1 & Hgone & Hkept1 & Hkept2);
      [reflexivity|differ|differ|differ|exact Hm|..] end.
  4: { clear Hm. steps. tables_in Hn1. rewrite Hn1. passes.
    next call_GetClient HR. rewrite Hgone. steps. passes.
    next call_GetClient HR. rewrite Hkept1. steps.
    next call_GetClient HR. rewrite Hkept2. by steps. }
  - split_and!; cbn; [timing earlier|done|]. apply map_Forall_insert_2; [cbn; differ|apply map_Forall_empty].
  - intros (_ & _ & Hno). tables_in Hno. by eapply (Hno _ _ (lookup_insert_eq _ _ _)).
  - intros (Hlt & _ & _). revert Hlt. cbn. timing later.
Qed.

(** Once the id is recorded no use wins; otherwise the first one does. *)
Lemma race_lost n c j e wins x k O w (Q : Z → World S → Prop) : at_ k w O → r_jtis (os_rows O) !! (c, j) = Some x →
  (∀ w', at_ k w' O → Q wins w') → wp (race st n c j e wins) Q w.
Proof.
  intros HR Hx HQ. revert w HR. induction n as [|n IH]; intros w HR; cbn [race]; wp_steps; [auto|].
  eapply call_UseClientAssertion; [exact HR|]. intros w'. rewrite Hx. intros HR'. by apply IH.
Qed.
Lemma race_won n c j e wins k O w (Q : Z → World S → Prop) : at_ k w O → r_jtis (os_rows O) !! (c, j) = None →
  (∀ w', at_ k w' (on_rows (set_jtis (<[(c, j) := ρ e]> (r_jtis (os_rows O)))) O) → Q (wins + 1) w') →
  wp (race st (Datatypes.S n) c j e wins) Q w.
Proof.
  intros HR Hx HQ. cbn [race]. wp_steps. eapply call_UseClientAssertion; [exact HR|]. intros w'. rewrite Hx.
  intros HR'. eapply race_lost; [exact HR'| |exact HQ]. cbn. apply lookup_insert_eq.
Qed.

Ltac use HR := steps; eapply call_UseClientAssertion; [here HR|]; clear HR; intros ?; tables; repeat at_key;
  intros HR; tables_in HR; steps; try passes.

Lemma ClientAssertions_pass w : at_ 0 w empty_state → wp (ClientAssertions st zone) (λ r _, r = Ok tt) w.
Proof.
  intros HR. unfold ClientAssertions. names c Hc. names o Ho. names jti Hjti.
  use HR. use HR. use HR. names raced Hrace.
  steps. eapply race_won; [here HR|lookups|]. clear HR. intros ? HR. tables_in HR. passes.
  names old Hold. use HR. next call_DeleteExpiredClientAssertions HR.
  erewrite (fewer_filter _ (_, old)); [|apply lookup_insert_eq|cbn; rewrite past; [done|unfold Minute, Second; lia]].
  passes. steps. eapply call_UseClientAssertion; [here HR|]. clear HR. intros ?. tables.
  erewrite map_lookup_filter_Some_2; [|repeat at_key; reflexivity|cbn; apply ahead; unfold Minute, Second; lia].
  intros HR. steps. done.
Qed.

Lemma CascadeOnUserDelete_pass w : Fresh (w_store w) → wp (CascadeOnUserDelete st um zone) (λ r _, r = Ok tt) w.
Proof.
  intros Hw. unfold CascadeOnUserDelete. names n Hn. user u Hu HR. unfold ignored.
  next call_CreateGrant HR. next call_SaveConsent HR. names code Hcode. unfold ignored. steps. next call_CreateCode HR.
  rewrite lookup_empty in HR. steps. eapply wp_mono; [apply (env_delete Fresh He), HR|]. intros ? w3 [-> HR']. steps.
  assert (at_ 0 w3 empty_state) as HR0.
  { split; [|lia]. revert HR'. unfold owithout. tables. rewrite !only by (intros Hno; by apply Hno). done. }
  clear HR HR'. next call_GetGrant HR0. passes. next call_GetConsent HR0. passes. next call_GetCode HR0. passes. done.
Qed.

(** A store that implements the abstract one passes every test of the suite. *)
Lemma suite_passes name test w : (name, test) ∈ RunStoreConformance st um zone → Fresh (w_store w) →
  wp test (λ r _, r = Ok tt) w.
Proof.
  intros Ht Hw. assert (at_ 0 w empty_state) as HR by (split; [by apply (env_fresh Fresh He)|lia]).
  unfold RunStoreConformance in Ht. rewrite !elem_of_cons, elem_of_nil in Ht.
  destruct_or! Ht; simplify_eq; auto using Clients_pass, StaleClients_pass, Codes_pass, Consents_pass, Grants_pass,
    ClientAssertions_pass, CascadeOnUserDelete_pass.
Qed.
End conform.

(** ** The in-memory store

    A fresh store, and a manager with the default options. *)

Section mem.
Context `{Oracle} `{UnicodeDB} `{PBKDF2} (Hplain : ∀ i, plain (o_uuid i)).

Lemma mem_steps c (w : World Store) : wp (os_call MemOAuth.OAuth c) (λ _ w', (w_step w <= w_step w')%nat) w.
Proof.
  destruct c; cbn; unfold CreateClient, GetClient, TouchClient, DeleteStaleClients, CreateCode, GetCode, MarkCodeUsed,
    DeleteExpiredCodes, GetConsent, SaveConsent, DeleteConsent, CreateGrant, GetGrant, RotateGrant, DeleteGrant,
    DeleteUserClientGrants, ListUserGrants, DeleteExpiredGrants, UseClientAssertion, DeleteExpiredClientAssertions, range_map;
    wp_steps; repeat (first [apply wp_delete_where; cbv zeta|apply wp_sort_Slice; [apply _..|]; intros ? _ _|case_match]; wp_steps);
    cbn; lia.
Qed.

(** The characters of the tests' names are allowed. *)
Definition allowed : bytes := str_bytes (AllowedUserNameCharacters (Opt_User DefaultOptions)).

Lemma allowed_char c : c ∈ allowed → is_ascii c ∧ IsSpace (byte_val c) = false
  ∧ ContainsRune (AllowedUserNameCharacters (Opt_User DefaultOptions)) (byte_val c) = true.
Proof.
  assert (forallb (λ c, bool_decide (byte_val c < 0x80) && negb (IsSpace (byte_val c))
    && ContainsRune (AllowedUserNameCharacters (Opt_User DefaultOptions)) (byte_val c)) allowed = true) as Hall by (vm_compute; reflexivity).
  rewrite forallb_forall in Hall. intros Hc%list_elem_of_In. apply Hall in Hc.
  apply andb_true_iff in Hc as [[Hc%bool_decide_eq_true Hs%negb_true_iff]%andb_true_iff Ha]. done.
Qed.

Lemma drop_spaces_id l : Forall (λ rb, IsSpace rb.1 = false) l → drop_spaces l = l.
Proof. intros Hl. destruct Hl as [|[r b] l Hr]; cbn in *; [done|]. by rewrite Hr. Qed.

Lemma allowed_valid name : name ≠ "" → Forall (.∈ allowed) (str_bytes name) →
  ValidateUserName (Opt_User DefaultOptions) name = Ok tt.
Proof.
  intros Hne Hall. assert (Forall is_ascii (str_bytes name)) as Hascii by (eapply Forall_impl; [exact Hall|]; apply allowed_char).
  assert (TrimSpace name = name) as Ht.
  { unfold TrimSpace. assert (Forall (λ rb, IsSpace rb.1 = false) (chunks (str_bytes name))) as Hs.
    { rewrite chunks_ascii by done. apply Forall_map. eapply Forall_impl; [exact Hall|]. intros c Hc. by apply allowed_char. }
    rewrite (drop_spaces_id _ Hs), drop_spaces_id by by apply Forall_reverse. by rewrite reverse_involutive, chunks_concat, bytes_str_bytes. }
  unfold ValidateUserName. rewrite Ht, (proj2 (String.eqb_neq _ _)) by done.
  case_match; [done|]. rewrite runes_ascii by done.
  assert (forallb (ContainsRune (AllowedUserNameCharacters (Opt_User DefaultOptions))) (byte_val <$> str_bytes name) = true) as ->; [|done].
  apply forallb_forall. intros r (c & -> & Hc)%list_elem_of_In%list_elem_of_fmap. rewrite Forall_forall in Hall.
  by apply allowed_char, Hall.
Qed.

Lemma allowed_bytes s : forallb (λ c, bool_decide (c ∈ allowed)) (str_bytes s) = true → Forall (.∈ allowed) (str_bytes s).
Proof.
  rewrite forallb_forall, Forall_forall. intros Hs c Hc%list_elem_of_In. specialize (Hs c Hc). by apply bool_decide_eq_true in Hs.
Qed.

Lemma digit_allowed c : is_digit_char c = true → c ∈ allowed.
Proof.
  unfold is_digit_char, in_range. intros Hc%bool_decide_eq_true. rewrite <-(to_byte_val c).
  assert (forallb (λ z, bool_decide (to_byte z ∈ allowed)) (seqZ 0x30 10) = true) as Hall by (vm_compute; reflexivity).
  pose proof (range_check _ _ _ Hall (byte_val c) ltac:(lia)) as Hb. by apply bool_decide_eq_true in Hb.
Qed.

Lemma pad_allowed w v : 0 <= w <= 1000000 → 0 <= v → Forall (.∈ allowed) (str_bytes (pad_zero w v)).
Proof.
  intros Hw Hv. unfold pad_zero. rewrite (proj2 (Z.ltb_ge 1000000 _)), (proj2 (Z.ltb_ge w 0)) by lia.
  rewrite str_bytes_app, str_bytes_str. apply Forall_app; split; [by apply Forall_replicate, digit_allowed|].
  unfold FormatInt. rewrite (proj2 (Z.ltb_ge v 0)) by lia.
  eapply Forall_impl; [by apply dec_go_digits|]. intros c. apply digit_allowed.
Qed.

Lemma names_allowed prefix t : prefix ∈ ["stale"; "coder"; "consenter"; "granter"; "leaver"] →
  ValidateUserName (Opt_User DefaultOptions) (prefix +:+ "_" +:+ time_of_day t) = Ok tt.
Proof.
  intros Hp. apply allowed_valid.
  { rewrite !elem_of_cons, elem_of_nil in Hp. destruct_or! Hp; by subst. }
  unfold time_of_day. rewrite !str_bytes_app, !Forall_app. split_and!; try (apply pad_allowed; [lia|]; apply Z.mod_pos_bound; unfold Second; lia).
  - rewrite !elem_of_cons, elem_of_nil in Hp. destruct_or! Hp; subst; apply allowed_bytes; vm_compute; reflexivity.
  - apply allowed_bytes. vm_compute. reflexivity.
  - apply allowed_bytes. vm_compute. reflexivity.
Qed.

(** In an empty store no name or address is taken. *)
Lemma none_found pred (w : World Store) Q : w_store w = New → Q (Err ErrNotFound) (tick w) → wp (findBy pred) Q w.
Proof.
  intros Hw HQ. eapply wp_mono; [apply wp_findBy|]. intros r w' [-> [(k & u & _ & Hk & _)|[-> _]]]; [|done].
  rewrite Hw in Hk. cbn in Hk. by rewrite lookup_empty in Hk.
Qed.

Lemma prepare_empty u (w : World Store) : ID u = "" → ValidateUserName (Opt_User DefaultOptions) (UserName u) = Ok tt →
  w_store w = New →
  wp (prepareForCreate (NewUserManager DefaultOptions) u) (λ ur w', ∃ u', ur = (u', Ok tt) ∧ plain (ID u') ∧ w_store w' = New) w.
Proof.
  intros Hid Hv Hw. unfold prepareForCreate. cbn [NewUserManager Mgr_Options]. rewrite Hv, Hid, String.eqb_refl.
  unfold newStamp. wp_steps. apply none_found; [done|].
  change (lookup_clash (Err ErrNotFound) (λ _ : User, true) ErrDuplicateUserName) with (None : option error). cbv iota.
  case_match; [|wp_steps; eexists; split; [reflexivity|]; split; [apply Hplain|done]].
  wp_steps. apply none_found; [done|].
  change (lookup_clash (Err ErrNotFound) (λ _ : User, true) ErrDuplicateEmail) with (None : option error). cbv iota.
  wp_steps. eexists. split; [reflexivity|]. split; [apply Hplain|done].
Qed.

Lemma mem_environment : environment (NewUserManager DefaultOptions) shows (λ s, s = New).
Proof.
  split.
  - intros s ->. split; [apply New_inv|done|]. intros. cbn. apply lookup_empty.
  - intros prefix t w Hp Hw. pose proof (names_allowed prefix t Hp) as Hv. unfold mustUser, CreateWithPassword.
    cbn [Mgr_Options NewUserManager].
    assert (ValidatePassword (Opt_Password DefaultOptions) "Abcdef1!" = Ok tt) as -> by (vm_compute; reflexivity).
    wp_steps. eapply wp_mono; [by apply prepare_empty|]. intros ? w1 (u & -> & Hu & Hw1).
    change (Mgr_Hasher (NewUserManager DefaultOptions)) with (NewPasswordHasher (S := Store)). cbn [ph_Hash NewPasswordHasher].
    unfold Hash. change (saltLen defaultHasher <? 0) with false. cbv iota. wp_steps. cbn [us_Create Users]. unfold Create.
    generalize (encode_hash defaultHasher (o_read (w_step w1) (Z.to_nat (saltLen defaultHasher))) "Abcdef1!"). intros h.
    wp_steps. eexists. split; [reflexivity|].
    split; [done|]. cbn [w_store set_store tick]. rewrite Hw1. split; [|done|intros; apply lookup_empty].
    destruct New_inv as (?&?&?&?&?). split_and!; [|done..]. by apply (keyed_insert ID _ (set_PasswordHash h u)).
  - intros u O w HR. unfold UserManager.Delete. cbn. unfold MemStore.Delete. wp_steps. apply wp_cascadeDeleteLocked.
    intros w' Hw' _ _. wp_steps. split; [done|]. rewrite Hw'.
    destruct HR as [(?&?&?&?&?&?&?) Hr Hc]. cbn in Hr. split.
    + unfold v_inv, mem_view, mem_inv, oauth_keyed, without_user.
      cbn [users refreshTokens apiKeys oauthClients oauthCodes oauthGrants].
      split_and!; first [by apply keyed_delete|by apply keyed_filter|done|idtac].
      intros i1 i2 k1 k2 [Hk1 _]%map_lookup_filter_Some [Hk2 _]%map_lookup_filter_Some. eauto.
    + cbn. unfold owithout. rewrite <-Hr. cbn. f_equal; apply map_filter_ext; intros i x _; cbn; by rewrite String.eqb_neq.
    + intros u' c Hu'. cbn. rewrite !map_lookup_filter. specialize (Hc u' c Hu'). cbn in Hc. rewrite <-Hc.
      destruct (oauthConsents (w_store w) !! consentKey u' c) as [x|]; cbn; [|done].
      apply option_guard_iff. by rewrite String.eqb_neq.
Qed.

End mem.

Lemma round_call_id c : round_call id c = c.
Proof.
  destruct c as [x| | | |x| | | | |x| |x| | | | | | | |]; try done;
    destruct x; unfold round_call, round_client, round_code, round_consent, round_grant; cbn; by rewrite ?option_fmap_id.
Qed.

Lemma mem_implements_exactly `{Oracle} `{UnicodeDB} : implements ostep (λ _, False) shows (round_call id) plain_call (os_call MemOAuth.OAuth).
Proof. intros c O w. rewrite round_call_id. apply mem_implements. Qed.

(** C38: the in-memory store passes the program's conformance suite for OAuth stores.  Each
    test, run on a new store with a user manager of the default options, ends without
    failing or panicking, provided the ids [uuid] answers are distinct and hold no bar, and
    the clock moves by less than 59 seconds while the suite runs, whatever else it does. *)
Theorem memstore_conforms `{Oracle} `{UnicodeDB} `{PBKDF2} (Hclock : ∀ i j, o_now i < o_now j + 59 * Second) (Hids : ∀ i j, o_uuid i = o_uuid j → i = j)
    (Hbar : ∀ i, plain (o_uuid i)) (zone : Duration) :
  Forall (λ test, ∀ w : World Store, w_store w = New → wp test.2 (λ r _, r = Ok tt) w)
    (RunStoreConformance MemOAuth.OAuth (NewUserManager DefaultOptions) zone).
Proof.
  apply Forall_forall. intros [name test] Ht w Hw.
  apply (suite_passes MemOAuth.OAuth (NewUserManager DefaultOptions) zone id) with (name := name) (R := shows)
    (ok := plain_call) (Fresh := λ s, s = New); auto using mem_implements_exactly, mem_steps, mem_environment.
  intros t. unfold id. lia.
Qed.

(** The ids of the example environment, under a clock that stands still. *)
#[local, refine] Instance still_Oracle : Oracle := {
  o_now _ := 1700000000 * Second; o_read := @o_read ex_Oracle; o_int := @o_int ex_Oracle; o_uuid := @o_uuid ex_Oracle;
  o_order := @o_order ex_Oracle;
}.
Proof. - apply (@o_read_length ex_Oracle). - apply (@o_int_range ex_Oracle). - apply (@o_order_perm ex_Oracle). Defined.

Lemma memstore_conforms_witness :
  Forall (λ test, wp test.2 (λ r _, r = Ok tt) (mkWorld 0 New []))
    (RunStoreConformance MemOAuth.OAuth (NewUserManager DefaultOptions) 0).
Proof.
  refine (Forall_impl _ _ _ (memstore_conforms _ _ _ 0) _).
  - intros i j. cbn. unfold Second. lia.
  - apply ex_uuid_inj.
  - intros i Hbar. change (str_bytes (o_uuid i)) with (str_bytes (bytes_str (replicate (Datatypes.S i) "x"%char))) in Hbar.
    rewrite str_bytes_str in Hbar. by apply elem_of_replicate in Hbar as [? _].
  - intros test Ht. by apply Ht.
Defined.
