(* ===== verification/Examples.v ===== *)
(** * The theorems at concrete inputs

    Every property with hypotheses applied to a store, an account and parameters where
    they hold. *)

From S2P Require Import Prelude GoStrings GoBytes GoCrypto Errors World Entities OAuthTypes Stores.
From S2P Require Import MemStore MemOAuth Hasher Totp Naming StoreLaws MemSpec TokenProvider UserManager.
From S2P Require Import UserManagerFacts AccountTokens TwoFactor TwoFactorFacts Accounts.
From S2P Require Import SignIn Jwt Signer TokenService TokenServiceFacts Roles ApiKeys.
From S2P Require Import ExampleEnv.

Local Open Scope Z_scope.

Definition mgr : UserManager Store := WithTokenProvider (NewUserManager DefaultOptions) (Some (NewDataTokenProvider [] Hour)).
Definition signIn : SignInManager Store := NewSignInManager mgr.
Definition svc : TokenService Store :=
  WithSessionStore (NewTokenService mgr (DefaultTokenOptions (str_bytes "key") "issuer" "audience")) (Some MemOAuth.RefreshTokens).
Definition keysMgr : APIKeyManager Store := NewAPIKeyManager mgr.

Definition hasher_ok : HasherSpec (Mgr_Hasher mgr) := default_HasherSpec.

Lemma password_roundtrip_witness :
  wp (Hash (S := Store) defaultHasher alice "pw") (λ e _, Verify defaultHasher alice e "pw" = (true, false)) w1.
Proof.
  eapply wp_mono; [apply (password_roundtrip defaultHasher defaultHasher alice alice "pw" "pw" w1 defaultHasher_wf)|].
  intros e w' (_ & He & _). exact He.
Defined.

Lemma ChangePassword_spec_witness :
  wp (ChangePassword mgr alice "old" "new") (λ ur w', ur = (alice, Err ErrPasswordMismatch) ∧ same w1 w') w1.
Proof.
  eapply wp_mono; [apply (ChangePassword_spec mgr hasher_ok alice "old" "new" w1 store1_inv)|].
  intros [u' [[]|e]] w' Hr; cbn in Hr; [by destruct Hr|]. destruct Hr as [(_ & -> & -> & ?)|[? _]]; done.
Defined.

Lemma ResetPassword_once_witness :
  wp (ResetPassword mgr alice "token" "new") (λ ur w', is_ok ur.2 = false → same w1 w') w1.
Proof.
  eapply wp_mono; [apply (ResetPassword_once mgr hasher_ok alice "token" "new" w1 store1_inv alice_plain)|].
  intros [u' [[]|e]] w' Hr; [done|]. intros _. exact Hr.
Defined.

Definition some_ops : list account_op :=
  [op_CreateAnonymous; op_Create "bob" "bob@example.org"; op_SetUserName "1" "Bob";
   op_ChangeEmail "1" "bob@example.org" "token"; op_Delete "1"].

Lemma accounts_stay_unique_witness :
  wp (run_ops mgr some_ops) (λ _ w', accounts_ok true (v_users (w_store w'))) w1.
Proof.
  eapply wp_mono.
  - apply (accounts_stay_unique mgr hasher_ok some_ops w1); [done|exact ex_uuid_inj|exact store1_inv| | |].
    + split; [|intros _]; intros i j ui uj Hi Hj; cbn in Hi, Hj; simplify_map_eq; done.
    + intros i _. apply fresh_ids.
    + split; [|by intros; repeat split].
      intros k r Hk. cbn in Hk. apply lookup_singleton_Some in Hk as [<- <-]. by apply (bool_decide_unpack _).
  - by intros _ w' [_ ?].
Defined.

(** The failure that reaches the maximum locks the account and starts the count anew. *)
Definition failing : User := set_AccessFailedCount 4 alice.
Definition w_failing : World Store := set_store (set_users {["1" := failing]} New) w1.

Lemma optimistic_concurrency_witness :
  wp (AccessFailed mgr failing) (λ ur w', ur.2 = Ok tt
    ∧ v_users (w_store w') !! "1" = Some ur.1 ∧ AccessFailedCount ur.1 = 0
    ∧ LockoutEnd ur.1 = Some (o_now 0 + DefaultLockoutDuration (Opt_Lockout DefaultOptions))) w_failing.
Proof.
  eapply wp_mono.
  - apply (optimistic_concurrency mgr rc_AccessFailed failing w_failing).
    unfold w_failing. split_and!; cbn; try apply map_Forall_empty; [by apply map_Forall_singleton|intros; simplify_map_eq|].
    split_and!; apply map_Forall_empty.
  - intros ur w' [(i & _ & -> & Hm) _]. cbn [fst snd]. split; [done|].
    split; [exact (row_set_lookup _ _ _ Hm)|]. by split.
Defined.

Lemma token_roundtrip_witness :
  wp (Generate (NewDataTokenProvider [] Hour) "purpose" alice) (λ token _,
    wp (ValidateWithLifespan (NewDataTokenProvider [] Hour) "purpose" token alice Hour) (λ b _, b = true) w1) w1.
Proof.
  eapply wp_mono.
  - apply (token_roundtrip (NewDataTokenProvider [] Hour) "purpose" alice alice Hour w1 w1); [|done..].
    unfold stamp_ok. vm_compute. split; split; discriminate.
  - intros token w2 Ht. cbn beta in Ht. eapply wp_mono; [exact Ht|]. intros b w' (_ & _ & Hb). apply Hb. vm_compute. discriminate.
Defined.

Lemma token_binding_witness :
  wp (ValidateWithLifespan (NewDataTokenProvider [] Hour) "b" (token_at (NewDataTokenProvider [] Hour) "a" alice 5) alice Hour)
    (λ b w', w_store w' = store1 ∧ (b = true → Sub (o_now 0) (5 * Second) <= Hour)) w1.
Proof.
  eapply wp_mono.
  - apply (token_binding (NewDataTokenProvider [] Hour) "a" "b" alice alice 5 Hour w1);
      [unfold stamp_ok; vm_compute; split; split; discriminate|by apply (bool_decide_unpack _)..].
  - intros b w' [Hs Hb]. split; [exact Hs|]. intros H0. by destruct (Hb H0).
Defined.

Lemma alice_account : account_of signIn w1 "alice" alice.
Proof.
  split; [done|]. split; [by vm_compute|]. intros k r Hk _. cbn in Hk.
  by apply lookup_singleton_Some in Hk as [<- <-].
Qed.

Lemma PasswordSignIn_sound_witness :
  wp (PasswordSignIn signIn "bob" "pw" true) (λ r w', r = (sr_failed, None) ∧ same w1 w') w1.
Proof.
  eapply wp_mono; [apply (PasswordSignIn_sound signIn hasher_ok "bob" "pw" true w1 store1_inv)|].
  intros [res ou] w' [_ Hn]. destruct Hn as (-> & -> & Hs); [|done].
  intros k r Hk Hn. cbn in Hk. apply lookup_singleton_Some in Hk as [<- <-]. revert Hn. vm_compute. discriminate.
Defined.

Lemma lockout_after_max_witness :
  wp (replicate_M 4 (PasswordSignIn signIn "alice" "wrong" true)) (λ rs _, Forall (λ r, r.1 = sr_failed) rs) w1.
Proof.
  eapply wp_mono.
  - apply (lockout_after_max signIn hasher_ok "alice" "wrong" alice w1 store1_inv alice_account);
      [done..|vm_compute; split; [discriminate|reflexivity]|vm_compute; discriminate].
  - intros rs w' [Hr _]. exact Hr.
Defined.

Lemma ListUsers_page_witness :
  wp (MemStore.ListUsers (Clamp (mkListFilter "" 10 0))) (λ r w', w_store w' = store1) w1.
Proof.
  eapply wp_mono; [apply (ListUsers_page (mkListFilter "" 10 0) w1); vm_compute; discriminate|].
  intros r w' [Hs _]. exact Hs.
Defined.

Lemma WithPrefix_default_valid_witness :
  Forall (λ s, isValidIdentifier s = true) (all_names (WithPrefix DefaultTableNames "app_")).
Proof.
  apply (WithPrefix_default_valid "app_"); [repeat constructor|by intros c [= <-]|by vm_compute].
Defined.

Definition key (n : nat) : @RSAPrivateKey ex_JWT := n.
Definition ring : RSAKeyring := NewRSAKeyring "k1" (key 7).
Definition ring_token : Token := set_Header "kid" (JStr "k1") (NewWithClaims "RS256" ∅).

Lemma RSAKeyring_rotation_witness :
  RSAKeyring_Keyfunc (RSAKeyring_Remove (RSAKeyring_Add ring "k2" (key 8) true) "k3") ring_token
    = Ok (inr (inl (RSA_Public (key 7)))).
Proof.
  apply (RSAKeyring_rotation ring ring_token (key 7) [("k2", key 8, true)] ["k3"]);
    [by left|reflexivity|by apply (bool_decide_unpack _)..].
Defined.

Lemma Validate_window_witness :
  ∃ b, Totp.Validate DefaultTOTP "" "000000" 0 = Done b.
Proof.
  destruct (Validate_window DefaultTOTP "" [] "000000" 0) as (b & Hb & _);
    [vm_compute; split; discriminate|vm_compute; discriminate|reflexivity|]. by exists b.
Defined.

Lemma Code_roundtrip_witness :
  ∃ code, Code DefaultTOTP (B32Encode (str_bytes "12345678901234567890")) (59 * Second) = Done (Ok code)
    ∧ Totp.Validate DefaultTOTP (B32Encode (str_bytes "12345678901234567890")) code (61 * Second) = Done true.
Proof.
  destruct (Code_roundtrip DefaultTOTP (str_bytes "12345678901234567890") (59 * Second) (61 * Second))
    as (code & Hc & _ & _ & Hv); [done|done|by apply Z.leb_le; vm_compute|]. exists code. exact (conj Hc Hv).
Defined.

(** A recovery code and an SMS code in alice's slots. *)
Definition code_store (name value : string) : Store := set_tokens {[tokenKey "1" internalProvider name := value]} store1.
Definition code_world (name value : string) : World Store := mkWorld 0 (code_store name value) [].

Lemma code_store_slot name value : slot (code_world name value) alice name = value.
Proof. unfold slot. cbn. by rewrite lookup_singleton_eq. Qed.

Lemma recovery_code_once_witness :
  wp (RedeemRecoveryCode alice "ABCDE-FGHIJ") (λ r w',
    r = Ok true ∧ wp (RedeemRecoveryCode alice "ABCDE-FGHIJ") (λ r w2, r = Ok false) w')
    (code_world recoveryCodesName (hashRefresh (TrimSpace "ABCDE-FGHIJ"))).
Proof.
  eapply wp_mono.
  - apply (recovery_code_once alice "ABCDE-FGHIJ" [hashRefresh (TrimSpace "ABCDE-FGHIJ")]);
      [exact store1_inv|exact alice_plain| |apply NoDup_singleton].
    split; [apply code_store_slot|]. apply Forall_singleton, hashRefresh_good.
  - intros r w' [_ Hr]. destruct (Hr (list_elem_of_here _ _)) as (-> & Hw & _). split; [done|].
    eapply wp_mono; [exact Hw|]. by intros r2 w2 [-> _].
Defined.

Lemma GeneratePhoneToken_arms_witness :
  wp (GeneratePhoneToken alice) (λ r _, ∃ code, r = Ok code ∧ len code = 6) w1.
Proof.
  eapply wp_mono; [apply (GeneratePhoneToken_arms alice w1 store1_inv alice_plain)|].
  intros r w' (code & i & _ & Hr & Hl & _). by exists code.
Defined.

Definition armed : sms_code := mkSms (hashRefresh "123456") 1700000300 0.

Lemma sms_guesses_bounded_witness :
  wp (guess_codes alice phoneTokenName [hashRefresh "000000"; hashRefresh "123456"])
    (λ rs _, length rs = 2%nat ∧ Forall (λ r, is_ok r = true) rs)
    (code_world phoneTokenName (sms_slot (Some armed))).
Proof.
  eapply wp_mono.
  - apply (sms_guesses_bounded alice phoneTokenName armed); [exact store1_inv|exact alice_plain|apply code_store_slot|].
    split; [apply hashRefresh_good|]. split; [|by split]. unfold stamp_ok. vm_compute. split; split; discriminate.
  - intros rs w' (Hl & Hok & _). exact (conj Hl Hok).
Defined.

(** ** Sessions *)

Lemma access_token_lifecycle_witness :
  wp (IssuePair svc alice) (λ r _, ∀ p, r = Ok p → ∃ issued, Pair_ExpiresAt p = issued + 15 * Minute) w1.
Proof.
  eapply wp_mono.
  - apply (access_token_lifecycle svc MemOAuth.RefreshTokens (inl (str_bytes "key")) alice w1 store1_inv);
      [done|apply NewHMACSigner_ok|done|done].
  - intros r w' Hr p Hp. destruct (Hr p Hp) as (issued & He & _). exists issued. exact He.
Defined.

Lemma ValidateAccessToken_sound_witness :
  wp (ValidateAccessToken svc "garbage") (λ r w', is_ok r = false → r = Err ErrInvalidToken) w1.
Proof.
  eapply wp_mono; [apply (ValidateAccessToken_sound svc "garbage" w1 store1_inv)|].
  intros [[u c]|e] w' [_ Hr]; [done|]. intros _. by rewrite Hr.
Defined.

Lemma refresh_rotates_witness :
  wp (Refresh svc alice ("s" +:+ "." +:+ "secret")) (λ r w', is_ok r = false → same w1 w') w1.
Proof.
  eapply wp_mono.
  - apply (refresh_rotates svc MemOAuth.RefreshTokens alice "s" "secret" w1 store1_inv); [done|].
    by apply (bool_decide_unpack _).
  - intros [p|e] w' Hr; [done|]. intros _. exact Hr.
Defined.

Lemma sessions_capped_witness :
  wp (IssuePair svc alice) (λ r w', is_ok r = true → ∃ sid, is_Some (v_sess (w_store w') !! sid)) w1.
Proof.
  eapply wp_mono; [apply (sessions_capped svc MemOAuth.RefreshTokens alice w1 store1_inv); done|].
  intros [p|e] w' Hr; [|done]. intros _. destruct Hr as (i & sid & secret & gone & _ & _ & _ & _ & Hs & _).
  exists sid. rewrite Hs. eauto.
Defined.

Lemma Revoke_all_witness :
  wp (Revoke svc alice) (λ r w', r = Ok tt ∧ wp (Refresh svc alice "s.secret") (λ r2 _, r2 = Err ErrInvalidToken) w') w1.
Proof.
  eapply wp_mono; [apply (Revoke_all svc MemOAuth.RefreshTokens alice w1 store1_inv); [done|apply alice_plain]|].
  intros r w' (-> & _ & Hr). split; [done|]. eapply wp_mono; [apply Hr|]. by intros r2 w2 [-> _].
Defined.

(** ** Roles and API keys *)

Lemma roles_stay_unique_witness :
  wp (run_role_ops NewRoleManager [role_Create (mkRole "" "Admin" "" ""); role_Create (mkRole "" "admin" "" "")])
    (λ _ w', roles_ok (v_roles (w_store w'))) w1.
Proof.
  apply (roles_stay_unique NewRoleManager
    [role_Create (mkRole "" "Admin" "" ""); role_Create (mkRole "" "admin" "" "")] w1).
  split; [apply map_Forall_empty|]. intros i j x y Hi. cbn in Hi. simplify_map_eq.
Defined.

Definition key1 : APIKey := mkAPIKey "k" "1" "ci" "" (sha256Hex "secret") None None None None 0.
Definition key_store : Store := set_apiKeys {["k" := key1]} store1.
Definition key_world : World Store := mkWorld 0 key_store [].

Lemma key_store_inv : v_inv key_store.
Proof.
  split_and!; [by apply map_Forall_singleton|apply map_Forall_empty|by apply map_Forall_singleton| |].
  - intros i1 i2 k1 k2 Hi Hj _. cbn in Hi, Hj.
    apply lookup_singleton_Some in Hi as [<- _], Hj as [<- _]. done.
  - split_and!; apply map_Forall_empty.
Qed.

Lemma VerifyAPIKey_spec_witness :
  wp (VerifyAPIKey keysMgr "other") (λ r w', is_ok r = false → r = Err ErrInvalidAPIKey ∧ same key_world w') key_world.
Proof.
  eapply wp_mono; [apply (VerifyAPIKey_spec keysMgr "other" key_world key_store_inv)|].
  intros [[u k]|e] w' Hr; [done|]. destruct Hr as (-> & Hs & _). done.
Defined.

Lemma RevokeAPIKey_final_witness :
  wp (ApiKeys.RevokeAPIKey "k") (λ r w', r = Ok tt ∧
    (v_inv (w_store w') → wp (VerifyAPIKey keysMgr "secret") (λ r2 _, r2 = Err ErrInvalidAPIKey) w')) key_world.
Proof.
  eapply wp_mono; [apply (RevokeAPIKey_final keysMgr "secret" key1 key_world key_store_inv); [done|reflexivity]|].
  intros r w' (-> & k' & t & Hk' & _ & Hm & Hv). split; [done|]. intros Hi. eapply wp_mono; [apply (Hv w' Hi)|].
  - rewrite (mv_keys _ _ _ _ _ _ Hm). apply lookup_insert_eq.
  - by intros r2 w2 [-> _].
Defined.

Lemma CreateAPIKey_verifies_witness :
  wp (ApiKeys.CreateAPIKey keysMgr alice (mkAPIKeyOptions "ci" None None))
    (λ r w', ∀ secret k, r = Ok (secret, k) → v_keys (w_store w') !! Key_ID k = Some k) w1.
Proof.
  eapply wp_mono; [apply (CreateAPIKey_verifies keysMgr alice (mkAPIKeyOptions "ci" None None) w1 store1_inv)|].
  - intros i _. apply lookup_empty.
  - intros r w' Hr secret k Hk. destruct (Hr secret k Hk) as (-> & _). apply lookup_insert_eq.
Defined.

Lemma Verify_sound_witness :
  ∃ e nr, Verify defaultHasher alice e "pw" = (true, nr)
    ∧ ∃ p i salt subkey, 1 <= i <= maxPBKDF2Iterations ∧ (8 <= length salt)%nat ∧ subkey ≠ []
        ∧ pbkdf2_Key (str_bytes "pw") salt i (length subkey) (newHash p) = subkey.
Proof.
  assert (Verify defaultHasher alice (encode_hash defaultHasher (replicate 16 zero) "pw") "pw" = (true, false)) as Hv
    by (apply Verify_encode_hash; [apply defaultHasher_wf|done]).
  eexists _, _. split; [exact Hv|].
  destruct (Verify_sound defaultHasher alice _ "pw" false Hv) as (p & i & salt & subkey & H1 & H2 & H3 & H4 & _).
  exists p, i, salt, subkey. split_and!; first [done|apply H1].
Defined.
