(* ===== verification/OAuthExamples.v ===== *)
(** * The authorization server's theorems at concrete inputs

    Every property of the authorization server, the middleware and key publication applied
    to a server, a store and requests where its hypotheses hold. *)

From S2P Require Import Prelude GoStrings GoBytes GoCrypto GoNet GoUrl Errors World Entities OAuthTypes Stores.
From S2P Require Import MemStore MemOAuth MemSpec StoreLaws Hasher TokenProvider UserManager Jwt GoHttp.
From S2P Require Import OAuthUtil Signer Jwks TokenService TokenServiceFacts ApiKeys OAuthServer.
From S2P Require Import OAuthServerFacts OAuthLimiter Cimd OAuthRegister OAuthToken OAuthTokenFacts.
From S2P Require Import OAuthProtocol OAuthRegisterFacts OAuthAuthorize OAuthAuthorizeFacts ClientAssertion.
From S2P Require Import OAuthEndpoints AuthHttp AuthHttpFacts AccountTokens SignOut Interleaving OAuthConcurrency.
From S2P Require Import ExampleEnv Examples.

Local Open Scope Z_scope.

Lemma pkce_roundtrip_witness : verifyS256 verifier challenge = true.
Proof. apply (pkce_roundtrip verifier verifier). by vm_compute. Defined.

Lemma registrations_limited_witness :
  let '(l, log) := run_limiter (mkLimiter 1 Minute ∅) "ip" [(0, "ip"); (1, "ip"); (2, "other")] [] in
  ∀ x, between x (x + Minute) log <= 2.
Proof.
  assert (StronglySorted Z.le [0; 1; 2]) as Hs by (repeat constructor; lia).
  pose proof (registrations_limited 1 Minute "ip" [(0, "ip"); (1, "ip"); (2, "other")] 3 ltac:(lia)
    ltac:(by vm_compute) Hs ltac:(intros e He; repeat (apply elem_of_cons in He as [->|He]; [cbn; lia|]); by apply elem_of_nil in He)) as Hl.
  destruct (run_limiter _ _ _ _) as [l log]. exact (proj1 Hl).
Defined.

(** The form of a code exchange and of a refresh. *)
Definition code_form : Values := {["grant_type" := [GrantTypeAuthorizationCode]; "code" := ["c"];
  "redirect_uri" := ["https://app.example.org/cb"]; "code_verifier" := [verifier]]}.
Definition refresh_form : Values := {["refresh_token" := ["g.s"]]}.

(** The code is good: it is exchanged for tokens, once. *)
Example exchange_works :
  match exchangeCode authServer (client_of_row app1) code_form oauth_world with
  | Done (inl _, w') => match exchangeCode authServer (client_of_row app1) code_form w' with Done (inr _, _) => true | _ => false end
  | _ => false
  end = true.
Proof. by vm_compute. Qed.

(** The refresh token is good too. *)
Example refresh_works :
  match refreshGrant authServer (client_of_row app1) refresh_form oauth_world with Done (inl _, w') => true | _ => false end = true.
Proof. by vm_compute. Qed.

Lemma code_exchanged_once_witness :
  wp (exchangeCode authServer (client_of_row app1) code_form) (λ r w',
    refused r ∨ ∃ g, grants_of w' !! Grant_ID g = Some g ∧ Grant_ClientID g = "app") oauth_world.
Proof.
  eapply wp_mono; [apply (code_exchanged_once authServer (client_of_row app1) code_form oauth_world oauth_store_inv);
    intros i _; apply oauth_fresh|].
  intros r w' [[_ Hr]|[(c & _ & _ & Hr & _)|(c & u & i & j & k & hash & refresh & _ & _ & Hw & _)]]; [by left..|right].
  exists (new_grant authServer (client_of_row app1) c u (o_uuid k) hash (o_now i)).
  rewrite (rows_set_rows _ _ _ Hw). split; [apply lookup_insert_eq|reflexivity].
Defined.

Lemma refresh_rotates_grant_witness :
  wp (refreshGrant authServer (client_of_row app1) refresh_form) (λ r w',
    refused r ∨ ∃ gid g, grants_of oauth_world !! gid = Some g ∧ ∃ g', grants_of w' !! gid = Some g' ∧ PrevTokenHash g' = Grant_TokenHash g)
    oauth_world.
Proof.
  eapply wp_mono; [apply (refresh_rotates_grant authServer (client_of_row app1) refresh_form oauth_world oauth_store_inv)|].
  intros r w' [[_ Hr]|[(gid & secret & g & _ & _ & _ & Hr & _)|(gid & secret & g & u & scopes & i & j & new & Hred & Hw & _)]];
    [by left..|right].
  exists gid, g. split; [apply Hred|]. rewrite (rows_set_rows _ _ _ Hw). eexists. split; [apply lookup_insert_eq|reflexivity].
Defined.

Lemma resource_token_lifecycle_witness :
  wp (exchangeCode authServer (client_of_row app1) code_form) (λ r w', ∀ tr, r = inl tr →
    ∃ u g issued, v_users oauth_store !! ID u = Some u ∧ token_lives authServer tr u g issued) oauth_world.
Proof.
  pose proof (resource_token_lifecycle authServer (client_of_row app1) code_form (inl (str_bytes "key")) oauth_world
    oauth_store_inv (λ i _, oauth_fresh i) (NewHMACSigner_ok _) eq_refl) as Hlife. cbv zeta in Hlife.
  eapply wp_mono.
  - exact (proj1 Hlife).
  - intros r w' Hr tr Htr. destruct (Hr tr Htr) as (u & g & issued & g' & Hu & _ & _ & _ & Hl). exists u, g, issued. exact (conj Hu Hl).
Defined.

Lemma ValidateResourceToken_sound_witness :
  wp (ValidateResourceToken authServer "garbage" "https://api.example.org") (λ r w',
    is_ok r = false → r = Err ErrInvalidToken ∧ same oauth_world w') oauth_world.
Proof.
  eapply wp_mono; [apply (ValidateResourceToken_sound authServer "garbage" "https://api.example.org" oauth_world oauth_store_inv)|].
  intros [[u c]|e] w' [Hs Hr]; [discriminate|]. intros _. exact (conj (f_equal Err Hr) Hs).
Defined.

Lemma oauth_pinv : pinv (abs_rows (v_rows oauth_store)).
Proof.
  split; intros h1; intros; cbn in *; match goal with H : _ !! h1 = Some (_, Some _) |- _ =>
    rewrite map_fmap_singleton in H; apply lookup_singleton_Some in H as [_ H]; discriminate H end.
Qed.

Lemma requests_refine_protocol_witness :
  wp (run_requests authServer [req_exchange (client_of_row app1) code_form; req_refresh (client_of_row app1) refresh_form; req_purge])
    (λ _ w', rtc pstep (abs_rows (v_rows oauth_store)) (abs_rows (v_rows (w_store w')))) oauth_world.
Proof.
  eapply wp_mono.
  - apply (requests_refine_protocol authServer ex_uuid_inj
      [req_exchange (client_of_row app1) code_form; req_refresh (client_of_row app1) refresh_form; req_purge]
      oauth_world oauth_store_inv); [|exact oauth_pinv].
    intros i _. split; [apply oauth_fresh|]. intros h c Hc Hu. cbn in Hc. apply lookup_singleton_Some in Hc as [_ <-].
    exfalso. exact (Hu eq_refl).
  - intros r w' [Hr _]. exact Hr.
Defined.

(** ** Registration and authorization *)

Definition app_metadata : ClientMetadata := mkClientMetadata ["https://app.example.org/cb"] AuthMethodNone [] [] "App".

Lemma registered_client_authenticates_witness :
  wp (register app_metadata) (λ r w', ∀ reg, r = inl reg → ∃ row, client_ok row ∧ clients_of w' !! Reg_ClientID reg = Some row) w1.
Proof.
  eapply wp_mono.
  - apply (registered_client_authenticates authServer (authenticateAssertion authServer) app_metadata w1 store1_inv);
      [intros i _; apply lookup_empty|exact ex_uuid_plain].
  - intros [reg|e] w' Hr reg' Hreg; [|discriminate]. injection Hreg as <-.
    destruct Hr as (row & Hok & _ & _ & _ & _ & Hw & _). exists row. split; [exact Hok|].
    rewrite (rows_set_rows _ _ _ Hw). apply lookup_insert_eq.
Defined.

Definition get_request : Request := mkRequest "GET" ∅ "" {["client_id" := ["app"]]} None [] "192.0.2.1:4000" ∅.

Lemma oauth_codes_fresh (w : World Store) : r_codes (v_rows (w_store w)) = ∅ → codes_fresh w.
Proof. intros He i _. rewrite He. apply lookup_empty. Qed.

Lemma AuthorizeHandler_safe_witness :
  wp (AuthorizeHandler authServer get_request) (answered authServer get_request w1) w1.
Proof.
  apply (AuthorizeHandler_safe authServer authServer_ok authServer_words get_request w1 store1_inv).
  - by apply oauth_codes_fresh.
  - intros uid Huid. change (Some "1" = Some uid) in Huid. injection Huid as <-. exact alice_plain.
Defined.

(** A validated request of the app. *)
Definition app_request : authzRequest :=
  mkAuthzRequest ∅ (client_of_row app1) "https://app.example.org/cb" "state" ["read"] "https://api.example.org" challenge.

Lemma app_request_plain : csrf_plain "1" app_request.
Proof. by split_and!; apply (bool_decide_unpack _); vm_compute. Qed.

Lemma csrf_token_bound_witness :
  wp (csrfToken authServer "1" app_request) (λ token _,
    wp (checkCSRF authServer token "1" app_request) (λ b _, b = true) w1) w1.
Proof.
  eapply wp_mono.
  - apply (csrf_token_bound authServer "1" "1" app_request app_request w1 w1); [|exact app_request_plain..].
    unfold stamp_ok. vm_compute. split; split; discriminate.
  - intros token w2 Ht. cbn beta in Ht. eapply wp_mono; [exact Ht|]. intros b w3 (_ & Hb & _).
    apply (Hb eq_refl). vm_compute. split; discriminate.
Defined.

Lemma code_flow_completes_witness :
  wp (issueCode authServer ∅ get_request "1" app_request) (λ resp _, ∃ code,
    resp = redirectTo authServer ∅ get_request app_request [("code", code)]) w1.
Proof.
  eapply wp_mono.
  - apply (code_flow_completes authServer ∅ get_request "1" app_request verifier (inl (str_bytes "key")) w1 store1_inv);
      [by apply oauth_codes_fresh|apply NewHMACSigner_ok|reflexivity|reflexivity|by vm_compute|reflexivity].
  - intros resp w' (code & issued & -> & _). by exists code.
Defined.

(** A form approved under its token leads to a code, and the code to tokens. *)
Definition post_request (token : string) : Request :=
  mkRequest "POST" ∅ "application/x-www-form-urlencoded" ∅
    (Some {["client_id" := ["app"]; "redirect_uri" := ["https://app.example.org/cb"]; "response_type" := ["code"];
      "code_challenge" := [challenge]; "code_challenge_method" := ["S256"]; "state" := ["state"]; "scope" := ["read"];
      "resource" := ["https://api.example.org"]; "decision" := ["approve"]; "csrf_token" := [token]]}) [] "192.0.2.1:4000" ∅.

Example consent_works :
  match (token ← csrfToken authServer "1" app_request; AuthorizeHandler authServer (post_request token)) oauth_world with
  | Done (resp, w') => bool_decide (size (r_codes (v_rows (w_store w'))) = 2%nat)
  | _ => false
  end = true.
Proof. by vm_compute. Qed.

(** ** Assertions, documents and keys *)

Lemma ex_clock i j : (i <= j)%nat → o_now i <= o_now j.
Proof. intros Hij. change ((1700000000 + Z.of_nat i) * Second <= (1700000000 + Z.of_nat j) * Second). unfold Second. lia. Qed.

(** A signed assertion is accepted, once. *)
Example assertion_works :
  match authenticateAssertion keyServer "/oauth/token" assertion_form w1 with
  | Done (inl c, w') => String.eqb (rc_ID c) (rc_ID key_client)
      && match authenticateAssertion keyServer "/oauth/token" assertion_form w' with Done (inr _, _) => true | _ => false end
  | _ => false
  end = true.
Proof. by vm_compute. Qed.

Lemma assertion_used_once_witness :
  wp (authenticateAssertion keyServer "/oauth/token" assertion_form) (λ r w', match r with
    | inl _ => wp (authenticateAssertion keyServer "/oauth/token" assertion_form) (λ r2 _, refused r2) w'
    | inr _ => same w1 w'
    end) w1.
Proof.
  eapply wp_mono; [apply (assertion_used_once keyServer "/oauth/token" assertion_form w1 store1_inv ex_clock)|].
  intros [client|e] w' Hr; [|exact Hr]. destruct Hr as (tok & exp & jti & i & j & _ & _ & Hw & Hsp & Hnext).
  destruct (Hnext w' (rows_set_inv _ _ _ Hw) Hsp) as [_ Hagain].
  eapply wp_mono; [apply Hagain; reflexivity|]. intros r2 w2 [Hr _]. exact Hr.
Defined.

Lemma Fetcher_implements_witness :
  wp (cimd_Resolve (fetcher_client NewCIMDFetcher) "https://app.example.org/client")
    (λ r _, ∀ cl, r = Ok cl → cimd_ok "https://app.example.org/client" cl)
    (mkWorld 0 ((store1, mkCaches ∅ ∅) : FetchStore) []).
Proof.
  eapply wp_mono; [apply (@spec_Resolve _ _ _ _ _ _ _ (Fetcher_implements NewCIMDFetcher))|].
  - split; [exact store1_inv|apply map_Forall_empty].
  - intros r w' [_ Hr]. exact Hr.
Defined.

(** The document is fetched, and a second time it comes from the cache. *)
Example fetch_works :
  match cimd_Resolve (fetcher_client NewCIMDFetcher) "https://app.example.org/client"
          (mkWorld 0 ((store1, mkCaches ∅ ∅) : FetchStore) []) with
  | Done (Ok cl, w') => bool_decide (size (fc_cache (w_store w').2) = 1%nat) && String.eqb (rc_ID cl) "https://app.example.org/client"
  | _ => false
  end = true.
Proof. by vm_compute. Qed.

Lemma cacheTTL_bounds_witness :
  match cacheTTL NewCIMDFetcher "max-age=99999999999999999999" with Some ttl => 0 < ttl | None => False end.
Proof.
  pose proof (cacheTTL_bounds NewCIMDFetcher "max-age=99999999999999999999" ltac:(by vm_compute)) as Hb.
  destruct (cacheTTL _ _) as [ttl|]; [exact (proj1 Hb)|].
  destruct Hb as [Hb|[Hb|Hb]]; [vm_compute in Hb; discriminate Hb..|vm_compute in Hb; by destruct Hb].
Defined.

Lemma published_keys_parse_witness :
  wp (RSAKeyring_JWKS (NewRSAKeyring "k1" (7%nat : @RSAPrivateKey ex_JWT))) (λ set w',
    ∃ ks, usable_keys (raw_of_JWK <$> Keys set) = Some ks ∧ length ks = 1%nat) w1.
Proof.
  destruct (published_keys_parse (NewRSAKeyring "k1" (7%nat : @RSAPrivateKey ex_JWT))
    (NewECDSAKeyring "k2" (7%nat : @ECPrivateKey ex_JWT)) w1) as [Hr _].
  - apply map_Forall_singleton. split; [|by split].
    apply Z.le_trans with (2 ^ 2047 + 0); [|apply Zplus_le_compat_l; by vm_compute]. by rewrite Z.add_0_r.
  - apply map_Forall_singleton. eexists. split; [reflexivity|apply length_put_be].
  - eapply wp_mono; [exact Hr|]. intros set w' (_ & ks & Hk & Hp). exists ks. split; [exact Hk|].
    apply Permutation_length in Hp. rewrite Hp, length_fmap. cbn [rsa_keys NewRSAKeyring]. by rewrite map_to_list_singleton.
Defined.

(** ** Requests *)

Definition bearer_request (token : string) : Request :=
  mkRequest "GET" {["Authorization" := "Bearer " +:+ token]} "" ∅ None [] "192.0.2.1:4000" ∅.

Lemma authenticate_principal_witness :
  wp (authenticate (bearer_request "secret") (Some svc) None (full_config keysMgr authServer "https://api.example.org"))
    (λ op w', v_users (w_store w') = {["1" := alice]} ∧ ∀ p, op = Some p → P_User p = alice) key_world.
Proof.
  eapply wp_mono; [apply (authenticate_principal svc keysMgr authServer "https://api.example.org" (bearer_request "secret")
    None key_world key_store_inv)|].
  intros op w' (Hu & _ & Hp). split; [exact Hu|]. intros p Hop. destruct (Hp p Hop) as (_ & Hin & _).
  cbn in Hin. by apply lookup_singleton_Some in Hin as [_ <-].
Defined.

(** The API key is good. *)
Example api_key_works :
  match authenticate (bearer_request "secret") (Some svc) None (full_config keysMgr authServer "https://api.example.org") key_world with
  | Done (Some p, _) => P_ViaAPIKey p
  | _ => false
  end = true.
Proof. by vm_compute. Qed.

(** The same code exchange as a request to the endpoint. *)
Definition token_request : Request := mkRequest "POST" ∅ "application/x-www-form-urlencoded" ∅
  (Some (<["client_id" := ["app"]]> code_form)) [] "192.0.2.1:4000" ∅.

Lemma TokenHandler_answers_witness :
  wp (TokenHandler authServer (authenticateAssertion authServer) token_request) (λ _ w',
    v_users (w_store w') = {["1" := alice]}) oauth_world.
Proof.
  eapply wp_mono; [apply (TokenHandler_answers authServer token_request oauth_world oauth_store_inv); intros i _; apply oauth_fresh|].
  intros resp w' [Ha _]. exact (proj1 (proj2 Ha)).
Defined.

Example token_endpoint_works :
  match TokenHandler authServer (authenticateAssertion authServer) token_request oauth_world with
  | Done (resp, w') => (resp_Status resp =? StatusOK) && bool_decide (size (r_grants (v_rows (w_store w'))) = 2%nat)
  | _ => false
  end = true.
Proof. by vm_compute. Qed.

(** Reuse detection looks one rotation back: after two refreshes the first secret is refused,
    but presenting it leaves the grant alone. *)
Definition token_form (token : string) : Values := {["refresh_token" := [token]]}.
Example old_secret_keeps_grant :
  match refreshGrant authServer (client_of_row app1) refresh_form oauth_world with
  | Done (inl tr1, w2) =>
    match refreshGrant authServer (client_of_row app1) (token_form (TR_RefreshToken tr1)) w2 with
    | Done (inl _, w3) =>
      match refreshGrant authServer (client_of_row app1) refresh_form w3 with
      | Done (inr _, w4) => bool_decide (size (r_grants (v_rows (w_store w4))) = 1%nat)
      | _ => false
      end
    | _ => false
    end
  | _ => false
  end = true.
Proof. by vm_compute. Qed.

(** A link-local address with a zone is in no blocked prefix; without the zone it is. *)
Example zoned_address_dialed :
  dialControl "[fe80::1%eth0]:443" = Ok tt ∧ is_ok (dialControl "[fe80::1]:443") = false
  ∧ is_ok (validateCIMDURL "https://[fe80::1%25eth0]/client") = true.
Proof. split_and!; by vm_compute. Qed.

(** The grant types a metadata document declares are checked, not kept. *)
Definition code_only : cimdDocument := mkCimdDocument "https://app.example.org/client" "App" ["https://app.example.org/cb"]
  "none" [GrantTypeAuthorizationCode] [] "" "" [] None None.
Example declared_grants_ignored :
  match validateCIMDDocument "https://app.example.org/client" code_only with
  | Ok c => clientAllows c GrantTypeRefreshToken
  | Err _ => false
  end = true.
Proof. by vm_compute. Qed.

(** A refresh for another resource fails with [invalid_target], not [invalid_grant]. *)
Example wrong_resource_error :
  match refreshGrant authServer (client_of_row app1) (<["resource" := ["https://other.example.org"]]> refresh_form) oauth_world with
  | Done (inr e, _) => String.eqb (oe_Code e) "invalid_target"
  | _ => false
  end = true.
Proof. by vm_compute. Qed.

(** ** Signing out *)

Lemma fresh_stamp i : RawURLEncode (o_read i 20) ≠ SecurityStamp alice.
Proof.
  intros Heq%(f_equal str_bytes). unfold RawURLEncode in Heq. rewrite str_bytes_str in Heq.
  apply (f_equal length) in Heq. rewrite length_b64_enc, o_read_length in Heq. discriminate.
Qed.

Lemma credential_change_signs_out_witness :
  wp (run_change mgr cc_UpdateSecurityStamp alice) (λ ur w', ur.2 = Ok tt → v_inv (w_store w') →
    ∀ str, refuses_stamp (ValidateAccessToken svc str) "1" "stamp" w') w1.
Proof.
  eapply wp_mono; [apply (credential_change_signs_out mgr hasher_ok svc authServer cc_UpdateSecurityStamp alice w1
    store1_inv I fresh_stamp)|].
  intros ur w' Hr Hok Hi. destruct (Hr Hok) as [Hu Hall].
  apply (Hall w' Hi). intros v Hv. rewrite Hu in Hv. by injection Hv as <-.
Defined.

(** An access token, before and after the stamp is replaced. *)
Example sign_out_works :
  match IssuePair svc alice w1 with
  | Done (Ok p, w2) =>
    match ValidateAccessToken svc (AccessToken p) w2 with
    | Done (Ok _, w3) =>
      match run_change mgr cc_UpdateSecurityStamp alice w3 with
      | Done ((_, Ok _), w4) =>
        match ValidateAccessToken svc (AccessToken p) w4 with Done (Err _, _) => true | _ => false end
      | _ => false
      end
    | _ => false
    end
  | _ => false
  end = true.
Proof. by vm_compute. Qed.

(** The refresh token of a session outlives the stamp. *)
Example session_survives_stamp :
  match IssuePair svc alice w1 with
  | Done (Ok p, w2) =>
    match run_change mgr cc_UpdateSecurityStamp alice w2 with
    | Done ((u, Ok _), w3) => match Refresh svc u (Pair_RefreshToken p) w3 with Done (Ok _, _) => true | _ => false end
    | _ => false
    end
  | _ => false
  end = true.
Proof. by vm_compute. Qed.

(** ** Races *)

(** Two requests with the same code. *)
Definition two_requests : list (resolvedClient * Values) := [(client_of_row app1, code_form); (client_of_row app1, code_form)].
Definition two_threads : list (prog Store (oresult TokenResponse)) :=
  (λ q, exchange_steps authServer q.1 q.2) <$> two_requests.

Lemma one_request_wins_witness :
  match run_schedule [0; 1; 0; 1; 0; 1; 0; 1; 0; 1; 1; 0; 0]%nat two_threads oauth_world with
  | Some (ts, w') => race_safe tokens_issued ts w'
  | None => False
  end.
Proof.
  assert (match run_schedule [0; 1; 0; 1; 0; 1; 0; 1; 0; 1; 1; 0; 0]%nat two_threads oauth_world with
    Some _ => true | None => false end = true) as Hsome by (vm_compute; reflexivity).
  destruct (run_schedule _ two_threads oauth_world) as [[ts w']|] eqn:Hr; [clear Hsome|discriminate].
  destruct (one_request_wins authServer two_requests oauth_world ts w' oauth_store_inv) as (_ & Hwin & _).
  apply (Hwin "c").
  - intros q Hq. repeat (apply elem_of_cons in Hq as [->|Hq]; [reflexivity|]). apply elem_of_nil in Hq. destruct Hq.
  - eapply run_schedule_steps. exact Hr.
Defined.

(** A code replayed between its marking and the creation of its grant: the replay is
    noticed, but the grant it should end does not exist yet, and is created afterwards. *)
Example replay_race_leaks_grant :
  match run_schedule [0; 0; 0; 0; 0; 0; 1; 1; 1; 0; 0; 0; 0; 0; 0; 0]%nat two_threads oauth_world with
  | Some ([Return (inl _); Return (inr e)], w') =>
    String.eqb (oe_Description e) "authorization code already used"
    && bool_decide (size (r_grants (v_rows (w_store w'))) = 2%nat)
  | _ => false
  end = true.
Proof. by vm_compute. Qed.
