(* ===== verification/SqlExamples.v ===== *)
(** * Witnesses for the SQL stores

    A database that panics on a statement that does not check, and the theorems about the
    SQL stores at concrete inputs. *)

From S2P Require Import Prelude GoStrings Errors World Entities OAuthTypes Stores StoreLaws MemStore MemOAuth.
From S2P Require Import Gorm GormStore GormOAuth.
From S2P Require Import MemSpec Naming Sql GoJson Pgx SqlcGen SqlcStore PgQueries PgStore PgOAuth.
From S2P Require Import SqlSchema SqlTyped PgNaming SqlSem OAuthStoreModel PgOAuthSpec GormSpec OAuthStores SessionStores ExampleEnv.

Local Open Scope Z_scope.

(** ** A database that refuses what does not check *)

Definition ErrIllTyped : error := OtherError "statement does not check".
Definition ErrBusy : error := OtherError "database is busy".

#[local] Instance ex_Scanner : Scanner := {
  ErrNoRows := OtherError "no rows in result set"; errColumns := OtherError "number of field descriptions";
  scan_string v := match v with VText s => Ok s | _ => Err ErrIllTyped end;
  scan_bool v := match v with VBool b => Ok b | _ => Err ErrIllTyped end;
  scan_int v := match v with VInt z => Ok z | _ => Err ErrIllTyped end;
  scan_int32 v := match v with VInt z => Ok z | _ => Err ErrIllTyped end;
  scan_time v := match v with VTime t => Ok (t * 1000) | _ => Err ErrIllTyped end;
  scan_timeptr v := match v with VTime t => Ok (Some (t * 1000)) | VNull => Ok None | _ => Err ErrIllTyped end;
  scan_bytes v := match v with VJson s => Ok s | _ => Err ErrIllTyped end;
}.

#[local] Instance ex_ScannerLaws : ScannerLaws.
Proof. by split. Qed.

Definition ex_value (ty : coltype * bool) : value :=
  if ty.2 then VNull else match ty.1 with
  | TyText => VText "x" | TyBool => VBool true | TyInt | TyBig => VInt 7 | TyTime => VTime 0 | TyJson => VJson "[" end.

Lemma ex_row_ok ts : row_ok ts (ex_value <$> ts).
Proof.
  induction ts as [|[[] []] ts IH]; constructor; try done; first [by right|by left].
Qed.

(** It panics on a statement that does not check; its state counts the calls, every third of which fails. *)
Definition ex_answer {A} (text : string) (args : list arg) (f : list (coltype * bool) → result A) : M nat (result A) :=
  match check_call default_schema text args with
  | Some ts => n ← get; put (Datatypes.S n);; mret (if (n mod 3 =? 2)%nat then Err ErrBusy else f ts)
  | None => panic "the statement does not check"
  end.
Definition ex_db : DBTX nat := {|
  Exec text args := ex_answer text args (λ _, Ok 1);
  Query text args := ex_answer text args (λ ts, Ok ([ex_value <$> ts; ex_value <$> ts], Ok tt));
  QueryRow text args := ex_answer text args (λ ts, Ok (ex_value <$> ts));
|}.
Definition ex_tx : Tx nat := {| tx_DBTX := ex_db; Commit := mret (Ok tt); Rollback := mret (Ok tt) |}.
#[local] Instance ex_Pool : Pool nat := {|
  pool := ex_db;
  SendBatch l := foldr (λ ta k, _ ←? Exec ex_db ta.1 ta.2; k) (mret (Ok tt)) l;
  Begin := mret (Ok ex_tx);
|}.

Lemma ex_answer_typed {A} text args ts (f : list (coltype * bool) → result A) (Q : result A → Prop) w :
  check_call default_schema text args = Some ts → Q (f ts) → Q (Err ErrBusy) →
  wp (ex_answer text args f) (λ r _, Q r) w.
Proof.
  intros Hc Hf HE. unfold ex_answer. rewrite Hc. unfold wp, mbind, M_bind, get, put, mret, M_ret.
  by destruct (w_store w mod 3 =? 2)%nat.
Qed.

Lemma ex_db_typed : typed default_schema (λ e, e = ErrBusy) ex_db.
Proof.
  split; intros; eapply (ex_answer_typed _ _ _ _ (λ r, _)); try done.
  - by intros e [= <-].
  - split; [repeat constructor; apply ex_row_ok|done].
  - apply ex_row_ok.
  - by left.
Qed.

#[local] Instance ex_TypedPool : TypedPool default_schema (λ e, e = ErrBusy).
Proof.
  split; [apply ex_db_typed| |].
  - intros l w Hl. revert w. induction Hl as [|[text args] l Hc Hl IH]; intros w; [by intros e|].
    cbn [foldr SendBatch ex_Pool]. apply wp_bind_ok. eapply wp_mono; [by eapply (typed_Exec _ _ _ ex_db_typed)|]. intros [n|e] w' Hr; [apply IH|].
    intros e' [= <-]. by apply Hr.
  - intros w. cbn. split_and!; [apply ex_db_typed|by intros ??|by intros].
Qed.

Lemma sql_stores_well_typed_witness :
  let run {A} (m : M nat A) (n : nat) := match m (mkWorld 0 n []) with Done (a, w) => Some a | Panic _ => None end in
  let users := PgStore.NewUserStore [] in let oauth := SqlcStore.NewOAuthStore in
  run (@us_GetRoles _ users (mkUser "u" "" "" "" "" false "" "" "" "" false false None false 0 false None 0 0)) 0%nat
    = Some (Ok ["x"; "x"])
  ∧ run (@us_FindByID _ users "u") 2%nat = Some (Err ErrBusy)
  ∧ run (@os_GetClient _ oauth "c") 0%nat = Some (Err errJSON)
  ∧ run (Exec ex_db "SELECT id FROM identity_users WHERE id=$2" [AString "u"]) 0%nat = None
  ∧ users_safe (λ e, e = ErrBusy) users ∧ oauth_safe (λ e, e = ErrBusy) oauth.
Proof.
  split_and!; [vm_compute; reflexivity..| |];
    apply (sql_stores_well_typed (λ e, e = ErrBusy)).
Defined.

(** ** Namings *)

Definition app_layout : list Option := [WithSchema "auth"; WithTablePrefix "App_"].

Lemma names_cannot_inject_witness :
  let n := resolve app_layout in let w := mkWorld 0 0%nat [] in
  valid_naming n
  ∧ deleteUser (buildQueries n) = "DELETE FROM auth.App_identity_users WHERE id=$1"
  ∧ lex (deleteUser (buildQueries n)) = Some [TWord "delete"; TWord "from"; TWord "auth"; TSym ".";
      TWord "app_identity_users"; TWord "where"; TWord "id"; TSym "="; TParam 1]
  ∧ Forall2 (retables n) (statements DefaultNaming) (statements n)
  ∧ wp (Migrate (S := nat) [WithTablePrefix "1"]) (λ r w', w_store w' = w_store w ∧ w_out w' = w_out w
      ∧ ∃ e, r = Err e ∧ ErrorsIs e ErrInvalidIdentifier = true) w.
Proof.
  assert (valid_naming (resolve app_layout)) as Hn by (split; [by right|repeat constructor]).
  split_and!; [exact Hn|vm_compute; reflexivity..| |].
  - exact (proj1 (proj1 (names_cannot_inject (S := nat) app_layout (mkWorld 0 0%nat [])) Hn)).
  - apply (names_cannot_inject [WithTablePrefix "1"] (mkWorld 0 0%nat [])).
    intros [_ Hn']. apply Forall_cons in Hn' as [Hu _]. vm_compute in Hu. discriminate.
Defined.

(** Only [Migrate] validates: a store takes whatever names it is given into its statements. *)
Definition bad_names : TableNames := mkTableNames
  "identity_users; DELETE FROM identity_users --" "identity_roles" "identity_user_roles" "identity_user_claims"
  "identity_role_claims" "identity_user_logins" "identity_user_tokens" "identity_api_keys"
  "identity_refresh_tokens" "identity_oauth_clients" "identity_oauth_codes"
  "identity_oauth_consents" "identity_oauth_grants" "identity_oauth_assertions".

Example unchecked_names :
  isValidIdentifier (Users bad_names) = false
  ∧ lex (userExists (buildQueries (resolve [WithTableNames bad_names]))) = Some [TWord "select"; TWord "exists";
      TSym "("; TWord "select"; TNum 1; TWord "from"; TWord "identity_users"; TSym ";";
      TWord "delete"; TWord "from"; TWord "identity_users"].
Proof. vm_compute. done. Qed.

(** * Witnesses for the refinement of the OAuth stores

    A server that keeps tables as [SqlSem] says, with an authorization code in them. *)

(** ** A server *)

Abbreviation tables := (gmap (string * string) (gmap (list value) row)) (only parsing).

Definition ErrDown : error := OtherError "connection lost".

#[local] Instance value_le_dec : RelDecision value_le.
Proof. intros [] []; cbn; apply _. Defined.
Definition first_le (x y : value * row) : Prop := value_le x.1 y.1.
#[local] Instance first_le_dec : RelDecision first_le.
Proof. intros x y. apply value_le_dec. Defined.
#[local] Instance first_le_total : Total first_le.
Proof. intros [[] ?] [[] ?]; unfold first_le; cbn; try (by left). destruct (Z.le_ge_cases t t0); [by left|by right]. Qed.

Definition tab_change (vs : list value) (st : stmt) : M tables (result Z) :=
  d ← get; match run_change default_schema vs d st with Does (d', n) => put d';; mret (Ok n) | _ => mret (Err ErrDown) end.
Definition tab_query (vs : list value) (st : stmt) : M tables (result (list row * result unit)) :=
  d ← get; mret match run_query default_schema vs d st with
    | Does rows => Ok ((merge_sort first_le rows).*2, Ok tt) | _ => Err ErrDown end.
Definition tab_row (none : error) (vs : list value) (st : stmt) : M tables (result row) :=
  d ← get; mret match run_query default_schema vs d st with
    | Does (r :: _) => Ok r.2 | Does [] => Err none | _ => Err ErrDown end.
(** What is no statement of the model fails. *)
Definition tab_on {A} (st : option stmt) (f : stmt → M tables (result A)) : M tables (result A) :=
  match st with Some st => f st | None => mret (Err ErrDown) end.

Lemma Sorted_first (l : list (value * row)) : Sorted first_le l → Sorted value_le l.*1.
Proof.
  induction 1 as [|x l _ IH Hx]; [constructor|]. constructor; [done|]. by destruct Hx; constructor.
Qed.

#[local] Instance tab_Server : Server tables := {| srv_db := λ d : tables, d; srv_err e := e = ErrDown |}.

Lemma tab_change_executes vs st : executes default_schema (tab_change vs st) st vs.
Proof.
  intros w. unfold tab_change, wp, mbind, M_bind, get, put, mret, M_ret. cbn [srv_db tab_Server].
  destruct (run_change _ _ _ st) as [| |[d n]].
  - by split; [apply calm_refl|].
  - by split; [apply calm_refl|]; split; [eexists|].
  - by split; [split|left].
Qed.
Lemma tab_query_selects vs st : selects default_schema (tab_query vs st) st vs.
Proof.
  intros w rows Hq. cbn [srv_db tab_Server] in Hq. unfold tab_query, wp, mbind, M_bind, get, mret, M_ret.
  rewrite Hq. split; [by apply calm_refl|]. split; [done|]. exists (merge_sort first_le rows).
  split; [apply merge_sort_Permutation|]. split; [done|]. apply Sorted_first, Sorted_merge_sort, _.
Qed.
Lemma tab_row_selects none vs st : selects_row default_schema none (tab_row none vs st) st vs.
Proof.
  intros w rows Hq. cbn [srv_db tab_Server] in Hq. unfold tab_row, wp, mbind, M_bind, get, mret, M_ret.
  rewrite Hq. split; [by apply calm_refl|]. split; [done|]. destruct rows as [|r rows]; [by right|]. by left.
Qed.

Definition tab_db : DBTX tables := {|
  Exec text args := tab_on (parse text) (tab_change (encode <$> args));
  Query text args := tab_on (parse text) (tab_query (encode <$> args));
  QueryRow text args := tab_on (parse text) (tab_row ErrNoRows (encode <$> args));
|}.
#[local] Instance tab_Pool : Pool tables := {|
  pool := tab_db;
  SendBatch l := foldr (λ ta k, _ ←? Exec tab_db ta.1 ta.2; k) (mret (Ok tt)) l;
  Begin := mret (Ok {| tx_DBTX := tab_db; Commit := mret (Ok tt); Rollback := mret (Ok tt) |});
|}.

#[local] Instance tab_SqlServer : SqlServer tables default_schema.
Proof.
  split.
  - by intros e ->.
  - intros text args st Hp. cbn. rewrite Hp. apply tab_change_executes.
  - intros text args st Hp. cbn. rewrite Hp. apply tab_query_selects.
  - intros text args st Hp. cbn. rewrite Hp. apply tab_row_selects.
Defined.

(** The same tables behind GORM, which sends the statements of [GormSpec] and refuses the rest. *)
Definition ErrNoRecord : error := OtherError "record not found".
Definition refused {A} : M tables (result A) := mret (Err ErrDown).

#[local] Instance tab_GormDB : GormDB tables := {|
  db := {|
    g_Create _ _ cs x := r ← tab_on (insert_stmt cs x) (tab_change []); mret (x, r);
    g_CreateAll _ _ cs l := r ← refused; mret (l, r);
    g_Updates _ _ cs x := r ← tab_on (updates_stmt cs x) (tab_change []); mret (x, r);
    g_UpdateColumns cs sets := tab_on (update_stmt cs sets) (tab_change []);
    g_Delete _ _ cs := tab_on (delete_stmt cs) (tab_change []);
    g_Take T _ cs := tab_on (select_stmt T cs) (λ st, returns (tab_row ErrNoRecord [] st) gm_scan);
    g_Find T _ cs := tab_on (select_stmt T cs) (λ st, returns (tab_query [] st) (collect gm_scan));
    g_Count _ := refused;
    g_Pluck _ _ := refused;
    g_RawStrings text args :=
      tab_on (raw_stmt text args) (λ st, returns (tab_query (encode <$> args) st) (collect one_text));
    g_RawCount _ _ := refused;
    g_Exec _ _ := refused;
    g_AutoMigrate _ _ _ := refused;
  |};
  Transaction _ := refused;
  ErrRecordNotFound := ErrNoRecord;
|}.

#[local] Instance tab_GormServer : GormServer tables default_schema.
Proof.
  split.
  - by intros e ->.
  - done.
  - intros T ? cs x st Hst _ w. cbn. rewrite Hst. unfold created. rewrite wp_bind, wp_bind.
    apply tab_change_executes.
  - intros T ? cs x st Hst _ w. cbn. rewrite Hst. unfold created. rewrite wp_bind, wp_bind.
    apply tab_change_executes.
  - intros T ? cs st Hst. cbn. rewrite Hst. apply tab_change_executes.
  - intros cs sets st Hst. cbn. rewrite Hst. apply tab_change_executes.
  - intros T ? cs st Hst. cbn. rewrite Hst. eexists. split; [apply tab_row_selects|by intros Q w].
  - intros T ? cs st Hst. cbn. rewrite Hst. eexists. split; [apply tab_query_selects|by intros Q w].
  - intros text args st Hst. cbn. rewrite Hst. eexists. split; [apply tab_query_selects|by intros Q w].
Defined.

(** ** The tables of an abstract state *)

Definition tables_of (O : ostate) : tables :=
  list_to_map [(clients_t, rows_of key1 client_row (r_clients (os_rows O)));
    (codes_t, rows_of key1 code_row (r_codes (os_rows O))); (consents_t, rows_of key2 consent_row (os_consents O));
    (grants_t, rows_of key1 grant_row (r_grants (os_rows O)));
    (jtis_t, rows_of key2 jti_row (jti_entries (r_jtis (os_rows O))))].

Definition ex_code : Code := mkCode "h" "client" "user" "https://app/cb" "read" "" "chal" 600000000000 None "".
Definition ex_state : ostate := mkOState (mkRows ∅ {["h" := ex_code]} ∅ ∅) ∅.

Lemma ex_state_holds : holds_state (tables_of ex_state) ex_state.
Proof.
  split; try reflexivity; try (by apply map_Forall_empty).
  - split_and!; try (by apply map_Forall_empty). by apply map_Forall_singleton.
  - by apply map_Forall_singleton.
Qed.

(** Two servers exchange the same code, and stale clients are deleted. *)
Definition ex_race : list ocall :=
  [CGetCode "h"; CMarkCodeUsed "h" "grant1" 1500; CMarkCodeUsed "h" "grant2" 2500; CGetCode "h"; CGetCode "i";
   CUseClientAssertion "client" "jti" 9000; CUseClientAssertion "client" "jti" 9000;
   CCreateClient (mkClient "c" "" "app" ["https://app/cb"] "none" ["authorization_code"] 1000 None);
   CDeleteStaleClients 1000; CDeleteStaleClients 2000; CGetClient "c"].

Definition ex_answers : list (result oanswer) :=
  let used := mkCode "h" "client" "user" "https://app/cb" "read" "" "chal" 600000000000 (Some 1000) "grant1" in
  [Ok (RCode ex_code); Ok (RBool true); Ok (RBool false); Ok (RCode used); Err ErrNotFound;
   Ok (RBool true); Ok (RBool false); Ok RUnit; Ok (RCount 0); Ok (RCount 1); Err ErrNotFound].

Definition run_on {S A} (m : M S A) (s : S) : option A :=
  match m (mkWorld 0 s []) with Done (a, _) => Some a | Panic _ => None end.

Lemma ex_race_gorm : Forall gorm_call ex_race.
Proof. repeat constructor; done. Qed.
Lemma ex_race_clean : Forall clean_call ex_race.
Proof. exact (Forall_impl gorm_call clean_call ex_race ex_race_gorm (λ c H, proj1 H)). Qed.

Lemma oauth_stores_refine_witness :
  Forall (λ st, run_on (mapM (os_call st) ex_race) (tables_of ex_state) = Some ex_answers)
    [PgOAuth.NewOAuthStore []; SqlcStore.NewOAuthStore; GormOAuth.NewOAuthStore []]
  ∧ wp (mapM (os_call SqlcStore.NewOAuthStore) ex_race) (λ rs w', ∃ O',
      history ostep (srv_err (S := tables)) ex_state (norm_call <$> ex_race) rs O' ∧ tables_hold (w_store w') O')
      (mkWorld 0 (tables_of ex_state) [])
  ∧ wp (mapM (os_call (GormOAuth.NewOAuthStore [])) ex_race) (λ rs w', ∃ O',
      history ostep (srv_err (S := tables)) ex_state (norm_call <$> ex_race) rs O' ∧ tables_hold (w_store w') O')
      (mkWorld 0 (tables_of ex_state) []).
Proof.
  split_and!; [by repeat constructor; vm_compute| |].
  - refine (proj1 (proj2 (oauth_stores_refine (S := tables) (G := tables) ex_race)) SqlcStore.NewOAuthStore ex_state _ _ _ _).
    + unfold sql_stores. by right; left.
    + exact ex_race_clean.
    + apply ex_state_holds.
  - refine (proj2 (proj2 (oauth_stores_refine (S := tables) (G := tables) ex_race)) ex_state _ _ _).
    + exact ex_race_gorm.
    + apply ex_state_holds.
Defined.

Lemma claims_taken_once_witness :
  length (filter (takes (TheCode "h")) (zip ex_race ex_answers)) = 1%nat
  ∧ wp (mapM (os_call (PgOAuth.NewOAuthStore [])) ex_race) (λ rs _,
      (length (filter (takes (TheCode "h")) (zip ex_race rs)) <= 1)%nat) (mkWorld 0 (tables_of ex_state) [])
  ∧ wp (mapM (os_call (GormOAuth.NewOAuthStore [])) ex_race) (λ rs _,
      (length (filter (takes (TheCode "h")) (zip ex_race rs)) <= 1)%nat) (mkWorld 0 (tables_of ex_state) []).
Proof.
  assert (Forall (λ c, ¬ renews (TheCode "h") c) ex_race) as Hn by (repeat constructor; by intros []).
  split_and!; [vm_compute; reflexivity| |].
  - refine (proj1 (proj2 (claims_taken_once (S := tables) (G := tables) (TheCode "h") ex_race Hn)) (PgOAuth.NewOAuthStore []) ex_state _ _ _ _).
    + unfold sql_stores. by left.
    + exact ex_race_clean.
    + apply ex_state_holds.
  - refine (proj2 (proj2 (claims_taken_once (S := tables) (G := tables) (TheCode "h") ex_race Hn)) ex_state _ _ _).
    + exact ex_race_gorm.
    + apply ex_state_holds.
Defined.

(** ** Sessions *)

Definition ex_session : RefreshToken := mkRefreshToken "s1" "user" "hash1" "phone" 600000000000 1000 None.
Definition ex_sessions : gmap string RefreshToken := {["s1" := ex_session]}.

Lemma ex_sessions_hold : holds_sessions {[sessions_t := rows_of key1 session_row ex_sessions]} ex_sessions.
Proof. split; [apply lookup_singleton_eq|by apply map_Forall_singleton..]. Qed.

(** A session is rotated, a second one is opened, expires and is purged, the first is revoked;
    a hash that is taken is refused. *)
Definition ex_rotated : RefreshToken := mkRefreshToken "s1" "user" "hash2" "phone" 700000000000 1000 (Some 2000).
Definition ex_calls : list scall :=
  [TGet "s1"; TUpdate ex_rotated; TGet "s1"; TCreate (mkRefreshToken "s2" "user" "hash2" "" 5000 2000 None);
   TCreate (mkRefreshToken "s2" "user" "hash3" "" 5000 2000 None); TUpdate (mkRefreshToken "s3" "user" "h" "" 5000 2000 None);
   TDeleteExpired 9000; TListUser "user"; TDeleteUser "user"; TGet "s1"].
Definition ex_session_answers : list (result sanswer) :=
  [Ok (GotSession ex_session); Ok GotUnit; Ok (GotSession ex_rotated); Err ErrDown; Ok GotUnit; Err ErrNotFound;
   Ok (GotCount 1); Ok (GotSessions [ex_rotated]); Ok (GotCount 1); Err ErrNotFound].

Lemma session_stores_refine_witness :
  Forall (λ st, run_on (mapM (ts_call st) ex_calls) {[sessions_t := rows_of key1 session_row ex_sessions]} = Some ex_session_answers)
    [PgOAuth.NewRefreshTokenStore []; SqlcStore.NewRefreshTokenStore; GormOAuth.NewRefreshTokenStore []]
  ∧ wp (mapM (ts_call SqlcStore.NewRefreshTokenStore) ex_calls) (λ rs w', ∃ O',
      history sess_step (srv_err (S := tables)) ex_sessions (norm_scall <$> ex_calls) rs O' ∧ table_holds (w_store w') O')
      (mkWorld 0 ({[sessions_t := rows_of key1 session_row ex_sessions]} : tables) [])
  ∧ wp (mapM (ts_call (GormOAuth.NewRefreshTokenStore [])) ex_calls) (λ rs w', ∃ O',
      history sess_step (srv_err (S := tables)) ex_sessions (norm_scall <$> ex_calls) rs O' ∧ table_holds (w_store w') O')
      (mkWorld 0 ({[sessions_t := rows_of key1 session_row ex_sessions]} : tables) []).
Proof.
  assert (Forall dated ex_calls) as Hd by by repeat constructor.
  split_and!; [by repeat constructor; vm_compute| |].
  - refine (proj1 (proj2 (session_stores_refine (S := tables) (G := tables) ex_calls)) SqlcStore.NewRefreshTokenStore ex_sessions _ _ _ _).
    + unfold sql_session_stores. by right; left.
    + exact Hd.
    + apply ex_sessions_hold.
  - refine (proj2 (proj2 (session_stores_refine (S := tables) (G := tables) ex_calls)) ex_sessions _ _ _).
    + exact Hd.
    + apply ex_sessions_hold.
Defined.
